(** * Scene synchronization core of Tundra (TundraProtocolModule/SyncManager.cpp)

    A shallow embedding of the parts of [SyncManager] that the
    specification speaks about, with the properties proved about them.

    Conventions.
    - C++ integers ([u8], [u32], [entity_id_t], message and packet ids) are
      [Z]; bit tests and masks are written with [Z.land], [Z.lor],
      [Z.shiftl], [Z.shiftr], [Z.testbit].
    - [float] quantities that the code computes with are rationals ([Q]);
      the vector and quaternion types of MathGeoLib, which the code only
      compares and copies, are parameters of the sections that use them.
    - [std::map] is a [gmap]; [operator[]] is a lookup with the
      default-constructed value.
    - A [kNet::NetException] leaving a function is the [Thrown]
      constructor of [Result]; a dereferenced null pointer is [None].
    - A log entry holds the fixed part of the text; the numbers and
      names that the code puts into it are left out.
    - kNet, MathGeoLib, Qt and the scene classes are not part of
      SyncManager.cpp: what the code needs from them is a parameter of
      the section, or a definition marked as modelled from the
      specification. *)

From Stdlib Require Import ZArith QArith Qround Qabs Bool List String Lia.
From stdpp Require Import base option list gmap sorting.

Import ListNotations.
Local Open Scope string_scope.
Local Open Scope list_scope.
Local Open Scope Z_scope.

(* ===================================================================== *)
(** * Shared vocabulary *)
(* ===================================================================== *)

(** TundraMessages.h *)
Definition cLoginMessage : Z := 100.
Definition cLoginReplyMessage : Z := 101.
Definition cClientJoinedMessage : Z := 102.
Definition cClientLeftMessage : Z := 103.
Definition cObserverPositionMessage : Z := 105.
Definition cEditEntityPropertiesMessage : Z := 109.
Definition cCreateEntityMessage : Z := 110.
Definition cCreateComponentsMessage : Z := 111.
Definition cCreateAttributesMessage : Z := 112.
Definition cEditAttributesMessage : Z := 113.
Definition cRemoveAttributesMessage : Z := 114.
Definition cRemoveComponentsMessage : Z := 115.
Definition cRemoveEntityMessage : Z := 116.
Definition cCreateEntityReplyMessage : Z := 117.
Definition cCreateComponentsReplyMessage : Z := 118.
Definition cRigidBodyUpdateMessage : Z := 119.
Definition cEntityActionMessage : Z := 120.
Definition cAssetDiscoveryMessage : Z := 121.
Definition cAssetDeletedMessage : Z := 122.
Definition cRegisterComponentTypeMessage : Z := 123.
Definition cSetEntityParentMessage : Z := 124.

(** [AttributeChange::Type] *)
Inductive AttributeChange : Type :=
| Default | Disconnected | LocalOnly | Replicate.

(** LoggingFunctions.h: the engine only ever appends to the log. *)
Inductive LogLevel : Type := LogWarning | LogError.
Definition LogEntry : Type := (LogLevel * string)%type.

(** What a call can do besides changing the state it is given: return, or
    let a [kNet::NetException] escape.  Both carry the state reached. *)
Inductive Result (A : Type) : Type :=
| Returned (a : A)
| Thrown (a : A).
Arguments Returned {A} a.
Arguments Thrown {A} a.

Definition result_state {A} (r : Result A) : A :=
  match r with Returned a => a | Thrown a => a end.

Definition is_thrown {A} (r : Result A) : bool :=
  match r with Returned _ => false | Thrown _ => true end.

(* ===================================================================== *)
(** * The extrapolation window (constructor, [SetUpdatePeriod],
      [GetClientExtrapolationTime]) *)
(* ===================================================================== *)

Module ExtrapolationTime.

(** The members of [SyncManager] that the three functions touch. *)
Record SyncManager : Type := {
  updatePeriod_ : Q;
  maxLinExtrapTime_ : Q;
  noClientPhysicsHandoff_ : bool;
  priorityUpdatePeriod_ : Q;
}.

Section CommandLine.

  (** [QString::toFloat(&ok)]: [None] is [ok == false]. *)
Variable toFloat : string -> option Q.

  (** The values given to [--clientextrapolationtime], in order
      ([framework_->CommandLineParameters]). *)
Variable extrapTimeParam : list string.

  (** The flag [--noclientphysics]. *)
Variable noclientphysics : bool.

Definition GetClientExtrapolationTime (m : SyncManager) : SyncManager :=
    match extrapTimeParam with
    | [] => m
    | first :: _ =>
        match toFloat first with
        | Some newExtrapTime =>
            if Qle_bool 0 newExtrapTime
            then {| updatePeriod_ := updatePeriod_ m;
                    maxLinExtrapTime_ := (1 + newExtrapTime / 1000 / updatePeriod_ m)%Q;
                    noClientPhysicsHandoff_ := noClientPhysicsHandoff_ m;
                    priorityUpdatePeriod_ := priorityUpdatePeriod_ m |}
            else m
        | None => m
        end
    end.

  (** The member initialisers and the body of the constructor, as far as
      they concern the four members. *)
Definition SyncManager_ctor : SyncManager :=
    GetClientExtrapolationTime
      {| updatePeriod_ := (1 / 20)%Q;
         maxLinExtrapTime_ := 3%Q;
         noClientPhysicsHandoff_ := noclientphysics;
         priorityUpdatePeriod_ := 1%Q |}.

Definition SetUpdatePeriod (period : Q) (m : SyncManager) : SyncManager :=
    let period := if Qlt_le_dec period (1 / 100)%Q then (1 / 100)%Q else period in
    GetClientExtrapolationTime
      {| updatePeriod_ := period;
         maxLinExtrapTime_ := maxLinExtrapTime_ m;
         noClientPhysicsHandoff_ := noClientPhysicsHandoff_ m;
         priorityUpdatePeriod_ := priorityUpdatePeriod_ m |}.

End CommandLine.

(** [SetPriorityUpdatePeriod] *)
Definition SetPriorityUpdatePeriod (period : Q) (m : SyncManager) : SyncManager :=
  {| updatePeriod_ := updatePeriod_ m;
     maxLinExtrapTime_ := maxLinExtrapTime_ m;
     noClientPhysicsHandoff_ := noClientPhysicsHandoff_ m;
     priorityUpdatePeriod_ :=
       if Qlt_le_dec period (updatePeriod_ m) then updatePeriod_ m else period |}.

End ExtrapolationTime.

(* ===================================================================== *)
(** * Dispatch of a received message ([HandleNetworkMessage]) *)
(* ===================================================================== *)

Module Dispatch.

(** The engine as [HandleNetworkMessage] sees it: whatever the handlers
    work on, the log, and whether [user->Disconnect()] was called. *)
Record Engine (S : Type) : Type := {
  state : S;
  log : list LogEntry;
  disconnected : bool;
}.
Arguments state {S} _.
Arguments log {S} _.
Arguments disconnected {S} _.

Section Handlers.

Context {S : Type}.

  (** A handler gets the packet id and the message body. *)
Definition Handler : Type := Z -> list bool -> Engine S -> Result (Engine S).

Record Handlers : Type := {
    HandleObserverPosition : Handler;
    HandleCreateEntity : Handler;
    HandleCreateComponents : Handler;
    HandleCreateAttributes : Handler;
    HandleEditAttributes : Handler;
    HandleRemoveAttributes : Handler;
    HandleRemoveComponents : Handler;
    HandleRemoveEntity : Handler;
    HandleCreateEntityReply : Handler;
    HandleCreateComponentsReply : Handler;
    HandleRigidBodyChanges : Handler;
    HandleEditEntityProperties : Handler;
    HandleSetEntityParent : Handler;
    HandleEntityAction : Handler;
    HandleRegisterComponentType : Handler;
  }.

Variable h : Handlers.

  (** The [switch (messageId)]; it has no [default:] label. *)
Definition dispatch (packetId messageId : Z) (data : list bool)
      (e : Engine S) : Result (Engine S) :=
    if messageId =? cObserverPositionMessage then HandleObserverPosition h packetId data e
    else if messageId =? cCreateEntityMessage then HandleCreateEntity h packetId data e
    else if messageId =? cCreateComponentsMessage then HandleCreateComponents h packetId data e
    else if messageId =? cCreateAttributesMessage then HandleCreateAttributes h packetId data e
    else if messageId =? cEditAttributesMessage then HandleEditAttributes h packetId data e
    else if messageId =? cRemoveAttributesMessage then HandleRemoveAttributes h packetId data e
    else if messageId =? cRemoveComponentsMessage then HandleRemoveComponents h packetId data e
    else if messageId =? cRemoveEntityMessage then HandleRemoveEntity h packetId data e
    else if messageId =? cCreateEntityReplyMessage then HandleCreateEntityReply h packetId data e
    else if messageId =? cCreateComponentsReplyMessage then HandleCreateComponentsReply h packetId data e
    else if messageId =? cRigidBodyUpdateMessage then HandleRigidBodyChanges h packetId data e
    else if messageId =? cEditEntityPropertiesMessage then HandleEditEntityProperties h packetId data e
    else if messageId =? cSetEntityParentMessage then HandleSetEntityParent h packetId data e
    else if messageId =? cEntityActionMessage then HandleEntityAction h packetId data e
    else if messageId =? cRegisterComponentTypeMessage then HandleRegisterComponentType h packetId data e
    else Returned e.

  (** [user] is [false] for a null [UserConnection*]; [sceneExpired] is
      [scene_.expired()]. *)
Definition HandleNetworkMessage (user sceneExpired : bool)
      (packetId messageId : Z) (data : list bool) (e : Engine S) : Engine S :=
    if negb user || sceneExpired then e
    else
      match dispatch packetId messageId data e with
      | Returned e' => e'
      | Thrown e' =>
          {| state := state e';
             log := log e' ++ [(LogError, "Exception while handling scene sync network message")];
             disconnected := true |}
      end.

End Handlers.

(** The message ids that have a [case] label. *)
Definition handledIds : list Z :=
  [cObserverPositionMessage; cCreateEntityMessage; cCreateComponentsMessage;
   cCreateAttributesMessage; cEditAttributesMessage; cRemoveAttributesMessage;
   cRemoveComponentsMessage; cRemoveEntityMessage; cCreateEntityReplyMessage;
   cCreateComponentsReplyMessage; cRigidBodyUpdateMessage;
   cEditEntityPropertiesMessage; cSetEntityParentMessage; cEntityActionMessage;
   cRegisterComponentTypeMessage].

(** Handlers that do nothing, for running the dispatcher on its own. *)
Definition idleHandlers {S} : @Handlers S :=
  let idle : Handler := fun _ _ e => Returned e in
  {| HandleObserverPosition := idle; HandleCreateEntity := idle;
     HandleCreateComponents := idle; HandleCreateAttributes := idle;
     HandleEditAttributes := idle; HandleRemoveAttributes := idle;
     HandleRemoveComponents := idle; HandleRemoveEntity := idle;
     HandleCreateEntityReply := idle; HandleCreateComponentsReply := idle;
     HandleRigidBodyChanges := idle; HandleEditEntityProperties := idle;
     HandleSetEntityParent := idle; HandleEntityAction := idle;
     HandleRegisterComponentType := idle |}.

End Dispatch.

(* ===================================================================== *)
(** * Entity actions ([OnActionTriggered], [HandleEntityAction]) *)
(* ===================================================================== *)

Module EntityActions.

(** Modelled from the spec: the execution types of EntityAction.h, which
    is not among the sources: "an [execType] bitmask with values
    [{Local=1, Server=2, Peers=4}]". *)
Definition Local : Z := 1.
Definition Server : Z := 2.
Definition Peers : Z := 4.

Record MsgEntityAction : Type := {
  entityId : Z;
  executionType : Z;
  name : string;
  parameters : list string;
}.

(** The one member of [SceneSyncState] that the two functions use. *)
Record SceneSyncState : Type := {
  queuedActions : list MsgEntityAction;
}.

(** A [UserConnection]: [properties["authenticated"]] and the [syncState]
    pointer, which is null until [NewUserConnected] has run. *)
Record UserConnection : Type := {
  authenticated : bool;
  syncState : option SceneSyncState;
}.

(** One [entity->Exec(EntityAction::Local, action, params)]. *)
Record Exec : Type := {
  exec_entity : Z;
  exec_action : string;
  exec_params : list string;
}.

Record World : Type := {
  isServer : bool;
  scene : option (gset Z);              (* the registered scene: ids of its entities *)
  users : list UserConnection;          (* owner_->GetServer()->UserConnections() *)
  clientConnection : option (list MsgEntityAction);
                                        (* owner_->GetClient()->GetConnection(), with what was sent on it *)
  executed : list Exec;
  log : list LogEntry;
}.

Definition set_users (us : list UserConnection) (w : World) : World :=
  {| isServer := isServer w; scene := scene w; users := us;
     clientConnection := clientConnection w; executed := executed w; log := log w |}.

Definition do_Exec (id : Z) (action : string) (params : list string) (w : World) : World :=
  {| isServer := isServer w; scene := scene w; users := users w;
     clientConnection := clientConnection w;
     executed := executed w ++ [{| exec_entity := id; exec_action := action; exec_params := params |}];
     log := log w |}.

Definition do_LogWarning (text : string) (w : World) : World :=
  {| isServer := isServer w; scene := scene w; users := users w;
     clientConnection := clientConnection w; executed := executed w;
     log := log w ++ [(LogWarning, text)] |}.

Definition do_Send (msg : MsgEntityAction) (w : World) : World :=
  {| isServer := isServer w; scene := scene w; users := users w;
     clientConnection := option_map (fun q => q ++ [msg]) (clientConnection w);
     executed := executed w; log := log w |}.

Definition with_executionType (t : Z) (msg : MsgEntityAction) : MsgEntityAction :=
  {| entityId := entityId msg; executionType := t; name := name msg; parameters := parameters msg |}.

(** [c->syncState->queuedActions.push_back(msg)]; [None] when [syncState]
    is null. *)
Definition push_back_action (msg : MsgEntityAction) (c : UserConnection) : option UserConnection :=
  match syncState c with
  | None => None
  | Some st =>
      Some {| authenticated := authenticated c;
              syncState := Some {| queuedActions := queuedActions st ++ [msg] |} |}
  end.

(** The [foreach] of [OnActionTriggered]: the authenticated connections. *)
Fixpoint queueToAuthenticated (msg : MsgEntityAction) (us : list UserConnection)
    : option (list UserConnection) :=
  match us with
  | [] => Some []
  | c :: rest =>
      if authenticated c
      then match push_back_action msg c with
           | None => None
           | Some c' => option_map (cons c') (queueToAuthenticated msg rest)
           end
      else option_map (cons c) (queueToAuthenticated msg rest)
  end.

(** The [foreach] of [HandleEntityAction]: every connection whose address
    is not [source].  A connection is identified by its position in the
    list; [i] is the position of the head of [us]. *)
Fixpoint queueToPeers (source : nat) (msg : MsgEntityAction) (i : nat)
    (us : list UserConnection) : option (list UserConnection) :=
  match us with
  | [] => Some []
  | c :: rest =>
      if Nat.eqb i source
      then option_map (cons c) (queueToPeers source msg (S i) rest)
      else match push_back_action msg c with
           | None => None
           | Some c' => option_map (cons c') (queueToPeers source msg (S i) rest)
           end
  end.

(** [SyncManager::OnActionTriggered], for an entity [entity] of the scene. *)
Definition OnActionTriggered (entity : Z) (action : string) (params : list string)
    (type : Z) (w : World) : option World :=
  let w := if isServer w && negb (Z.land type Server =? 0)
           then do_Exec entity action params w else w in
  let msg := {| entityId := entity; executionType := 0; name := action; parameters := params |} in
  let w := if negb (isServer w)
              && (negb (Z.land type Server =? 0) || negb (Z.land type Peers =? 0))
              && bool_decide (is_Some (clientConnection w))
           then do_Send (with_executionType (Z.land (Z.land type (Z.lnot Local)) 255) msg) w
           else w in
  if isServer w && negb (Z.land type Peers =? 0)
  then option_map (fun us => set_users us w)
         (queueToAuthenticated (with_executionType Local msg) (users w))
  else Some w.

(** [SyncManager::HandleEntityAction]; [source] is the position of the
    sending connection in [UserConnections()]. *)
Definition HandleEntityAction (source : nat) (msg : MsgEntityAction) (w : World)
    : option World :=
  match scene w with
  | None => Some (do_LogWarning "Ignoring received MsgEntityAction as no scene exists" w)
  | Some entities =>
      if negb (bool_decide (entityId msg ∈ entities))
      then Some (do_LogWarning "Entity not found for EntityAction message" w)
      else
        let type := executionType msg in
        let local := negb (Z.land type Local =? 0)
                     || (isServer w && negb (Z.land type Server =? 0)) in
        let w1 := if local then do_Exec (entityId msg) (name msg) (parameters msg) w else w in
        if isServer w && negb (Z.land type Peers =? 0)
        then option_map (fun us => set_users us w1)
               (queueToPeers source (with_executionType Local msg) 0 (users w))
        else if local then Some w1
        else Some (do_LogWarning "Received MsgEntityAction message, but it went unhandled because of its type" w1)
  end.

End EntityActions.

(* ===================================================================== *)
(** * Vectors and the Hermite curve *)
(* ===================================================================== *)

Module Geometry.

Record float3 : Type := { x : Q; y : Q; z : Q }.

Definition zero : float3 := {| x := 0; y := 0; z := 0 |}.

Definition add (a b : float3) : float3 :=
  {| x := x a + x b; y := y a + y b; z := z a + z b |}.

Definition mul (k : Q) (a : float3) : float3 :=
  {| x := k * x a; y := k * y a; z := k * z a |}.

(** [HermiteInterpolate] *)
Definition HermiteInterpolate (pos0 vel0 pos1 vel1 : float3) (t : Q) : float3 :=
  let tt := (t * t)%Q in
  let ttt := (tt * t)%Q in
  let h1 := (2 * ttt - 3 * tt + 1)%Q in
  let h2 := (1 - h1)%Q in
  let h3 := (ttt - 2 * tt + t)%Q in
  let h4 := (ttt - tt)%Q in
  add (add (add (mul h1 pos0) (mul h2 pos1)) (mul h3 vel0)) (mul h4 vel1).

(** [HermiteDerivative] *)
Definition HermiteDerivative (pos0 vel0 pos1 vel1 : float3) (t : Q) : float3 :=
  let tt := (t * t)%Q in
  let h1 := (6 * (tt - t))%Q in
  let h2 := (- h1)%Q in
  let h3 := (3 * tt - 4 * t + 1)%Q in
  let h4 := (3 * tt - 2 * t)%Q in
  add (add (add (mul h1 pos0) (mul h2 pos1)) (mul h3 vel0)) (mul h4 vel1).

(** Two vectors with the same coordinates, as numbers. *)
Definition eq3 (a b : float3) : Prop :=
  (x a == x b /\ y a == y b /\ z a == z b)%Q.

(** [Transform]: position, Euler angles in degrees, scale. *)
Record Transform : Type := { pos : float3; rot : float3; scale : float3 }.

End Geometry.

(* ===================================================================== *)
(** * Receiving rigid-body updates ([HandleRigidBodyChanges]) *)
(* ===================================================================== *)

Module RigidBodyReceive.
Import Geometry.

Record EC_Placeable : Type := { transform : Transform }.

Record EC_RigidBody : Type := {
  mass : Q;
  linearVelocity : float3;
  angularVelocity : float3;
}.

(** What the handler reads of an entity: its two components, if any. *)
Record Entity : Type := {
  placeable : option EC_Placeable;
  rigidBody : option EC_RigidBody;
}.

Section Receive.

  (** MathGeoLib's quaternion, and the two conversions of [Transform]. *)
Variable Quat : Type.
Variable Quat_identity : Quat.
Variable Orientation : Transform -> Quat.
Variable SetOrientation : Quat -> Transform -> Transform.

  (** [kNet::PacketIDIsNewerThan(newID, oldID)] *)
Variable PacketIDIsNewerThan : Z -> Z -> bool.

Variable updatePeriod_ : Q.

  (** [RigidBodyInterpolationState::RigidBodyState] *)
Record RigidBodyState : Type := {
    s_pos : float3;
    s_vel : float3;
    s_rot : Quat;
    s_scale : float3;
    s_angVel : float3;
  }.

Record RigidBodyInterpolationState : Type := {
    interpStart : RigidBodyState;
    interpEnd : RigidBodyState;
    interpTime : Q;
    interpolatorActive : bool;
    lastReceivedPacketCounter : Z;
  }.

  (** The client: the scene and [serverConnection_->syncState->entityInterpolations]. *)
Record Client : Type := {
    scene : gmap Z Entity;
    entityInterpolations : gmap Z RigidBodyInterpolationState;
  }.

  (** What one turn of the [while (dd.BitsLeft() >= 9)] loop reads off the
      stream: the entity id, the five send types of the arithmetic-coded
      header, and the values of the fields that are present.  [readAngVel]
      is [None] when the quantized angle is zero. *)
Record RigidBodyRecord : Type := {
    entityID : Z;
    posSendType : Z;
    rotSendType : Z;
    scaleSendType : Z;
    velSendType : Z;
    angVelSendType : Z;
    readPos : float3;
    readRot : Quat;
    readScale : float3;
    readVel : float3;
    readAngVel : option float3;
  }.

Definition set_pos (p : float3) (t : Transform) : Transform :=
    {| pos := p; rot := rot t; scale := scale t |}.

Definition set_scale (s : float3) (t : Transform) : Transform :=
    {| pos := pos t; rot := rot t; scale := s |}.

Definition isNewtonian (rb : option EC_RigidBody) : bool :=
    match rb with
    | Some b => negb (Qle_bool (mass b) 0)
    | None => false
    end.

  (** The branch that updates an existing interpolation state, after the
      latest-data test. *)
Definition updateInterpolation (packetId : Z) (r : RigidBodyRecord)
      (orig t : Transform) (newLinearVel newAngVel : float3)
      (rb : option EC_RigidBody) (interp : RigidBodyInterpolationState)
      : RigidBodyInterpolationState :=
    let interpPeriod := updatePeriod_ in
    let curVel :=
      if negb (Qle_bool 1 (interpTime interp))
      then HermiteDerivative (s_pos (interpStart interp))
             (mul interpPeriod (s_vel (interpStart interp)))
             (s_pos (interpEnd interp))
             (mul interpPeriod (s_vel (interpEnd interp)))
             (interpTime interp)
      else s_vel (interpEnd interp) in
    let curAngVel := zero in
    let endVel := if negb (velSendType r =? 0) then newLinearVel else s_vel (interpEnd interp) in
    let newtonian := isNewtonian rb in
    {| interpStart :=
         {| s_pos := pos orig;
            s_vel := if newtonian then curVel else zero;
            s_rot := Orientation orig;
            s_scale := scale orig;
            s_angVel := curAngVel |};
       interpEnd :=
         {| s_pos := if negb (posSendType r =? 0) then pos t else s_pos (interpEnd interp);
            s_vel := if newtonian then endVel else zero;
            s_rot := if negb (rotSendType r =? 0) then Orientation t else s_rot (interpEnd interp);
            s_scale := if negb (scaleSendType r =? 0) then scale t else s_scale (interpEnd interp);
            s_angVel := if negb (angVelSendType r =? 0) then newAngVel else s_angVel (interpEnd interp) |};
       interpTime := 0;
       interpolatorActive := true;
       lastReceivedPacketCounter := packetId |}.

  (** The branch that creates the interpolation state. *)
Definition newInterpolation (packetId : Z) (orig t : Transform)
      (newLinearVel newAngVel : float3) (rb : option EC_RigidBody)
      : RigidBodyInterpolationState :=
    {| interpStart :=
         {| s_pos := pos orig;
            s_vel := match rb with Some b => linearVelocity b | None => zero end;
            s_rot := Orientation orig;
            s_scale := scale orig;
            s_angVel := match rb with Some b => angularVelocity b | None => zero end |};
       interpEnd :=
         {| s_pos := pos t;
            s_vel := newLinearVel;
            s_rot := Orientation t;
            s_scale := scale t;
            s_angVel := newAngVel |};
       interpTime := 0;
       interpolatorActive := true;
       lastReceivedPacketCounter := packetId |}.

  (** One turn of the loop.  [sourceIsUDP] is the test
      [conn && conn->GetSocket() && conn->GetSocket()->TransportLayer() == kNet::SocketOverUDP]
      on the connection the message came from.  [None]: the entity exists
      but has no [EC_Placeable], and [placeable->transform] dereferences
      null. *)
Definition applyRecord (sourceIsUDP : bool) (packetId : Z) (r : RigidBodyRecord)
      (c : Client) : option Client :=
    match scene c !! entityID r with
    | None => Some c
    | Some e =>
        match placeable e with
        | None => None
        | Some pl =>
            let t := transform pl in
            let newLinearVel :=
              match rigidBody e with Some b => linearVelocity b | None => zero end in
            let newLinearVel :=
              match entityInterpolations c !! entityID r with
              | Some i => s_vel (interpEnd i)
              | None => newLinearVel
              end in
            let t := if (posSendType r =? 1) || (posSendType r =? 2)
                     then set_pos (readPos r) t else t in
            let rot := if (rotSendType r =? 1) || (rotSendType r =? 2) || (rotSendType r =? 3)
                       then readRot r else Quat_identity in
            let t := SetOrientation rot t in
            let t := if (scaleSendType r =? 1) || (scaleSendType r =? 2)
                     then set_scale (readScale r) t else t in
            let newLinearVel := if (velSendType r =? 1) || (velSendType r =? 2)
                                then readVel r else newLinearVel in
            let newAngVel :=
              match rigidBody e with Some b => angularVelocity b | None => zero end in
            let newAngVel := if angVelSendType r =? 1
                             then match readAngVel r with Some v => v | None => newAngVel end
                             else newAngVel in
            if negb (posSendType r =? 0) || negb (rotSendType r =? 0)
               || negb (scaleSendType r =? 0) || negb (velSendType r =? 0)
               || negb (angVelSendType r =? 0)
            then
              let orig := transform pl in
              match entityInterpolations c !! entityID r with
              | Some interp =>
                  if sourceIsUDP && PacketIDIsNewerThan (lastReceivedPacketCounter interp) packetId
                  then Some c
                  else Some {| scene := scene c;
                               entityInterpolations :=
                                 <[entityID r :=
                                     updateInterpolation packetId r orig t newLinearVel newAngVel
                                       (rigidBody e) interp]> (entityInterpolations c) |}
              | None =>
                  Some {| scene := scene c;
                          entityInterpolations :=
                            <[entityID r :=
                                newInterpolation packetId orig t newLinearVel newAngVel (rigidBody e)]>
                              (entityInterpolations c) |}
              end
            else Some c
        end
    end.

  (** An interpolation state as a record of packet [packetId] leaves it:
      at time 0, active, and starting where the entity [k] is. *)
Definition restarted (packetId : Z) (c : Client) (k : Z)
      (i : RigidBodyInterpolationState) : Prop :=
    interpTime i = 0%Q /\ interpolatorActive i = true
    /\ lastReceivedPacketCounter i = packetId
    /\ exists e pl, scene c !! k = Some e /\ placeable e = Some pl
         /\ s_pos (interpStart i) = pos (transform pl)
         /\ s_scale (interpStart i) = scale (transform pl)
         /\ s_rot (interpStart i) = Orientation (transform pl).

  (** [SyncManager::HandleRigidBodyChanges] on the records of one message. *)
Fixpoint HandleRigidBodyChanges (sourceIsUDP : bool) (packetId : Z)
      (records : list RigidBodyRecord) (c : Client) : option Client :=
    match records with
    | [] => Some c
    | r :: rest =>
        match applyRecord sourceIsUDP packetId r c with
        | None => None
        | Some c' => HandleRigidBodyChanges sourceIsUDP packetId rest c'
        end
    end.

End Receive.

End RigidBodyReceive.

(* ===================================================================== *)
(** * The per-connection sync state (SyncState.h) *)
(* ===================================================================== *)

Module SyncState.
Import Geometry.

(** [ComponentSyncState]; [dirtyAttributes] is the byte array of the
    per-attribute dirty bits, [newAndRemovedAttributes] maps an attribute
    index to [true] (created) or [false] (removed). *)
Record ComponentSyncState : Type := {
  c_isNew : bool;
  c_removed : bool;
  c_isInQueue : bool;
  dirtyAttributes : list Z;
  newAndRemovedAttributes : gmap Z bool;
}.

(** [EntitySyncState]; [dirtyQueue] holds the ids of the component states
    that the queue of the class points to. *)
Record EntitySyncState : Type := {
  id : Z;
  isNew : bool;
  removed : bool;
  isInQueue : bool;
  hasPropertyChanges : bool;
  hasParentChange : bool;
  components : gmap Z ComponentSyncState;
  dirtyQueue : list Z;
  transform : Transform;
  linearVelocity : float3;
  angularVelocity : float3;
  lastNetworkSendTime : Z;
  avgUpdateInterval : Q;
}.

(** [a[i]] and [a[i] = v] on the dirty-bit array. *)
Definition byte_at (a : list Z) (i : nat) : Z := default 0 (a !! i).
Definition set_byte (a : list Z) (i : nat) (v : Z) : list Z := <[i := v]> a.

(** Bit [attrIndex & 7] of byte [attrIndex >> 3]. *)
Definition attr_dirty (a : list Z) (attrIndex : Z) : bool :=
  negb (Z.land (byte_at a (Z.to_nat (Z.shiftr attrIndex 3)))
               (Z.shiftl 1 (Z.land attrIndex 7)) =? 0).

(** [a[attrIndex >> 3] &= ~(1 << (attrIndex & 7))] *)
Definition clear_attr_dirty (a : list Z) (attrIndex : Z) : list Z :=
  set_byte a (Z.to_nat (Z.shiftr attrIndex 3))
    (Z.land (byte_at a (Z.to_nat (Z.shiftr attrIndex 3)))
            (Z.lnot (Z.shiftl 1 (Z.land attrIndex 7)))).

Definition set_dirtyAttributes (a : list Z) (c : ComponentSyncState) : ComponentSyncState :=
  {| c_isNew := c_isNew c; c_removed := c_removed c; c_isInQueue := c_isInQueue c;
     dirtyAttributes := a; newAndRemovedAttributes := newAndRemovedAttributes c |}.

Definition set_newAndRemovedAttributes (m : gmap Z bool) (c : ComponentSyncState)
    : ComponentSyncState :=
  {| c_isNew := c_isNew c; c_removed := c_removed c; c_isInQueue := c_isInQueue c;
     dirtyAttributes := dirtyAttributes c; newAndRemovedAttributes := m |}.

Definition set_c_isInQueue (b : bool) (c : ComponentSyncState) : ComponentSyncState :=
  {| c_isNew := c_isNew c; c_removed := c_removed c; c_isInQueue := b;
     dirtyAttributes := dirtyAttributes c;
     newAndRemovedAttributes := newAndRemovedAttributes c |}.

Definition set_c_isNew (b : bool) (c : ComponentSyncState) : ComponentSyncState :=
  {| c_isNew := b; c_removed := c_removed c; c_isInQueue := c_isInQueue c;
     dirtyAttributes := dirtyAttributes c;
     newAndRemovedAttributes := newAndRemovedAttributes c |}.

Definition set_components (comps : gmap Z ComponentSyncState) (e : EntitySyncState)
    : EntitySyncState :=
  {| id := id e; isNew := isNew e; removed := removed e; isInQueue := isInQueue e;
     hasPropertyChanges := hasPropertyChanges e; hasParentChange := hasParentChange e;
     components := comps; dirtyQueue := dirtyQueue e; transform := transform e;
     linearVelocity := linearVelocity e; angularVelocity := angularVelocity e;
     lastNetworkSendTime := lastNetworkSendTime e; avgUpdateInterval := avgUpdateInterval e |}.

Definition set_dirtyQueue (q : list Z) (e : EntitySyncState) : EntitySyncState :=
  {| id := id e; isNew := isNew e; removed := removed e; isInQueue := isInQueue e;
     hasPropertyChanges := hasPropertyChanges e; hasParentChange := hasParentChange e;
     components := components e; dirtyQueue := q; transform := transform e;
     linearVelocity := linearVelocity e; angularVelocity := angularVelocity e;
     lastNetworkSendTime := lastNetworkSendTime e; avgUpdateInterval := avgUpdateInterval e |}.

Definition set_flags (new rem inq prop par : bool) (e : EntitySyncState) : EntitySyncState :=
  {| id := id e; isNew := new; removed := rem; isInQueue := inq;
     hasPropertyChanges := prop; hasParentChange := par;
     components := components e; dirtyQueue := dirtyQueue e; transform := transform e;
     linearVelocity := linearVelocity e; angularVelocity := angularVelocity e;
     lastNetworkSendTime := lastNetworkSendTime e; avgUpdateInterval := avgUpdateInterval e |}.

Definition set_hasPropertyChanges (b : bool) (e : EntitySyncState) : EntitySyncState :=
  set_flags (isNew e) (removed e) (isInQueue e) b (hasParentChange e) e.

Definition set_hasParentChange (b : bool) (e : EntitySyncState) : EntitySyncState :=
  set_flags (isNew e) (removed e) (isInQueue e) (hasPropertyChanges e) b e.

Definition set_id (i : Z) (e : EntitySyncState) : EntitySyncState :=
  {| id := i; isNew := isNew e; removed := removed e; isInQueue := isInQueue e;
     hasPropertyChanges := hasPropertyChanges e; hasParentChange := hasParentChange e;
     components := components e; dirtyQueue := dirtyQueue e; transform := transform e;
     linearVelocity := linearVelocity e; angularVelocity := angularVelocity e;
     lastNetworkSendTime := lastNetworkSendTime e; avgUpdateInterval := avgUpdateInterval e |}.

(** What has last been sent of the entity's motion, and when. *)
Definition set_lastSent (t : Transform) (lin ang : float3) (time : Z) (e : EntitySyncState)
    : EntitySyncState :=
  {| id := id e; isNew := isNew e; removed := removed e; isInQueue := isInQueue e;
     hasPropertyChanges := hasPropertyChanges e; hasParentChange := hasParentChange e;
     components := components e; dirtyQueue := dirtyQueue e; transform := t;
     linearVelocity := lin; angularVelocity := ang;
     lastNetworkSendTime := time; avgUpdateInterval := avgUpdateInterval e |}.

End SyncState.

(* ===================================================================== *)
(** * Sending rigid-body updates ([ReplicateRigidBodyChanges]) *)
(* ===================================================================== *)

Module RigidBodySend.
Import Geometry SyncState.

(** ** MathGeoLib arithmetic that the pass and its helpers use *)

Definition sub (a b : float3) : float3 :=
  {| x := x a - x b; y := y a - y b; z := z a - z b |}.

Definition Dot (a b : float3) : Q := (x a * x b + y a * y b + z a * z b)%Q.

Definition Cross (a b : float3) : float3 :=
  {| x := y a * z b - z a * y b;
     y := z a * x b - x a * z b;
     z := x a * y b - y a * x b |}.

Definition LengthSq (a : float3) : Q := Dot a a.

Definition DistanceSq (a b : float3) : Q := LengthSq (sub a b).

Definition Abs (a : float3) : float3 :=
  {| x := Qabs (x a); y := Qabs (y a); z := Qabs (z a) |}.

Definition Qmax (a b : Q) : Q := if Qle_bool a b then b else a.
Definition Qmin (a b : Q) : Q := if Qle_bool a b then a else b.

Definition MaxElement (a : float3) : Q := Qmax (x a) (Qmax (y a) (z a)).
Definition MinElement (a : float3) : Q := Qmin (x a) (Qmin (y a) (z a)).

Definition unitY : float3 := {| x := 0; y := 1; z := 0 |}.

(** A [float3x3] by its columns. *)
Record float3x3 : Type := { Col0 : float3; Col1 : float3; Col2 : float3 }.

(** [DetectPosSendType] *)
Definition DetectPosSendType (posChanged : bool) (pos : float3) : Z :=
  if posChanged
  then (if Qle_bool 1023 (MaxElement (Abs pos)) then 2 else 1)
  else 0.

(** [DetectRotSendType] *)
Definition DetectRotSendType (rotChanged : bool) (rot : float3x3) : Z :=
  if rotChanged
  then
    let fwd := Col2 rot in
    let up := Col1 rot in
    let planeNormal := Cross unitY (Col2 rot) in
    let d := Dot planeNormal (Col1 rot) in
    if Qle_bool (999 / 1000) (Dot up unitY) then 1
    else if Qle_bool (Qabs d) (1 / 1000)
            && negb (Qle_bool (95 / 100) (Qabs (Dot fwd unitY)))
            && negb (Qle_bool (Dot up unitY) 0)
         then 2
         else 3
  else 0.

(** The entity of the scene, as far as the pass reads it: the ids and
    the attributes of its [EC_Placeable] and [EC_RigidBody]. *)
Record EC_Placeable : Type := { p_id : Z; p_transform : Transform }.
Record EC_RigidBody : Type := {
  r_id : Z;
  r_linearVelocity : float3;
  r_angularVelocity : float3;
}.
Record Entity : Type := {
  placeable : option EC_Placeable;
  rigidBody : option EC_RigidBody;
}.

(** What is written to the serializer for one entity. *)
Record RigidBodyEntry : Type := {
  entry_id : Z;
  entry_posSendType : Z;
  entry_rotSendType : Z;
  entry_scaleSendType : Z;
  entry_velSendType : Z;
  entry_angVelSendType : Z;
  entry_transform : Transform;
  entry_linearVel : float3;
  entry_angVel : float3;
}.

(** One [user->Send(cRigidBodyUpdateMessage, reliable, true, ds)]. *)
Record RigidBodyUpdate : Type := {
  reliable : bool;
  inOrder : bool;
  entries : list RigidBodyEntry;
}.

(** The variables of the loop: the serializer [ds], [msgReliable], what
    has been sent, and the entity states of [user->syncState]. *)
Record Loop : Type := {
  ds : list RigidBodyEntry;
  msgReliable : bool;
  sent : list RigidBodyUpdate;
  entities : gmap Z EntitySyncState;
}.

Definition maxMessageSizeBytes : Z := 1400.
Definition maxRigidBodyMessageSizeBits : Z := 350.

Section Pass.

  (** [float3::IsZero(epsilonSq)] of MathGeoLib. *)
Variable IsZero : float3 -> Q -> bool.
  (** [DegToRad] on a vector of Euler angles. *)
Variable DegToRad : float3 -> float3.
  (** [Transform::Orientation3x3()] *)
Variable Orientation3x3 : Transform -> float3x3.
  (** [kNet::Clock::SecondsSinceF] and [kNet::Clock::Tick()] *)
Variable SecondsSinceF : Z -> Q.
Variable Tick : Z.
  (** [EntitySyncState::ComputePrioritizedUpdateInterval] *)
Variable ComputePrioritizedUpdateInterval : EntitySyncState -> Q -> Q.
  (** How many bits the serializer holds after an entity has been written
      to it (an id as VLE, the 8-bit header, the fields present). *)
Variable entryBits : RigidBodyEntry -> Z.

Variable updatePeriod_ : Q.
  (** [prioritizer_ != 0] *)
Variable prioritizer_ : bool.
Variable scene : gmap Z Entity.

Definition BitsFilled (d : list RigidBodyEntry) : Z :=
    fold_right (fun e n => entryBits e + n) 0 d.

Definition BytesFilled (d : list RigidBodyEntry) : Z := (BitsFilled d + 7) / 8.

Definition Send (L : Loop) : Loop :=
    {| ds := [];
       msgReliable := false;
       sent := sent L ++ [{| reliable := msgReliable L; inOrder := true; entries := ds L |}];
       entities := entities L |}.

  (** The steal of the Transform bit from the [EC_Placeable] state. *)
Definition stealTransform (pl : EC_Placeable) (comps : gmap Z ComponentSyncState)
      : bool * gmap Z ComponentSyncState :=
    match comps !! p_id pl with
    | Some pss =>
        if negb (c_isNew pss) && negb (c_removed pss)
        then (negb (Z.land (byte_at (dirtyAttributes pss) 0) 1 =? 0),
              <[p_id pl :=
                  set_dirtyAttributes
                    (set_byte (dirtyAttributes pss) 0
                       (Z.land (byte_at (dirtyAttributes pss) 0) (Z.lnot 1))) pss]> comps)
        else (false, comps)
    | None => (false, comps)
    end.

  (** What the [if (rigidBody)] block computes: the two velocity flags,
      whether [msgReliable] is set, and the component states. *)
Record VelocitySteal : Type := {
    velocityDirty : bool;
    angularVelocityDirty : bool;
    toRest : bool;
    comps' : gmap Z ComponentSyncState;
  }.

Definition stealVelocities (ess : EntitySyncState) (rb : option EC_RigidBody)
      (comps : gmap Z ComponentSyncState) : VelocitySteal :=
    let untouched := {| velocityDirty := false; angularVelocityDirty := false;
                        toRest := false; comps' := comps |} in
    match rb with
    | None => untouched
    | Some rigidBody =>
        match comps !! r_id rigidBody with
        | None => untouched
        | Some rss =>
            if negb (c_isNew rss) && negb (c_removed rss)
            then
              let b := byte_at (dirtyAttributes rss) 1 in
              let velocityDirty := negb (Z.land b (Z.shiftl 1 5) =? 0) in
              let angularVelocityDirty := negb (Z.land b (Z.shiftl 1 6) =? 0) in
              let b' := Z.land (Z.land b (Z.lnot (Z.shiftl 1 5))) (Z.lnot (Z.shiftl 1 6)) in
              let velocityDirty :=
                velocityDirty
                && Qle_bool (1 / 100) (DistanceSq (r_linearVelocity rigidBody) (linearVelocity ess)) in
              let angularVelocityDirty :=
                angularVelocityDirty
                && Qle_bool (1 / 10) (DistanceSq (r_angularVelocity rigidBody) (angularVelocity ess)) in
              let linRest := IsZero (r_linearVelocity rigidBody) (1 / 10000)
                             && negb (IsZero (linearVelocity ess) (1 / 10000)) in
              let angRest := IsZero (r_angularVelocity rigidBody) (1 / 10000)
                             && negb (IsZero (angularVelocity ess) (1 / 10000)) in
              {| velocityDirty := velocityDirty || linRest;
                 angularVelocityDirty := angularVelocityDirty || angRest;
                 toRest := linRest || angRest;
                 comps' := <[r_id rigidBody :=
                               set_dirtyAttributes (set_byte (dirtyAttributes rss) 1 b') rss]> comps |}
            else untouched
        end
    end.

  (** The condition of the specification, in its words: the current
      linear (or angular) velocity is zero within the tolerance 1e-4 while
      the last-sent one was not. *)
Definition comesToRest (ess : EntitySyncState) (rigidBody : EC_RigidBody) : bool :=
    (IsZero (r_linearVelocity rigidBody) (1 / 10000)
     && negb (IsZero (linearVelocity ess) (1 / 10000)))
    || (IsZero (r_angularVelocity rigidBody) (1 / 10000)
        && negb (IsZero (angularVelocity ess) (1 / 10000))).



  (** The pass looks at the velocities of a rigid body only when the sync
      state has a component state for it that is neither new nor removed. *)
Definition tracked (comps : gmap Z ComponentSyncState) (cid : Z) : bool :=
    match comps !! cid with
    | Some cs => negb (c_isNew cs) && negb (c_removed cs)
    | None => false
    end.

  (** The entry for an entity and the state after it has been written:
      the tail of the loop body from the priority test on.  [None]: the
      entity is skipped. *)
Definition encode (ess : EntitySyncState) (pl : EC_Placeable) (rb : option EC_RigidBody)
      (transformDirty velocityDirty angularVelocityDirty : bool)
      : option (RigidBodyEntry * EntitySyncState) :=
    let timeSinceLastSend := SecondsSinceF (lastNetworkSendTime ess) in
    if prioritizer_
       && negb (Qle_bool (ComputePrioritizedUpdateInterval ess updatePeriod_) timeSinceLastSend)
    then None
    else
      let t := p_transform pl in
      let posChanged := transformDirty
                        && negb (Qle_bool (DistanceSq (pos t) (pos (transform ess))) (1 / 1000)) in
      let rotChanged := transformDirty
                        && negb (Qle_bool (DistanceSq (rot t) (rot (transform ess))) (1 / 10)) in
      let scaleChanged := transformDirty
                          && negb (Qle_bool (DistanceSq (scale t) (scale (transform ess))) (1 / 1000)) in
      let posSendType := DetectPosSendType posChanged (pos t) in
      let rotSendType := DetectRotSendType rotChanged (Orientation3x3 t) in
      let scaleSendType :=
        if scaleChanged
        then (let s := Abs (scale t) in
              if Qle_bool (MaxElement s - MinElement s) (1 / 1000) then 1 else 2)
        else 0 in
      let linearVel := match rb with Some b => r_linearVelocity b | None => zero end in
      let angVel := match rb with Some b => DegToRad (r_angularVelocity b) | None => zero end in
      let velSendType :=
        if velocityDirty then (if Qle_bool 64 (LengthSq linearVel) then 2 else 1) else 0 in
      let angVelSendType := if angularVelocityDirty then 1 else 0 in
      if (posSendType =? 0) && (rotSendType =? 0) && (scaleSendType =? 0)
         && (velSendType =? 0) && (angVelSendType =? 0)
      then None
      else
        Some ({| entry_id := id ess;
                 entry_posSendType := posSendType;
                 entry_rotSendType := rotSendType;
                 entry_scaleSendType := scaleSendType;
                 entry_velSendType := velSendType;
                 entry_angVelSendType := angVelSendType;
                 entry_transform := t;
                 entry_linearVel := linearVel;
                 entry_angVel := angVel |},
              set_lastSent
                {| pos := if negb (posSendType =? 0) then pos t else pos (transform ess);
                   rot := if negb (rotSendType =? 0) then rot t else rot (transform ess);
                   scale := if negb (scaleSendType =? 0) then scale t else scale (transform ess) |}
                (if (velSendType =? 1) || (velSendType =? 2) then linearVel else linearVelocity ess)
                (if angVelSendType =? 1 then angVel else angularVelocity ess)
                Tick ess).

  (** The loop body for an entity that has an [EC_Placeable], from the
      steal of the dirty bits on: whether [msgReliable] is set, the entity
      state afterwards, and the entry written, if any. *)
Record Examined : Type := {
    ex_toRest : bool;
    ex_state : EntitySyncState;
    ex_entry : option RigidBodyEntry;
  }.

Definition examine (ess : EntitySyncState) (pl : EC_Placeable) (rb : option EC_RigidBody)
      : Examined :=
    let '(transformDirty, comps1) := stealTransform pl (components ess) in
    let v := stealVelocities ess rb comps1 in
    let ess1 := set_components (comps' v) ess in
    if negb transformDirty && negb (velocityDirty v) && negb (angularVelocityDirty v)
    then {| ex_toRest := toRest v; ex_state := ess1; ex_entry := None |}
    else
      match encode ess1 pl rb transformDirty (velocityDirty v) (angularVelocityDirty v) with
      | None => {| ex_toRest := toRest v; ex_state := ess1; ex_entry := None |}
      | Some (entry, ess2) =>
          {| ex_toRest := toRest v; ex_state := ess2; ex_entry := Some entry |}
      end.

  (** The test at the head of the loop body: send what has been gathered
      when the next entity might not fit. *)
Definition flushed (L : Loop) : Loop :=
    if maxMessageSizeBytes * 8 - BitsFilled (ds L) <=? maxRigidBodyMessageSizeBits
    then Send L else L.

  (** The serializer and [msgReliable] after an entity has been examined. *)
Definition written (ex : Examined) (L : Loop) : Loop :=
    {| ds := ds L ++ match ex_entry ex with Some entry => [entry] | None => [] end;
       msgReliable := msgReliable L || ex_toRest ex;
       sent := sent L;
       entities := entities L |}.

  (** One turn of the [for] loop over [state->dirtyQueue].  [key] is the
      entry of [state->entities] that the queue element points to.
      [None]: a dangling queue element, or an entity state whose entity
      is not in the scene ([e->GetComponent] on null). *)
Definition step (key : Z) (L : Loop) : option Loop :=
    let L := if maxMessageSizeBytes * 8 - BitsFilled (ds L) <=? maxRigidBodyMessageSizeBits
             then Send L else L in
    match entities L !! key with
    | None => None
    | Some ess =>
        if isNew ess || removed ess then Some L
        else
          match scene !! id ess with
          | None => None
          | Some e =>
              match placeable e with
              | None => Some L
              | Some pl =>
                  let ex := examine ess pl (rigidBody e) in
                  Some {| ds := ds L ++ match ex_entry ex with Some entry => [entry] | None => [] end;
                          msgReliable := msgReliable L || ex_toRest ex;
                          sent := sent L;
                          entities := <[key := ex_state ex]> (entities L) |}
              end
          end
    end.

Fixpoint loop (dirtyQueue : list Z) (L : Loop) : option Loop :=
    match dirtyQueue with
    | [] => Some L
    | key :: rest =>
        match step key L with
        | None => None
        | Some L' => loop rest L'
        end
    end.

  (** [SyncManager::ReplicateRigidBodyChanges] for a user whose sync state
      has the dirty queue [dirtyQueue] and the entity states [ents]:
      the messages sent, in order, and the entity states afterwards. *)
Definition ReplicateRigidBodyChanges (dirtyQueue : list Z) (ents : gmap Z EntitySyncState)
      : option (list RigidBodyUpdate * gmap Z EntitySyncState) :=
    match loop dirtyQueue {| ds := []; msgReliable := false; sent := []; entities := ents |} with
    | None => None
    | Some L =>
        let L := if 0 <? BytesFilled (ds L) then Send L else L in
        Some (sent L, entities L)
    end.

End Pass.

(** ** Orderings and invariants used in the proofs about the pass *)

(** Every attribute that is clean in [a] is clean in [a']. *)
Definition clean_le (a a' : list Z) : Prop :=
  forall k, attr_dirty a k = false -> attr_dirty a' k = false.

Definition comp_le (c c' : ComponentSyncState) : Prop :=
  c_isNew c' = c_isNew c /\ c_removed c' = c_removed c
  /\ clean_le (dirtyAttributes c) (dirtyAttributes c').

Definition comps_le (m m' : gmap Z ComponentSyncState) : Prop :=
  forall cid,
    match m !! cid with
    | Some c => exists c', m' !! cid = Some c' /\ comp_le c c'
    | None => m' !! cid = None
    end.

Definition ess_le (e e' : EntitySyncState) : Prop :=
  id e' = id e /\ isNew e' = isNew e /\ removed e' = removed e
  /\ comps_le (components e) (components e').

(** The bits that the pass steals are clear in [ess'], for the
    components that [ess] tracks. *)
Definition stolen_from (ess ess' : EntitySyncState) (e : Entity) (pl : EC_Placeable) : Prop :=
  (tracked (components ess) (p_id pl) = true ->
   exists pss', components ess' !! p_id pl = Some pss'
                /\ attr_dirty (dirtyAttributes pss') 0 = false)
  /\ (forall b, rigidBody e = Some b -> tracked (components ess) (r_id b) = true ->
      exists rss', components ess' !! r_id b = Some rss'
                   /\ attr_dirty (dirtyAttributes rss') 13 = false
                   /\ attr_dirty (dirtyAttributes rss') 14 = false).

(** [ents'] holds the entity states of [ents] and no other, each with
    the flags it had and no attribute dirty that was clean. *)
Definition ents_le (ents ents' : gmap Z EntitySyncState) : Prop :=
  forall k,
    match ents !! k with
    | Some e => exists e', ents' !! k = Some e' /\ ess_le e e'
    | None => ents' !! k = None
    end.

(** The entity states are kept under their ids, as the map
    [state->entities] keeps them. *)
Definition keyed (ents : gmap Z EntitySyncState) : Prop :=
  forall k e0, ents !! k = Some e0 -> id e0 = k.


(** Every entry written so far, in the serializer or in a message. *)
Definition everyEntry (P : RigidBodyEntry -> Prop) (L : Loop) : Prop :=
  (forall entry, In entry (ds L) -> P entry)
  /\ (forall m entry, In m (sent L) -> In entry (entries m) -> P entry).


End RigidBodySend.

(* ===================================================================== *)
(** * Moving the received rigid bodies ([InterpolateRigidBodies]) *)
(* ===================================================================== *)

Module Interpolation.
Import Geometry RigidBodyReceive.

Section Interpolate.

Variable Quat : Type.
  (** [Transform()] and [Transform::SetOrientation]. *)
Variable Transform_ctor : Transform.
Variable SetOrientation : Quat -> Transform -> Transform.
  (** [Quat::Slerp], [float3::Lerp] and [Clamp01] of MathGeoLib. *)
Variable Slerp : Quat -> Quat -> Q -> Quat.
Variable Lerp : float3 -> float3 -> Q -> float3.
Variable Clamp01 : Q -> Q.

Variable updatePeriod_ : Q.
Variable maxLinExtrapTime_ : Q.
Variable noClientPhysicsHandoff_ : bool.

#[local] Arguments s_pos {Quat} _.
#[local] Arguments s_vel {Quat} _.
#[local] Arguments s_rot {Quat} _.
#[local] Arguments s_scale {Quat} _.
#[local] Arguments s_angVel {Quat} _.
#[local] Arguments interpStart {Quat} _.
#[local] Arguments interpEnd {Quat} _.
#[local] Arguments interpTime {Quat} _.
#[local] Arguments interpolatorActive {Quat} _.
#[local] Arguments lastReceivedPacketCounter {Quat} _.
#[local] Arguments scene {Quat} _.
#[local] Arguments entityInterpolations {Quat} _.

  (** The client between two frames: the scene and the interpolation
      states of [serverConnection_->syncState], and what
      [EC_RigidBody::SetClientExtrapolating] was last called with, by
      entity. *)
Record Frame : Type := {
    client : Client Quat;
    clientExtrapolating : gmap Z bool;
  }.

  (** [pos], from [r.interpTime] after the increment. *)
Definition interpolatedPos (isNewtonian : bool) (r : RigidBodyInterpolationState Quat)
      (interpTime : Q) : float3 :=
    let interpPeriod := updatePeriod_ in
    if negb (Qle_bool 1 interpTime)
    then
      if isNewtonian
      then HermiteInterpolate (s_pos (interpStart r)) (mul interpPeriod (s_vel (interpStart r)))
             (s_pos (interpEnd r)) (mul interpPeriod (s_vel (interpEnd r))) interpTime
      else HermiteInterpolate (s_pos (interpStart r)) zero (s_pos (interpEnd r)) zero interpTime
    else
      if isNewtonian && negb (Qle_bool maxLinExtrapTime_ 1)
      then add (s_pos (interpEnd r))
             (mul interpPeriod (mul (interpTime - 1) (s_vel (interpEnd r))))
      else s_pos (interpEnd r).

Definition set_interpolation (key : Z) (r : option (RigidBodyInterpolationState Quat))
      (w : Frame) : Frame :=
    {| client := {| scene := scene (client w);
                    entityInterpolations :=
                      match r with
                      | Some r => <[key := r]> (entityInterpolations (client w))
                      | None => delete key (entityInterpolations (client w))
                      end |};
       clientExtrapolating := clientExtrapolating w |}.

Definition set_entity (key : Z) (e : Entity) (w : Frame) : Frame :=
    {| client := {| scene := <[key := e]> (scene (client w));
                    entityInterpolations := entityInterpolations (client w) |};
       clientExtrapolating := clientExtrapolating w |}.

Definition SetClientExtrapolating (key : Z) (b : bool) (w : Frame) : Frame :=
    {| client := client w; clientExtrapolating := <[key := b]> (clientExtrapolating w) |}.

Definition with_interpTime (t : Q) (active : bool) (r : RigidBodyInterpolationState Quat)
      : RigidBodyInterpolationState Quat :=
    {| interpStart := interpStart r; interpEnd := interpEnd r; interpTime := t;
       interpolatorActive := active;
       lastReceivedPacketCounter := lastReceivedPacketCounter r |}.

Definition set_velocities (linear angular : float3) (b : EC_RigidBody) : EC_RigidBody :=
    {| mass := mass b; linearVelocity := linear; angularVelocity := angular |}.

  (** The body of the loop for the element [key] of
      [state->entityInterpolations]. *)
Definition interpolate (frametime : Q) (key : Z) (w : Frame) : Frame :=
    match entityInterpolations (client w) !! key with
    | None => w
    | Some r =>
        match scene (client w) !! key ≫= (fun e => (fun pl => (e, pl)) <$> placeable e) with
        | None => set_interpolation key None w
        | Some (e, _) =>
            if negb (interpolatorActive r) then w
            else
              let interpTime := (interpTime r + frametime / updatePeriod_)%Q in
              let pos := interpolatedPos (isNewtonian (rigidBody e)) r interpTime in
              let rot := Slerp (s_rot (interpStart r)) (s_rot (interpEnd r)) (Clamp01 interpTime) in
              let scale :=
                Lerp (s_scale (interpStart r)) (s_scale (interpEnd r)) (Clamp01 interpTime) in
              let t := set_scale scale (SetOrientation rot (set_pos pos Transform_ctor)) in
              let moved := {| placeable := Some {| transform := t |}; rigidBody := rigidBody e |} in
              if Qle_bool maxLinExtrapTime_ interpTime
              then
                let w :=
                  match rigidBody e with
                  | Some b =>
                      if negb noClientPhysicsHandoff_
                      then
                        let objectIsInRest :=
                          negb (Qle_bool (1 / 10000) (RigidBodySend.LengthSq (s_vel (interpEnd r))))
                          && negb (Qle_bool (1 / 10000)
                                     (RigidBodySend.LengthSq (s_angVel (interpEnd r)))) in
                        SetClientExtrapolating key (negb objectIsInRest)
                          (set_entity key
                             {| placeable := placeable moved;
                                rigidBody :=
                                  Some (set_velocities (s_vel (interpEnd r))
                                          (s_angVel (interpEnd r)) b) |} w)
                      else set_entity key moved w
                  | None => set_entity key moved w
                  end in
                set_interpolation key (Some (with_interpTime interpTime false r)) w
              else
                let w :=
                  match rigidBody e with
                  | Some b =>
                      let curVel :=
                        Lerp (s_vel (interpStart r)) (s_vel (interpEnd r)) (Clamp01 interpTime) in
                      SetClientExtrapolating key false
                        (set_entity key
                           {| placeable := placeable moved;
                              rigidBody := Some (set_velocities curVel zero b) |} w)
                  | None => set_entity key moved w
                  end in
                set_interpolation key (Some (with_interpTime interpTime true r)) w
        end
    end.

  (** [SyncManager::InterpolateRigidBodies], with a scene in place: the
      elements of the [std::map] in the order of their keys. *)
Definition InterpolateRigidBodies (frametime : Q) (w : Frame) : Frame :=
    fold_left (fun w key => interpolate frametime key w)
      (merge_sort Z.le (map fst (map_to_list (entityInterpolations (client w))))) w.

End Interpolate.

End Interpolation.

(* ===================================================================== *)
(** * The bit codec *)
(* ===================================================================== *)

Module Wire.

(** Modelled from the spec: the bit codec (kNet's [DataSerializer] and
    [DataDeserializer], which are not among the sources): "bit-addressed
    writes and reads", "unsigned integer, 8/16/32 bit", "all multi-byte
    values are little-endian", "the codec never aligns", and VLE8_16_32,
    "variable-length encoding of an unsigned integer using 1, 2, or 4
    bytes selected by two header bits".  A stream is the list of its bits
    in the order they are written and read; an integer goes least
    significant bit first.  A read that needs more bits than are left
    throws ([None]). *)
Definition BitStream : Type := list bool.

Fixpoint AddBits (n : nat) (v : Z) : BitStream :=
  match n with
  | O => []
  | S n' => Z.odd v :: AddBits n' (Z.div2 v)
  end.

Definition Reader (A : Type) : Type := BitStream -> option (A * BitStream).

Fixpoint ReadBits (n : nat) : Reader Z :=
  fun s =>
    match n with
    | O => Some (0, s)
    | S n' =>
        match s with
        | [] => None
        | b :: s' =>
            match ReadBits n' s' with
            | Some (v, rest) => Some (Z.b2z b + 2 * v, rest)
            | None => None
            end
        end
    end.

Definition Add_bit (v : Z) : BitStream := AddBits 1 v.
Definition Add_u8 (v : Z) : BitStream := AddBits 8 v.
Definition Add_u32 (v : Z) : BitStream := AddBits 32 v.

Definition Read_bit : Reader Z := ReadBits 1.
Definition Read_u8 : Reader Z := ReadBits 8.
Definition Read_u32 : Reader Z := ReadBits 32.

Definition BitsLeft (s : BitStream) : Z := Z.of_nat (length s).

(** [BytesFilled()] of a serializer that holds the bits [s]. *)
Definition BytesFilled (s : BitStream) : Z := (Z.of_nat (length s) + 7) / 8.

(** The bytes of a serializer, as [AddArray<u8>(buffer, BytesFilled())]
    copies them: the last byte is filled up with zero bits. *)
Definition bytes (s : BitStream) : BitStream :=
  s ++ repeat false (Z.to_nat (8 * BytesFilled s) - length s).

(** VLE8_16_32: 7 bits and a flag; then 7 bits and a flag; then 16 bits. *)
Definition AddVLE (v : Z) : BitStream :=
  if v <? 128 then Add_u8 v
  else if v <? 16384
       then Add_u8 (Z.lor (Z.land v 127) 128) ++ Add_u8 (Z.shiftr v 7)
       else Add_u8 (Z.lor (Z.land v 127) 128)
            ++ Add_u8 (Z.lor (Z.land (Z.shiftr v 7) 127) 128)
            ++ AddBits 16 (Z.shiftr v 14).

Definition ReadVLE : Reader Z :=
  fun s =>
    match Read_u8 s with
    | None => None
    | Some (sml, s1) =>
        if Z.land sml 128 =? 0 then Some (sml, s1)
        else
          match Read_u8 s1 with
          | None => None
          | Some (med, s2) =>
              if Z.land med 128 =? 0
              then Some (Z.lor (Z.land sml 127) (Z.shiftl med 7), s2)
              else
                match ReadBits 16 s2 with
                | None => None
                | Some (large, s3) =>
                    Some (Z.lor (Z.lor (Z.land sml 127) (Z.shiftl (Z.land med 127) 7))
                                (Z.shiftl large 14), s3)
                end
          end
    end.

(** [ReadArray<u8>(buffer, n)] followed by a [DataDeserializer] over the
    buffer: the next [n] bytes as a stream of their own. *)
Definition ReadArray (n : Z) : Reader BitStream :=
  fun s =>
    if 8 * n <=? BitsLeft s
    then Some (take (Z.to_nat (8 * n)) s, drop (Z.to_nat (8 * n)) s)
    else None.

(** The codec of a value whose layout the engine does not know (a string,
    the value of an attribute): given the stream it tells the value and
    how many bits it took, or throws.  Taking more bits than are left
    throws as well. *)
Definition Codec (A : Type) : Type := BitStream -> option (A * nat).

Definition run {A : Type} (c : Codec A) : Reader A :=
  fun s =>
    match c s with
    | Some (a, n) => if (n <=? length s)%nat then Some (a, drop n s) else None
    | None => None
    end.

End Wire.

(* ===================================================================== *)
(** * The scene and the attribute codecs *)
(* ===================================================================== *)

Module Scene.
Import Wire.

(** What the engine needs from the attribute classes and from kNet's
    string functions. *)
Class Attributes : Type := {
  (** the typed value of an attribute *)
  Value : Type;
  (** [IAttribute::ToBinary], by the type id of the attribute *)
  ToBinary : Z -> Value -> BitStream;
  (** [IAttribute::FromBinary], by the type id of the attribute *)
  FromBinary : Z -> Codec Value;
  AddString : string -> BitStream;
  ReadString : Codec string;
}.

Section Model.
Context `{Attributes}.

(** [IAttribute]: type id, name, value, whether it is a dynamic attribute,
    and whether its metadata asks for interpolation
    ([Metadata() && Metadata()->interpolation == AttributeMetadata::Interpolate]). *)
Record IAttribute : Type := {
  a_typeId : Z;
  a_name : string;
  a_value : Value;
  a_dynamic : bool;
  a_interpolate : bool;
}.

(** [IComponent]; [attributes] is the [AttributeVector], whose removed
    slots are null. *)
Record IComponent : Type := {
  c_typeId : Z;
  c_typeName : string;
  c_name : string;
  c_replicated : bool;
  attributes : list (option IAttribute);
  NumStaticAttributes : nat;
  SupportsDynamicAttributes : bool;
}.

(** [Entity]; [parent] is the id of the parent entity, 0 for none. *)
Record Entity : Type := {
  temporary : bool;
  parent : Z;
  components : gmap Z IComponent;
}.

Definition set_a_value (v : Value) (a : IAttribute) : IAttribute :=
  {| a_typeId := a_typeId a; a_name := a_name a; a_value := v;
     a_dynamic := a_dynamic a; a_interpolate := a_interpolate a |}.

Definition set_attributes (l : list (option IAttribute)) (c : IComponent) : IComponent :=
  {| c_typeId := c_typeId c; c_typeName := c_typeName c; c_name := c_name c;
     c_replicated := c_replicated c; attributes := l;
     NumStaticAttributes := NumStaticAttributes c;
     SupportsDynamicAttributes := SupportsDynamicAttributes c |}.

Definition set_components (m : gmap Z IComponent) (e : Entity) : Entity :=
  {| temporary := temporary e; parent := parent e; components := m |}.

Definition set_temporary (b : bool) (e : Entity) : Entity :=
  {| temporary := b; parent := parent e; components := components e |}.

Definition set_parent (p : Z) (e : Entity) : Entity :=
  {| temporary := temporary e; parent := p; components := components e |}.

(** [attrs[i]], null when out of range. *)
Definition attr_at (attrs : list (option IAttribute)) (i : Z) : option IAttribute :=
  if i <? 0 then None else mjoin (attrs !! Z.to_nat i).

Definition size (attrs : list (option IAttribute)) : Z := Z.of_nat (length attrs).

End Model.

End Scene.

(* ===================================================================== *)
(** * The EditAttributes block of one component *)
(* ===================================================================== *)

Module EditBlock.
Import Wire Scene SyncState.

Section Codec.
Context `{Attributes}.

(** ** Sender: [ProcessSyncState], "Now, if remaining dirty bits exist" *)

(** The inner loop over the bits of byte [i]. *)
Definition changedInByte (attrs : list (option IAttribute)) (i : Z) (byte : Z) : list Z :=
  if byte =? 0 then []
  else
    flat_map
      (fun j =>
         if negb (Z.land byte (Z.shiftl 1 j) =? 0)
         then (let attrIndex := (i * 8 + j) mod 256 in
               if (attrIndex <? size attrs) && bool_decide (is_Some (attr_at attrs attrIndex))
               then [attrIndex] else [])
         else [])
      (seqZ 0 8).

(** [changedAttributes_] after the loop over the dirty bytes. *)
Definition changedAttributes (attrs : list (option IAttribute)) (dirty : list Z) : list Z :=
  let numBytes := Z.shiftr (size attrs + 7) 3 in
  flat_map (fun i => changedInByte attrs i (byte_at dirty (Z.to_nat i))) (seqZ 0 numBytes).

(** Method 1: the indices with their values.  [None]: a null attribute. *)
Fixpoint encodeIndices (attrs : list (option IAttribute)) (changed : list Z)
    : option BitStream :=
  match changed with
  | [] => Some []
  | i :: rest =>
      match attr_at attrs i with
      | Some a =>
          option_map (fun tail => Add_u8 i ++ ToBinary (a_typeId a) (a_value a) ++ tail)
                     (encodeIndices attrs rest)
      | None => None
      end
  end.

(** Method 2: one bit per attribute, from attribute [i] on.  [None]: the
    bit of a null attribute is set, and [attrs[i]->ToBinary] dereferences
    null. *)
Fixpoint encodeMask (dirty : list Z) (i : Z) (attrs : list (option IAttribute))
    : option BitStream :=
  match attrs with
  | [] => Some []
  | a :: rest =>
      if attr_dirty dirty i
      then match a with
           | Some a =>
               option_map (fun tail => Add_bit 1 ++ ToBinary (a_typeId a) (a_value a) ++ tail)
                          (encodeMask dirty (i + 1) rest)
           | None => None
           end
      else option_map (fun tail => Add_bit 0 ++ tail) (encodeMask dirty (i + 1) rest)
  end.

(** The choice between the two: what is written to [attrDataDs]. *)
Definition encodeEdit (attrs : list (option IAttribute)) (dirty : list Z) (changed : list Z)
    : option BitStream :=
  let bitsMethod1 := Z.of_nat (length changed) * 8 + 8 in
  let bitsMethod2 := size attrs in
  if bitsMethod1 <=? bitsMethod2
  then option_map (fun tail => Add_bit 0 ++ Add_u8 (Z.of_nat (length changed)) ++ tail)
                  (encodeIndices attrs changed)
  else option_map (fun tail => Add_bit 1 ++ tail) (encodeMask dirty 0 attrs).

(** ** Receiver: [HandleEditAttributes], from [attrDs.Read<kNet::bit>()] on *)

(** One decoded change: the attribute index, the value read for it, and
    whether the receiver interpolates towards the value instead of
    setting it. *)
Record Change : Type := {
  ch_index : Z;
  ch_value : Value;
  ch_interpolate : bool;
}.

(** What the receiver meets in the block, in order. *)
Inductive Event : Type :=
| Changed (c : Change)
| Warned (text : string).

Definition readChange (isServer : bool) (attrIndex : Z) (attr : IAttribute)
    : Reader Change :=
  fun s =>
    match run (FromBinary (a_typeId attr)) s with
    | Some (v, s') =>
        Some ({| ch_index := attrIndex; ch_value := v;
                 ch_interpolate := negb isServer && a_interpolate attr |}, s')
    | None => None
    end.

(** Method 1: [n] more indexed attributes. *)
Fixpoint decodeIndices (isServer : bool) (attributes : list (option IAttribute))
    (n : nat) (s : BitStream) : Result (list Event) :=
  match n with
  | O => Returned []
  | S n' =>
      match Read_u8 s with
      | None => Thrown []
      | Some (attrIndex, s1) =>
          if size attributes <=? attrIndex
          then Returned [Warned "Out of bounds attribute index in EditAttributes message, skipping to next component"]
          else
            match attr_at attributes attrIndex with
            | None => Returned [Warned "Nonexistent attribute in EditAttributes message, skipping to next component"]
            | Some attr =>
                match readChange isServer attrIndex attr s1 with
                | None => Thrown []
                | Some (c, s2) =>
                    match decodeIndices isServer attributes n' s2 with
                    | Returned evs => Returned (Changed c :: evs)
                    | Thrown evs => Thrown (Changed c :: evs)
                    end
                end
            end
      end
  end.

(** Method 2: the bitmask, from attribute [i] on. *)
Fixpoint decodeMask (isServer : bool) (i : Z) (attributes : list (option IAttribute))
    (s : BitStream) : Result (list Event) :=
  match attributes with
  | [] => Returned []
  | a :: rest =>
      if BitsLeft s =? 0 then Returned []
      else
        match Read_bit s with
        | None => Thrown []
        | Some (changed, s1) =>
            if changed =? 0 then decodeMask isServer (i + 1) rest s1
            else
              match a with
              | None => Returned [Warned "Nonexistent attribute in EditAttributes message, skipping to next component"]
              | Some attr =>
                  match readChange isServer i attr s1 with
                  | None => Thrown []
                  | Some (c, s2) =>
                      match decodeMask isServer (i + 1) rest s2 with
                      | Returned evs => Returned (Changed c :: evs)
                      | Thrown evs => Thrown (Changed c :: evs)
                      end
                  end
              end
        end
  end.

Definition decodeEdit (isServer : bool) (attributes : list (option IAttribute))
    (attrDs : BitStream) : Result (list Event) :=
  match Read_bit attrDs with
  | None => Thrown []
  | Some (indexingMethod, s1) =>
      if indexingMethod =? 0
      then match Read_u8 s1 with
           | None => Thrown []
           | Some (numChangedAttrs, s2) =>
               decodeIndices isServer attributes (Z.to_nat numChangedAttrs) s2
           end
      else decodeMask isServer 0 attributes s1
  end.

(** What the sender meant to transmit: each changed attribute with its
    value. *)
Definition changesOf (isServer : bool) (attrs : list (option IAttribute)) (changed : list Z)
    : list Event :=
  flat_map
    (fun i => match attr_at attrs i with
              | Some a => [Changed {| ch_index := i; ch_value := a_value a;
                                      ch_interpolate := negb isServer && a_interpolate a |}]
              | None => []
              end)
    changed.

(** The same changes, read off the dirty bits in the order of the
    attribute vector from attribute [i] on, as the bitmask layout carries
    them. *)
Fixpoint maskChanges (isServer : bool) (dirty : list Z) (i : Z)
    (attrs : list (option IAttribute)) : list Event :=
  match attrs with
  | [] => []
  | a :: rest =>
      (if attr_dirty dirty i
       then match a with
            | Some a => [Changed {| ch_index := i; ch_value := a_value a;
                                    ch_interpolate := negb isServer && a_interpolate a |}]
            | None => []
            end
       else [])
      ++ maskChanges isServer dirty (i + 1) rest
  end.

(** The receiver's attribute vector has the slots of the sender's: the
    same length, and in each slot an attribute of the same type with the
    same metadata, or none in both. *)
Definition same_slots (mine theirs : list (option IAttribute)) : Prop :=
  Forall2 (fun a b =>
             match a, b with
             | Some a, Some b => a_typeId a = a_typeId b /\ a_interpolate a = a_interpolate b
             | None, None => True
             | _, _ => False
             end) mine theirs.

(** The codec law: a value that was written is read back, from exactly
    the bits that were written. *)
Definition codec_roundtrip : Prop :=
  forall (t : Z) (v : Value) (rest : BitStream),
    FromBinary t (ToBinary t v ++ rest) = Some (v, length (ToBinary t v)).

End Codec.

End EditBlock.

(* ===================================================================== *)
(** * Connections, signals and the marking of dirty state *)
(* ===================================================================== *)

Module Protocol.
Import Wire Scene SyncState EditBlock.

(** Modelled from the spec: the protocol versions, "values named
    [ProtocolOriginal < ProtocolHierarchicScene < ProtocolCustomComponents
    < ProtocolWebClientRigidBodyMessage]"; only their order is used. *)
Definition ProtocolOriginal : Z := 1.
Definition ProtocolHierarchicScene : Z := 2.
Definition ProtocolCustomComponents : Z := 3.
Definition ProtocolWebClientRigidBodyMessage : Z := 4.

(** What the engine needs from the scene classes, besides the data. *)
Class SceneAPI `{Attributes} : Type := {
  (** [UniqueIdGenerator]: the bounds of the id ranges of the data model *)
  FIRST_UNACKED_ID : Z;
  FIRST_LOCAL_ID : Z;
  LAST_REPLICATED_ID : Z;
  (** [Scene::AllowModifyEntity(user, entity)], by the id of the entity,
      0 for the question about the scene as a whole *)
  AllowModifyEntity : Z -> bool;
  (** [Scene::NextFreeId()] *)
  NextFreeId : gmap Z Entity -> Z;
  (** the id that [CreateComponentWithId] gives a component when it is
      asked for id 0 *)
  NextFreeComponentId : Entity -> Z;
  (** the component factory: a fresh component of a type, if the type is
      known *)
  newComponent : Z -> string -> option IComponent;
  (** a fresh dynamic attribute of a type, if the type is known *)
  newAttribute : Z -> string -> option IAttribute;
  (** [EntitySyncState::RefreshAvgUpdateInterval] *)
  RefreshAvgUpdateInterval : EntitySyncState -> EntitySyncState;
  (** [EC_Placeable::TypeIdStatic()] and the transform of a placeable's
      first attribute *)
  EC_Placeable_TypeId : Z;
  transformOf : Value -> Geometry.Transform;
}.

Section Engine.
Context `{SceneAPI}.

Definition IsLocal (id : Z) : bool := FIRST_LOCAL_ID <=? id.
Definition IsUnacked (id : Z) : bool := (FIRST_UNACKED_ID <=? id) && (id <? FIRST_LOCAL_ID).

(** ** Messages, as they are handed to [UserConnection::Send] *)

(** [WriteComponentFullUpdate]: id, type, name and the nested attribute
    block. *)
Record ComponentFullUpdate : Type := {
  fu_id : Z;
  fu_typeId : Z;
  fu_name : string;
  fu_attrData : BitStream;
}.

Inductive Message : Type :=
| MsgRemoveEntity (sceneId entityId : Z)
| MsgCreateEntity (sceneId entityId temporary : Z) (parentId : option Z)
    (comps : list ComponentFullUpdate)
| MsgRemoveComponents (sceneId entityId : Z) (compIds : list Z)
| MsgRemoveAttributes (sceneId entityId : Z) (attrs : list (Z * Z))
| MsgCreateComponents (sceneId entityId : Z) (comps : list ComponentFullUpdate)
| MsgCreateAttributes (sceneId entityId : Z) (attrs : list (Z * Z * Z * string * BitStream))
| MsgEditAttributes (sceneId entityId : Z) (blocks : list (Z * BitStream))
| MsgEditEntityProperties (sceneId entityId temporary : Z)
| MsgSetEntityParent (sceneId entityId parentId : Z)
| MsgCreateEntityReply (sceneId senderEntityId entityId : Z) (rewrites : list (Z * Z))
| MsgCreateComponentsReply (sceneId entityId : Z) (rewrites : list (Z * Z)).

(** ** Connections and the engine *)

Record SceneSyncState : Type := {
  entities : gmap Z EntitySyncState;
  dirtyQueue : list Z;
}.

Record UserConnection : Type := {
  authenticated : bool;
  protocolVersion : Z;
  isKNet : bool;
  syncState : option SceneSyncState;
  unackedIdsToRealIds : gmap Z Z;
  sentMessages : list Message;
}.

(** A call that changes the scene, as the scene sees it. *)
Inductive SceneCall : Type :=
| CallCreateEntity (id : Z)
| CallRemoveEntity (id : Z) (change : AttributeChange)
| CallCreateComponent (entity comp : Z) (change : AttributeChange)
| CallRemoveComponent (entity comp : Z) (change : AttributeChange)
| CallCreateAttribute (entity comp index : Z) (change : AttributeChange)
| CallSetTemporary (entity : Z) (value : bool) (change : AttributeChange)
| CallSetParent (entity parent : Z) (change : AttributeChange).

(** [Scene::StartAttributeInterpolation(attr, endValue, duration)] *)
Record Interpolation : Type := {
  i_entity : Z;
  i_comp : Z;
  i_index : Z;
  i_endValue : Value;
  i_duration : Q;
}.

(** The engine while a message from [source] is handled.  On a server
    [source] and [peers] are the connections of
    [owner_->GetServer()->UserConnections()]; on a client [source] is
    [serverConnection_] and there are no peers.  [calls] lists the calls
    made on the scene, oldest first. *)
Record World : Type := {
  isServer : bool;
  scene : option (gmap Z Entity);
  source : UserConnection;
  peers : list UserConnection;
  log : list LogEntry;
  mismatchingComponentTypes : gset Z;
  interpolations : list Interpolation;
  calls : list SceneCall;
  updatePeriod_ : Q;
}.

Definition set_syncState (st : option SceneSyncState) (c : UserConnection) : UserConnection :=
  {| authenticated := authenticated c; protocolVersion := protocolVersion c;
     isKNet := isKNet c; syncState := st;
     unackedIdsToRealIds := unackedIdsToRealIds c; sentMessages := sentMessages c |}.

Definition set_unackedIdsToRealIds (m : gmap Z Z) (c : UserConnection) : UserConnection :=
  {| authenticated := authenticated c; protocolVersion := protocolVersion c;
     isKNet := isKNet c; syncState := syncState c;
     unackedIdsToRealIds := m; sentMessages := sentMessages c |}.

Definition Send (m : Message) (c : UserConnection) : UserConnection :=
  {| authenticated := authenticated c; protocolVersion := protocolVersion c;
     isKNet := isKNet c; syncState := syncState c;
     unackedIdsToRealIds := unackedIdsToRealIds c;
     sentMessages := sentMessages c ++ [m] |}.

Definition set_scene (sc : gmap Z Entity) (w : World) : World :=
  {| isServer := isServer w; scene := Some sc; source := source w; peers := peers w;
     log := log w; mismatchingComponentTypes := mismatchingComponentTypes w;
     interpolations := interpolations w; calls := calls w;
     updatePeriod_ := updatePeriod_ w |}.

Definition set_users (src : UserConnection) (ps : list UserConnection) (w : World) : World :=
  {| isServer := isServer w; scene := scene w; source := src; peers := ps;
     log := log w; mismatchingComponentTypes := mismatchingComponentTypes w;
     interpolations := interpolations w; calls := calls w;
     updatePeriod_ := updatePeriod_ w |}.

Definition set_source (src : UserConnection) (w : World) : World := set_users src (peers w) w.

Definition do_Log (level : LogLevel) (text : string) (w : World) : World :=
  {| isServer := isServer w; scene := scene w; source := source w; peers := peers w;
     log := log w ++ [(level, text)];
     mismatchingComponentTypes := mismatchingComponentTypes w;
     interpolations := interpolations w; calls := calls w;
     updatePeriod_ := updatePeriod_ w |}.

Definition set_mismatching (m : gset Z) (w : World) : World :=
  {| isServer := isServer w; scene := scene w; source := source w; peers := peers w;
     log := log w; mismatchingComponentTypes := m;
     interpolations := interpolations w; calls := calls w;
     updatePeriod_ := updatePeriod_ w |}.

Definition set_interpolations (l : list Interpolation) (w : World) : World :=
  {| isServer := isServer w; scene := scene w; source := source w; peers := peers w;
     log := log w; mismatchingComponentTypes := mismatchingComponentTypes w;
     interpolations := l; calls := calls w; updatePeriod_ := updatePeriod_ w |}.

Definition do_Call (c : SceneCall) (w : World) : World :=
  {| isServer := isServer w; scene := scene w; source := source w; peers := peers w;
     log := log w; mismatchingComponentTypes := mismatchingComponentTypes w;
     interpolations := interpolations w; calls := calls w ++ [c];
     updatePeriod_ := updatePeriod_ w |}.

(** The scene of the handlers, which have tested it for null. *)
Definition the_scene (w : World) : gmap Z Entity := default ∅ (scene w).

(** [state->...] for the sync state of [source], which has been tested
    for null. *)
Definition on_state (f : SceneSyncState -> SceneSyncState) (w : World) : World :=
  set_source (set_syncState (f <$> syncState (source w)) (source w)) w.

(** ** The sync state: marking and unmarking *)

(** Modelled from the spec: the sync-state classes of SyncState.h, which
    is not among the sources.  "Entity/component created locally ->
    [isNew=true] in every connection's state": a state that is made by a
    lookup starts new, with nothing else set. *)
Definition newComponentSyncState : ComponentSyncState :=
  {| c_isNew := true; c_removed := false; c_isInQueue := false;
     dirtyAttributes := repeat 0 32; newAndRemovedAttributes := ∅ |}.

Definition newEntitySyncState : EntitySyncState :=
  {| id := 0; isNew := true; removed := false; isInQueue := false;
     hasPropertyChanges := false; hasParentChange := false;
     SyncState.components := ∅; SyncState.dirtyQueue := []; transform :=
       {| Geometry.pos := Geometry.zero; Geometry.rot := Geometry.zero;
          Geometry.scale := Geometry.zero |};
     linearVelocity := Geometry.zero; angularVelocity := Geometry.zero;
     lastNetworkSendTime := 0; avgUpdateInterval := 0 |}.

(** [state->entities[id]] and [entityState.components[id]]: the entry,
    made on the spot when there is none. *)
Definition entity_at (st : SceneSyncState) (i : Z) : EntitySyncState :=
  default newEntitySyncState (entities st !! i).

Definition component_at (es : EntitySyncState) (i : Z) : ComponentSyncState :=
  default newComponentSyncState (SyncState.components es !! i).

Definition set_entity (i : Z) (es : EntitySyncState) (st : SceneSyncState) : SceneSyncState :=
  {| entities := <[i := es]> (entities st); dirtyQueue := dirtyQueue st |}.

Definition set_component (i : Z) (cs : ComponentSyncState) (es : EntitySyncState)
    : EntitySyncState :=
  SyncState.set_components (<[i := cs]> (SyncState.components es)) es.

(** Modelled from the spec: [SceneSyncState::MarkEntityDirty(id,
    hasPropertyChanges, hasParentChange)]: "marks the corresponding dirty
    bit" and puts the entity into the dirty queue, the "ordered set of
    entities awaiting transmission". *)
Definition MarkEntityDirty (i : Z) (prop par : bool) (st : SceneSyncState) : SceneSyncState :=
  let es := entity_at st i in
  let es := set_flags (isNew es) (removed es) true
              (hasPropertyChanges es || prop) (hasParentChange es || par) (set_id i es) in
  {| entities := <[i := es]> (entities st);
     dirtyQueue := if isInQueue (entity_at st i) then dirtyQueue st else dirtyQueue st ++ [i] |}.

(** Modelled from the spec: [SceneSyncState::MarkComponentDirty]. *)
Definition MarkComponentDirty (e c : Z) (st : SceneSyncState) : SceneSyncState :=
  let st := MarkEntityDirty e false false st in
  let es := entity_at st e in
  let cs := component_at es c in
  let es := set_component c (set_c_isInQueue true cs) es in
  let es := if c_isInQueue cs then es
            else set_dirtyQueue (SyncState.dirtyQueue es ++ [c]) es in
  set_entity e es st.

(** Modelled from the spec: [SceneSyncState::MarkAttributeDirty]:
    "attribute value changed -> bit set in per-attribute dirty bitmap". *)
Definition MarkAttributeDirty (e c attrIndex : Z) (st : SceneSyncState) : SceneSyncState :=
  let st := MarkComponentDirty e c st in
  let es := entity_at st e in
  let cs := component_at es c in
  let a := dirtyAttributes cs in
  let n := Z.to_nat (Z.shiftr attrIndex 3) in
  let cs := set_dirtyAttributes
              (set_byte a n (Z.lor (byte_at a n) (Z.shiftl 1 (Z.land attrIndex 7)))) cs in
  set_entity e (set_component c cs es) st.

(** Modelled from the spec: [ComponentSyncState::DirtyProcessed]: after a
    component has been sent, or received, nothing of it is dirty. *)
Definition ComponentDirtyProcessed (cs : ComponentSyncState) : ComponentSyncState :=
  {| c_isNew := false; c_removed := c_removed cs; c_isInQueue := false;
     dirtyAttributes := repeat 0 32; newAndRemovedAttributes := ∅ |}.

(** Modelled from the spec: [SceneSyncState::MarkComponentProcessed]. *)
Definition componentProcessed (c : Z) (es : EntitySyncState) : EntitySyncState :=
  set_dirtyQueue (filter (fun i => i <> c) (SyncState.dirtyQueue es))
    (set_component c (ComponentDirtyProcessed (component_at es c)) es).

Definition MarkComponentProcessed (e c : Z) (st : SceneSyncState) : SceneSyncState :=
  set_entity e (componentProcessed c (entity_at st e)) st.

(** Modelled from the spec: [SceneSyncState::MarkEntityProcessed] and the
    [EntitySyncState::DirtyProcessed] behind it: "sent as part of create
    message -> cleared"; the code says "The create has been processed
    fully. Clear dirty flags." *)
Definition entityProcessed (es : EntitySyncState) : EntitySyncState :=
  let es := SyncState.set_components (ComponentDirtyProcessed <$> SyncState.components es) es in
  let es := set_dirtyQueue [] es in
  set_flags false (removed es) (isInQueue es) false false es.

Definition MarkEntityProcessed (e : Z) (st : SceneSyncState) : SceneSyncState :=
  set_entity e (entityProcessed (entity_at st e)) st.

(** ** Signals and the slots of [SyncManager] *)

(** The signals of the scene that [RegisterToScene] connects, with what
    the slots read from their arguments. *)
Inductive Signal : Type :=
| AttributeChanged (entity comp : Z) (compIsLocal : bool) (index : Z)
    (interpolated : bool) (change : AttributeChange)
| ComponentAdded (entity comp : Z) (compIsLocal : bool) (change : AttributeChange)
| EntityCreated (entity : Z) (change : AttributeChange)
| EntityTemporaryStateToggled (entity : Z) (change : AttributeChange)
| EntityParentChanged (entity newParent : Z) (change : AttributeChange).

Definition is_Replicate (change : AttributeChange) : bool :=
  match change with Replicate => true | _ => false end.

(** "for each client connected to this server" / "as a client":
    [f] on the sync state of every connection that has one. *)
Definition mark (f : SceneSyncState -> SceneSyncState) (w : World) : World :=
  let on c := set_syncState (f <$> syncState c) c in
  if isServer w then set_users (on (source w)) (map on (peers w)) w
  else set_source (on (source w)) w.

(** [Scene::EndAttributeInterpolation(attr)] *)
Definition EndAttributeInterpolation (e c index : Z) (w : World) : World :=
  set_interpolations
    (filter (fun i => negb ((i_entity i =? e) && (i_comp i =? c) && (i_index i =? index)))
            (interpolations w)) w.

(** [OnAttributeChanged] *)
Definition OnAttributeChanged (e c : Z) (compIsLocal : bool) (index : Z) (interpolated : bool)
    (change : AttributeChange) (w : World) : World :=
  let w := if negb (isServer w) && interpolated
           then EndAttributeInterpolation e c index w else w in
  if negb (is_Replicate change) || compIsLocal then w
  else if IsLocal e then w
  else mark (MarkAttributeDirty e c index) w.

(** [OnComponentAdded] *)
Definition OnComponentAdded (e c : Z) (compIsLocal : bool) (change : AttributeChange)
    (w : World) : World :=
  if negb (is_Replicate change) || compIsLocal then w
  else if IsLocal e then w
  else mark (MarkComponentDirty e c) w.

(** [OnEntityCreated]; the warning about a queued deletion is left out. *)
Definition OnEntityCreated (e : Z) (change : AttributeChange) (w : World) : World :=
  if negb (is_Replicate change) || IsLocal e then w
  else mark (MarkEntityDirty e false false) w.

(** [OnEntityPropertiesChanged] *)
Definition OnEntityPropertiesChanged (e : Z) (change : AttributeChange) (w : World) : World :=
  if negb (is_Replicate change) || IsLocal e then w
  else mark (MarkEntityDirty e true false) w.

(** [OnEntityParentChanged]; [newParent] is 0 for no parent. *)
Definition OnEntityParentChanged (e newParent : Z) (change : AttributeChange) (w : World)
    : World :=
  if negb (is_Replicate change) || IsLocal e then w
  else if negb (newParent =? 0) && IsLocal newParent
       then do_Log LogError
              "Replicated entity is parented to a local entity, can not replicate parenting properly over the network" w
       else mark (MarkEntityDirty e false true) w.

Definition emit (sig : Signal) (w : World) : World :=
  match sig with
  | AttributeChanged e c l i ip change => OnAttributeChanged e c l i ip change w
  | ComponentAdded e c l change => OnComponentAdded e c l change w
  | EntityCreated e change => OnEntityCreated e change w
  | EntityTemporaryStateToggled e change => OnEntityPropertiesChanged e change w
  | EntityParentChanged e p change => OnEntityParentChanged e p change w
  end.

(** ** The scene: its mutating operations *)

(** Modelled from the spec: the operations of the scene model (Scene.h,
    Entity.h, IComponent.h and IAttribute.h are not among the sources).
    "Every mutation accepts a change kind"; "[Disconnected] is used while
    applying inbound network changes to avoid emitting events"; "[Default]
    resolves to [Replicate] for replicated components/entities".  An
    operation records its call, changes the scene, and, unless the change
    kind is [Disconnected], hands its signal to the slots. *)
Definition resolve (replicated : bool) (change : AttributeChange) : AttributeChange :=
  match change with
  | Default => if replicated then Replicate else LocalOnly
  | c => c
  end.

Definition signalled (change : AttributeChange) : bool :=
  match change with Disconnected => false | _ => true end.

Definition update_entity (e : Z) (f : Entity -> Entity) (w : World) : World :=
  match the_scene w !! e with
  | Some ent => set_scene (<[e := f ent]> (the_scene w)) w
  | None => w
  end.

Definition update_component (e c : Z) (f : IComponent -> IComponent) (w : World) : World :=
  update_entity e
    (fun ent => match Scene.components ent !! c with
                | Some comp => Scene.set_components (<[c := f comp]> (Scene.components ent)) ent
                | None => ent
                end) w.

Definition component_of (w : World) (e c : Z) : option IComponent :=
  the_scene w !! e ≫= fun ent => Scene.components ent !! c.

(** [Entity::SetTemporary] *)
Definition Entity_SetTemporary (e : Z) (b : bool) (change : AttributeChange) (w : World)
    : World :=
  let change := resolve (negb (IsLocal e)) change in
  let toggled := match the_scene w !! e with
                 | Some ent => negb (eqb (temporary ent) b)
                 | None => false
                 end in
  let w := do_Call (CallSetTemporary e b change) (update_entity e (set_temporary b) w) in
  if toggled && signalled change then emit (EntityTemporaryStateToggled e change) w else w.

(** [Entity::SetParent]; [p] is 0 for no parent. *)
Definition Entity_SetParent (e p : Z) (change : AttributeChange) (w : World) : World :=
  let change := resolve (negb (IsLocal e)) change in
  let w := do_Call (CallSetParent e p change) (update_entity e (set_parent p) w) in
  if signalled change then emit (EntityParentChanged e p change) w else w.

(** [Scene::CreateEntity(id)]: the id of the entity made (a free id when
    [id] is 0), or null when the id is taken.  The signal is left to
    [EmitEntityCreated]. *)
Definition Scene_CreateEntity (i : Z) (w : World) : option (Z * World) :=
  let i := if i =? 0 then NextFreeId (the_scene w) else i in
  match the_scene w !! i with
  | Some _ => None
  | None =>
      Some (i, do_Call (CallCreateEntity i)
                 (set_scene (<[i := {| temporary := false; parent := 0;
                                       Scene.components := ∅ |}]> (the_scene w)) w))
  end.

(** [Scene::RemoveEntity(id, change)]; none of the handlers below removes
    an entity with a change kind that the slots act on. *)
Definition Scene_RemoveEntity (i : Z) (change : AttributeChange) (w : World) : World :=
  do_Call (CallRemoveEntity i change) (set_scene (delete i (the_scene w)) w).

(** [Entity::CreateComponentWithId(compId, typeId, name, change)]: the id
    of the component made, or null when the type is unknown or the id is
    taken. *)
Definition Entity_CreateComponentWithId (e compID typeID : Z) (name : string)
    (change : AttributeChange) (w : World) : option (Z * World) :=
  match the_scene w !! e, newComponent typeID name with
  | Some ent, Some comp =>
      let c := if compID =? 0 then NextFreeComponentId ent else compID in
      match Scene.components ent !! c with
      | Some _ => None
      | None =>
          let change := resolve (c_replicated comp) change in
          let w := do_Call (CallCreateComponent e c change)
                     (update_entity e
                        (fun ent => Scene.set_components (<[c := comp]> (Scene.components ent)) ent)
                        w) in
          Some (c, if signalled change
                   then emit (ComponentAdded e c (negb (c_replicated comp)) change) w
                   else w)
      end
  | _, _ => None
  end.

(** [Entity::RemoveComponent] and [Entity::RemoveComponentById]; as for
    entities, no handler below removes a component with a change kind
    that the slots act on. *)
Definition Entity_RemoveComponent (e c : Z) (change : AttributeChange) (w : World) : World :=
  do_Call (CallRemoveComponent e c change)
    (update_entity e
       (fun ent => Scene.set_components (delete c (Scene.components ent)) ent) w).

(** [attrs[index] = a], with null slots in between when the vector has to
    grow. *)
Definition put_attribute (index : Z) (a : IAttribute) (attrs : list (option IAttribute))
    : list (option IAttribute) :=
  <[Z.to_nat index := Some a]>
    (attrs ++ repeat None (Z.to_nat index + 1 - length attrs)).

(** [IComponent::CreateAttribute(index, typeId, name, change)]: the
    attribute made, or null.  The slot behind the signal of the new
    attribute records it in [newAndRemovedAttributes]; that record is
    cleared with the rest when the component is marked processed. *)
Definition Component_CreateAttribute (e c index typeId : Z) (name : string)
    (change : AttributeChange) (w : World) : option (IAttribute * World) :=
  match component_of w e c, newAttribute typeId name with
  | Some comp, Some a =>
      if negb (SupportsDynamicAttributes comp)
         || bool_decide (is_Some (attr_at (attributes comp) index))
      then None
      else Some (a, do_Call (CallCreateAttribute e c index change)
                      (update_component e c
                         (fun comp => set_attributes (put_attribute index a (attributes comp)) comp)
                         w))
  | _, _ => None
  end.

(** The effect of [attr->FromBinary(ds, AttributeChange::Disconnected)]
    on the scene: the attribute has the value read. *)
Definition set_value (e c index : Z) (v : Value) (w : World) : World :=
  update_component e c
    (fun comp =>
       match attr_at (attributes comp) index with
       | Some a => set_attributes (<[Z.to_nat index := Some (set_a_value v a)]> (attributes comp)) comp
       | None => comp
       end) w.

(** [IComponent::EmitAttributeChanged(attr, change)] *)
Definition EmitAttributeChanged (e c index : Z) (change : AttributeChange) (w : World) : World :=
  match component_of w e c with
  | Some comp =>
      match attr_at (attributes comp) index with
      | Some a =>
          let change := resolve (c_replicated comp) change in
          if signalled change
          then emit (AttributeChanged e c (negb (c_replicated comp)) index (a_interpolate a) change) w
          else w
      | None => w
      end
  | None => w
  end.

(** [IComponent::ComponentChanged(change)]: every attribute is signalled
    as changed. *)
Definition ComponentChanged (e c : Z) (change : AttributeChange) (w : World) : World :=
  match component_of w e c with
  | Some comp =>
      fold_left (fun w index => EmitAttributeChanged e c index change w)
                (seqZ 0 (size (attributes comp))) w
  | None => w
  end.

(** [Scene::EmitEntityCreated(entity, change)] *)
Definition EmitEntityCreated (e : Z) (change : AttributeChange) (w : World) : World :=
  let change := resolve (negb (IsLocal e)) change in
  if signalled change then emit (EntityCreated e change) w else w.

(** [Scene::StartAttributeInterpolation(attr, endValue, duration)] *)
Definition StartAttributeInterpolation (e c index : Z) (endValue : Value) (duration : Q)
    (w : World) : World :=
  set_interpolations
    (interpolations w ++ [{| i_entity := e; i_comp := c; i_index := index;
                             i_endValue := endValue; i_duration := duration |}]) w.

(** ** The handlers *)

(** [SyncManager::ValidateAction] *)
Definition ValidateAction (w : World) : bool :=
  if negb (isServer w) then true
  else authenticated (source w).

(** "For clients, the change type is LocalOnly. For server, the change
    type is Replicate". *)
Definition changeOf (w : World) : AttributeChange :=
  if isServer w then Replicate else LocalOnly.

(** The guard at the head of the scene handlers. *)
Definition ready (w : World) : bool :=
  bool_decide (is_Some (scene w)) && bool_decide (is_Some (syncState (source w))).

(** [state->entities[entityID].hasPropertyChanges = false] and its like. *)
Definition on_entityState (e : Z) (f : EntitySyncState -> EntitySyncState) (w : World) : World :=
  on_state (fun st => set_entity e (f (entity_at st e)) st) w.

(** [SyncManager::HandleEditEntityProperties] *)
Definition HandleEditEntityProperties (data : BitStream) (w : World) : Result World :=
  if negb (ready w)
  then Returned (do_Log LogWarning
                   "Null scene or sync state, disregarding EditEntityProperties message" w)
  else
    match ReadVLE data with
    | None => Thrown w
    | Some (sceneID, ds) =>
        match ReadVLE ds with
        | None => Thrown w
        | Some (entityID, ds) =>
            if negb (ValidateAction w) then Returned w
            else
              match the_scene w !! entityID with
              | Some _ =>
                  if negb (AllowModifyEntity entityID) then Returned w
                  else
                    match Read_u8 ds with
                    | None => Thrown w
                    | Some (b, _) =>
                        let newTemporary := negb (b =? 0) in
                        let w := Entity_SetTemporary entityID newTemporary (changeOf w) w in
                        Returned (on_entityState entityID (set_hasPropertyChanges false) w)
                    end
              | None =>
                  Returned (do_Log LogWarning "Entity not found for EditAttributes message" w)
              end
        end
    end.

(** The conversion of an id of the unacked range in
    [HandleSetEntityParent]: the id to go on with, or none when the
    message is to be dropped. *)
Definition convertUnacked (w : World) (i : Z) : option Z :=
  if isServer w && IsUnacked i
  then unackedIdsToRealIds (source w) !! i
  else Some i.

(** [HandleSetEntityParent] from [ValidateAction] on, with the ids it
    goes on with. *)
Definition applySetEntityParent (entityID parentEntityID : Z) (w : World) : Result World :=
  if negb (ValidateAction w) then Returned w
  else
    match the_scene w !! entityID with
    | Some _ =>
        if negb (AllowModifyEntity entityID) then Returned w
        else if negb (parentEntityID =? 0)
                && negb (bool_decide (is_Some (the_scene w !! parentEntityID)))
        then Returned (do_Log LogWarning
                         "Parent entity not found for SetEntityParent message" w)
        else
          let w := Entity_SetParent entityID parentEntityID (changeOf w) w in
          Returned (on_entityState entityID (set_hasParentChange false) w)
    | None =>
        Returned (do_Log LogWarning "Entity not found for SetEntityParent message" w)
    end.

(** [SyncManager::HandleSetEntityParent] *)
Definition HandleSetEntityParent (data : BitStream) (w : World) : Result World :=
  if negb (ready w)
  then Returned (do_Log LogWarning
                   "Null scene or sync state, disregarding SetEntityParent message" w)
  else
    match ReadVLE data with
    | None => Thrown w
    | Some (sceneID, ds) =>
        match Read_u32 ds with
        | None => Thrown w
        | Some (entityID, ds) =>
            match Read_u32 ds with
            | None => Thrown w
            | Some (parentEntityID, _) =>
                match convertUnacked w entityID with
                | None =>
                    Returned (do_Log LogWarning
                                "Client sent unknown unacked entity ID in SetEntityParent message" w)
                | Some entityID =>
                    match convertUnacked w parentEntityID with
                    | None =>
                        Returned (do_Log LogWarning
                                    "Client sent unknown unacked parent entity ID in SetEntityParent message" w)
                    | Some parentEntityID => applySetEntityParent entityID parentEntityID w
                    end
                end
            end
        end
    end.

(** [state->entities[e].components[c].dirtyAttributes[index >> 3] &= ~(1 << (index & 7))] *)
Definition clearDirtyBit (e c index : Z) (w : World) : World :=
  on_entityState e
    (fun es => set_component c
                 (set_dirtyAttributes
                    (clear_attr_dirty (dirtyAttributes (component_at es c)) index)
                    (component_at es c)) es) w.

(** What the handler does with one event of a component block: a value is
    set, or an interpolation towards it is started.  [changedAttrs] are
    the attributes, by component and index, that are signalled later. *)
Definition applyEvent (e c : Z) (updateInterval : Q) (acc : World * list (Z * Z)) (ev : Event)
    : World * list (Z * Z) :=
  match ev with
  | Warned text => (do_Log LogWarning text (fst acc), snd acc)
  | Changed ch =>
      if ch_interpolate ch
      then (StartAttributeInterpolation e c (ch_index ch) (ch_value ch) updateInterval (fst acc),
            snd acc)
      else (set_value e c (ch_index ch) (ch_value ch) (fst acc), snd acc ++ [(c, ch_index ch)])
  end.

(** The loop [while (ds.BitsLeft() >= 8)] of [HandleEditAttributes].
    Every turn reads at least a byte, so [fuel] as large as the stream
    is long never runs out. *)
Fixpoint editComponents (fuel : nat) (e : Z) (updateInterval : Q) (ds : BitStream)
    (acc : World * list (Z * Z)) : Result (World * list (Z * Z)) :=
  if 8 <=? BitsLeft ds
  then
    match fuel with
    | O => Returned acc
    | S fuel =>
        match ReadVLE ds with
        | None => Thrown acc
        | Some (compID, ds1) =>
            match ReadVLE ds1 with
            | None => Thrown acc
            | Some (attrDataSize, ds2) =>
                match ReadArray attrDataSize ds2 with
                | None => Thrown acc
                | Some (attrDs, ds3) =>
                    match component_of (fst acc) e compID with
                    | None =>
                        editComponents fuel e updateInterval ds3
                          (do_Log LogWarning
                             "Component not found for EditAttributes message, skipping to next component"
                             (fst acc), snd acc)
                    | Some comp =>
                        match decodeEdit (isServer (fst acc)) (attributes comp) attrDs with
                        | Returned evs =>
                            editComponents fuel e updateInterval ds3
                              (fold_left (applyEvent e compID updateInterval) evs acc)
                        | Thrown evs =>
                            Thrown (fold_left (applyEvent e compID updateInterval) evs acc)
                        end
                    end
                end
            end
        end
    end
  else Returned acc.

(** "Signal attribute changes after reading all": the signal, then the
    dirty bit of the sender's sync state is cleared. *)
Definition signalAndClear (e : Z) (change : AttributeChange) (w : World) (a : Z * Z) : World :=
  clearDirtyBit e (fst a) (snd a) (EmitAttributeChanged e (fst a) (snd a) change w).

(** [HandleEditAttributes] up to "Signal attribute changes after reading
    all": the entity of the message, the engine, and [changedAttrs]. *)
Record EditRead : Type := {
  er_entity : Z;
  er_world : World;
  er_changed : list (Z * Z);
}.

Definition readEditAttributes (data : BitStream) (w : World) : Result EditRead :=
  let stop e w := {| er_entity := e; er_world := w; er_changed := [] |} in
  if negb (ready w)
  then Returned (stop 0 (do_Log LogWarning
                           "Null scene or sync state, disregarding EditAttributes message" w))
  else
    match ReadVLE data with
    | None => Thrown (stop 0 w)
    | Some (sceneID, ds) =>
        match ReadVLE ds with
        | None => Thrown (stop 0 w)
        | Some (entityID, ds) =>
            if negb (ValidateAction w) then Returned (stop entityID w)
            else
              match the_scene w !! entityID with
              | Some _ =>
                  if negb (AllowModifyEntity entityID) then Returned (stop entityID w)
                  else
                    let found :=
                      syncState (source w) ≫= fun st => entities st !! entityID in
                    let w := match found with
                             | Some es => on_state (set_entity entityID (RefreshAvgUpdateInterval es)) w
                             | None => w
                             end in
                    let updateInterval :=
                      match found with
                      | Some es =>
                          if negb (Qle_bool (avgUpdateInterval (RefreshAvgUpdateInterval es)) 0)
                          then avgUpdateInterval (RefreshAvgUpdateInterval es)
                          else updatePeriod_ w
                      | None => updatePeriod_ w
                      end in
                    let updateInterval := (updateInterval * (5 / 4))%Q in
                    match editComponents (length ds) entityID updateInterval ds (w, []) with
                    | Thrown acc => Thrown {| er_entity := entityID; er_world := fst acc;
                                              er_changed := snd acc |}
                    | Returned acc => Returned {| er_entity := entityID; er_world := fst acc;
                                                  er_changed := snd acc |}
                    end
              | None =>
                  Returned (stop entityID
                              (do_Log LogWarning "Entity not found for EditAttributes message" w))
              end
        end
    end.

(** [SyncManager::HandleEditAttributes] *)
Definition HandleEditAttributes (data : BitStream) (w : World) : Result World :=
  match readEditAttributes data w with
  | Thrown r => Thrown (er_world r)
  | Returned r =>
      Returned (fold_left (signalAndClear (er_entity r) (changeOf w)) (er_changed r) (er_world r))
  end.

(** ** Creating entities and components from a message *)

(** The once-per-type warning about a version mismatch. *)
Definition warnMismatch (typeId : Z) (text : string) (w : World) : World :=
  if bool_decide (typeId ∈ mismatchingComponentTypes w) then w
  else do_Log LogWarning text (set_mismatching ({[typeId]} ∪ mismatchingComponentTypes w) w).

(** "Fill static attributes": the static attributes from index [i] on. *)
Fixpoint readStaticAttributes (e c typeId : Z) (i : Z) (attrs : list (option IAttribute))
    (attrDs : BitStream) (w : World) : Result (World * BitStream) :=
  match attrs with
  | [] => Returned (w, attrDs)
  | a :: rest =>
      if 8 <=? BitsLeft attrDs
      then match a with
           | Some attr =>
               match run (FromBinary (a_typeId attr)) attrDs with
               | None => Thrown (w, attrDs)
               | Some (v, attrDs') =>
                   readStaticAttributes e c typeId (i + 1) rest attrDs' (set_value e c i v w)
               end
           | None => readStaticAttributes e c typeId (i + 1) rest attrDs w
           end
      else Returned (warnMismatch typeId
                       "Not enough static attribute data in component (version mismatch)." w,
                     attrDs)
  end.

(** "Create any dynamic attributes".  Every turn reads two bytes, so
    [fuel] as large as the stream is long never runs out. *)
Fixpoint readDynamicAttributes (fuel : nat) (e c : Z) (change : AttributeChange)
    (attrDs : BitStream) (w : World) : Result World :=
  if 2 * 8 <? BitsLeft attrDs
  then
    match fuel with
    | O => Returned w
    | S fuel =>
        match Read_u8 attrDs with
        | None => Thrown w
        | Some (index, s1) =>
            match Read_u8 s1 with
            | None => Thrown w
            | Some (typeId, s2) =>
                match run ReadString s2 with
                | None => Thrown w
                | Some (name, s3) =>
                    match Component_CreateAttribute e c index typeId name change w with
                    | None =>
                        Returned (do_Log LogWarning
                                    "Failed to create dynamic attribute. Skipping rest of the attributes for this component." w)
                    | Some (newAttr, w') =>
                        match run (FromBinary (a_typeId newAttr)) s3 with
                        | None => Thrown w'
                        | Some (v, s4) =>
                            readDynamicAttributes fuel e c change s4 (set_value e c index v w')
                        end
                    end
                end
            end
        end
    end
  else Returned w.

(** The state of the two loops that read components: the engine, the
    stream, [componentIdRewrites] and [addedComponents]. *)
Record Reading : Type := {
  r_world : World;
  r_ds : BitStream;
  componentIdRewrites : list (Z * Z);
  addedComponents : list Z;
}.

Definition set_r_world (w : World) (r : Reading) : Reading :=
  {| r_world := w; r_ds := r_ds r; componentIdRewrites := componentIdRewrites r;
     addedComponents := addedComponents r |}.

(** One component: the body that the loops of [HandleCreateEntity] and
    [HandleCreateComponents] share.  [entity] is the id of the entity in
    the scene, [entityID] the id under which the sync state knows it. *)
Definition readComponent (entity entityID : Z) (r : Reading) : Result Reading :=
  let w := r_world r in
  let change := changeOf w in
  match ReadVLE (r_ds r) with
  | None => Thrown r
  | Some (senderCompID, ds1) =>
      let compID := if isServer w then 0 else senderCompID in
      match ReadVLE ds1 with
      | None => Thrown r
      | Some (typeID, ds2) =>
          match run ReadString ds2 with
          | None => Thrown r
          | Some (name, ds3) =>
              match ReadVLE ds3 with
              | None => Thrown r
              | Some (attrDataSize, ds4) =>
                  match ReadArray attrDataSize ds4 with
                  | None => Thrown r
                  | Some (attrDs, ds5) =>
                      let w :=
                        if negb (isServer w)
                           && bool_decide (is_Some (component_of w entity compID))
                        then Entity_RemoveComponent entity compID LocalOnly
                               (do_Log LogWarning
                                  "Received component creation from server for component ID that already exists. Removing the old component." w)
                        else w in
                      match Entity_CreateComponentWithId entity compID typeID name change w with
                      | None =>
                          Returned {| r_world := do_Log LogWarning
                                                   "Failed to create component, skipping component" w;
                                      r_ds := ds5;
                                      componentIdRewrites := componentIdRewrites r;
                                      addedComponents := addedComponents r |}
                      | Some (made, w) =>
                          let rewrites :=
                            if isServer w
                            then componentIdRewrites r ++ [(senderCompID, made)]
                            else componentIdRewrites r in
                          let compID := if isServer w then made else compID in
                          let w := on_state (MarkComponentProcessed entityID compID) w in
                          let r := {| r_world := w; r_ds := ds5;
                                      componentIdRewrites := rewrites;
                                      addedComponents := addedComponents r ++ [made] |} in
                          match component_of w entity made with
                          | None => Returned r
                          | Some comp =>
                              match readStaticAttributes entity made (c_typeId comp) 0
                                      (take (NumStaticAttributes comp) (attributes comp))
                                      attrDs w with
                              | Thrown (w, _) => Thrown (set_r_world w r)
                              | Returned (w, attrDs) =>
                                  if SupportsDynamicAttributes comp
                                  then match readDynamicAttributes (length attrDs) entity made
                                               change attrDs w with
                                       | Thrown w => Thrown (set_r_world w r)
                                       | Returned w => Returned (set_r_world w r)
                                       end
                                  else if negb (BitsLeft attrDs =? 0)
                                       then Returned
                                              (set_r_world
                                                 (warnMismatch (c_typeId comp)
                                                    "Extra static attribute data in component (version mismatch)." w) r)
                                       else Returned (set_r_world w r)
                              end
                          end
                      end
                  end
              end
          end
      end
  end.

(** [for (uint i = 0; i < numComponents; ++i)] *)
Fixpoint readComponents (n : nat) (entity entityID : Z) (r : Reading) : Result Reading :=
  match n with
  | O => Returned r
  | S n =>
      match readComponent entity entityID r with
      | Thrown r => Thrown r
      | Returned r => readComponents n entity entityID r
      end
  end.

(** [HandleCreateEntity] with the parent id it goes on with: the parent
    is set when the id is not 0 and the scene has the entity. *)
Definition linkParent (entity parentEntityID : Z) (w : World) : World :=
  if negb (parentEntityID =? 0)
  then if bool_decide (is_Some (the_scene w !! parentEntityID))
       then Entity_SetParent entity parentEntityID (changeOf w) w
       else do_Log LogWarning
              "Parent entity id not found from scene when handling CreateEntity message" w
  else w.

(** "In hierarchic scene protocol, read the parent entity ID": the engine
    and the stream afterwards; [None] when the read throws. *)
Definition readParent (entity : Z) (ds : BitStream) (w : World) : option (World * BitStream) :=
  if ProtocolHierarchicScene <=? protocolVersion (source w)
  then
    match Read_u32 ds with
    | None => None
    | Some (parentEntityID, ds) =>
        if isServer w && IsUnacked parentEntityID
        then match unackedIdsToRealIds (source w) !! parentEntityID with
             | Some real => Some (linkParent entity real w, ds)
             | None =>
                 Some (linkParent entity parentEntityID
                         (do_Log LogWarning
                            "Client sent unknown unacked parent entity ID in CreateEntity message" w),
                       ds)
             end
        else Some (linkParent entity parentEntityID w, ds)
    end
  else Some (w, ds).

(** The [try] block of [HandleCreateEntity]. *)
Definition createEntityBody (entity entityID : Z) (ds : BitStream) (w : World) : Result Reading :=
  let start w ds := {| r_world := w; r_ds := ds; componentIdRewrites := [];
                       addedComponents := [] |} in
  match Read_u8 ds with
  | None => Thrown (start w ds)
  | Some (b, ds) =>
      let w := Entity_SetTemporary entity (negb (b =? 0)) Default w in
      match readParent entity ds w with
      | None => Thrown (start w ds)
      | Some (w, ds) =>
          match ReadVLE ds with
          | None => Thrown (start w ds)
          | Some (numComponents, ds) =>
              readComponents (Z.to_nat numComponents) entity entityID (start w ds)
          end
      end
  end.

(** [SyncManager::HandleCreateEntity]; the bookkeeping of pending entity
    requests ([RemovePendingEntity]) is left out. *)
Definition HandleCreateEntity (data : BitStream) (w : World) : Result World :=
  if negb (ready w)
  then Returned (do_Log LogWarning
                   "Null scene or sync state, disregarding CreateEntity message" w)
  else if negb (AllowModifyEntity 0) then Returned w
  else
    match ReadVLE data with
    | None => Thrown w
    | Some (sceneID, ds) =>
        match ReadVLE ds with
        | None => Thrown w
        | Some (senderEntityID, ds) =>
            if negb (ValidateAction w) then Returned w
            else
              let prepared :=
                if negb (isServer w) && bool_decide (is_Some (the_scene w !! senderEntityID))
                then (senderEntityID,
                      Scene_RemoveEntity senderEntityID LocalOnly
                        (do_Log LogWarning
                           "Received entity creation from server for entity ID that already exists. Removing the old entity." w))
                else if isServer w
                     then (NextFreeId (the_scene w),
                           set_source
                             (set_unackedIdsToRealIds
                                (<[Z.lor senderEntityID FIRST_UNACKED_ID := NextFreeId (the_scene w)]>
                                   (unackedIdsToRealIds (source w))) (source w)) w)
                     else (senderEntityID, w) in
              let entityID := fst prepared in
              match Scene_CreateEntity entityID (snd prepared) with
              | None =>
                  Returned (do_Log LogWarning
                              "Could not create entity, disregarding CreateEntity message"
                              (snd prepared))
              | Some (entity, w) =>
                  let w := if isServer w then on_state (MarkEntityProcessed entityID) w else w in
                  match createEntityBody entity entityID ds w with
                  | Thrown r =>
                      Thrown (Scene_RemoveEntity entity Disconnected
                                (do_Log LogError
                                   "Failed to deserialize the creation of a new entity from the peer. Deleting the partially crafted entity!"
                                   (r_world r)))
                  | Returned r =>
                      let w := EmitEntityCreated entity (changeOf (r_world r)) (r_world r) in
                      let comps :=
                        match the_scene w !! entity with
                        | Some ent => merge_sort Z.le (map fst (map_to_list (Scene.components ent)))
                        | None => []
                        end in
                      let w := fold_left (fun w c => ComponentChanged entity c (changeOf w) w) comps w in
                      let w :=
                        if isServer w
                        then set_source
                               (Send (MsgCreateEntityReply sceneID
                                        (Z.land senderEntityID LAST_REPLICATED_ID)
                                        (Z.land entityID LAST_REPLICATED_ID)
                                        (map (fun p => (Z.land (fst p) LAST_REPLICATED_ID,
                                                        Z.land (snd p) LAST_REPLICATED_ID))
                                             (componentIdRewrites r)))
                                     (source w)) w
                        else w in
                      Returned (on_state (MarkEntityProcessed entityID) w)
                  end
              end
        end
    end.

(** The loop [while (ds.BitsLeft() > 2 * 8)] of [HandleCreateComponents].
    Every turn reads at least a byte, so [fuel] as large as the stream is
    long never runs out. *)
Fixpoint readComponentsToEnd (fuel : nat) (entityID : Z) (r : Reading) : Result Reading :=
  if 2 * 8 <? BitsLeft (r_ds r)
  then
    match fuel with
    | O => Returned r
    | S fuel =>
        match readComponent entityID entityID r with
        | Thrown r => Thrown r
        | Returned r => readComponentsToEnd fuel entityID r
        end
    end
  else Returned r.

(** [SyncManager::HandleCreateComponents] *)
Definition HandleCreateComponents (data : BitStream) (w : World) : Result World :=
  if negb (ready w)
  then Returned (do_Log LogWarning
                   "Null scene or sync state, disregarding CreateComponents message" w)
  else
    match ReadVLE data with
    | None => Thrown (do_Log LogError
                        "Failed to deserialize the creation of new component(s) from the peer. Deleting the partially crafted components!" w)
    | Some (sceneID, ds) =>
        match ReadVLE ds with
        | None => Thrown (do_Log LogError
                            "Failed to deserialize the creation of new component(s) from the peer. Deleting the partially crafted components!" w)
        | Some (entityID, ds) =>
            if negb (ValidateAction w) then Returned w
            else
              match the_scene w !! entityID with
              | None =>
                  Returned (do_Log LogWarning "Entity not found for CreateComponents message" w)
              | Some _ =>
                  if negb (AllowModifyEntity entityID) then Returned w
                  else
                    match readComponentsToEnd (length ds) entityID
                            {| r_world := w; r_ds := ds; componentIdRewrites := [];
                               addedComponents := [] |} with
                    | Thrown r =>
                        Thrown (fold_left
                                  (fun w c => Entity_RemoveComponent entityID c Disconnected w)
                                  (addedComponents r)
                                  (do_Log LogError
                                     "Failed to deserialize the creation of new component(s) from the peer. Deleting the partially crafted components!"
                                     (r_world r)))
                    | Returned r =>
                        let w := r_world r in
                        let w :=
                          if isServer w
                          then set_source
                                 (Send (MsgCreateComponentsReply sceneID
                                          (Z.land entityID LAST_REPLICATED_ID)
                                          (map (fun p => (Z.land (fst p) LAST_REPLICATED_ID,
                                                          Z.land (snd p) LAST_REPLICATED_ID))
                                               (componentIdRewrites r)))
                                       (source w)) w
                          else w in
                        Returned (fold_left (fun w c => ComponentChanged entityID c (changeOf w) w)
                                            (addedComponents r) w)
                    end
              end
        end
    end.

(** ** The layout of the two create messages *)


(** The reads of "Fill static attributes" on [attrDs]. *)
Fixpoint staticLayout (attrs : list (option IAttribute)) (attrDs : BitStream)
    : option BitStream :=
  match attrs with
  | [] => Some attrDs
  | a :: rest =>
      if 8 <=? BitsLeft attrDs
      then match a with
           | Some attr =>
               match run (FromBinary (a_typeId attr)) attrDs with
               | None => None
               | Some (_, attrDs') => staticLayout rest attrDs'
               end
           | None => staticLayout rest attrDs
           end
      else Some attrDs
  end.





(** ** The generic sync pass ([ProcessSyncState]), one entity's turn *)

Definition sceneId : Z := 0.

(** The ids of the components of an entity, in the order of its
    [ComponentMap]. *)
Definition componentIds (ent : Entity) : list Z :=
  merge_sort Z.le (map fst (map_to_list (Scene.components ent))).

(** The attribute block of [WriteComponentFullUpdate]: the static
    attributes back to back, then each dynamic attribute with index, type
    and name. *)
Definition staticData (comp : IComponent) : BitStream :=
  flat_map (fun a => match a with
                     | Some attr => ToBinary (a_typeId attr) (a_value attr)
                     | None => []
                     end)
           (take (NumStaticAttributes comp) (attributes comp)).

Definition dynamicData (comp : IComponent) : BitStream :=
  flat_map (fun i => match attr_at (attributes comp) i with
                     | Some attr =>
                         if a_dynamic attr
                         then Add_u8 i ++ Add_u8 (a_typeId attr) ++ AddString (a_name attr)
                              ++ ToBinary (a_typeId attr) (a_value attr)
                         else []
                     | None => []
                     end)
           (seqZ (Z.of_nat (NumStaticAttributes comp))
                 (size (attributes comp) - Z.of_nat (NumStaticAttributes comp))).

(** [SyncManager::WriteComponentFullUpdate] *)
Definition WriteComponentFullUpdate (c : Z) (comp : IComponent) : ComponentFullUpdate :=
  {| fu_id := Z.land c LAST_REPLICATED_ID;
     fu_typeId := c_typeId comp;
     fu_name := c_name comp;
     fu_attrData := bytes (staticData comp ++ dynamicData comp) |}.

(** The five serializers that an entity's turn fills. *)
Record Buffers : Type := {
  removeCompsDs : list Z;
  removeAttrsDs : list (Z * Z);
  createCompsDs : list ComponentFullUpdate;
  createAttrsDs : list (Z * Z * Z * string * BitStream);
  editAttrsDs : list (Z * BitStream);
}.

Definition noBuffers : Buffers :=
  {| removeCompsDs := []; removeAttrsDs := []; createCompsDs := [];
     createAttrsDs := []; editAttrsDs := [] |}.

(** The records of [newAndRemovedAttributes], in the order of the map. *)
Definition newAndRemoved (cs : ComponentSyncState) : list (Z * bool) :=
  flat_map (fun k => match newAndRemovedAttributes cs !! k with
                     | Some created => [(k, created)]
                     | None => []
                     end)
           (seqZ 0 256).

(** The loop over [newAndRemovedAttributes]: the dirty bits afterwards,
    and what is added to [createAttrsDs] and [removeAttrsDs]. *)
Definition attributeRecords (c : Z) (attrs : list (option IAttribute))
    (cs : ComponentSyncState) (bufs : Buffers) : list Z * Buffers :=
  fold_left
    (fun acc rec =>
       let dirty := clear_attr_dirty (fst acc) (fst rec) in
       let bufs := snd acc in
       if snd rec : bool
       then match attr_at attrs (fst rec) with
            | Some attr =>
                if a_dynamic attr
                then (dirty,
                      {| removeCompsDs := removeCompsDs bufs;
                         removeAttrsDs := removeAttrsDs bufs;
                         createCompsDs := createCompsDs bufs;
                         createAttrsDs :=
                           createAttrsDs bufs
                           ++ [(Z.land c LAST_REPLICATED_ID, fst rec, a_typeId attr, a_name attr,
                                ToBinary (a_typeId attr) (a_value attr))];
                         editAttrsDs := editAttrsDs bufs |})
                else (dirty, bufs)
            | None => (dirty, bufs)
            end
       else (dirty,
             {| removeCompsDs := removeCompsDs bufs;
                removeAttrsDs := removeAttrsDs bufs ++ [(Z.land c LAST_REPLICATED_ID, fst rec)];
                createCompsDs := createCompsDs bufs;
                createAttrsDs := createAttrsDs bufs;
                editAttrsDs := editAttrsDs bufs |}))
    (newAndRemoved cs) (dirtyAttributes cs, bufs).

(** "Hack for web clients that don't support ReplicateRigidBodyChanges":
    whether a change of the Transform alone is too small to send. *)
Definition minuscule (user : UserConnection) (comp : IComponent) (es : EntitySyncState)
    (changed : list Z) : option Geometry.Transform :=
  if negb (isKNet user) && (protocolVersion user <? ProtocolWebClientRigidBodyMessage)
     && (c_typeId comp =? EC_Placeable_TypeId)
     && bool_decide (changed = [0])
  then option_map (fun attr => transformOf (a_value attr)) (attr_at (attributes comp) 0)
  else None.

Definition significant (t : Geometry.Transform) (es : EntitySyncState) : bool :=
  negb (Qle_bool (RigidBodySend.DistanceSq (Geometry.pos t) (Geometry.pos (transform es))) (1 / 1000))
  || negb (Qle_bool (RigidBodySend.DistanceSq (Geometry.rot t) (Geometry.rot (transform es))) (1 / 10))
  || negb (Qle_bool (RigidBodySend.DistanceSq (Geometry.scale t) (Geometry.scale (transform es))) (1 / 1000)).

Definition set_transform (t : Geometry.Transform) (es : EntitySyncState) : EntitySyncState :=
  set_lastSent t (linearVelocity es) (angularVelocity es) (lastNetworkSendTime es) es.

Definition eraseComponent (c : Z) (es : EntitySyncState) : EntitySyncState :=
  SyncState.set_components (delete c (SyncState.components es)) es.

(** "Added/removed/edited attributes" of a component that is in the scene
    and whose state is neither removed nor new.  [None]: a null attribute
    is dereferenced while the block is written. *)
Definition processAttributes (user : UserConnection) (c : Z) (comp : IComponent)
    (cs : ComponentSyncState) (es : EntitySyncState) (bufs : Buffers)
    : option (EntitySyncState * Buffers) :=
  let attrs := attributes comp in
  let recs := attributeRecords c attrs cs bufs in
  let dirty := fst recs in
  let bufs := snd recs in
  let cs := set_newAndRemovedAttributes ∅ (set_dirtyAttributes dirty cs) in
  let changed := changedAttributes attrs dirty in
  match changed with
  | [] => Some (set_component c cs es, bufs)
  | _ :: _ =>
      let numBytes := Z.to_nat (Z.shiftr (size attrs + 7) 3) in
      let zeroed := repeat 0 (Nat.min numBytes (length dirty)) ++ drop numBytes dirty in
      let cs' := set_dirtyAttributes zeroed cs in
      let small := match minuscule user comp es changed with
                   | Some t => negb (significant t es)
                   | None => false
                   end in
      let es := match minuscule user comp es changed with
                | Some t => if significant t es then set_transform t es else es
                | None => es
                end in
      if small then Some (set_component c cs' es, bufs)
      else
        match encodeEdit attrs dirty changed with
        | None => None
        | Some block =>
            Some (set_component c cs' es,
                  {| removeCompsDs := removeCompsDs bufs;
                     removeAttrsDs := removeAttrsDs bufs;
                     createCompsDs := createCompsDs bufs;
                     createAttrsDs := createAttrsDs bufs;
                     editAttrsDs := editAttrsDs bufs
                                    ++ [(Z.land c LAST_REPLICATED_ID, bytes block)] |})
        end
  end.

(** One turn of [while (!entityState.dirtyQueue.empty())].  [None]: the
    queue element points to no component state, or see
    [processAttributes]. *)
Definition processComponent (user : UserConnection) (ent : Entity)
    (acc : EntitySyncState * Buffers) (c : Z) : option (EntitySyncState * Buffers) :=
  let es := fst acc in
  let bufs := snd acc in
  match SyncState.components es !! c with
  | None => None
  | Some cs =>
      let cs := set_c_isInQueue false cs in
      let removing bufs :=
        {| removeCompsDs := removeCompsDs bufs ++ [Z.land c LAST_REPLICATED_ID];
           removeAttrsDs := removeAttrsDs bufs;
           createCompsDs := createCompsDs bufs;
           createAttrsDs := createAttrsDs bufs;
           editAttrsDs := editAttrsDs bufs |} in
      match Scene.components ent !! c with
      | None =>
          Some (eraseComponent c es, if c_removed cs then removing bufs else bufs)
      | Some comp =>
          if negb (c_replicated comp) || (negb (c_isNew cs) && IsUnacked c)
          then Some (set_component c cs es, bufs)
          else if c_removed cs
               then Some (eraseComponent c es, removing bufs)
               else if c_isNew cs
                    then Some (componentProcessed c (set_component c cs es),
                               {| removeCompsDs := removeCompsDs bufs;
                                  removeAttrsDs := removeAttrsDs bufs;
                                  createCompsDs := createCompsDs bufs
                                                   ++ [WriteComponentFullUpdate c comp];
                                  createAttrsDs := createAttrsDs bufs;
                                  editAttrsDs := editAttrsDs bufs |})
                    else processAttributes user c comp cs es bufs
      end
  end.

Fixpoint processComponents (user : UserConnection) (ent : Entity) (queue : list Z)
    (acc : EntitySyncState * Buffers) : option (EntitySyncState * Buffers) :=
  match queue with
  | [] => Some acc
  | c :: rest =>
      match processComponent user ent acc c with
      | None => None
      | Some acc => processComponents user ent rest acc
      end
  end.

(** "Send the messages which have data" *)
Definition flush (e : Z) (bufs : Buffers) : list Message :=
  let i := Z.land e LAST_REPLICATED_ID in
  (match removeCompsDs bufs with [] => [] | l => [MsgRemoveComponents sceneId i l] end)
  ++ (match removeAttrsDs bufs with [] => [] | l => [MsgRemoveAttributes sceneId i l] end)
  ++ (match createCompsDs bufs with [] => [] | l => [MsgCreateComponents sceneId i l] end)
  ++ (match createAttrsDs bufs with [] => [] | l => [MsgCreateAttributes sceneId i l] end)
  ++ (match editAttrsDs bufs with [] => [] | l => [MsgEditAttributes sceneId i l] end).

(** "Check if entity has other property changes" and the parent. *)
Definition propertyMessages (user : UserConnection) (ent : Entity) (es : EntitySyncState)
    : list Message :=
  (if hasPropertyChanges es
   then [MsgEditEntityProperties sceneId (Z.land (id es) LAST_REPLICATED_ID)
           (if temporary ent then 1 else 0)]
   else [])
  ++ (if hasParentChange es && (ProtocolHierarchicScene <=? protocolVersion user)
      then [MsgSetEntityParent sceneId (id es) (parent ent)]
      else []).

(** The outcome of an entity's turn: the messages sent, the entity state
    afterwards ([None]: erased from [state->entities]), and whether it was
    put back into the dirty queue. *)
Record Turn : Type := {
  t_messages : list Message;
  t_state : option EntitySyncState;
  t_requeued : bool;
}.

(** The body of the loop over [state->dirtyQueue] for the entity state
    [es], once its prioritized update interval has elapsed.  [None]: see
    [processComponent]; and an entity that has gone missing from the
    scene without [removed] set: its state is erased from
    [state->entities] while the queue still points to it and the iterator
    stays where it is, so the loop reads the erased state again. *)
Definition processEntity (user : UserConnection) (sc : gmap Z Entity) (es : EntitySyncState)
    : option Turn :=
  let es := set_flags (isNew es) (removed es) false
              (hasPropertyChanges es) (hasParentChange es) es in
  match sc !! id es with
  | None =>
      if removed es
      then Some {| t_messages := [MsgRemoveEntity sceneId (Z.land (id es) LAST_REPLICATED_ID)];
                   t_state := None; t_requeued := false |}
      else None
  | Some ent =>
      if IsLocal (id es) || (negb (isNew es) && IsUnacked (id es))
      then Some {| t_messages := []; t_state := Some es; t_requeued := false |}
      else if removed es
      then
        Some {| t_messages := [MsgRemoveEntity sceneId (Z.land (id es) LAST_REPLICATED_ID)];
                t_state := if isNew es
                           then Some (set_flags true false true (hasPropertyChanges es)
                                        (hasParentChange es) es)
                           else None;
                t_requeued := isNew es |}
      else if isNew es
      then
        let replicated :=
          flat_map (fun c => match Scene.components ent !! c with
                             | Some comp => if c_replicated comp then [(c, comp)] else []
                             | None => []
                             end) (componentIds ent) in
        let es' := fold_left (fun es p => componentProcessed (fst p) es) replicated es in
        Some {| t_messages :=
                  [MsgCreateEntity sceneId (Z.land (id es) LAST_REPLICATED_ID)
                     (if temporary ent then 1 else 0)
                     (if ProtocolHierarchicScene <=? protocolVersion user
                      then Some (parent ent) else None)
                     (map (fun p => WriteComponentFullUpdate (fst p) (snd p)) replicated)];
                t_state := Some (entityProcessed es');
                t_requeued := false |}
      else
        match processComponents user ent (SyncState.dirtyQueue es)
                (set_dirtyQueue [] es, noBuffers) with
        | None => None
        | Some (es', bufs) =>
            Some {| t_messages := flush (id es) bufs ++ propertyMessages user ent es';
                    t_state := Some (entityProcessed es');
                    t_requeued := false |}
        end
  end.

(** ** A new connection ([NewUserConnected]) *)

(** Modelled from the spec: a [SceneSyncState] as its constructor leaves
    it, with no entity state and nothing in the "ordered set of entities
    awaiting transmission". *)
Definition freshSceneSyncState : SceneSyncState := {| entities := ∅; dirtyQueue := [] |}.

(** [SyncManager::NewUserConnected] for the scene [sc] ([None]: no scene
    is set): the connection afterwards and what is logged.  The entities
    are visited in the order of their ids.  The signals that are
    connected and the priorities that a prioritizer computes are left
    out. *)
Definition NewUserConnected (sc : option (gmap Z Entity)) (user : UserConnection)
    : UserConnection * list LogEntry :=
  match sc with
  | None =>
      (user,
       [(LogWarning, "SyncManager: Cannot handle new user connection message - No scene set!")])
  | Some sc =>
      (set_syncState
         (Some (fold_left
                  (fun st e => if IsLocal e then st else MarkEntityDirty e false false st)
                  (merge_sort Z.le (map fst (map_to_list sc)))
                  freshSceneSyncState))
         user,
       [])
  end.

(** ** What the properties speak about *)


(** An entity state that asks for nothing to be sent but, possibly, the
    removal of the entity. *)
Definition quiet (es : EntitySyncState) : Prop :=
  isNew es = false /\ hasPropertyChanges es = false /\ hasParentChange es = false
  /\ SyncState.dirtyQueue es = [].

(** The engine [w'] is [w] but, possibly, for the log. *)
Definition sameButLog (w w' : World) : Prop :=
  scene w' = scene w /\ source w' = source w /\ peers w' = peers w
  /\ interpolations w' = interpolations w /\ calls w' = calls w.

(** The entities and the components that a list of scene calls made. *)
Definition createdEntities (l : list SceneCall) : list Z :=
  flat_map (fun c => match c with CallCreateEntity i => [i] | _ => [] end) l.

Definition createdComponents (l : list SceneCall) : list Z :=
  flat_map (fun c => match c with CallCreateComponent _ comp _ => [comp] | _ => [] end) l.

(** ** The handlers under the dispatcher *)



End Engine.

End Protocol.

(* ===================================================================== *)
(** * The pace of the updates ([Update]) *)
(* ===================================================================== *)

Module Schedule.

(** The members of [SyncManager] that [Update] reads and writes. *)
Record SyncManager : Type := {
  updateAcc_ : Q;
  prioUpdateAcc_ : Q;
  updatePeriod_ : Q;
  priorityUpdatePeriod_ : Q;
  prioritizer_ : bool;                  (* prioritizer_ != 0 *)
}.

(** A connection as [Update] looks at it. *)
Record UserConnection : Type := {
  hasSyncState : bool;                  (* syncState.get() != 0 *)
  isKNet : bool;                        (* dynamic_pointer_cast<KNetUserConnection> *)
  protocolVersion : Z;
}.

(** What [Update] calls; a connection of the server is named by its
    position in [UserConnections()]. *)
Inductive Step : Type :=
| InterpolateRigidBodies
| ComputeSyncPriorities (user : nat)
| SortDirtyQueue (user : nat)
| ReplicateRigidBodyChanges (user : nat)
| ProcessSyncState (user : nat)
| ProcessServerSyncState
| SendObserverPosition.

(** [fmod(x, y)]: [x] less [y] times the quotient cut towards zero. *)
Definition fmod (x y : Q) : Q :=
  let q := (x / y)%Q in
  (x - inject_Z (if Qle_bool 0 q then Qfloor q else Qceiling q) * y)%Q.

Definition set_updateAcc (a : Q) (m : SyncManager) : SyncManager :=
  {| updateAcc_ := a; prioUpdateAcc_ := prioUpdateAcc_ m; updatePeriod_ := updatePeriod_ m;
     priorityUpdatePeriod_ := priorityUpdatePeriod_ m; prioritizer_ := prioritizer_ m |}.

Definition set_prioUpdateAcc (a : Q) (m : SyncManager) : SyncManager :=
  {| updateAcc_ := updateAcc_ m; prioUpdateAcc_ := a; updatePeriod_ := updatePeriod_ m;
     priorityUpdatePeriod_ := priorityUpdatePeriod_ m; prioritizer_ := prioritizer_ m |}.

(** The body of the loop over the connections of the server, for the
    connection [c] at position [i]. *)
Definition serveUser (acc : SyncManager * list Step) (ic : nat * UserConnection)
    : SyncManager * list Step :=
  let i := fst ic in
  let c := snd ic in
  if hasSyncState c
  then
    let acc :=
      if prioritizer_ (fst acc)
      then
        let acc :=
          if Qle_bool (priorityUpdatePeriod_ (fst acc)) (prioUpdateAcc_ (fst acc))
          then (set_prioUpdateAcc
                  (fmod (prioUpdateAcc_ (fst acc)) (priorityUpdatePeriod_ (fst acc))) (fst acc),
                snd acc ++ [ComputeSyncPriorities i])
          else acc in
        (fst acc, snd acc ++ [SortDirtyQueue i])
      else acc in
    let steps :=
      if isKNet c || (Protocol.ProtocolWebClientRigidBodyMessage <=? protocolVersion c)
      then snd acc ++ [ReplicateRigidBodyChanges i]
      else snd acc in
    (fst acc, steps ++ [ProcessSyncState i])
  else acc.

(** The connections with their positions. *)
Definition numbered (users : list UserConnection) : list (nat * UserConnection) :=
  imap (fun i c => (i, c)) users.

(** [SyncManager::Update].  [scene] is [scene_.lock() != 0], [users] are
    the connections of the server, [connection] is whether the client
    has a [kNet::MessageConnection] to its server. *)
Definition Update (isServer scene connection : bool) (users : list UserConnection)
    (frametime : Q) (m : SyncManager) : SyncManager * list Step :=
  let steps := if negb isServer then [InterpolateRigidBodies] else [] in
  let m := set_prioUpdateAcc (prioUpdateAcc_ m + frametime)
             (set_updateAcc (updateAcc_ m + frametime) m) in
  if negb (Qle_bool (updatePeriod_ m) (updateAcc_ m)) then (m, steps)
  else
    let m := set_updateAcc (fmod (updateAcc_ m) (updatePeriod_ m)) m in
    if negb scene then (m, steps)
    else if isServer
    then fold_left serveUser (numbered users) (m, steps)
    else if connection
    then
      let steps := steps ++ [ProcessServerSyncState] in
      if prioritizer_ m && Qle_bool (priorityUpdatePeriod_ m) (prioUpdateAcc_ m)
      then (set_prioUpdateAcc (fmod (prioUpdateAcc_ m) (priorityUpdatePeriod_ m)) m,
            steps ++ [SendObserverPosition])
      else (m, steps)
    else (m, steps).

(** The calls of [ComputeSyncPriorities] among the steps. *)
Definition priorityRuns (steps : list Step) : list nat :=
  flat_map (fun s => match s with ComputeSyncPriorities i => [i] | _ => [] end) steps.

(** The connections whose sync state is processed, and those whose
    rigid bodies are replicated. *)
Definition processed (steps : list Step) : list nat :=
  flat_map (fun s => match s with ProcessSyncState i => [i] | _ => [] end) steps.

Definition rigidBodyRuns (steps : list Step) : list nat :=
  flat_map (fun s => match s with ReplicateRigidBodyChanges i => [i] | _ => [] end) steps.


End Schedule.

(* ===================================================================== *)
(** * Concrete inputs *)
(* ===================================================================== *)

Module Inputs.
Import Geometry.

(** A command-line parser that knows two spellings. *)
Definition toFloat (s : string) : option Q :=
  if String.eqb s "100" then Some 100%Q
  else if String.eqb s "-5" then Some (-5)%Q
  else None.

Definition emptyEngine : Dispatch.Engine unit :=
  {| Dispatch.state := tt; Dispatch.log := []; Dispatch.disconnected := false |}.

(** A server with three connections: the sender, a logged-in peer, and a
    connection that has not logged in yet. *)
Definition hello : EntityActions.MsgEntityAction :=
  {| EntityActions.entityId := 1;
     EntityActions.executionType := Z.lor EntityActions.Server EntityActions.Peers;
     EntityActions.name := "Hello";
     EntityActions.parameters := ["world"] |}.

Definition loggedIn : EntityActions.UserConnection :=
  {| EntityActions.authenticated := true;
     EntityActions.syncState := Some {| EntityActions.queuedActions := [] |} |}.

Definition connecting : EntityActions.UserConnection :=
  {| EntityActions.authenticated := false; EntityActions.syncState := None |}.

(** A connection whose login has been revoked after it got a sync state. *)
Definition revoked : EntityActions.UserConnection :=
  {| EntityActions.authenticated := false;
     EntityActions.syncState := Some {| EntityActions.queuedActions := [] |} |}.

Definition serverWith (us : list EntityActions.UserConnection) : EntityActions.World :=
  {| EntityActions.isServer := true;
     EntityActions.scene := Some {[ 1 ]};
     EntityActions.users := us;
     EntityActions.clientConnection := None;
     EntityActions.executed := [];
     EntityActions.log := [] |}.

(** A client with a connection to its server. *)
Definition clientWorld : EntityActions.World :=
  {| EntityActions.isServer := false;
     EntityActions.scene := Some {[ 1 ]};
     EntityActions.users := [];
     EntityActions.clientConnection := Some [];
     EntityActions.executed := [];
     EntityActions.log := [] |}.

(** ** A client that interpolates entity 1 *)

(** A wraparound-aware comparison of 22-bit packet ids. *)
Definition newerThan (newID oldID : Z) : bool :=
  (oldID <? newID) || (Z.shiftl 1 21 <=? oldID - newID).

Definition origin : Transform := {| pos := zero; rot := zero; scale := zero |}.

Definition restState : RigidBodyReceive.RigidBodyState unit :=
  {| RigidBodyReceive.s_pos := zero; RigidBodyReceive.s_vel := zero;
     RigidBodyReceive.s_rot := tt; RigidBodyReceive.s_scale := zero;
     RigidBodyReceive.s_angVel := zero |}.

(** Interpolation state of entity 1: the last packet seen was packet 10. *)
Definition interp10 : RigidBodyReceive.RigidBodyInterpolationState unit :=
  {| RigidBodyReceive.interpStart := restState;
     RigidBodyReceive.interpEnd := restState;
     RigidBodyReceive.interpTime := 2;
     RigidBodyReceive.interpolatorActive := false;
     RigidBodyReceive.lastReceivedPacketCounter := 10 |}.

Definition client1 : RigidBodyReceive.Client unit :=
  {| RigidBodyReceive.scene :=
       {[ 1 := {| RigidBodyReceive.placeable := Some {| RigidBodyReceive.transform := origin |};
                  RigidBodyReceive.rigidBody := None |} ]};
     RigidBodyReceive.entityInterpolations := {[ 1 := interp10 ]} |}.

(** A record for entity 1 that carries a position. *)
Definition moveTo1 : RigidBodyReceive.RigidBodyRecord unit :=
  {| RigidBodyReceive.entityID := 1;
     RigidBodyReceive.posSendType := 1;
     RigidBodyReceive.rotSendType := 0;
     RigidBodyReceive.scaleSendType := 0;
     RigidBodyReceive.velSendType := 0;
     RigidBodyReceive.angVelSendType := 0;
     RigidBodyReceive.readPos := {| x := 1; y := 0; z := 0 |};
     RigidBodyReceive.readRot := tt;
     RigidBodyReceive.readScale := zero;
     RigidBodyReceive.readVel := zero;
     RigidBodyReceive.readAngVel := None |}.

Definition applyRecord1 (sourceIsUDP : bool) (packetId : Z)
    : option (RigidBodyReceive.Client unit) :=
  RigidBodyReceive.applyRecord unit tt (fun _ => tt) (fun _ t => t) newerThan (1 / 20)%Q
    sourceIsUDP packetId moveTo1 client1.


(** ** The client between two frames *)

(** A state that a record has just restarted: from the origin, where
    entity 1 is, to (1,0,0). *)
Definition moving : RigidBodyReceive.RigidBodyInterpolationState unit :=
  {| RigidBodyReceive.interpStart := restState;
     RigidBodyReceive.interpEnd :=
       {| RigidBodyReceive.s_pos := {| x := 1; y := 0; z := 0 |};
          RigidBodyReceive.s_vel := zero; RigidBodyReceive.s_rot := tt;
          RigidBodyReceive.s_scale := zero; RigidBodyReceive.s_angVel := zero |};
     RigidBodyReceive.interpTime := 0;
     RigidBodyReceive.interpolatorActive := true;
     RigidBodyReceive.lastReceivedPacketCounter := 10 |}.

(** Entity 1 is being moved; the entity of state 7 has left the scene. *)
Definition frame : Interpolation.Frame unit :=
  {| Interpolation.client :=
       {| RigidBodyReceive.scene := RigidBodyReceive.scene unit client1;
          RigidBodyReceive.entityInterpolations := {[ 1 := moving; 7 := interp10 ]} |};
     Interpolation.clientExtrapolating := ∅ |}.

Definition lerp (a b : float3) (t : Q) : float3 := add (mul (1 - t) a) (mul t b).

Definition clamp01 (t : Q) : Q := if Qle_bool t 0 then 0%Q else if Qle_bool 1 t then 1%Q else t.

(** A frame of [frametime] seconds, with updates every 1/20 s and a
    window of 3 update periods. *)
Definition nextFrame (frametime : Q) (w : Interpolation.Frame unit) : Interpolation.Frame unit :=
  Interpolation.InterpolateRigidBodies unit origin (fun _ t => t) (fun _ _ _ => tt) lerp clamp01
    (1 / 20)%Q 3%Q false frametime w.

(** ** A server with three entities in a connection's dirty queue *)

Module Bodies.
Import SyncState RigidBodySend.

Definition IsZero (v : float3) (epsilonSq : Q) : bool := Qle_bool (LengthSq v) epsilonSq.
Definition identity3x3 : float3x3 :=
  {| Col0 := {| x := 1; y := 0; z := 0 |};
     Col1 := {| x := 0; y := 1; z := 0 |};
     Col2 := {| x := 0; y := 0; z := 1 |} |}.

Definition compState (new : bool) (dirty : list Z) : ComponentSyncState :=
  {| c_isNew := new; c_removed := false; c_isInQueue := true;
     dirtyAttributes := dirty; newAndRemovedAttributes := ∅ |}.

Definition entityState (i : Z) (comps : gmap Z ComponentSyncState) (lastVel : float3)
    : EntitySyncState :=
  {| id := i; isNew := false; removed := false; isInQueue := true;
     hasPropertyChanges := false; hasParentChange := false;
     components := comps; dirtyQueue := []; transform := origin;
     linearVelocity := lastVel; angularVelocity := zero;
     lastNetworkSendTime := 0; avgUpdateInterval := 0 |}.

(** Entity 1: a body that has stopped; (1,0,0) was the velocity last sent.
    Entity 2: no rigid body, moved to (10,0,0), Transform bit dirty.
    Entity 3: an [EC_Placeable] that has just been added, Transform bit dirty. *)
Definition scene : gmap Z Entity :=
  {[ 1 := {| placeable := Some {| p_id := 10; p_transform := origin |};
             rigidBody := Some {| r_id := 11; r_linearVelocity := zero;
                                  r_angularVelocity := zero |} |};
     2 := {| placeable := Some {| p_id := 20;
                                  p_transform := {| pos := {| x := 10; y := 0; z := 0 |};
                                                    rot := zero; scale := zero |} |};
             rigidBody := None |};
     3 := {| placeable := Some {| p_id := 30; p_transform := origin |};
             rigidBody := None |} ]}.

Definition ess1 : EntitySyncState :=
  entityState 1 {[ 11 := compState false [0; 0] ]} {| x := 1; y := 0; z := 0 |}.
Definition ess2 : EntitySyncState := entityState 2 {[ 20 := compState false [1; 0] ]} zero.
Definition ess3 : EntitySyncState := entityState 3 {[ 30 := compState true [1; 0] ]} zero.

Definition ents : gmap Z EntitySyncState := {[ 1 := ess1; 2 := ess2; 3 := ess3 ]}.

(** The prioritizer holds entity 1 back and lets the others through. *)
Definition interval (ess : EntitySyncState) (updatePeriod : Q) : Q :=
  if id ess =? 1 then 1000%Q else 0%Q.

Definition pass (prioritizer_ : bool) (dirtyQueue : list Z)
    : option (list RigidBodyUpdate * gmap Z EntitySyncState) :=
  ReplicateRigidBodyChanges IsZero (fun v => v) (fun _ => identity3x3) (fun _ => 1%Q) 100
    interval (fun _ => 100) (1 / 20)%Q prioritizer_ scene dirtyQueue ents.

(** Entity 1 alone, with the bit of its linear velocity (attribute 13)
    dirty. *)
Definition stopped : gmap Z EntitySyncState :=
  {[ 1 := entityState 1 {[ 11 := compState false [0; 32] ]} {| x := 1; y := 0; z := 0 |} ]}.

(** A pass with the prioritizer set, [seconds] after every entity was
    last sent. *)
Definition passAt (seconds : Q) (dirtyQueue : list Z) (ents : gmap Z EntitySyncState)
    : option (list RigidBodyUpdate * gmap Z EntitySyncState) :=
  ReplicateRigidBodyChanges IsZero (fun v => v) (fun _ => identity3x3) (fun _ => seconds) 100
    interval (fun _ => 100) (1 / 20)%Q true scene dirtyQueue ents.

End Bodies.

(** ** A scene whose attributes hold a flag *)

Module Flags.
Import Wire Scene SyncState EditBlock Protocol.

Fixpoint readChars (n : nat) (s : BitStream) : option string :=
  match n with
  | O => Some EmptyString
  | S n =>
      match Read_u8 s with
      | Some (c, rest) =>
          option_map (String (Ascii.ascii_of_N (Z.to_N c))) (readChars n rest)
      | None => None
      end
  end.

(** A value is a flag, written as one byte; a string is written as a
    length byte and its characters. *)
#[export] Instance flags : Attributes :=
  {| Value := bool;
     ToBinary := fun _ v => Add_u8 (Z.b2z v);
     FromBinary := fun _ s => option_map (fun r => (negb (fst r =? 0), 8%nat)) (Read_u8 s);
     AddString := fun str =>
       Add_u8 (Z.of_nat (String.length str))
       ++ flat_map (fun c => Add_u8 (Z.of_N (Ascii.N_of_ascii c))) (list_ascii_of_string str);
     ReadString := fun s =>
       match Read_u8 s with
       | Some (n, rest) =>
           option_map (fun str => (str, (8 + 8 * Z.to_nat n)%nat)) (readChars (Z.to_nat n) rest)
       | None => None
       end |}.

Definition flag (name : string) (interpolate dynamic : bool) : IAttribute :=
  {| a_typeId := 1; a_name := name; a_value := false; a_dynamic := dynamic;
     a_interpolate := interpolate |}.

(** A component type with three static attributes; the metadata of the
    first asks for interpolation. *)
Definition slots3 : list (option IAttribute) :=
  [Some (flag "a" true false); Some (flag "b" false false); Some (flag "c" false false)].

Definition lamp (name : string) : IComponent :=
  {| c_typeId := 20; c_typeName := "EC_Lamp"; c_name := name; c_replicated := true;
     attributes := slots3; NumStaticAttributes := 3; SupportsDynamicAttributes := false |}.

Definition largestKey {A} (m : gmap Z A) : Z := fold_right Z.max 0 (map fst (map_to_list m)).

(** The id ranges are those of [UniqueIdGenerator]; ids are given out in
    ascending order; every peer may modify everything. *)
#[export] Instance api : SceneAPI :=
  {| FIRST_UNACKED_ID := 1073741824;
     FIRST_LOCAL_ID := 2147483648;
     LAST_REPLICATED_ID := 1073741823;
     AllowModifyEntity := fun _ => true;
     NextFreeId := fun sc => largestKey sc + 1;
     NextFreeComponentId := fun ent => largestKey (Scene.components ent) + 1;
     newComponent := fun typeId name => if typeId =? 20 then Some (lamp name) else None;
     newAttribute := fun typeId name => if typeId =? 1 then Some (flag name false true) else None;
     RefreshAvgUpdateInterval := fun es => es;
     EC_Placeable_TypeId := 20;
     transformOf := fun _ => origin |}.

(** Entity 1 with one lamp, component 1. *)
Definition scene1 : gmap Z Entity :=
  {[ 1 := {| temporary := false; parent := 0; Scene.components := {[ 1 := lamp "" ]} |} ]}.

Definition connection (st : SceneSyncState) (unacked : gmap Z Z) : UserConnection :=
  {| authenticated := true; protocolVersion := ProtocolHierarchicScene; isKNet := true;
     syncState := Some st; unackedIdsToRealIds := unacked; sentMessages := [] |}.

Definition nothingDirty : SceneSyncState := {| entities := ∅; Protocol.dirtyQueue := [] |}.

Definition engine (server : bool) (src : UserConnection) : World :=
  {| isServer := server; scene := Some scene1; source := src; peers := [];
     Protocol.log := []; mismatchingComponentTypes := ∅; interpolations := []; calls := [];
     Protocol.updatePeriod_ := (1 / 20)%Q |}.

(** A server whose client has been told that its entity 1073741829 is
    entity 1. *)
Definition server : World := engine true (connection nothingDirty {[ 1073741829 := 1 ]}).

(** A client that has changed the first two attributes of the lamp and
    has not sent the changes yet. *)
Definition lampDirty : ComponentSyncState :=
  {| c_isNew := false; c_removed := false; c_isInQueue := true;
     dirtyAttributes := 3 :: repeat 0 31; newAndRemovedAttributes := ∅ |}.

Definition entity1Dirty : EntitySyncState :=
  {| id := 1; isNew := false; removed := false; isInQueue := true;
     hasPropertyChanges := false; hasParentChange := false;
     SyncState.components := {[ 1 := lampDirty ]}; SyncState.dirtyQueue := [1];
     transform := origin; linearVelocity := zero; angularVelocity := zero;
     lastNetworkSendTime := 0; avgUpdateInterval := 0 |}.

Definition client : World :=
  engine false (connection {| entities := {[ 1 := entity1Dirty ]}; Protocol.dirtyQueue := [1] |} ∅).

(** The block of a lamp whose first attribute has changed, as the sender
    writes it, and the EditAttributes message around it: scene 0,
    entity 1, component 1, the size of the block in bytes, the block. *)
Definition block1 : BitStream :=
  default [] (encodeEdit slots3 [1] (changedAttributes slots3 [1])).


(** The same for the second attribute, which is not interpolated. *)
Definition block2 : BitStream :=
  default [] (encodeEdit slots3 [2] (changedAttributes slots3 [2])).

Definition editLamp2 : BitStream :=
  AddVLE 0 ++ AddVLE 1 ++ AddVLE 1 ++ AddVLE (BytesFilled block2) ++ bytes block2.

(** SetEntityParent for the entity that the client knows as 1073741829,
    with no parent. *)
Definition unparent : BitStream := AddVLE 0 ++ Add_u32 1073741829 ++ Add_u32 0.

(** CreateEntity: scene 0, sender's entity id 5, not temporary, a parent
    id of the unacked range that the server has never heard of, no
    components. *)
Definition createUnderUnknown : BitStream :=
  AddVLE 0 ++ AddVLE 5 ++ Add_u8 0 ++ Add_u32 1073741831 ++ AddVLE 0.



(** A server with a connection that has not logged in, which sends; and
    a server with a second connection, which listens. *)
Definition stranger : World :=
  engine true {| authenticated := false; protocolVersion := ProtocolHierarchicScene;
                 isKNet := true; syncState := Some nothingDirty;
                 unackedIdsToRealIds := ∅; sentMessages := [] |}.

Definition serverWithPeer : World :=
  {| isServer := true; scene := Some scene1; source := connection nothingDirty ∅;
     peers := [connection nothingDirty ∅];
     Protocol.log := []; mismatchingComponentTypes := ∅; interpolations := []; calls := [];
     Protocol.updatePeriod_ := (1 / 20)%Q |}.

(** EditEntityProperties: scene 0, entity 1, temporary. *)
Definition makeTemporary : BitStream := AddVLE 0 ++ AddVLE 1 ++ Add_u8 1.


End Flags.

(** ** A server whose client stops a moving body *)

Module Motion.
Import Wire Scene SyncState EditBlock Protocol.

(** A value is a vector of three small whole numbers, written as three
    bytes; strings are written as in [Flags]. *)
Definition readVector (s : BitStream) : option (float3 * nat) :=
  match Read_u8 s with
  | Some (a, s1) =>
      match Read_u8 s1 with
      | Some (b, s2) =>
          match Read_u8 s2 with
          | Some (c, _) => Some ({| x := inject_Z a; y := inject_Z b; z := inject_Z c |}, 24%nat)
          | None => None
          end
      | None => None
      end
  | None => None
  end.

#[export] Instance vectors : Attributes :=
  {| Value := float3;
     ToBinary := fun _ v => Add_u8 (Qfloor (x v)) ++ Add_u8 (Qfloor (y v)) ++ Add_u8 (Qfloor (z v));
     FromBinary := fun _ => readVector;
     AddString := @AddString Flags.flags;
     ReadString := @ReadString Flags.flags |}.

Definition vector (name : string) (v : float3) : IAttribute :=
  {| a_typeId := 1; a_name := name; a_value := v; a_dynamic := false; a_interpolate := false |}.

(** [EC_Placeable] with its transform, and [EC_RigidBody] with its
    fifteen first attributes, of which the linear velocity is the
    fourteenth and the angular velocity the fifteenth. *)
Definition EC_Placeable (position : float3) : IComponent :=
  {| c_typeId := 20; c_typeName := "EC_Placeable"; c_name := ""; c_replicated := true;
     attributes := [Some (vector "transform" position)];
     NumStaticAttributes := 1; SupportsDynamicAttributes := false |}.

Definition EC_RigidBody (linearVelocity angularVelocity : float3) : IComponent :=
  {| c_typeId := 23; c_typeName := "EC_RigidBody"; c_name := ""; c_replicated := true;
     attributes := repeat (Some (vector "" zero)) 13
                   ++ [Some (vector "linearVelocity" linearVelocity);
                       Some (vector "angularVelocity" angularVelocity)];
     NumStaticAttributes := 15; SupportsDynamicAttributes := false |}.

#[export] Instance api : SceneAPI :=
  {| FIRST_UNACKED_ID := 1073741824;
     FIRST_LOCAL_ID := 2147483648;
     LAST_REPLICATED_ID := 1073741823;
     AllowModifyEntity := fun _ => true;
     NextFreeId := fun sc => Flags.largestKey sc + 1;
     NextFreeComponentId := fun ent => Flags.largestKey (Scene.components ent) + 1;
     newComponent := fun typeId name =>
       if typeId =? 20 then Some (EC_Placeable zero)
       else if typeId =? 23 then Some (EC_RigidBody zero zero) else None;
     newAttribute := fun _ _ => None;
     RefreshAvgUpdateInterval := fun es => es;
     EC_Placeable_TypeId := 20;
     transformOf := fun v => {| pos := v; rot := zero; scale := zero |} |}.

(** Entity 1: a body at the origin that moves along x. *)
Definition scene1 : gmap Z Entity :=
  {[ 1 := {| temporary := false; parent := 0;
             Scene.components := {[ 1 := EC_Placeable zero;
                                    2 := EC_RigidBody {| x := 1; y := 0; z := 0 |} zero ]} |} ]}.

Definition sent : ComponentSyncState :=
  {| c_isNew := false; c_removed := false; c_isInQueue := false;
     dirtyAttributes := repeat 0 32; newAndRemovedAttributes := ∅ |}.

(** The sync state of a connection that has been sent the entity and its
    motion, and is owed nothing. *)
Definition upToDate : SceneSyncState :=
  {| entities :=
       {[ 1 := {| id := 1; isNew := false; removed := false; isInQueue := false;
                  hasPropertyChanges := false; hasParentChange := false;
                  SyncState.components := {[ 1 := sent; 2 := sent ]};
                  SyncState.dirtyQueue := [];
                  transform := origin;
                  linearVelocity := {| x := 1; y := 0; z := 0 |};
                  angularVelocity := zero;
                  lastNetworkSendTime := 0; avgUpdateInterval := 0 |} ]};
     Protocol.dirtyQueue := [] |}.

Definition server : World :=
  {| isServer := true; scene := Some scene1;
     source := {| authenticated := true; protocolVersion := ProtocolHierarchicScene;
                  isKNet := true; syncState := Some upToDate;
                  unackedIdsToRealIds := ∅; sentMessages := [] |};
     peers := [];
     Protocol.log := []; mismatchingComponentTypes := ∅; interpolations := []; calls := [];
     Protocol.updatePeriod_ := (1 / 20)%Q |}.

(** EditAttributes from the client: scene 0, entity 1, component 2, and
    the block of a rigid body whose linear velocity, now zero, has
    changed, as a sender writes it. *)
Definition halted : list (option IAttribute) := attributes (EC_RigidBody zero zero).

Definition block : BitStream :=
  default [] (encodeEdit halted [0; 32] (changedAttributes halted [0; 32])).






End Motion.

(** ** Connections of a server that keeps the pace *)

Definition kNetUser : Schedule.UserConnection :=
  {| Schedule.hasSyncState := true; Schedule.isKNet := true; Schedule.protocolVersion := 4 |}.

(** A connection that has not logged in: it has no sync state yet. *)
Definition pendingUser : Schedule.UserConnection :=
  {| Schedule.hasSyncState := false; Schedule.isKNet := true; Schedule.protocolVersion := 4 |}.

Definition pacedManager : Schedule.SyncManager :=
  {| Schedule.updateAcc_ := 0; Schedule.prioUpdateAcc_ := 0; Schedule.updatePeriod_ := 1 / 20;
     Schedule.priorityUpdatePeriod_ := 1; Schedule.prioritizer_ := true |}.

End Inputs.

(* ===================================================================== *)
(* ===================================================================== *)
(** * Properties *)
(* ===================================================================== *)
(* ===================================================================== *)

(** ** The extrapolation window *)

Section ExtrapolationWindow.
Import ExtrapolationTime.

(** C5, as the code has it: without a usable [--clientextrapolationtime]
    the window is the initial 3.0 update periods; when the first value
    of the flag parses to a number [ms >= 0], the window is
    [1 + ms/1000/updatePeriod], both in the constructor (where the update
    period is 1/20 s) and whenever [SetUpdatePeriod] recomputes it. *)
Theorem maxLinExtrapTime_window :
    forall (toFloat : string -> option Q) (noclientphysics : bool),
      maxLinExtrapTime_ (SyncManager_ctor toFloat [] noclientphysics) = 3%Q
      /\ (forall first rest, toFloat first = None ->
            maxLinExtrapTime_ (SyncManager_ctor toFloat (first :: rest) noclientphysics) = 3%Q)
      /\ (forall first rest ms,
            toFloat first = Some ms -> Qle_bool 0 ms = true ->
            maxLinExtrapTime_ (SyncManager_ctor toFloat (first :: rest) noclientphysics)
            = (1 + ms / 1000 / (1 / 20))%Q
            /\ forall period m,
                 let m' := SetUpdatePeriod toFloat (first :: rest) period m in
                 maxLinExtrapTime_ m' = (1 + ms / 1000 / updatePeriod_ m')%Q).
Proof.
    intros toFloat ncp. split; [reflexivity|]. split.
    - intros first rest Hnone. unfold SyncManager_ctor, GetClientExtrapolationTime.
      now rewrite Hnone.
    - intros first rest ms Hsome Hle. split.
      + unfold SyncManager_ctor, GetClientExtrapolationTime. now rewrite Hsome, Hle.
      + intros period m. unfold SetUpdatePeriod, GetClientExtrapolationTime.
        cbv zeta. now rewrite Hsome, Hle.
Qed.

End ExtrapolationWindow.

Lemma maxLinExtrapTime_window_witness :
  ExtrapolationTime.maxLinExtrapTime_
    (ExtrapolationTime.SyncManager_ctor Inputs.toFloat ["abc"] false) = 3%Q
  /\ ExtrapolationTime.maxLinExtrapTime_
       (ExtrapolationTime.SyncManager_ctor Inputs.toFloat ["100"; "7"] false)
     = (1 + 100 / 1000 / (1 / 20))%Q.
Proof.
  destruct (maxLinExtrapTime_window Inputs.toFloat false) as (_ & Hnone & Hsome).
  split.
  - apply Hnone. reflexivity.
  - destruct (Hsome "100" ["7"] 100%Q) as [H1 _]; [reflexivity | reflexivity | exact H1].
Defined.

(** C5 as the specification words it does not hold: with no flag on the
    command line the window is not 1.0. *)
Lemma maxLinExtrapTime_default_not_one :
  ~ (ExtrapolationTime.maxLinExtrapTime_
       (ExtrapolationTime.SyncManager_ctor Inputs.toFloat [] false) == 1)%Q.
Proof. cbv. discriminate. Qed.

(** ** Unknown message ids *)

Section UnknownMessage.
Import Dispatch.

(** C8, as the code has it: a message whose id has no [case] label is
    ignored without a trace: the engine state, the log and the
    connection are as before, whatever the handlers are. *)
Theorem unknown_message_ignored :
    forall (S : Type) (h : @Handlers S) (user sceneExpired : bool)
           (packetId messageId : Z) (data : list bool) (e : Engine S),
      ~ In messageId handledIds ->
      HandleNetworkMessage h user sceneExpired packetId messageId data e = e.
Proof.
    intros S h user sceneExpired packetId messageId data e Hun.
    unfold HandleNetworkMessage.
    destruct (negb user || sceneExpired); [reflexivity|].
    assert (Hd : dispatch h packetId messageId data e = Returned e).
    { unfold dispatch.
      repeat match goal with
      | |- context [messageId =? ?c] =>
          destruct (Z.eqb_spec messageId c) as [->|_];
          [exfalso; apply Hun; unfold handledIds; simpl; tauto|]
      end.
      reflexivity. }
    now rewrite Hd.
Qed.

End UnknownMessage.

Lemma unknown_message_ignored_witness :
  Dispatch.HandleNetworkMessage Dispatch.idleHandlers true false 7 125 [] Inputs.emptyEngine
  = Inputs.emptyEngine.
Proof.
  apply unknown_message_ignored.
  unfold Dispatch.handledIds. simpl. intros H.
  repeat (destruct H as [H|H]; [discriminate H|]). exact H.
Defined.

(** C8 as the specification words it does not hold: after a message with
    the unallocated id 125 the log holds no warning. *)
Lemma unknown_message_no_warning :
  ~ exists text,
      In (LogWarning, text)
         (Dispatch.log
            (Dispatch.HandleNetworkMessage Dispatch.idleHandlers true false 7 125 []
               Inputs.emptyEngine)).
Proof. intros [text H]. exact H. Qed.

(** ** Entity actions *)

(** C7 at the failing input: the server receives ["Hello"] with
    [Server|Peers] from connection 0 while a connection that has not
    logged in (no sync state yet) is in the list: the handler dereferences
    its null [syncState].  When the unauthenticated connection does have a
    sync state, the action is queued to it; [OnActionTriggered], for the
    same action triggered on the server itself, passes it over. *)
Lemma HandleEntityAction_unauthenticated_peer :
  EntityActions.HandleEntityAction 0 Inputs.hello
    (Inputs.serverWith [Inputs.loggedIn; Inputs.connecting; Inputs.loggedIn]) = None
  /\ option_map EntityActions.users
       (EntityActions.HandleEntityAction 0 Inputs.hello
          (Inputs.serverWith [Inputs.loggedIn; Inputs.revoked]))
     = Some [Inputs.loggedIn;
             {| EntityActions.authenticated := false;
                EntityActions.syncState :=
                  Some {| EntityActions.queuedActions :=
                            [EntityActions.with_executionType EntityActions.Local Inputs.hello] |} |}]
  /\ option_map (fun w => nth_error (EntityActions.users w) 1)
       (EntityActions.OnActionTriggered 1 "Hello" ["world"]
          (Z.lor EntityActions.Server EntityActions.Peers)
          (Inputs.serverWith [Inputs.loggedIn; Inputs.revoked]))
     = Some (Some Inputs.revoked).
Proof. repeat split; vm_compute; reflexivity. Qed.

(** ** The latest-data guarantee *)

Section LatestData.
Import RigidBodyReceive.

Variable Quat : Type.
Variable Quat_identity : Quat.
Variable Orientation : Geometry.Transform -> Quat.
Variable SetOrientation : Quat -> Geometry.Transform -> Geometry.Transform.
Variable PacketIDIsNewerThan : Z -> Z -> bool.
Variable updatePeriod_ : Q.

Local Abbreviation applyRecord :=
    (applyRecord Quat Quat_identity Orientation SetOrientation PacketIDIsNewerThan updatePeriod_).
Local Abbreviation HandleRigidBodyChanges :=
    (HandleRigidBodyChanges Quat Quat_identity Orientation SetOrientation PacketIDIsNewerThan
       updatePeriod_).

(** C4, as the code has it: on a kNet connection over UDP, a record for
    an entity that has an [EC_Placeable] and an interpolation state, in a
    packet than which the last one seen for the entity is newer, changes
    nothing: neither the scene nor any interpolation state. *)
Theorem stale_record_ignored :
    forall (packetId : Z) (r : RigidBodyRecord Quat) (c : Client Quat)
           (e : Entity) (pl : EC_Placeable) (interp : RigidBodyInterpolationState Quat),
      scene Quat c !! entityID Quat r = Some e ->
      placeable e = Some pl ->
      entityInterpolations Quat c !! entityID Quat r = Some interp ->
      PacketIDIsNewerThan (lastReceivedPacketCounter Quat interp) packetId = true ->
      applyRecord true packetId r c = Some c
      /\ HandleRigidBodyChanges true packetId [r] c = Some c.
Proof.
    intros packetId r c e pl interp He Hpl Hi Hnew.
    assert (H : applyRecord true packetId r c = Some c).
    { unfold RigidBodyReceive.applyRecord. rewrite He, Hpl, Hi, Hnew. simpl.
      now destruct (_ || _). }
    split; [exact H|]. simpl. now rewrite H.
Qed.

End LatestData.

Lemma stale_record_ignored_witness :
  Inputs.applyRecord1 true 5 = Some Inputs.client1.
Proof.
  unfold Inputs.applyRecord1.
  eapply (proj1 (stale_record_ignored unit tt (fun _ => tt) (fun _ t => t) Inputs.newerThan
                   (1 / 20)%Q 5 Inputs.moveTo1 Inputs.client1 _ _ Inputs.interp10 _ _ _ _)).
  Unshelve.
  all: try reflexivity.
Defined.

(** C4 as the specification words it does not hold: on a connection that
    is not kNet over UDP, packet 5 arriving after packet 10 is applied. *)
Lemma stale_record_applied_without_udp :
  Inputs.applyRecord1 false 5 <> Some Inputs.client1
  /\ option_map
       (fun c => RigidBodyReceive.lastReceivedPacketCounter unit
                   <$> RigidBodyReceive.entityInterpolations unit c !! 1)
       (Inputs.applyRecord1 false 5) = Some (Some 5).
Proof.
  assert (H : option_map
       (fun c => RigidBodyReceive.lastReceivedPacketCounter unit
                   <$> RigidBodyReceive.entityInterpolations unit c !! 1)
       (Inputs.applyRecord1 false 5) = Some (Some 5)) by (vm_compute; reflexivity).
  split; [|exact H].
  intros Heq. rewrite Heq in H. vm_compute in H. discriminate H.
Qed.

(** ** The rigid-body encode pass *)

Section DirtyBits.
Import SyncState RigidBodySend.

Lemma land_clear_same (b m : Z) : Z.land (Z.land b (Z.lnot m)) m = 0.
Proof.
    apply Z.bits_inj'. intros n Hn.
    rewrite !Z.land_spec, Z.lnot_spec, Z.bits_0 by exact Hn.
    destruct (Z.testbit b n), (Z.testbit m n); reflexivity.
Qed.

Lemma land_clear_mono (b x m : Z) : Z.land b m = 0 -> Z.land (Z.land b x) m = 0.
Proof.
    intros H. apply Z.bits_inj'. intros n Hn.
    assert (Hb : Z.testbit (Z.land b m) n = false) by (rewrite H; apply Z.bits_0).
    rewrite Z.land_spec in Hb.
    rewrite !Z.land_spec, Z.bits_0.
    destruct (Z.testbit b n), (Z.testbit m n), (Z.testbit x n); simpl in *; congruence.
Qed.

Lemma byte_at_set_byte (a : list Z) (i j : nat) (v : Z) :
    byte_at (set_byte a i v) j
    = if decide (i = j /\ (i < length a)%nat) then v else byte_at a j.
Proof.
    unfold byte_at, set_byte.
    destruct (decide (i = j /\ (i < length a)%nat)) as [[-> Hlt]|Hn].
    - now rewrite list_lookup_insert_eq.
    - destruct (decide (i = j)) as [->|Hne].
      + rewrite list_insert_ge; [reflexivity|]. lia.
      + now rewrite list_lookup_insert_ne.
Qed.

Lemma attr_dirty_false (a : list Z) (k : Z) :
    attr_dirty a k = false <->
    Z.land (byte_at a (Z.to_nat (Z.shiftr k 3))) (Z.shiftl 1 (Z.land k 7)) = 0.
Proof.
    unfold attr_dirty. rewrite negb_false_iff. apply Z.eqb_eq.
Qed.

Lemma clean_le_set (a : list Z) (n : nat) (v : Z) :
    (forall m, Z.land (byte_at a n) m = 0 -> Z.land v m = 0) ->
    clean_le a (set_byte a n v).
Proof.
    intros Hv k. rewrite !attr_dirty_false, byte_at_set_byte.
    destruct (decide _) as [[-> _]|_]; [|tauto].
    apply Hv.
Qed.

Lemma attr_dirty_cleared (a : list Z) (k : Z) (n : nat) (v : Z) :
    n = Z.to_nat (Z.shiftr k 3) -> Z.land v (Z.shiftl 1 (Z.land k 7)) = 0 ->
    attr_dirty (set_byte a n v) k = false.
Proof.
    intros -> Hv. rewrite attr_dirty_false, byte_at_set_byte.
    destruct (decide _) as [_|Hn]; [exact Hv|].
    unfold byte_at. rewrite (lookup_ge_None_2 a); [reflexivity|].
    destruct (decide (Z.to_nat (Z.shiftr k 3) < length a)%nat); [tauto|lia].
Qed.


End DirtyBits.

Section PassOrder.
Import SyncState RigidBodySend.

Lemma comp_le_refl c : comp_le c c.
Proof. repeat split. intros k H; exact H. Qed.

Lemma comp_le_trans c1 c2 c3 : comp_le c1 c2 -> comp_le c2 c3 -> comp_le c1 c3.
Proof.
    intros (A1 & A2 & A3) (B1 & B2 & B3). repeat split; try congruence.
    intros k H. apply B3, A3, H.
Qed.

Lemma comps_le_refl m : comps_le m m.
Proof.
    intros cid. destruct (m !! cid) as [c|] eqn:E; [|reflexivity].
    exists c. split; [reflexivity | apply comp_le_refl].
Qed.

Lemma comps_le_trans m1 m2 m3 : comps_le m1 m2 -> comps_le m2 m3 -> comps_le m1 m3.
Proof.
    intros H12 H23 cid. specialize (H12 cid). specialize (H23 cid).
    destruct (m1 !! cid) as [c1|].
    - destruct H12 as (c2 & E2 & L12). rewrite E2 in H23.
      destruct H23 as (c3 & E3 & L23). exists c3. split; [exact E3|].
      eapply comp_le_trans; eassumption.
    - now rewrite H12 in H23.
Qed.

Lemma comps_le_insert m cid c c' :
    m !! cid = Some c -> comp_le c c' -> comps_le m (<[cid := c']> m).
Proof.
    intros E L k. destruct (decide (cid = k)) as [->|Hne].
    - rewrite E. exists c'. split; [apply lookup_insert_eq | exact L].
    - rewrite lookup_insert_ne by exact Hne.
      destruct (m !! k) as [ck|]; [|reflexivity].
      exists ck. split; [reflexivity | apply comp_le_refl].
Qed.

Lemma ess_le_refl e : ess_le e e.
Proof. repeat split. apply comps_le_refl. Qed.

Lemma ess_le_trans e1 e2 e3 : ess_le e1 e2 -> ess_le e2 e3 -> ess_le e1 e3.
Proof.
    intros (A1 & A2 & A3 & A4) (B1 & B2 & B3 & B4). repeat split; try congruence.
    eapply comps_le_trans; eassumption.
Qed.


End PassOrder.

Section PassProofs.
Import Geometry SyncState RigidBodySend.
Variable IsZero : float3 -> Q -> bool.
Variable DegToRad : float3 -> float3.
Variable Orientation3x3 : Transform -> float3x3.
Variable SecondsSinceF : Z -> Q.
Variable Tick : Z.
Variable ComputePrioritizedUpdateInterval : EntitySyncState -> Q -> Q.
Variable entryBits : RigidBodyEntry -> Z.
Variable updatePeriod_ : Q.
Variable prioritizer_ : bool.
Variable scene : gmap Z Entity.

Local Abbreviation stealVelocities := (stealVelocities IsZero).
Local Abbreviation encode :=
    (encode DegToRad Orientation3x3 SecondsSinceF Tick ComputePrioritizedUpdateInterval
       updatePeriod_ prioritizer_).
Local Abbreviation examine :=
    (examine IsZero DegToRad Orientation3x3 SecondsSinceF Tick ComputePrioritizedUpdateInterval
       updatePeriod_ prioritizer_).
Local Abbreviation step :=
    (step IsZero DegToRad Orientation3x3 SecondsSinceF Tick ComputePrioritizedUpdateInterval
       entryBits updatePeriod_ prioritizer_ scene).
Local Abbreviation loop :=
    (loop IsZero DegToRad Orientation3x3 SecondsSinceF Tick ComputePrioritizedUpdateInterval
       entryBits updatePeriod_ prioritizer_ scene).
Local Abbreviation flushed := (flushed entryBits).
Local Abbreviation ReplicateRigidBodyChanges :=
    (ReplicateRigidBodyChanges IsZero DegToRad Orientation3x3 SecondsSinceF Tick
       ComputePrioritizedUpdateInterval entryBits updatePeriod_ prioritizer_ scene).

Lemma stealTransform_le pl comps : comps_le comps (snd (stealTransform pl comps)).
Proof.
    unfold stealTransform. destruct (comps !! p_id pl) as [pss|] eqn:E; [|apply comps_le_refl].
    destruct (negb (c_isNew pss) && negb (c_removed pss)); [|apply comps_le_refl].
    simpl. eapply comps_le_insert; [exact E|].
    repeat split. apply clean_le_set. intros m. apply land_clear_mono.
Qed.

Lemma stealTransform_cleared pl comps :
    tracked comps (p_id pl) = true ->
    exists pss', snd (stealTransform pl comps) !! p_id pl = Some pss'
                 /\ attr_dirty (dirtyAttributes pss') 0 = false.
Proof.
    unfold tracked, stealTransform. destruct (comps !! p_id pl) as [pss|]; [|discriminate].
    intros ->. simpl. eexists. split; [apply lookup_insert_eq|].
    simpl. apply attr_dirty_cleared; [reflexivity | apply land_clear_same].
Qed.

Lemma stealVelocities_le ess rb comps : comps_le comps (comps' (stealVelocities ess rb comps)).
Proof.
    unfold RigidBodySend.stealVelocities. destruct rb as [b|]; [|apply comps_le_refl].
    destruct (comps !! r_id b) as [rss|] eqn:E; [|apply comps_le_refl].
    destruct (negb (c_isNew rss) && negb (c_removed rss)); [|apply comps_le_refl].
    simpl. eapply comps_le_insert; [exact E|].
    repeat split. apply clean_le_set. intros m Hm.
    now apply land_clear_mono, land_clear_mono.
Qed.

Lemma stealVelocities_cleared ess b comps :
    tracked comps (r_id b) = true ->
    exists rss', comps' (stealVelocities ess (Some b) comps) !! r_id b = Some rss'
                 /\ attr_dirty (dirtyAttributes rss') 13 = false
                 /\ attr_dirty (dirtyAttributes rss') 14 = false.
Proof.
    unfold tracked, RigidBodySend.stealVelocities.
    destruct (comps !! r_id b) as [rss|]; [|discriminate].
    intros ->. simpl. eexists. split; [apply lookup_insert_eq|]. simpl. split.
    - apply attr_dirty_cleared; [reflexivity | apply land_clear_mono, land_clear_same].
    - apply attr_dirty_cleared; [reflexivity | apply land_clear_same].
Qed.

Lemma encode_keeps ess pl rb td vd ad entry ess' :
    encode ess pl rb td vd ad = Some (entry, ess') ->
    id ess' = id ess /\ isNew ess' = isNew ess /\ removed ess' = removed ess
    /\ components ess' = components ess.
Proof.
    unfold RigidBodySend.encode.
    destruct (prioritizer_ && _); [discriminate|].
    match goal with |- context [if ?c then None else _] => destruct c end; [discriminate|].
    intros H. injection H as _ <-. repeat split.
Qed.

Lemma examine_components ess pl rb :
    id (ex_state (examine ess pl rb)) = id ess
    /\ isNew (ex_state (examine ess pl rb)) = isNew ess
    /\ removed (ex_state (examine ess pl rb)) = removed ess
    /\ components (ex_state (examine ess pl rb))
       = comps' (stealVelocities ess rb (snd (stealTransform pl (components ess)))).
Proof.
    unfold RigidBodySend.examine.
    destruct (stealTransform pl (components ess)) as [td comps1]. simpl.
    destruct (negb td && _ && _); [repeat split|].
    destruct (encode _ _ _ _ _ _) as [[entry ess2]|] eqn:E; [|repeat split].
    apply encode_keeps in E. simpl in *. destruct E as (-> & -> & -> & ->). repeat split.
Qed.

Lemma examine_le ess pl rb : ess_le ess (ex_state (examine ess pl rb)).
Proof.
    destruct (examine_components ess pl rb) as (H1 & H2 & H3 & H4).
    repeat split; try assumption. rewrite H4.
    eapply comps_le_trans; [apply stealTransform_le | apply stealVelocities_le].
Qed.

Lemma flushed_entities L : entities (flushed L) = entities L.
Proof. unfold flushed. now destruct (_ <=? _). Qed.

  (** What a turn of the loop does, by cases. *)
Lemma step_inv key L L' :
    step key L = Some L' ->
    exists ess, entities L !! key = Some ess
      /\ ((L' = flushed L
           /\ (isNew ess || removed ess = true
               \/ exists e, scene !! id ess = Some e /\ placeable e = None))
          \/ (isNew ess || removed ess = false
              /\ exists e pl, scene !! id ess = Some e /\ placeable e = Some pl
                 /\ L' = {| ds := ds (written (examine ess pl (rigidBody e)) (flushed L));
                            msgReliable := msgReliable (written (examine ess pl (rigidBody e)) (flushed L));
                            sent := sent (flushed L);
                            entities := <[key := ex_state (examine ess pl (rigidBody e))]>
                                          (entities (flushed L)) |})).
Proof.
    unfold RigidBodySend.step. fold (flushed L).
    rewrite <- (flushed_entities L).
    destruct (entities (flushed L) !! key) as [ess|]; [|discriminate].
    intros H. exists ess. split; [reflexivity|].
    destruct (isNew ess || removed ess) eqn:Hnr.
    - injection H as <-. left. split; [reflexivity | now left].
    - destruct (scene !! id ess) as [e|] eqn:He; [|discriminate].
      destruct (placeable e) as [pl|] eqn:Hpl.
      + injection H as <-. right. split; [reflexivity|].
        exists e, pl. repeat split; assumption.
      + injection H as <-. left. split; [reflexivity|]. right. now exists e.
Qed.

Lemma step_frame key L L' k :
    step key L = Some L' -> k <> key -> entities L' !! k = entities L !! k.
Proof.
    intros H Hne. apply step_inv in H. destruct H as (ess & _ & [[-> _]|(_ & e & pl & _ & _ & ->)]).
    - now rewrite flushed_entities.
    - simpl. rewrite lookup_insert_ne by congruence. now rewrite flushed_entities.
Qed.

Lemma step_le key L L' k e0 :
    step key L = Some L' -> entities L !! k = Some e0 ->
    exists e', entities L' !! k = Some e' /\ ess_le e0 e'.
Proof.
    intros H Hk. destruct (decide (k = key)) as [->|Hne].
    - apply step_inv in H. destruct H as (ess & Hess & [[-> _]|(_ & e & pl & _ & _ & ->)]).
      + exists e0. rewrite flushed_entities. split; [exact Hk | apply ess_le_refl].
      + simpl. rewrite lookup_insert_eq. eexists. split; [reflexivity|].
        assert (ess = e0) as -> by congruence. apply examine_le.
    - exists e0. rewrite (step_frame _ _ _ _ H Hne). split; [exact Hk | apply ess_le_refl].
Qed.

Lemma loop_le q : forall L L' k e0,
    loop q L = Some L' -> entities L !! k = Some e0 ->
    exists e', entities L' !! k = Some e' /\ ess_le e0 e'.
Proof.
    induction q as [|key q IH]; intros L L' k e0 H Hk; simpl in H.
    - injection H as <-. exists e0. split; [exact Hk | apply ess_le_refl].
    - destruct (step key L) as [L1|] eqn:Hs; [|discriminate].
      destruct (step_le _ _ _ _ _ Hs Hk) as (e1 & Hk1 & Hle1).
      destruct (IH _ _ _ _ H Hk1) as (e' & Hk' & Hle').
      exists e'. split; [exact Hk' | eapply ess_le_trans; eassumption].
Qed.

Lemma tracked_le m m' cid : comps_le m m' -> tracked m' cid = tracked m cid.
Proof.
    intros H. specialize (H cid). unfold tracked.
    destruct (m !! cid) as [c|].
    - destruct H as (c' & -> & (-> & -> & _)). reflexivity.
    - now rewrite H.
Qed.

Lemma examine_stolen ess e pl :
    stolen_from ess (ex_state (examine ess pl (rigidBody e))) e pl.
Proof.
    destruct (examine_components ess pl (rigidBody e)) as (_ & _ & _ & Hc).
    split.
    - intros Ht. rewrite Hc.
      destruct (stealTransform_cleared pl _ Ht) as (pss1 & E1 & D1).
      pose proof (stealVelocities_le ess (rigidBody e) (snd (stealTransform pl (components ess)))
                    (p_id pl)) as Hle.
      rewrite E1 in Hle. destruct Hle as (pss2 & E2 & (_ & _ & Hclean)).
      exists pss2. split; [exact E2 | apply Hclean, D1].
    - intros b Hb Ht. rewrite Hc, Hb.
      apply stealVelocities_cleared.
      now rewrite (tracked_le _ _ _ (stealTransform_le pl (components ess))).
Qed.

Lemma stolen_le ess ess1 ess2 e pl :
    stolen_from ess ess1 e pl -> ess_le ess1 ess2 -> stolen_from ess ess2 e pl.
Proof.
    intros [Hp Hr] (_ & _ & _ & Hle). split.
    - intros Ht. destruct (Hp Ht) as (pss1 & E1 & D1).
      pose proof (Hle (p_id pl)) as H. rewrite E1 in H.
      destruct H as (pss2 & E2 & (_ & _ & Hclean)). exists pss2. split; [exact E2 | apply Hclean, D1].
    - intros b Hb Ht. destruct (Hr b Hb Ht) as (rss1 & E1 & D13 & D14).
      pose proof (Hle (r_id b)) as H. rewrite E1 in H.
      destruct H as (rss2 & E2 & (_ & _ & Hclean)). exists rss2.
      repeat split; [exact E2 | apply Hclean, D13 | apply Hclean, D14].
Qed.

Lemma stolen_le_l ess0 ess ess' e pl :
    ess_le ess0 ess -> stolen_from ess ess' e pl -> stolen_from ess0 ess' e pl.
Proof.
    intros (_ & _ & _ & Hle) [Hp Hr]. split.
    - intros Ht. apply Hp. now rewrite (tracked_le _ _ _ Hle).
    - intros b Hb Ht. apply (Hr b Hb). now rewrite (tracked_le _ _ _ Hle).
Qed.

Lemma loop_stolen q : forall L L' key ess e pl,
    loop q L = Some L' -> In key q ->
    entities L !! key = Some ess -> isNew ess = false -> removed ess = false ->
    scene !! id ess = Some e -> placeable e = Some pl ->
    exists ess', entities L' !! key = Some ess' /\ stolen_from ess ess' e pl.
Proof.
    induction q as [|k q IH]; intros L L' key ess e pl H Hin Hk Hnew Hrem He Hpl; [destruct Hin|].
    simpl in H. destruct (step k L) as [L1|] eqn:Hs; [|discriminate].
    destruct (decide (k = key)) as [->|Hne].
    - pose proof Hs as Hs'. apply step_inv in Hs'.
      destruct Hs' as (ess0 & Hess0 & Hcase).
      assert (ess0 = ess) as -> by congruence.
      destruct Hcase as [[_ [Hnr|(e0 & He0 & Hpl0)]]|(_ & e0 & pl0 & He0 & Hpl0 & ->)].
      + rewrite Hnew, Hrem in Hnr. discriminate.
      + congruence.
      + assert (e0 = e) as -> by congruence. assert (pl0 = pl) as -> by congruence.
        destruct (loop_le q _ _ key _ H (lookup_insert_eq _ _ _)) as (ess' & Hk' & Hle).
        exists ess'. split; [exact Hk'|].
        eapply stolen_le; [apply examine_stolen | exact Hle].
    - destruct Hin as [Heq|Hin]; [congruence|].
      assert (Hk1 : entities L1 !! key = Some ess).
      { rewrite (step_frame _ _ _ _ Hs); [exact Hk | congruence]. }
      eapply IH; eassumption.
Qed.







Lemma BitsFilled_nonneg d : (forall en, 0 < entryBits en) -> 0 <= BitsFilled entryBits d.
Proof.
    intros Hpos. induction d as [|en d IH]; simpl; [lia|]. specialize (Hpos en). lia.
Qed.









Lemma loop_frame q : forall L L' k,
    loop q L = Some L' -> ~ In k q -> entities L' !! k = entities L !! k.
Proof.
    induction q as [|key rest IH]; intros L L' k.
    - now intros [= <-].
    - cbn [RigidBodySend.loop]. destruct (step key L) as [L1|] eqn:H1; [|discriminate].
      intros H Hk. rewrite (IH _ _ _ H) by (cbn in Hk; tauto).
      apply (step_frame key L L1 k H1). cbn in Hk. intros ->. tauto.
Qed.






(** ** What the pass leaves alone, and what it sends *)

Lemma ents_le_refl ents : ents_le ents ents.
Proof.
    intros k. destruct (ents !! k) as [e|] eqn:E; [|reflexivity].
    exists e. split; [reflexivity | apply ess_le_refl].
Qed.

Lemma ents_le_trans a b c : ents_le a b -> ents_le b c -> ents_le a c.
Proof.
    intros Hab Hbc k. specialize (Hab k). specialize (Hbc k).
    destruct (a !! k) as [e|].
    - destruct Hab as (e1 & E1 & L1). rewrite E1 in Hbc.
      destruct Hbc as (e2 & E2 & L2). exists e2. split; [exact E2|].
      eapply ess_le_trans; eassumption.
    - now rewrite Hab in Hbc.
Qed.

Lemma step_ents_le key L L' : step key L = Some L' -> ents_le (entities L) (entities L').
Proof.
    intros H k. destruct (entities L !! k) as [e|] eqn:E.
    - exact (step_le key L L' k e H E).
    - destruct (Z.eq_dec k key) as [->|Hne].
      + destruct (step_inv _ _ _ H) as (ess & Hess & _). congruence.
      + now rewrite (step_frame key L L' k H Hne).
Qed.

Lemma loop_ents_le q : forall L L', loop q L = Some L' -> ents_le (entities L) (entities L').
Proof.
    induction q as [|key rest IH]; intros L L'.
    - intros [= <-]. apply ents_le_refl.
    - cbn [RigidBodySend.loop]. destruct (step key L) as [L1|] eqn:H1; [|discriminate].
      intros H. eapply ents_le_trans; [exact (step_ents_le _ _ _ H1) | exact (IH _ _ H)].
Qed.

Lemma ReplicateRigidBodyChanges_inv q ents sent' ents' :
    ReplicateRigidBodyChanges q ents = Some (sent', ents') ->
    exists L, loop q {| ds := []; msgReliable := false; sent := []; entities := ents |} = Some L
      /\ ents' = entities L
      /\ sent' = sent (if 0 <? BytesFilled entryBits (ds L) then Send L else L).
Proof.
    unfold RigidBodySend.ReplicateRigidBodyChanges.
    destruct (loop q _) as [L|]; [|discriminate].
    intros [= <- <-]. exists L. split; [reflexivity|].
    now destruct (0 <? _).
Qed.

(** X10.  The pass never makes a sync state dirtier: afterwards the map
    holds the same entity states, each with its id and its [isNew] and
    [removed] flags, each with the same component states and their
    flags, and no attribute is dirty that was clean. *)
Theorem pass_sets_no_dirty_bit :
    forall (q : list Z) (ents ents' : gmap Z EntitySyncState) (sent' : list RigidBodyUpdate),
      ReplicateRigidBodyChanges q ents = Some (sent', ents') ->
      ents_le ents ents'.
Proof.
    intros q ents ents' sent' H.
    destruct (ReplicateRigidBodyChanges_inv _ _ _ _ H) as (L & Hl & -> & _).
    exact (loop_ents_le _ _ _ Hl).
Qed.

Lemma step_skipped key L L' k e0 :
    step key L = Some L' -> entities L !! k = Some e0 ->
    (isNew e0 || removed e0 = true
     \/ exists e, scene !! id e0 = Some e /\ placeable e = None) ->
    entities L' !! k = Some e0.
Proof.
    intros H E Hskip. destruct (Z.eq_dec k key) as [->|Hne].
    - destruct (step_inv _ _ _ H) as (ess & Hess & [(-> & _)|(Hnr & e & pl & He & Hpl & _)]).
      + now rewrite flushed_entities.
      + assert (ess = e0) as -> by congruence.
        destruct Hskip as [Hs|(e' & He' & Hnone)]; congruence.
    - now rewrite (step_frame key L L' k H Hne).
Qed.

Lemma loop_skipped q : forall L L' k e0,
    loop q L = Some L' -> entities L !! k = Some e0 ->
    (isNew e0 || removed e0 = true
     \/ exists e, scene !! id e0 = Some e /\ placeable e = None) ->
    entities L' !! k = Some e0.
Proof.
    induction q as [|key rest IH]; intros L L' k e0.
    - now intros [= <-].
    - cbn [RigidBodySend.loop]. destruct (step key L) as [L1|] eqn:H1; [|discriminate].
      intros H E Hskip. apply (IH _ _ _ _ H); [|exact Hskip].
      exact (step_skipped _ _ _ _ _ H1 E Hskip).
Qed.

(** X11.  What the pass leaves exactly as it was: the entity states
    that the dirty queue does not point to, those that are new or
    removed, and those whose entity has no [EC_Placeable]. *)
Theorem pass_leaves_the_rest_alone :
    forall (q : list Z) (ents ents' : gmap Z EntitySyncState) (sent' : list RigidBodyUpdate),
      ReplicateRigidBodyChanges q ents = Some (sent', ents') ->
      (forall k, ~ In k q -> ents' !! k = ents !! k)
      /\ (forall k e0, ents !! k = Some e0 -> isNew e0 || removed e0 = true ->
            ents' !! k = Some e0)
      /\ (forall k e0 e, ents !! k = Some e0 -> scene !! id e0 = Some e ->
            placeable e = None -> ents' !! k = Some e0).
Proof.
    intros q ents ents' sent' H.
    destruct (ReplicateRigidBodyChanges_inv _ _ _ _ H) as (L & Hl & -> & _).
    split; [|split].
    - intros k Hk. exact (loop_frame _ _ _ k Hl Hk).
    - intros k e0 E Hnr. apply (loop_skipped _ _ _ _ _ Hl E). now left.
    - intros k e0 e E He Hpl. apply (loop_skipped _ _ _ _ _ Hl E). right. now exists e.
Qed.

Lemma Send_everyEntry P L : everyEntry P L -> everyEntry P (Send L).
Proof.
    intros [Hd Hs]. split; [intros entry []|].
    intros m entry Hm He. cbn in Hm. apply in_app_or in Hm.
    destruct Hm as [Hm|[<-|[]]]; [exact (Hs m entry Hm He) | exact (Hd entry He)].
Qed.

Lemma flushed_everyEntry P L : everyEntry P L -> everyEntry P (flushed L).
Proof. unfold RigidBodySend.flushed. destruct (_ <=? _); [apply Send_everyEntry | tauto]. Qed.

Lemma step_everyEntry P key L L' :
    everyEntry P L -> step key L = Some L' ->
    (forall ess e pl entry,
       entities L !! key = Some ess -> isNew ess || removed ess = false ->
       scene !! id ess = Some e -> placeable e = Some pl ->
       ex_entry (examine ess pl (rigidBody e)) = Some entry -> P entry) ->
    everyEntry P L'.
Proof.
    intros HP H Hnew.
    destruct (step_inv _ _ _ H) as (ess & Hess & [(-> & _)|(Hnr & e & pl & He & Hpl & ->)]).
    - now apply flushed_everyEntry.
    - destruct (flushed_everyEntry P L HP) as [Hd Hs]. split; [|exact Hs].
      intros entry Hin. cbn in Hin. apply in_app_or in Hin.
      destruct Hin as [Hin|Hin]; [exact (Hd entry Hin)|].
      destruct (ex_entry _) as [en|] eqn:Hen; [|destruct Hin].
      destruct Hin as [<-|[]]. exact (Hnew ess e pl en Hess Hnr He Hpl Hen).
Qed.

Lemma loop_everyEntry P q : forall L L',
    everyEntry P L -> loop q L = Some L' ->
    (forall key L1 ess e pl entry,
       In key q -> ents_le (entities L) (entities L1) ->
       entities L1 !! key = Some ess -> isNew ess || removed ess = false ->
       scene !! id ess = Some e -> placeable e = Some pl ->
       ex_entry (examine ess pl (rigidBody e)) = Some entry -> P entry) ->
    everyEntry P L'.
Proof.
    induction q as [|key rest IH]; intros L L' HP.
    - now intros [= <-].
    - cbn [RigidBodySend.loop]. destruct (step key L) as [L1|] eqn:H1; [|discriminate].
      intros H Hnew. apply (IH L1 L'); [|exact H|].
      + apply (step_everyEntry P key L L1 HP H1).
        intros ess e pl entry. apply (Hnew key L); [now left | apply ents_le_refl].
      + intros k L2 ess e pl entry Hk Hle. apply (Hnew k L2); [now right|].
        eapply ents_le_trans; [exact (step_ents_le _ _ _ H1) | exact Hle].
Qed.

Lemma ReplicateRigidBodyChanges_everyEntry (P : RigidBodyEntry -> Prop) q ents sent' ents' :
    ReplicateRigidBodyChanges q ents = Some (sent', ents') ->
    (forall key ess0 ess e pl entry,
       In key q -> ents !! key = Some ess0 -> ess_le ess0 ess ->
       isNew ess || removed ess = false ->
       scene !! id ess = Some e -> placeable e = Some pl ->
       ex_entry (examine ess pl (rigidBody e)) = Some entry -> P entry) ->
    forall m entry, In m sent' -> In entry (entries m) -> P entry.
Proof.
    intros H Hnew.
    destruct (ReplicateRigidBodyChanges_inv _ _ _ _ H) as (L & Hl & _ & ->).
    assert (HL : everyEntry P L).
    { assert (H0 : everyEntry P {| ds := []; msgReliable := false; sent := [];
                                   entities := ents |}).
      { split; [intros ? []|intros ? ? []]. }
      apply (loop_everyEntry P q _ L H0 Hl).
      intros key L1 ess e pl entry Hk Hle Hess. cbn [entities] in Hle.
      specialize (Hle key). destruct (ents !! key) as [ess0|] eqn:E0.
      - destruct Hle as (e' & He' & Hle). assert (e' = ess) as -> by congruence.
        now apply (Hnew key ess0 ess e pl entry).
      - congruence. }
    destruct (0 <? _); [apply (Send_everyEntry P L HL) | apply HL].
Qed.

Lemma Qmax_below a b c : (Qmax a b < c)%Q -> (a < c /\ b < c)%Q.
Proof.
    unfold Qmax. destruct (Qle_bool a b) eqn:E; intros H.
    - apply Qle_bool_iff in E. split; [eapply Qle_lt_trans; eassumption | exact H].
    - split; [exact H|]. apply Qlt_trans with a; [|exact H].
      apply Qnot_le_lt. intros Hc. apply Qle_bool_iff in Hc. congruence.
Qed.

Lemma MaxElement_below a c :
    (MaxElement (Abs a) < c)%Q -> (Qabs (x a) < c /\ Qabs (y a) < c /\ Qabs (z a) < c)%Q.
Proof.
    unfold MaxElement, Abs. cbn [x y z]. intros H.
    apply Qmax_below in H. destruct H as [Hx H]. apply Qmax_below in H. tauto.
Qed.

Lemma BitsFilled_app d d' :
    BitsFilled entryBits (d ++ d') = BitsFilled entryBits d + BitsFilled entryBits d'.
Proof.
    unfold RigidBodySend.BitsFilled. induction d as [|en d IH]; cbn; [reflexivity|].
    cbn in IH. rewrite IH. lia.
Qed.

Local Ltac by_cases :=
    repeat match goal with |- context [if ?b then _ else _] => destruct b end; lia.

Lemma encode_entry ess pl rb td vd ad entry ess' :
    encode ess pl rb td vd ad = Some (entry, ess') ->
    entry_id entry = id ess
    /\ entry_transform entry = p_transform pl
    /\ entry_linearVel entry = match rb with Some b => r_linearVelocity b | None => zero end
    /\ entry_posSendType entry
       = DetectPosSendType
           (td && negb (Qle_bool (DistanceSq (pos (p_transform pl)) (pos (transform ess)))
                          (1 / 1000)))
           (pos (p_transform pl))
    /\ 0 <= entry_posSendType entry < 3
    /\ 0 <= entry_rotSendType entry < 4
    /\ 0 <= entry_scaleSendType entry < 3
    /\ 0 <= entry_velSendType entry < 3
    /\ 0 <= entry_angVelSendType entry < 2
    /\ (entry_velSendType entry = 1 -> (LengthSq (entry_linearVel entry) < 64)%Q)
    /\ ~ (entry_posSendType entry = 0 /\ entry_rotSendType entry = 0
          /\ entry_scaleSendType entry = 0 /\ entry_velSendType entry = 0
          /\ entry_angVelSendType entry = 0)
    /\ (td = false -> entry_posSendType entry = 0 /\ entry_rotSendType entry = 0
                      /\ entry_scaleSendType entry = 0)
    /\ (vd = false -> entry_velSendType entry = 0)
    /\ (ad = false -> entry_angVelSendType entry = 0).
Proof.
    unfold RigidBodySend.encode.
    destruct (prioritizer_ && _); [discriminate|].
    destruct ((_ =? 0) && (_ =? 0) && (_ =? 0) && (_ =? 0) && (_ =? 0)) eqn:Hz; [discriminate|].
    intros [= <- _]. cbn [entry_id entry_transform entry_linearVel entry_posSendType
      entry_rotSendType entry_scaleSendType entry_velSendType entry_angVelSendType].
    split; [reflexivity|]. split; [reflexivity|]. split; [reflexivity|]. split; [reflexivity|].
    split; [unfold DetectPosSendType; by_cases|].
    split; [unfold DetectRotSendType; by_cases|].
    split; [by_cases|].
    split; [by_cases|].
    split; [by_cases|].
    split.
    { destruct vd; [|discriminate].
      destruct (Qle_bool 64 _) eqn:H64; [discriminate|]. intros _.
      apply Qnot_le_lt. intros Hle. apply Qle_bool_iff in Hle. congruence. }
    split.
    { intros (E1 & E2 & E3 & E4 & E5). rewrite E1, E2, E3, E4, E5 in Hz. discriminate Hz. }
    split; [intros ->; now cbn|].
    split; intros ->; reflexivity.
Qed.

Lemma examine_entry ess pl rb entry :
    ex_entry (examine ess pl rb) = Some entry ->
    exists ess1 td vd ad ess2,
      id ess1 = id ess /\ transform ess1 = transform ess
      /\ encode ess1 pl rb td vd ad = Some (entry, ess2).
Proof.
    unfold RigidBodySend.examine.
    destruct (stealTransform pl (components ess)) as [td comps1].
    set (v := stealVelocities ess rb comps1).
    destruct (negb td && _ && _); [discriminate|].
    destruct (encode _ pl rb td _ _) as [[en ess2]|] eqn:Hen; [|discriminate].
    intros [= <-]. eexists _, td, _, _, ess2. split; [|split; [|exact Hen]]; reflexivity.
Qed.

(** X13.  Every entry of every message sent is for an entity state of
    the dirty queue that is neither new nor removed, carries its id, and
    carries the transform of the [EC_Placeable] and the linear velocity
    of the [EC_RigidBody] that the entity has in the scene (zero without
    one). *)
Theorem pass_writes_queued_placeables_only :
    forall (q : list Z) (ents ents' : gmap Z EntitySyncState) (sent' : list RigidBodyUpdate)
           (m : RigidBodyUpdate) (entry : RigidBodyEntry),
      ReplicateRigidBodyChanges q ents = Some (sent', ents') ->
      In m sent' -> In entry (entries m) ->
      exists key ess e pl,
        In key q /\ ents !! key = Some ess
        /\ isNew ess = false /\ removed ess = false
        /\ entry_id entry = id ess
        /\ scene !! id ess = Some e /\ placeable e = Some pl
        /\ entry_transform entry = p_transform pl
        /\ entry_linearVel entry
           = match rigidBody e with Some b => r_linearVelocity b | None => zero end.
Proof.
    intros q ents ents' sent' m entry H Hm Hentry. pattern entry.
    apply (fun P Hnew => ReplicateRigidBodyChanges_everyEntry P q ents sent' ents' H Hnew
                           m entry Hm Hentry).
    clear m entry Hm Hentry. intros key ess0 ess e pl entry Hk E0 Hle Hnr He Hpl Hen.
    destruct (examine_entry _ _ _ _ Hen) as (ess1 & td & vd & ad & ess2 & Hid & _ & Henc).
    destruct (encode_entry _ _ _ _ _ _ _ _ Henc) as (Eid & Etr & Evel & _).
    destruct Hle as (Lid & Lnew & Lrem & _).
    apply orb_false_iff in Hnr. destruct Hnr as [Hn Hr].
    exists key, ess0, e, pl. rewrite <- Lid, <- Lnew, <- Lrem.
    repeat split; try assumption; congruence.
Qed.

(** X14.  The five send types of every entry written are below the
    radixes 3, 4, 3, 3, 2 that [AddArithmeticEncoded] is given, and not
    all of them are 0; the short velocity form is written only for a
    speed below 8 (squared: 64) and the short position form only when
    every coordinate is below 1023 in magnitude. *)
Theorem pass_header_within_radix :
    forall (q : list Z) (ents ents' : gmap Z EntitySyncState) (sent' : list RigidBodyUpdate)
           (m : RigidBodyUpdate) (entry : RigidBodyEntry),
      ReplicateRigidBodyChanges q ents = Some (sent', ents') ->
      In m sent' -> In entry (entries m) ->
      0 <= entry_posSendType entry < 3
      /\ 0 <= entry_rotSendType entry < 4
      /\ 0 <= entry_scaleSendType entry < 3
      /\ 0 <= entry_velSendType entry < 3
      /\ 0 <= entry_angVelSendType entry < 2
      /\ ~ (entry_posSendType entry = 0 /\ entry_rotSendType entry = 0
            /\ entry_scaleSendType entry = 0 /\ entry_velSendType entry = 0
            /\ entry_angVelSendType entry = 0)
      /\ (entry_velSendType entry = 1 -> (LengthSq (entry_linearVel entry) < 64)%Q)
      /\ (entry_posSendType entry = 1 ->
          (Qabs (x (pos (entry_transform entry))) < 1023
           /\ Qabs (y (pos (entry_transform entry))) < 1023
           /\ Qabs (z (pos (entry_transform entry))) < 1023)%Q).
Proof.
    intros q ents ents' sent' m entry H Hm Hentry. pattern entry.
    apply (fun P Hnew => ReplicateRigidBodyChanges_everyEntry P q ents sent' ents' H Hnew
                           m entry Hm Hentry).
    clear m entry Hm Hentry. intros key ess0 ess e pl entry Hk E0 Hle Hnr He Hpl Hen.
    destruct (examine_entry _ _ _ _ Hen) as (ess1 & td & vd & ad & ess2 & Hid & _ & Henc).
    destruct (encode_entry _ _ _ _ _ _ _ _ Henc)
      as (_ & Etr & _ & Epos & Rp & Rr & Rs & Rv & Ra & Hv & Hnz & _).
    repeat (split; [assumption|]).
    intros H1. rewrite Epos in H1. rewrite Etr. unfold DetectPosSendType in H1.
    destruct (_ && _); [|discriminate].
    destruct (Qle_bool 1023 _) eqn:Hmax; [discriminate|].
    apply MaxElement_below. apply Qnot_le_lt. intros Hc. apply Qle_bool_iff in Hc. congruence.
Qed.

Lemma loop_size q :
    (forall en, 0 < entryBits en <= maxRigidBodyMessageSizeBits) ->
    forall L L',
    loop q L = Some L' ->
    BitsFilled entryBits (ds L) <= maxMessageSizeBytes * 8 ->
    (forall m, In m (sent L) ->
       0 < BitsFilled entryBits (entries m) <= maxMessageSizeBytes * 8 /\ inOrder m = true) ->
    BitsFilled entryBits (ds L') <= maxMessageSizeBytes * 8
    /\ (forall m, In m (sent L') ->
          0 < BitsFilled entryBits (entries m) <= maxMessageSizeBytes * 8 /\ inOrder m = true).
Proof.
    intros Hbits. induction q as [|key rest IH]; intros L L'.
    - intros [= <-]. tauto.
    - cbn [RigidBodySend.loop]. destruct (step key L) as [L1|] eqn:H1; [|discriminate].
      intros H Hds Hsent. apply (IH L1 L' H).
      + destruct (step_inv _ _ _ H1) as (ess & _ & [(-> & _)|(_ & e & pl & _ & _ & ->)]).
        * unfold RigidBodySend.flushed. destruct (_ <=? _); [cbn; unfold maxMessageSizeBytes; lia | exact Hds].
        * cbn [ds written]. rewrite BitsFilled_app.
          assert (Hone : 0 <= BitsFilled entryBits
                           match ex_entry (examine ess pl (rigidBody e)) with
                           | Some entry => [entry] | None => [] end
                         <= maxRigidBodyMessageSizeBits).
          { destruct (ex_entry _) as [en|]; cbn; [specialize (Hbits en); lia|].
            unfold maxRigidBodyMessageSizeBits. lia. }
          unfold RigidBodySend.flushed.
          destruct (_ <=? _) eqn:Hfl; cbn [ds Send].
          -- change (BitsFilled entryBits []) with 0.
             unfold maxMessageSizeBytes, maxRigidBodyMessageSizeBits in *. lia.
          -- apply Z.leb_gt in Hfl. lia.
      + assert (Hfl : forall m, In m (sent (flushed L)) ->
                  0 < BitsFilled entryBits (entries m) <= maxMessageSizeBytes * 8
                  /\ inOrder m = true).
        { unfold RigidBodySend.flushed. destruct (_ <=? _) eqn:Hfl; [|exact Hsent].
          intros m Hm. cbn in Hm. apply in_app_or in Hm.
          destruct Hm as [Hm|[<-|[]]]; [now apply Hsent|]. cbn [entries inOrder].
          apply Z.leb_le in Hfl.
          unfold maxMessageSizeBytes, maxRigidBodyMessageSizeBits in *. split; [lia|reflexivity]. }
        destruct (step_inv _ _ _ H1) as (ess & _ & [(-> & _)|(_ & e & pl & _ & _ & ->)]);
          exact Hfl.
Qed.

(** X12.  When an entity takes at least one bit and at most
    [maxRigidBodyMessageSizeBits], no message is sent empty, every
    message fits the [maxMessageSizeBytes] of the serializer, and every
    message is sent in order. *)
Theorem pass_messages_fit :
    forall (q : list Z) (ents ents' : gmap Z EntitySyncState) (sent' : list RigidBodyUpdate)
           (m : RigidBodyUpdate),
      (forall en, 0 < entryBits en <= maxRigidBodyMessageSizeBits) ->
      ReplicateRigidBodyChanges q ents = Some (sent', ents') ->
      In m sent' ->
      entries m <> []
      /\ BytesFilled entryBits (entries m) <= maxMessageSizeBytes
      /\ inOrder m = true.
Proof.
    intros q ents ents' sent' m Hbits H Hm.
    destruct (ReplicateRigidBodyChanges_inv _ _ _ _ H) as (L & Hl & _ & ->).
    destruct (loop_size q Hbits _ L Hl) as [Hds Hsent].
    { cbn. unfold maxMessageSizeBytes. lia. }
    { intros ? []. }
    assert (Hall : 0 < BitsFilled entryBits (entries m) <= maxMessageSizeBytes * 8
                   /\ inOrder m = true).
    { destruct (0 <? BytesFilled entryBits (ds L)) eqn:Hb; [|now apply Hsent].
      cbn in Hm. apply in_app_or in Hm. destruct Hm as [Hm|[<-|[]]]; [now apply Hsent|].
      cbn [entries inOrder]. split; [|reflexivity]. split; [|exact Hds].
      apply Z.ltb_lt in Hb. unfold RigidBodySend.BytesFilled in Hb.
      assert (0 <= BitsFilled entryBits (ds L)).
      { apply BitsFilled_nonneg. intros en. specialize (Hbits en). lia. }
      destruct (Z.eq_dec (BitsFilled entryBits (ds L)) 0) as [E|]; [|lia].
      rewrite E in Hb. vm_compute in Hb. discriminate Hb. }
    destruct Hall as [[Hpos Hle] Hin]. split; [|split; [|exact Hin]].
    - intros E. rewrite E in Hpos. cbn in Hpos. lia.
    - unfold RigidBodySend.BytesFilled, maxMessageSizeBytes in *.
      assert ((BitsFilled entryBits (entries m) + 7) / 8 < 1401)
        by (apply Z.div_lt_upper_bound; lia).
      lia.
Qed.

Lemma stolen_from_later ess ess2 e pl :
    stolen_from ess ess2 e pl -> ess_le ess ess2 -> stolen_from ess2 ess2 e pl.
Proof.
    intros [Hp Hr] (_ & _ & _ & Hle). split.
    - intros Ht. apply Hp. now rewrite <- (tracked_le _ _ _ Hle).
    - intros b Hb Ht. apply (Hr b Hb). now rewrite <- (tracked_le _ _ _ Hle).
Qed.

  (** An entity whose stolen bits are clear and whose velocities have not
      come to rest is not written. *)
Lemma examine_quiet ess e pl :
    stolen_from ess ess e pl ->
    (forall b, rigidBody e = Some b -> tracked (components ess) (r_id b) = true ->
       comesToRest IsZero ess b = false) ->
    ex_entry (examine ess pl (rigidBody e)) = None.
Proof.
    intros [Hp Hr] Hrest.
    assert (Htd : fst (stealTransform pl (components ess)) = false).
    { unfold stealTransform. unfold tracked in Hp.
      destruct (components ess !! p_id pl) as [pss|]; [|reflexivity].
      destruct (negb (c_isNew pss) && negb (c_removed pss)); [|reflexivity].
      destruct (Hp eq_refl) as (pss' & [= <-] & Hclean). exact Hclean. }
    pose proof (stealTransform_le pl (components ess)) as Hle.
    assert (Hv : velocityDirty (stealVelocities ess (rigidBody e)
                                  (snd (stealTransform pl (components ess)))) = false
                 /\ angularVelocityDirty (stealVelocities ess (rigidBody e)
                                            (snd (stealTransform pl (components ess)))) = false).
    { destruct (rigidBody e) as [b|] eqn:Hb; [|split; reflexivity].
      pose proof (tracked_le _ _ (r_id b) Hle) as Htr.
      specialize (Hle (r_id b)).
      unfold RigidBodySend.stealVelocities. unfold tracked in Htr at 1.
      destruct (snd (stealTransform pl (components ess)) !! r_id b) as [rss|];
        [|split; reflexivity].
      destruct (negb (c_isNew rss) && negb (c_removed rss)); [|split; reflexivity].
      symmetry in Htr.
      destruct (Hr b eq_refl Htr) as (rss0 & Hrss0 & H13 & H14).
      rewrite Hrss0 in Hle. destruct Hle as (c' & [= <-] & (_ & _ & Hclean)).
      apply Hclean in H13. apply Hclean in H14.
      specialize (Hrest b eq_refl Htr). unfold comesToRest in Hrest.
      apply orb_false_iff in Hrest. destruct Hrest as [Hlin Hang].
      cbn [velocityDirty angularVelocityDirty].
      unfold attr_dirty in H13, H14.
      change (Z.to_nat (Z.shiftr 13 3)) with 1%nat in H13.
      change (Z.land 13 7) with 5 in H13.
      change (Z.to_nat (Z.shiftr 14 3)) with 1%nat in H14.
      change (Z.land 14 7) with 6 in H14.
      rewrite H13, H14, Hlin, Hang. split; reflexivity. }
    destruct Hv as [Hvd Had].
    unfold RigidBodySend.examine.
    destruct (stealTransform pl (components ess)) as [td comps1]. cbn [fst snd] in *.
    rewrite Htd, Hvd, Had. reflexivity.
Qed.

Lemma step_keyed key L L' : step key L = Some L' -> keyed (entities L) -> keyed (entities L').
Proof.
    intros Hs Hk k e1 He1. pose proof (step_ents_le _ _ _ Hs k) as Hle.
    destruct (entities L !! k) as [e0|] eqn:E0; [|congruence].
    destruct Hle as (e' & He' & (Hid & _)). assert (e' = e1) as -> by congruence.
    rewrite Hid. now apply Hk.
Qed.

Lemma examine_entry_id ess pl rb entry :
    ex_entry (examine ess pl rb) = Some entry -> entry_id entry = id ess.
Proof.
    intros Hen.
    destruct (examine_entry _ _ _ _ Hen) as (ess1 & td & vd & ad & ess2 & Hid & _ & Henc).
    destruct (encode_entry _ _ _ _ _ _ _ _ Henc) as (Eid & _). congruence.
Qed.

Lemma loop_other_ids q key : forall L L',
    loop q L = Some L' -> ~ In key q -> keyed (entities L) ->
    everyEntry (fun en => entry_id en <> key) L ->
    everyEntry (fun en => entry_id en <> key) L'.
Proof.
    induction q as [|k rest IH]; intros L L'.
    - now intros [= <-].
    - cbn [RigidBodySend.loop]. destruct (step k L) as [L1|] eqn:H1; [|discriminate].
      intros H Hnotin Hkeyed HP. apply (IH L1 L' H).
      + cbn in Hnotin. tauto.
      + exact (step_keyed _ _ _ H1 Hkeyed).
      + apply (step_everyEntry _ k L L1 HP H1).
        intros ess e pl entry Hess _ _ _ Hen.
        rewrite (examine_entry_id _ _ _ _ Hen), (Hkeyed _ _ Hess).
        cbn in Hnotin. intros ->. tauto.
Qed.

Lemma loop_quiet q key ess e pl : forall L L',
    loop q L = Some L' -> NoDup q -> keyed (entities L) ->
    entities L !! key = Some ess ->
    scene !! key = Some e -> placeable e = Some pl ->
    stolen_from ess ess e pl ->
    (forall b, rigidBody e = Some b -> tracked (components ess) (r_id b) = true ->
       comesToRest IsZero ess b = false) ->
    everyEntry (fun en => entry_id en <> key) L ->
    everyEntry (fun en => entry_id en <> key) L'.
Proof.
    intros L L' Hloop Hnd Hkeyed Hess He Hpl Hst Hrest HP.
    revert L L' Hloop Hnd Hkeyed Hess HP.
    induction q as [|k rest IH]; intros L L'.
    - now intros [= <-].
    - cbn [RigidBodySend.loop]. destruct (step k L) as [L1|] eqn:H1; [|discriminate].
      intros H Hnd Hkeyed Hess HP.
      apply NoDup_cons in Hnd. destruct Hnd as [Hk Hnd].
      destruct (Z.eq_dec k key) as [->|Hne].
      + apply (loop_other_ids rest key L1 L' H).
        * intros Hin. apply Hk. now apply list_elem_of_In.
        * exact (step_keyed _ _ _ H1 Hkeyed).
        * apply (step_everyEntry _ key L L1 HP H1).
          intros ess0 e0 pl0 entry Hess0 _ He0 Hpl0 Hen.
          assert (ess0 = ess) as -> by congruence.
          rewrite (Hkeyed _ _ Hess) in He0.
          assert (e0 = e) as -> by congruence. assert (pl0 = pl) as -> by congruence.
          rewrite (examine_quiet ess e pl Hst Hrest) in Hen. discriminate Hen.
      + apply (IH L1 L' H Hnd).
        * exact (step_keyed _ _ _ H1 Hkeyed).
        * now rewrite (step_frame _ _ _ key H1) by congruence.
        * apply (step_everyEntry _ k L L1 HP H1).
          intros ess0 e0 pl0 entry Hess0 _ _ _ Hen.
          rewrite (examine_entry_id _ _ _ _ Hen), (Hkeyed _ _ Hess0). exact Hne.
Qed.

  (** A pass sends nothing for an entity whose stolen bits are clear and
      whose velocities have not come to rest. *)
Lemma pass_quiet q ents sent' ents' key ess e pl :
    ReplicateRigidBodyChanges q ents = Some (sent', ents') ->
    NoDup q -> keyed ents -> ents !! key = Some ess ->
    scene !! key = Some e -> placeable e = Some pl ->
    stolen_from ess ess e pl ->
    (forall b, rigidBody e = Some b -> tracked (components ess) (r_id b) = true ->
       comesToRest IsZero ess b = false) ->
    forall m entry, In m sent' -> In entry (entries m) -> entry_id entry <> key.
Proof.
    intros H Hnd Hkeyed Hess He Hpl Hst Hrest.
    destruct (ReplicateRigidBodyChanges_inv _ _ _ _ H) as (L & Hl & _ & ->).
    assert (HL : everyEntry (fun en => entry_id en <> key) L).
    { apply (loop_quiet q key ess e pl _ L Hl Hnd Hkeyed Hess He Hpl Hst Hrest).
      split; [intros ? []|intros ? ? []]. }
    destruct (0 <? _); [apply (Send_everyEntry _ L HL) | apply HL].
Qed.

  (** After a pass the stolen bits of an entity of the queue are clear. *)
Lemma pass_stolen q ents sent' ents' key ess e pl :
    ReplicateRigidBodyChanges q ents = Some (sent', ents') ->
    In key q -> ents !! key = Some ess ->
    isNew ess = false -> removed ess = false ->
    scene !! id ess = Some e -> placeable e = Some pl ->
    exists ess', ents' !! key = Some ess' /\ ess_le ess ess' /\ stolen_from ess ess' e pl.
Proof.
    intros Hrun Hin Hk Hnew Hrem He Hpl.
    destruct (ReplicateRigidBodyChanges_inv _ _ _ _ Hrun) as (L & Hloop & -> & _).
    destruct (loop_stolen q _ _ key ess e pl Hloop Hin Hk Hnew Hrem He Hpl) as (ess' & Hk' & Hst).
    exists ess'. split; [exact Hk'|]. split; [|exact Hst].
    destruct (loop_le q _ _ key ess Hloop Hk) as (e' & He' & Hle). congruence.
Qed.

Lemma loop_keyed q : forall L L',
    loop q L = Some L' -> keyed (entities L) -> keyed (entities L').
Proof.
    induction q as [|k rest IH]; intros L L'.
    - now intros [= <-].
    - cbn [RigidBodySend.loop]. destruct (step k L) as [L1|] eqn:H1; [|discriminate].
      intros H Hkeyed. apply (IH L1 L' H). exact (step_keyed _ _ _ H1 Hkeyed).
Qed.

Lemma pass_keyed q ents sent' ents' :
    ReplicateRigidBodyChanges q ents = Some (sent', ents') -> keyed ents -> keyed ents'.
Proof.
    intros H Hkeyed.
    destruct (ReplicateRigidBodyChanges_inv _ _ _ _ H) as (L & Hl & -> & _).
    exact (loop_keyed _ _ _ Hl Hkeyed).
Qed.

End PassProofs.

Section LaterPass.
Import Geometry SyncState RigidBodySend.
Variable IsZero : float3 -> Q -> bool.
Variable DegToRad : float3 -> float3.
Variable Orientation3x3 : Transform -> float3x3.
Variable ComputePrioritizedUpdateInterval : EntitySyncState -> Q -> Q.
Variable entryBits : RigidBodyEntry -> Z.
Variable scene : gmap Z Entity.
  (** The clock, the update period and the prioritizer at the pass, and
      at a later pass. *)
Variables SecondsSinceF SecondsSinceF' : Z -> Q.
Variables Tick Tick' : Z.
Variables updatePeriod_ updatePeriod_' : Q.
Variables prioritizer_ prioritizer_' : bool.

Local Abbreviation pass :=
    (ReplicateRigidBodyChanges IsZero DegToRad Orientation3x3 SecondsSinceF Tick
       ComputePrioritizedUpdateInterval entryBits updatePeriod_ prioritizer_ scene).
Local Abbreviation laterPass :=
    (ReplicateRigidBodyChanges IsZero DegToRad Orientation3x3 SecondsSinceF' Tick'
       ComputePrioritizedUpdateInterval entryBits updatePeriod_' prioritizer_' scene).

(** C10, as amended.  In the rigid-body pass, for every entity of the
    dirty queue that is neither new nor removed and has a Placeable: after
    the pass, the Transform bit (attribute 0) of the Placeable's component
    state is clear whenever that state exists and is neither new nor
    removed, and so are the bits of the linear and the angular velocity
    (attributes 13 and 14) of the RigidBody's component state, whether or
    not an entry was written for the entity.  A change that was skipped
    is not taken up again: a later pass over the same scene, at any time
    and with or without a prioritizer, that finds the entity's state no
    dirtier than the pass left it sends no entry for the entity, unless a
    velocity of its RigidBody has come to rest against the one last
    sent. *)
Theorem rigid_body_bits_stolen :
    forall (dirtyQueue : list Z) (ents ents' : gmap Z EntitySyncState)
           (sent : list RigidBodyUpdate) (key : Z) (ess : EntitySyncState)
           (e : Entity) (pl : EC_Placeable),
      pass dirtyQueue ents = Some (sent, ents') ->
      In key dirtyQueue -> ents !! key = Some ess ->
      isNew ess = false -> removed ess = false ->
      scene !! id ess = Some e -> placeable e = Some pl ->
      exists ess', ents' !! key = Some ess'
        /\ (tracked (components ess) (p_id pl) = true ->
            exists pss', components ess' !! p_id pl = Some pss'
                         /\ attr_dirty (dirtyAttributes pss') 0 = false)
        /\ (forall b, rigidBody e = Some b -> tracked (components ess) (r_id b) = true ->
            exists rss', components ess' !! r_id b = Some rss'
                         /\ attr_dirty (dirtyAttributes rss') 13 = false
                         /\ attr_dirty (dirtyAttributes rss') 14 = false)
        /\ (forall (laterQueue : list Z) (ents2 ents3 : gmap Z EntitySyncState)
                   (sent2 : list RigidBodyUpdate) (ess2 : EntitySyncState),
              laterPass laterQueue ents2 = Some (sent2, ents3) ->
              NoDup laterQueue ->
              (forall k e0, ents2 !! k = Some e0 -> id e0 = k) ->
              ents2 !! key = Some ess2 -> ess_le ess' ess2 ->
              (forall b, rigidBody e = Some b -> tracked (components ess2) (r_id b) = true ->
                 comesToRest IsZero ess2 b = false) ->
              forall m entry, In m sent2 -> In entry (entries m) -> entry_id entry <> id ess).
Proof.
    intros q ents ents' sent key ess e pl Hrun Hin Hk Hnew Hrem He Hpl.
    destruct (pass_stolen _ _ _ _ _ _ _ _ _ _ _ _ _ _ _ _ _ _ Hrun Hin Hk Hnew Hrem He Hpl)
      as (ess' & Hk' & Hle & Hst).
    exists ess'. split; [exact Hk'|]. destruct Hst as [Hp Hr].
    split; [exact Hp|]. split; [exact Hr|].
    intros q2 ents2 ents3 sent2 ess2 Hrun2 Hnd Hkeyed Hk2 Hle2 Hrest m entry Hm Hentry.
    assert (Hle02 : ess_le ess ess2) by (eapply ess_le_trans; eassumption).
    assert (Hid : id ess = key).
    { destruct Hle02 as (Hid & _). rewrite <- Hid. now apply Hkeyed. }
    rewrite Hid.
    eapply (pass_quiet _ _ _ _ _ _ _ _ _ _ _ _ _ _ _ _ _ _ Hrun2 Hnd Hkeyed Hk2); try eassumption.
    - now rewrite <- Hid.
    - eapply stolen_from_later; [|exact Hle02].
      eapply stolen_le; [split; eassumption | exact Hle2].
Qed.

End LaterPass.



Lemma rigid_body_bits_stolen_witness :
  exists sent ents' ess' pss',
    Inputs.Bodies.pass true [1; 2; 3] = Some (sent, ents')
    /\ ents' !! 2 = Some ess'
    /\ SyncState.components ess' !! 20 = Some pss'
    /\ SyncState.attr_dirty (SyncState.dirtyAttributes pss') 0 = false
    /\ forall sent2 ents3,
         Inputs.Bodies.passAt 2000 [1; 2; 3] ents' = Some (sent2, ents3) ->
         forall m entry,
           In m sent2 -> In entry (RigidBodySend.entries m) ->
           RigidBodySend.entry_id entry <> 2.
Proof.
  destruct (Inputs.Bodies.pass true [1; 2; 3]) as [[sent ents']|] eqn:E;
    [|vm_compute in E; discriminate E].
  unfold Inputs.Bodies.pass in E.
  assert (Hkeyed : RigidBodySend.keyed ents').
  { apply (pass_keyed _ _ _ _ _ _ _ _ _ _ _ _ _ _ E).
    intros k e0 Hk.
    assert (Hk4 : k = 1 \/ k = 2 \/ k = 3 \/ Inputs.Bodies.ents !! k = None).
    { destruct (decide (k = 1)); [tauto|]. destruct (decide (k = 2)); [tauto|].
      destruct (decide (k = 3)); [tauto|]. right. right. right.
      unfold Inputs.Bodies.ents. now rewrite !lookup_insert_ne, lookup_singleton_ne by congruence. }
    destruct Hk4 as [->|[->|[->|Hnone]]]; [| | |congruence];
      vm_compute in Hk; injection Hk as <-; reflexivity. }
  destruct (rigid_body_bits_stolen Inputs.Bodies.IsZero (fun v => v)
              (fun _ => Inputs.Bodies.identity3x3) Inputs.Bodies.interval (fun _ => 100)
              Inputs.Bodies.scene (fun _ => 1%Q) (fun _ => 2000%Q) 100 100
              (1 / 20)%Q (1 / 20)%Q true true
              [1; 2; 3] Inputs.Bodies.ents ents' sent 2 Inputs.Bodies.ess2 _ _ E
              (or_intror (or_introl eq_refl)) eq_refl eq_refl eq_refl eq_refl eq_refl)
    as (ess' & Hess' & Hpl & _ & Hlater).
  destruct Hpl as (pss' & Hpss' & Hclean); [reflexivity|].
  exists sent, ents', ess', pss'.
  split; [reflexivity|]. split; [exact Hess'|]. split; [exact Hpss'|]. split; [exact Hclean|].
  intros sent2 ents3 E2.
  apply (Hlater [1; 2; 3] ents' ents3 sent2 ess' E2).
  - apply (bool_decide_unpack _). vm_compute. exact I.
  - exact Hkeyed.
  - exact Hess'.
  - apply ess_le_refl.
  - intros b Hb. discriminate Hb.
Defined.

(** C10 as the specification words it does not hold, in two ways.
    Entity 3 is neither new nor removed and is in the dirty queue, but its
    [EC_Placeable] has only just been added (the component state is new):
    the Transform bit is still set after the pass.  And a change that was
    skipped can be taken up by a later tick: the body of entity 1 has
    stopped and the bit of its linear velocity is dirty; the prioritizer
    holds the entity back, so the pass clears the bit and sends nothing
    (the generic pass, held back by the same interval, leaves the entity
    in the dirty queue); a pass 2000 s later over the states as the first
    pass left them, the bit still clear, sends the velocity. *)
Lemma new_component_bit_kept_and_rest_deferred :
  ((SyncState.isNew <$> Inputs.Bodies.ents !! 3) = Some false
   /\ (SyncState.removed <$> Inputs.Bodies.ents !! 3) = Some false
   /\ option_map
        (fun r => (fun ess' => (fun pss' => SyncState.attr_dirty (SyncState.dirtyAttributes pss') 0)
                                 <$> SyncState.components ess' !! 30)
                  <$> snd r !! 3)
        (Inputs.Bodies.pass false [1; 2; 3])
      = Some (Some (Some true)))
  /\ ((fun ess => (fun rss => SyncState.attr_dirty (SyncState.dirtyAttributes rss) 13)
                   <$> SyncState.components ess !! 11) <$> Inputs.Bodies.stopped !! 1
      = Some (Some true)
      /\ option_map fst (Inputs.Bodies.passAt 1 [1] Inputs.Bodies.stopped) = Some []
      /\ option_map
           (fun r => (fun ess' => (fun rss' => SyncState.attr_dirty
                                                (SyncState.dirtyAttributes rss') 13)
                                    <$> SyncState.components ess' !! 11)
                     <$> snd r !! 1)
           (Inputs.Bodies.passAt 1 [1] Inputs.Bodies.stopped)
         = Some (Some (Some false))
      /\ (snd <$> Inputs.Bodies.passAt 1 [1] Inputs.Bodies.stopped)
           ≫= (fun ents' => option_map fst (Inputs.Bodies.passAt 2000 [1] ents'))
         = Some [{| RigidBodySend.reliable := true;
                    RigidBodySend.inOrder := true;
                    RigidBodySend.entries :=
                      [{| RigidBodySend.entry_id := 1;
                          RigidBodySend.entry_posSendType := 0;
                          RigidBodySend.entry_rotSendType := 0;
                          RigidBodySend.entry_scaleSendType := 0;
                          RigidBodySend.entry_velSendType := 1;
                          RigidBodySend.entry_angVelSendType := 0;
                          RigidBodySend.entry_transform := Inputs.origin;
                          RigidBodySend.entry_linearVel := Geometry.zero;
                          RigidBodySend.entry_angVel := Geometry.zero |}] |}]).
Proof. repeat split; vm_compute; reflexivity. Qed.

(* ===================================================================== *)
(** ** The bit codec *)
(* ===================================================================== *)

Section WireProofs.
Import Wire.

Lemma ReadBits_AddBits (n : nat) : forall (v : Z) (rest : BitStream),
  ReadBits n (AddBits n v ++ rest) = Some (v mod 2 ^ Z.of_nat n, rest).
Proof.
  induction n as [|n IH]; intros v rest.
  - simpl. now rewrite Z.mod_1_r.
  - cbn [AddBits ReadBits app]. rewrite IH.
    f_equal. f_equal.
    rewrite Nat2Z.inj_succ, Z.pow_succ_r by lia.
    rewrite Z.rem_mul_r by lia.
    rewrite Z.div2_div, Zmod_odd.
    destruct (Z.odd v); simpl Z.b2z; lia.
Qed.

Lemma Read_u8_Add_u8 (v : Z) (rest : BitStream) :
  0 <= v < 256 -> Read_u8 (Add_u8 v ++ rest) = Some (v, rest).
Proof.
  intros Hv. unfold Read_u8, Add_u8. rewrite ReadBits_AddBits.
  change (2 ^ Z.of_nat 8) with 256. now rewrite Z.mod_small.
Qed.

Lemma Read_bit_Add_bit (v : Z) (rest : BitStream) :
  0 <= v < 2 -> Read_bit (Add_bit v ++ rest) = Some (v, rest).
Proof.
  intros Hv. unfold Read_bit, Add_bit. rewrite ReadBits_AddBits.
  change (2 ^ Z.of_nat 1) with 2. now rewrite Z.mod_small.
Qed.

Lemma run_roundtrip {A} (c : Codec A) (a : A) (bits rest : BitStream) :
  c (bits ++ rest) = Some (a, length bits) -> run c (bits ++ rest) = Some (a, rest).
Proof.
  intros Hc. unfold run. rewrite Hc.
  rewrite length_app. destruct (Nat.leb_spec (length bits) (length bits + length rest)); [|lia].
  now rewrite drop_app_length.
Qed.

End WireProofs.

Section VLERange.
Import Wire.

Lemma ReadBits_range (n : nat) : forall (s s' : BitStream) (v : Z),
  ReadBits n s = Some (v, s') -> 0 <= v < 2 ^ Z.of_nat n.
Proof.
  induction n as [|n IH]; intros s s' v; cbn [ReadBits].
  - intros [= <- _]. cbn. lia.
  - destruct s as [|b s]; [discriminate|].
    destruct (ReadBits n s) as [[v0 rest]|] eqn:Hr; [|discriminate].
    intros [= <- _]. apply IH in Hr.
    rewrite Nat2Z.inj_succ, Z.pow_succ_r by lia.
    destruct b; cbn [Z.b2z]; lia.
Qed.

Lemma log2_below (a n : Z) : 0 < n -> 0 <= a < 2 ^ n -> Z.log2 a < n.
Proof.
  intros Hn Ha. destruct (Z.eq_dec a 0) as [->|Hnz]; [exact Hn|].
  apply Z.log2_lt_pow2; lia.
Qed.

Lemma lor_below (a b n : Z) :
  0 < n -> 0 <= a < 2 ^ n -> 0 <= b < 2 ^ n -> 0 <= Z.lor a b < 2 ^ n.
Proof.
  intros Hn Ha Hb.
  assert (Hnn : 0 <= Z.lor a b) by (apply Z.lor_nonneg; lia).
  split; [exact Hnn|].
  destruct (Z.eq_dec (Z.lor a b) 0) as [->|Hnz]; [lia|].
  apply Z.log2_lt_pow2; [lia|].
  rewrite Z.log2_lor by lia.
  apply Z.max_lub_lt; now apply log2_below.
Qed.

Lemma land_127 (a : Z) : 0 <= Z.land a 127 < 128.
Proof.
  change 127 with (Z.ones 7). rewrite Z.land_ones by lia.
  apply Z.mod_pos_bound. reflexivity.
Qed.

Lemma shiftl_below (a k n : Z) :
  0 <= k -> 0 <= n -> 0 <= a < 2 ^ n -> 0 <= Z.shiftl a k < 2 ^ (n + k).
Proof.
  intros Hk Hn Ha. rewrite Z.shiftl_mul_pow2 by exact Hk.
  rewrite Z.pow_add_r by assumption.
  assert (0 < 2 ^ k) by (apply Z.pow_pos_nonneg; lia). nia.
Qed.

(** An id that is read as VLE8_16_32 is below 2^30. *)
Lemma ReadVLE_range (s s' : BitStream) (v : Z) :
  ReadVLE s = Some (v, s') -> 0 <= v < 2 ^ 30.
Proof.
  unfold ReadVLE, Read_u8.
  destruct (ReadBits 8 s) as [[sml s1]|] eqn:H1; [|discriminate].
  apply ReadBits_range in H1. change (2 ^ Z.of_nat 8) with 256 in H1.
  destruct (Z.land sml 128 =? 0); [intros [= <- _]; lia|].
  destruct (ReadBits 8 s1) as [[med s2]|] eqn:H2; [|discriminate].
  apply ReadBits_range in H2. change (2 ^ Z.of_nat 8) with 256 in H2.
  pose proof (land_127 sml) as Hs.
  destruct (Z.land med 128 =? 0).
  - intros [= <- _].
    pose proof (shiftl_below med 7 8 ltac:(lia) ltac:(lia) H2) as Hm.
    change (2 ^ (8 + 7)) with 32768 in Hm.
    pose proof (lor_below (Z.land sml 127) (Z.shiftl med 7) 15 ltac:(lia)) as Hl.
    change (2 ^ 15) with 32768 in Hl. change (2 ^ 30) with 1073741824. lia.
  - destruct (ReadBits 16 s2) as [[large s3]|] eqn:H3; [|discriminate].
    apply ReadBits_range in H3. change (2 ^ Z.of_nat 16) with 65536 in H3.
    intros [= <- _].
    pose proof (land_127 med) as Hmed.
    pose proof (shiftl_below (Z.land med 127) 7 7 ltac:(lia) ltac:(lia) Hmed) as Hm.
    pose proof (shiftl_below large 14 16 ltac:(lia) ltac:(lia) H3) as Hlg.
    change (2 ^ (7 + 7)) with 16384 in Hm. change (2 ^ (16 + 14)) with 1073741824 in Hlg.
    change (2 ^ 30) with 1073741824.
    pose proof (lor_below (Z.land sml 127) (Z.shiftl (Z.land med 127) 7) 30 ltac:(lia)) as Hl1.
    change (2 ^ 30) with 1073741824 in Hl1.
    pose proof (lor_below (Z.lor (Z.land sml 127) (Z.shiftl (Z.land med 127) 7))
                  (Z.shiftl large 14) 30 ltac:(lia)) as Hl2.
    change (2 ^ 30) with 1073741824 in Hl2. lia.
Qed.

End VLERange.

(* ===================================================================== *)
(** ** The block of changed attributes of a component *)
(* ===================================================================== *)

Section EditBlockProofs.
Import Wire Scene SyncState EditBlock.
Context `{Attributes}.

Lemma byte_bit (i j : Z) :
  0 <= i -> 0 <= j < 8 -> Z.shiftr (i * 8 + j) 3 = i /\ Z.land (i * 8 + j) 7 = j.
Proof.
  intros Hi Hj. split.
  - rewrite Z.shiftr_div_pow2 by lia. change (2 ^ 3) with 8.
    symmetry. apply (Z.div_unique _ _ _ j); lia.
  - change 7 with (Z.ones 3). rewrite Z.land_ones by lia. change (2 ^ 3) with 8.
    symmetry. apply (Z.mod_unique _ _ i); lia.
Qed.

Lemma In_seqZ (x m n : Z) : In x (seqZ m n) <-> m <= x < m + n.
Proof. rewrite <- list_elem_of_In. apply elem_of_seqZ. Qed.

Lemma changedAttributes_spec (attrs : list (option IAttribute)) (dirty : list Z) (k : Z) :
  size attrs <= 256 ->
  In k (changedAttributes attrs dirty)
  <-> 0 <= k < size attrs /\ is_Some (attr_at attrs k) /\ attr_dirty dirty k = true.
Proof.
  intros Hsize. unfold changedAttributes. rewrite in_flat_map.
  assert (Hnb : Z.shiftr (size attrs + 7) 3 = (size attrs + 7) / 8).
  { rewrite Z.shiftr_div_pow2 by lia. reflexivity. }
  assert (Hs0 : 0 <= size attrs) by (unfold size; lia).
  split.
  - intros (i & Hi & Hk). apply In_seqZ in Hi. rewrite Hnb in Hi.
    assert (Hi32 : 0 <= i < 32).
    { split; [lia|]. assert ((size attrs + 7) / 8 <= (256 + 7) / 8) by (apply Z.div_le_mono; lia).
      change ((256 + 7) / 8) with 32 in *. lia. }
    unfold changedInByte in Hk.
    destruct (byte_at dirty (Z.to_nat i) =? 0); [destruct Hk|].
    apply in_flat_map in Hk. destruct Hk as (j & Hj & Hk). apply In_seqZ in Hj.
    destruct (Z.eqb_spec (Z.land (byte_at dirty (Z.to_nat i)) (Z.shiftl 1 j)) 0) as [|Hbit];
      [destruct Hk|]. simpl in Hk.
    rewrite (Z.mod_small (i * 8 + j) 256) in Hk by lia.
    destruct (Z.ltb_spec (i * 8 + j) (size attrs)) as [Hlt|]; [|destruct Hk].
    simpl in Hk. destruct (bool_decide_reflect (is_Some (attr_at attrs (i * 8 + j)))) as [Hsome|];
      [|destruct Hk].
    destruct Hk as [<-|[]]. split; [lia|]. split; [exact Hsome|].
    unfold attr_dirty. destruct (byte_bit i j) as [-> ->]; [lia|lia|].
    apply negb_true_iff. now apply Z.eqb_neq.
  - intros (Hk & Hsome & Hdirty).
    exists (k / 8). split.
    + apply In_seqZ. rewrite Hnb. split; [apply Z.div_pos; lia|].
      simpl. apply Z.div_lt_upper_bound; [lia|].
      pose proof (Z.mul_div_le (size attrs + 7) 8). pose proof (Z.mod_pos_bound (size attrs + 7) 8).
      pose proof (Z.div_mod (size attrs + 7) 8). lia.
    + assert (Hkk : k = k / 8 * 8 + k mod 8) by (pose proof (Z.div_mod k 8); lia).
      assert (Hj : 0 <= k mod 8 < 8) by (apply Z.mod_pos_bound; lia).
      assert (Hi : 0 <= k / 8) by (apply Z.div_pos; lia).
      unfold attr_dirty in Hdirty. rewrite Hkk in Hdirty.
      destruct (byte_bit (k / 8) (k mod 8) Hi Hj) as [E1 E2]. rewrite E1, E2 in Hdirty.
      apply negb_true_iff, Z.eqb_neq in Hdirty.
      unfold changedInByte.
      destruct (Z.eqb_spec (byte_at dirty (Z.to_nat (k / 8))) 0) as [E0|_].
      { rewrite E0 in Hdirty. now rewrite Z.land_0_l in Hdirty. }
      apply in_flat_map. exists (k mod 8). split; [apply In_seqZ; lia|].
      destruct (Z.eqb_spec (Z.land (byte_at dirty (Z.to_nat (k / 8))) (Z.shiftl 1 (k mod 8))) 0);
        [contradiction|]. simpl.
      rewrite <- Hkk. rewrite (Z.mod_small k 256) by lia.
      destruct (Z.ltb_spec k (size attrs)); [|lia]. simpl.
      rewrite bool_decide_eq_true_2 by exact Hsome. now left.
Qed.

Lemma same_slots_size mine theirs : same_slots mine theirs -> size mine = size theirs.
Proof. intros Hs. unfold size. now rewrite (Forall2_length _ _ _ Hs). Qed.

Lemma same_slots_attr_at mine theirs i a :
  same_slots mine theirs -> attr_at theirs i = Some a ->
  exists a', attr_at mine i = Some a' /\ a_typeId a' = a_typeId a
             /\ a_interpolate a' = a_interpolate a.
Proof.
  unfold attr_at. intros Hs. destruct (i <? 0); [discriminate|].
  destruct (theirs !! Z.to_nat i) as [o|] eqn:E; [|discriminate]. simpl. intros ->.
  destruct (Forall2_lookup_r _ _ _ _ _ Hs E) as (o' & E' & Ho). rewrite E'. simpl.
  destruct o' as [a'|]; [|contradiction]. exists a'. tauto.
Qed.

Lemma readChange_roundtrip isServer i a' a rest :
  codec_roundtrip -> a_typeId a' = a_typeId a -> a_interpolate a' = a_interpolate a ->
  readChange isServer i a' (ToBinary (a_typeId a) (a_value a) ++ rest)
  = Some ({| ch_index := i; ch_value := a_value a;
             ch_interpolate := negb isServer && a_interpolate a |}, rest).
Proof.
  intros Hc Ht Hi. unfold readChange. rewrite Ht, Hi.
  now rewrite (run_roundtrip _ (a_value a)) by apply Hc.
Qed.

Lemma decodeIndices_encodeIndices isServer mine theirs : forall changed bits pad,
  codec_roundtrip -> same_slots mine theirs ->
  (forall i, In i changed -> 0 <= i < 256 /\ i < size theirs) ->
  encodeIndices theirs changed = Some bits ->
  decodeIndices isServer mine (length changed) (bits ++ pad)
  = Returned (changesOf isServer theirs changed).
Proof.
  intros changed. induction changed as [|i changed IH]; intros bits pad Hc Hs Hin Henc.
  - reflexivity.
  - cbn [encodeIndices] in Henc.
    destruct (attr_at theirs i) as [a|] eqn:Ha; [|discriminate].
    destruct (encodeIndices theirs changed) as [tail|] eqn:Htail; [|discriminate].
    cbv [option_map] in Henc.
    assert (bits = Add_u8 i ++ ToBinary (a_typeId a) (a_value a) ++ tail) as -> by congruence.
    destruct (Hin i (or_introl eq_refl)) as [Hi Hlt].
    destruct (same_slots_attr_at _ _ _ _ Hs Ha) as (a' & Ha' & Ht & Hint).
    cbn [length decodeIndices]. rewrite <- !app_assoc.
    rewrite Read_u8_Add_u8 by exact Hi.
    rewrite (same_slots_size _ _ Hs).
    destruct (Z.leb_spec (size theirs) i); [lia|].
    rewrite Ha'. rewrite readChange_roundtrip by assumption.
    rewrite (IH tail pad Hc Hs); [|intros j Hj; apply Hin; now right|reflexivity].
    unfold changesOf. cbn [flat_map]. now rewrite Ha.
Qed.

Lemma decodeMask_encodeMask isServer dirty : forall theirs mine i bits pad,
  codec_roundtrip -> same_slots mine theirs ->
  encodeMask dirty i theirs = Some bits ->
  decodeMask isServer i mine (bits ++ pad) = Returned (maskChanges isServer dirty i theirs).
Proof.
  intros theirs. induction theirs as [|a theirs IH]; intros mine i bits pad Hc Hs Henc.
  - apply Forall2_nil_inv_r in Hs. now subst.
  - apply Forall2_cons_inv_r in Hs. destruct Hs as (a' & mine' & Ha & Hs & ->).
    cbn [encodeMask] in Henc. cbn [decodeMask maskChanges].
    destruct (attr_dirty dirty i).
    + destruct a as [a|]; [|discriminate].
      destruct (encodeMask dirty (i + 1) theirs) as [tail|] eqn:Htail; [|discriminate].
      cbv [option_map] in Henc.
      assert (bits = Add_bit 1 ++ ToBinary (a_typeId a) (a_value a) ++ tail) as -> by congruence.
      destruct a' as [a'|]; [|contradiction]. destruct Ha as [Ht Hint].
      rewrite <- !app_assoc.
      assert (Hnz : (BitsLeft (Add_bit 1 ++ ToBinary (a_typeId a) (a_value a) ++ tail ++ pad) =? 0) = false)
        by (apply Z.eqb_neq; unfold BitsLeft; cbn [Add_bit AddBits app length]; lia).
      rewrite Hnz. rewrite Read_bit_Add_bit by lia.
      cbn [Z.eqb]. rewrite readChange_roundtrip by assumption.
      now rewrite (IH mine' (i + 1) tail pad Hc Hs Htail).
    + destruct (encodeMask dirty (i + 1) theirs) as [tail|] eqn:Htail; [|discriminate].
      cbv [option_map] in Henc.
      assert (bits = Add_bit 0 ++ tail) as -> by congruence.
      rewrite <- !app_assoc.
      assert (Hnz : (BitsLeft (Add_bit 0 ++ tail ++ pad) =? 0) = false)
        by (apply Z.eqb_neq; unfold BitsLeft; cbn [Add_bit AddBits app length]; lia).
      rewrite Hnz. rewrite Read_bit_Add_bit by lia.
      cbn [Z.eqb]. now rewrite (IH mine' (i + 1) tail pad Hc Hs Htail).
Qed.

Lemma maskChanges_spec isServer dirty : forall attrs i0 ev,
  In ev (maskChanges isServer dirty i0 attrs)
  <-> exists k a, i0 <= k /\ attrs !! Z.to_nat (k - i0) = Some (Some a)
                  /\ attr_dirty dirty k = true
                  /\ ev = Changed {| ch_index := k; ch_value := a_value a;
                                     ch_interpolate := negb isServer && a_interpolate a |}.
Proof.
  intros attrs. induction attrs as [|o attrs IH]; intros i0 ev.
  - simpl. split; [tauto|]. intros (k & a & _ & Hl & _). discriminate Hl.
  - cbn [maskChanges]. rewrite in_app_iff, IH. split.
    + intros [Hhead|(k & a & Hk & Hl & Hd & ->)].
      * destruct (attr_dirty dirty i0) eqn:Hd; [|destruct Hhead].
        destruct o as [a|]; [|destruct Hhead]. destruct Hhead as [<-|[]].
        exists i0, a. rewrite Z.sub_diag. repeat split; [lia | exact Hd].
      * exists k, a. repeat split; [lia | | exact Hd].
        replace (Z.to_nat (k - i0)) with (S (Z.to_nat (k - (i0 + 1)))) by lia. exact Hl.
    + intros (k & a & Hk & Hl & Hd & ->).
      destruct (decide (k = i0)) as [->|Hne].
      * left. rewrite Z.sub_diag in Hl. simpl in Hl. injection Hl as ->.
        rewrite Hd. now left.
      * right. exists k, a. repeat split; [lia | | exact Hd].
        replace (Z.to_nat (k - i0)) with (S (Z.to_nat (k - (i0 + 1)))) in Hl by lia. exact Hl.
Qed.

Lemma changesOf_spec isServer attrs changed ev :
  In ev (changesOf isServer attrs changed)
  <-> exists k a, In k changed /\ attr_at attrs k = Some a
                  /\ ev = Changed {| ch_index := k; ch_value := a_value a;
                                     ch_interpolate := negb isServer && a_interpolate a |}.
Proof.
  unfold changesOf. rewrite in_flat_map. split.
  - intros (k & Hk & Hev). destruct (attr_at attrs k) as [a|] eqn:Ha; [|destruct Hev].
    destruct Hev as [<-|[]]. now exists k, a.
  - intros (k & a & Hk & Ha & ->). exists k. split; [exact Hk|]. rewrite Ha. now left.
Qed.

Lemma attr_at_lookup attrs k a :
  0 <= k -> attr_at attrs k = Some a <-> attrs !! Z.to_nat k = Some (Some a).
Proof.
  intros Hk. unfold attr_at. destruct (Z.ltb_spec k 0); [lia|].
  destruct (attrs !! Z.to_nat k) as [o|]; simpl; [|split; discriminate].
  split; congruence.
Qed.

Lemma maskChanges_changesOf isServer attrs dirty ev :
  size attrs <= 256 ->
  In ev (maskChanges isServer dirty 0 attrs)
  <-> In ev (changesOf isServer attrs (changedAttributes attrs dirty)).
Proof.
  intros Hsize. rewrite maskChanges_spec, changesOf_spec. split.
  - intros (k & a & Hk & Hl & Hd & ->). rewrite Z.sub_0_r in Hl. exists k, a.
    split; [|split; [now apply attr_at_lookup | reflexivity]].
    apply changedAttributes_spec; [exact Hsize|].
    split; [|split; [exists a; now apply attr_at_lookup | exact Hd]].
    apply lookup_lt_Some in Hl. unfold size. lia.
  - intros (k & a & Hin & Ha & ->).
    apply changedAttributes_spec in Hin; [|exact Hsize]. destruct Hin as (Hk & _ & Hd).
    exists k, a. rewrite Z.sub_0_r. repeat split; [lia | now apply attr_at_lookup | exact Hd].
Qed.

(** C6, as amended.  For a component of at most 256 attribute slots
    whose receiver has the same slots: the block that the sender writes
    for the changed attributes starts with bit 0, the index list, exactly
    when 8 * (number of changed attributes) + 8 <= number of attribute
    slots, a tie included, and with bit 1, the bitmask, otherwise; in
    either layout the receiver reads the block without an exception and
    gets the changed indices with the values written, no other change and
    no warning. *)
Theorem edit_block_choice_and_roundtrip :
  forall (isServer : bool) (mine theirs : list (option IAttribute)) (dirty : list Z)
         (bits pad : BitStream),
    codec_roundtrip -> same_slots mine theirs -> size theirs <= 256 ->
    encodeEdit theirs dirty (changedAttributes theirs dirty) = Some bits ->
    head bits
    = Some (negb (Z.of_nat (length (changedAttributes theirs dirty)) * 8 + 8 <=? size theirs))
    /\ exists evs,
         decodeEdit isServer mine (bits ++ pad) = Returned evs
         /\ forall ev, In ev evs
                       <-> In ev (changesOf isServer theirs (changedAttributes theirs dirty)).
Proof.
  intros isServer mine theirs dirty bits pad Hc Hs Hsize Henc.
  unfold encodeEdit in Henc.
  set (changed := changedAttributes theirs dirty) in *.
  destruct (Z.leb_spec (Z.of_nat (length changed) * 8 + 8) (size theirs)) as [Hle|Hgt].
  - destruct (encodeIndices theirs changed) as [tail|] eqn:Htail; [|discriminate].
    cbv [option_map] in Henc.
    assert (bits = Add_bit 0 ++ Add_u8 (Z.of_nat (length changed)) ++ tail) as -> by congruence.
    split; [reflexivity|].
    exists (changesOf isServer theirs changed). split; [|tauto].
    unfold decodeEdit. rewrite <- !app_assoc.
    rewrite Read_bit_Add_bit by lia. cbn [Z.eqb].
    rewrite Read_u8_Add_u8 by lia. rewrite Nat2Z.id.
    apply decodeIndices_encodeIndices; try assumption.
    intros i Hi. apply changedAttributes_spec in Hi; [lia | exact Hsize].
  - destruct (encodeMask dirty 0 theirs) as [tail|] eqn:Htail; [|discriminate].
    cbv [option_map] in Henc.
    assert (bits = Add_bit 1 ++ tail) as -> by congruence.
    split; [reflexivity|].
    exists (maskChanges isServer dirty 0 theirs). split.
    + unfold decodeEdit. rewrite <- !app_assoc.
      rewrite Read_bit_Add_bit by lia. cbn [Z.eqb].
      now apply decodeMask_encodeMask.
    + intros ev. now apply maskChanges_changesOf.
Qed.

End EditBlockProofs.

(* ===================================================================== *)
(** ** The loops over a stream come to an end *)
(* ===================================================================== *)

Section Fuel.
Import Wire Scene SyncState EditBlock Protocol.
Context `{SceneAPI}.

Lemma ReadBits_length (n : nat) : forall (s s' : BitStream) (v : Z),
  ReadBits n s = Some (v, s') -> length s = (n + length s')%nat.
Proof.
  induction n as [|n IH]; intros s s' v; cbn [ReadBits].
  - now intros [= _ <-].
  - destruct s as [|b s]; [discriminate|].
    destruct (ReadBits n s) as [[v0 rest]|] eqn:Hr; [|discriminate].
    intros [= _ <-]. cbn [length]. now rewrite (IH _ _ _ Hr).
Qed.

Lemma ReadVLE_length (s s' : BitStream) (v : Z) :
  ReadVLE s = Some (v, s') -> (8 + length s' <= length s)%nat.
Proof.
  unfold ReadVLE, Read_u8.
  destruct (ReadBits 8 s) as [[sml s1]|] eqn:H1; [|discriminate].
  apply ReadBits_length in H1.
  destruct (Z.land sml 128 =? 0); [intros [= _ <-]; lia|].
  destruct (ReadBits 8 s1) as [[med s2]|] eqn:H2; [|discriminate].
  apply ReadBits_length in H2.
  destruct (Z.land med 128 =? 0); [intros [= _ <-]; lia|].
  destruct (ReadBits 16 s2) as [[large s3]|] eqn:H3; [|discriminate].
  apply ReadBits_length in H3. intros [= _ <-]. lia.
Qed.

Lemma ReadArray_length (n : Z) (s a s' : BitStream) :
  ReadArray n s = Some (a, s') -> (length s' <= length s)%nat.
Proof.
  unfold ReadArray. destruct (_ <=? _); [|discriminate].
  intros [= _ <-]. rewrite length_drop. lia.
Qed.

Lemma run_length {A} (c : Codec A) (s s' : BitStream) (a : A) :
  run c s = Some (a, s') -> (length s' <= length s)%nat.
Proof.
  unfold run. destruct (c s) as [[a0 n]|]; [|discriminate].
  destruct (n <=? length s)%nat; [|discriminate].
  intros [= _ <-]. rewrite length_drop. lia.
Qed.

(** The loop of [HandleEditAttributes] stops by itself: fuel beyond the
    length of the stream changes nothing. *)
Lemma editComponents_fuel (fuel1 : nat) : forall (fuel2 : nat) e dt ds acc,
  (length ds <= fuel1)%nat -> (length ds <= fuel2)%nat ->
  editComponents fuel1 e dt ds acc = editComponents fuel2 e dt ds acc.
Proof.
  induction fuel1 as [|fuel1 IH]; intros fuel2 e dt ds acc H1 H2.
  - assert (Hstop : (8 <=? BitsLeft ds) = false)
      by (apply Z.leb_gt; unfold BitsLeft; lia).
    destruct fuel2; cbn [editComponents]; now rewrite Hstop.
  - destruct fuel2 as [|fuel2].
    + assert (Hstop : (8 <=? BitsLeft ds) = false)
        by (apply Z.leb_gt; unfold BitsLeft; lia).
      cbn [editComponents]. now rewrite Hstop.
    + cbn [editComponents].
      destruct (8 <=? BitsLeft ds); [|reflexivity].
      destruct (ReadVLE ds) as [[compID ds1]|] eqn:Hr1; [|reflexivity].
      destruct (ReadVLE ds1) as [[n ds2]|] eqn:Hr2; [|reflexivity].
      destruct (ReadArray n ds2) as [[attrDs ds3]|] eqn:Hr3; [|reflexivity].
      apply ReadVLE_length in Hr1, Hr2. apply ReadArray_length in Hr3.
      destruct (component_of (fst acc) e compID) as [comp|].
      * destruct (decodeEdit _ _ attrDs); [|reflexivity]. apply IH; lia.
      * apply IH; lia.
Qed.

(** So does the loop over the dynamic attributes of a component. *)
Lemma readDynamicAttributes_fuel (fuel1 : nat) : forall (fuel2 : nat) e c ch attrDs w,
  (length attrDs <= fuel1)%nat -> (length attrDs <= fuel2)%nat ->
  readDynamicAttributes fuel1 e c ch attrDs w = readDynamicAttributes fuel2 e c ch attrDs w.
Proof.
  induction fuel1 as [|fuel1 IH]; intros fuel2 e c ch attrDs w H1 H2.
  - assert (Hstop : (2 * 8 <? BitsLeft attrDs) = false)
      by (apply Z.ltb_ge; unfold BitsLeft; lia).
    destruct fuel2; cbn [readDynamicAttributes]; now rewrite Hstop.
  - destruct fuel2 as [|fuel2].
    + assert (Hstop : (2 * 8 <? BitsLeft attrDs) = false)
        by (apply Z.ltb_ge; unfold BitsLeft; lia).
      cbn [readDynamicAttributes]. now rewrite Hstop.
    + cbn [readDynamicAttributes].
      destruct (2 * 8 <? BitsLeft attrDs); [|reflexivity].
      destruct (Read_u8 attrDs) as [[index s1]|] eqn:Hr1; [|reflexivity].
      destruct (Read_u8 s1) as [[typeId s2]|] eqn:Hr2; [|reflexivity].
      destruct (run ReadString s2) as [[name s3]|] eqn:Hr3; [|reflexivity].
      apply ReadBits_length in Hr1, Hr2. apply run_length in Hr3.
      destruct (Component_CreateAttribute _ _ _ _ _ _ _) as [[a w']|]; [|reflexivity].
      destruct (run _ s3) as [[v s4]|] eqn:Hr4; [|reflexivity].
      apply run_length in Hr4. apply IH; lia.
Qed.

Lemma readComponent_length entity entityID r r' :
  readComponent entity entityID r = Returned r' -> (8 + length (r_ds r') <= length (r_ds r))%nat.
Proof.
  unfold readComponent.
  destruct (ReadVLE (r_ds r)) as [[senderCompID ds1]|] eqn:Hr1; [|discriminate].
  destruct (ReadVLE ds1) as [[typeID ds2]|] eqn:Hr2; [|discriminate].
  destruct (run ReadString ds2) as [[name ds3]|] eqn:Hr3; [|discriminate].
  destruct (ReadVLE ds3) as [[attrDataSize ds4]|] eqn:Hr4; [|discriminate].
  destruct (ReadArray attrDataSize ds4) as [[attrDs ds5]|] eqn:Hr5; [|discriminate].
  apply ReadVLE_length in Hr1, Hr2, Hr4. apply run_length in Hr3.
  apply ReadArray_length in Hr5.
  assert (Hlen : (8 + length ds5 <= length (r_ds r))%nat) by lia.
  destruct (Entity_CreateComponentWithId _ _ _ _ _ _) as [[made w2]|];
    [|intros [= <-]; exact Hlen].
  destruct (component_of _ entity made) as [comp|]; [|intros [= <-]; exact Hlen].
  destruct (readStaticAttributes _ _ _ _ _ _ _) as [[w4 attrDs']|[w4 attrDs']]; [|discriminate].
  destruct (SupportsDynamicAttributes comp).
  - destruct (readDynamicAttributes _ _ _ _ _ _); [|discriminate]. intros [= <-]. exact Hlen.
  - destruct (negb _); intros [= <-]; exact Hlen.
Qed.

(** And so does the loop of [HandleCreateComponents]. *)
Lemma readComponentsToEnd_fuel (fuel1 : nat) : forall (fuel2 : nat) entityID r,
  (length (r_ds r) <= fuel1)%nat -> (length (r_ds r) <= fuel2)%nat ->
  readComponentsToEnd fuel1 entityID r = readComponentsToEnd fuel2 entityID r.
Proof.
  induction fuel1 as [|fuel1 IH]; intros fuel2 entityID r H1 H2.
  - assert (Hstop : (2 * 8 <? BitsLeft (r_ds r)) = false)
      by (apply Z.ltb_ge; unfold BitsLeft; lia).
    destruct fuel2; cbn [readComponentsToEnd]; now rewrite Hstop.
  - destruct fuel2 as [|fuel2].
    + assert (Hstop : (2 * 8 <? BitsLeft (r_ds r)) = false)
        by (apply Z.ltb_ge; unfold BitsLeft; lia).
      cbn [readComponentsToEnd]. now rewrite Hstop.
    + cbn [readComponentsToEnd].
      destruct (2 * 8 <? BitsLeft (r_ds r)); [|reflexivity].
      destruct (readComponent entityID entityID r) as [r1|r1] eqn:Hr; [|reflexivity].
      apply readComponent_length in Hr. apply IH; lia.
Qed.

End Fuel.

(* ===================================================================== *)
(** ** The scene handlers and the generic sync pass *)
(* ===================================================================== *)

Section ProtocolProofs.
Import Wire Scene SyncState EditBlock Protocol.
Context `{SceneAPI}.

(** ** The trace of scene calls *)

Lemma calls_mark f w : calls (mark f w) = calls w.
Proof. unfold mark. now destruct (isServer w). Qed.

Ltac split_ifs :=
  repeat match goal with
         | |- context [if ?b then _ else _] => destruct b
         end.

Lemma calls_OnAttributeChanged e c l i ip ch w :
  calls (OnAttributeChanged e c l i ip ch w) = calls w.
Proof. unfold OnAttributeChanged. split_ifs; rewrite ?calls_mark; reflexivity. Qed.

Lemma calls_OnComponentAdded e c l ch w : calls (OnComponentAdded e c l ch w) = calls w.
Proof. unfold OnComponentAdded. split_ifs; rewrite ?calls_mark; reflexivity. Qed.

Lemma calls_OnEntityCreated e ch w : calls (OnEntityCreated e ch w) = calls w.
Proof. unfold OnEntityCreated. split_ifs; rewrite ?calls_mark; reflexivity. Qed.

Lemma calls_OnEntityPropertiesChanged e ch w : calls (OnEntityPropertiesChanged e ch w) = calls w.
Proof. unfold OnEntityPropertiesChanged. split_ifs; rewrite ?calls_mark; reflexivity. Qed.

Lemma calls_OnEntityParentChanged e p ch w : calls (OnEntityParentChanged e p ch w) = calls w.
Proof. unfold OnEntityParentChanged. split_ifs; rewrite ?calls_mark; reflexivity. Qed.

Lemma calls_emit sig w : calls (emit sig w) = calls w.
Proof.
  destruct sig; cbn [emit].
  - apply calls_OnAttributeChanged.
  - apply calls_OnComponentAdded.
  - apply calls_OnEntityCreated.
  - apply calls_OnEntityPropertiesChanged.
  - apply calls_OnEntityParentChanged.
Qed.

Lemma calls_update_entity e f w : calls (update_entity e f w) = calls w.
Proof. unfold update_entity. now destruct (the_scene w !! e). Qed.

Lemma calls_set_value e c i v w : calls (set_value e c i v w) = calls w.
Proof. apply calls_update_entity. Qed.

Lemma calls_warnMismatch t text w : calls (warnMismatch t text w) = calls w.
Proof. unfold warnMismatch. now case_bool_decide. Qed.

Lemma calls_EmitAttributeChanged e c i ch w : calls (EmitAttributeChanged e c i ch w) = calls w.
Proof.
  unfold EmitAttributeChanged.
  destruct (component_of w e c); [|reflexivity].
  destruct (attr_at _ i); [|reflexivity].
  destruct (signalled _); [apply calls_emit | reflexivity].
Qed.

Lemma calls_fold {A} (f : World -> A -> World) (l : list A) w :
  (forall w a, calls (f w a) = calls w) -> calls (fold_left f l w) = calls w.
Proof.
  intros Hf. revert w. induction l as [|a l IH]; intros w; [reflexivity|].
  cbn [fold_left]. now rewrite IH, Hf.
Qed.

Lemma calls_ComponentChanged e c ch w : calls (ComponentChanged e c ch w) = calls w.
Proof.
  unfold ComponentChanged. destruct (component_of w e c); [|reflexivity].
  apply calls_fold. intros. apply calls_EmitAttributeChanged.
Qed.

Lemma calls_EmitEntityCreated e ch w : calls (EmitEntityCreated e ch w) = calls w.
Proof. unfold EmitEntityCreated. destruct (signalled _); [apply calls_emit | reflexivity]. Qed.

Lemma calls_Entity_SetTemporary e b ch w :
  calls (Entity_SetTemporary e b ch w)
  = calls w ++ [CallSetTemporary e b (resolve (negb (IsLocal e)) ch)].
Proof.
  unfold Entity_SetTemporary.
  destruct (_ && _); rewrite ?calls_emit; cbn [do_Call calls]; now rewrite calls_update_entity.
Qed.

Lemma calls_Entity_SetParent e p ch w :
  calls (Entity_SetParent e p ch w)
  = calls w ++ [CallSetParent e p (resolve (negb (IsLocal e)) ch)].
Proof.
  unfold Entity_SetParent.
  destruct (signalled _); rewrite ?calls_emit; cbn [do_Call calls]; now rewrite calls_update_entity.
Qed.

Lemma calls_Scene_CreateEntity i w entity w' :
  Scene_CreateEntity i w = Some (entity, w') -> calls w' = calls w ++ [CallCreateEntity entity].
Proof.
  unfold Scene_CreateEntity. destruct (the_scene w !! _); [discriminate|].
  intros [= <- <-]. reflexivity.
Qed.

Lemma calls_Entity_RemoveComponent e c ch w :
  calls (Entity_RemoveComponent e c ch w) = calls w ++ [CallRemoveComponent e c ch].
Proof. unfold Entity_RemoveComponent. cbn [do_Call calls]. now rewrite calls_update_entity. Qed.

Lemma calls_Entity_CreateComponentWithId e compID typeID name ch w c w' :
  Entity_CreateComponentWithId e compID typeID name ch w = Some (c, w') ->
  exists ch', calls w' = calls w ++ [CallCreateComponent e c ch'].
Proof.
  unfold Entity_CreateComponentWithId.
  destruct (the_scene w !! e) as [ent|]; [|discriminate].
  destruct (newComponent typeID name) as [comp|]; [|discriminate].
  destruct (Scene.components ent !! _); [discriminate|].
  intros [= <- <-]. eexists.
  destruct (signalled _); rewrite ?calls_OnComponentAdded;
    cbn [do_Call calls]; now rewrite calls_update_entity.
Qed.

Lemma calls_Component_CreateAttribute e c i t name ch w a w' :
  Component_CreateAttribute e c i t name ch w = Some (a, w') ->
  calls w' = calls w ++ [CallCreateAttribute e c i ch].
Proof.
  unfold Component_CreateAttribute.
  destruct (component_of w e c); [|discriminate].
  destruct (newAttribute t name); [|discriminate].
  destruct (_ || _); [discriminate|].
  intros [= <- <-]. cbn [do_Call calls]. unfold update_component. now rewrite calls_update_entity.
Qed.

(** ** The sync state of the sender stays in place *)

Local Abbreviation live w := (is_Some (syncState (source w))).

Lemma live_mark f (w : World) : live w -> live (mark f w).
Proof. intros Hw. unfold mark. destruct (isServer w); now apply fmap_is_Some. Qed.

Lemma live_emit sig (w : World) : live w -> live (emit sig w).
Proof.
  intros Hw.
  destruct sig; cbn [emit];
    unfold OnAttributeChanged, OnComponentAdded, OnEntityCreated, OnEntityPropertiesChanged,
      OnEntityParentChanged; split_ifs; try apply live_mark; exact Hw.
Qed.

Lemma source_update_entity e f w : source (update_entity e f w) = source w.
Proof. unfold update_entity. now destruct (the_scene w !! e). Qed.

Lemma source_set_value e c i v w : source (set_value e c i v w) = source w.
Proof. apply source_update_entity. Qed.

Lemma source_warnMismatch t text w : source (warnMismatch t text w) = source w.
Proof. unfold warnMismatch. now case_bool_decide. Qed.

Lemma live_Entity_SetTemporary e b ch (w : World) : live w -> live (Entity_SetTemporary e b ch w).
Proof.
  intros Hw. unfold Entity_SetTemporary.
  assert (H1 : live (do_Call (CallSetTemporary e b (resolve (negb (IsLocal e)) ch))
                       (update_entity e (set_temporary b) w)))
    by (cbn [do_Call source]; now rewrite source_update_entity).
  destruct (_ && _); [now apply live_emit | exact H1].
Qed.

Lemma live_Entity_SetParent e p ch (w : World) : live w -> live (Entity_SetParent e p ch w).
Proof.
  intros Hw. unfold Entity_SetParent.
  assert (H1 : live (do_Call (CallSetParent e p (resolve (negb (IsLocal e)) ch))
                       (update_entity e (set_parent p) w)))
    by (cbn [do_Call source]; now rewrite source_update_entity).
  destruct (signalled _); [now apply live_emit | exact H1].
Qed.


Lemma source_Entity_RemoveComponent e c ch w :
  source (Entity_RemoveComponent e c ch w) = source w.
Proof. unfold Entity_RemoveComponent. cbn [do_Call source]. apply source_update_entity. Qed.

Lemma live_Entity_CreateComponentWithId e compID typeID name ch (w : World) c w' :
  Entity_CreateComponentWithId e compID typeID name ch w = Some (c, w') -> live w -> live w'.
Proof.
  unfold Entity_CreateComponentWithId.
  destruct (the_scene w !! e) as [ent|]; [|discriminate].
  destruct (newComponent typeID name) as [comp|]; [|discriminate].
  destruct (Scene.components ent !! _); [discriminate|].
  intros [= <- <-] Hw.
  match goal with
  | |- context [do_Call ?call ?w0] =>
      assert (H1 : live (do_Call call w0))
        by (cbn [do_Call source]; now rewrite source_update_entity)
  end.
  destruct (signalled _); [|exact H1].
  now apply (live_emit (ComponentAdded _ _ _ _)).
Qed.

Lemma source_Component_CreateAttribute e c i t name ch w a w' :
  Component_CreateAttribute e c i t name ch w = Some (a, w') -> source w' = source w.
Proof.
  unfold Component_CreateAttribute.
  destruct (component_of w e c); [|discriminate].
  destruct (newAttribute t name); [|discriminate].
  destruct (_ || _); [discriminate|].
  intros [= <- <-]. cbn [do_Call source]. apply source_update_entity.
Qed.





Lemma calls_readStaticAttributes attrs : forall e c t i attrDs w,
  calls (fst (result_state (readStaticAttributes e c t i attrs attrDs w))) = calls w
  /\ source (fst (result_state (readStaticAttributes e c t i attrs attrDs w))) = source w.
Proof.
  induction attrs as [|a attrs IH]; intros e c t i attrDs w; [now split|].
  cbn [readStaticAttributes].
  destruct (8 <=? BitsLeft attrDs).
  - destruct a as [attr|]; [|apply IH].
    destruct (run _ attrDs) as [[v attrDs']|]; [|now split].
    destruct (IH e c t (i + 1) attrDs' (set_value e c i v w)) as [-> ->].
    split; [apply calls_set_value | apply source_set_value].
  - cbn. split; [apply calls_warnMismatch | apply source_warnMismatch].
Qed.

Lemma calls_readDynamicAttributes fuel : forall e c ch attrDs w,
  exists l, calls (result_state (readDynamicAttributes fuel e c ch attrDs w)) = calls w ++ l
            /\ createdEntities l = [] /\ createdComponents l = []
            /\ source (result_state (readDynamicAttributes fuel e c ch attrDs w)) = source w.
Proof.
  induction fuel as [|fuel IH]; intros e c ch attrDs w; cbn [readDynamicAttributes].
  - exists []. rewrite app_nil_r. now destruct (_ <? _).
  - destruct (_ <? _); [|exists []; now rewrite app_nil_r].
    destruct (Read_u8 attrDs) as [[index s1]|]; [|exists []; now rewrite app_nil_r].
    destruct (Read_u8 s1) as [[typeId s2]|]; [|exists []; now rewrite app_nil_r].
    destruct (run ReadString s2) as [[name s3]|]; [|exists []; now rewrite app_nil_r].
    destruct (Component_CreateAttribute e c index typeId name ch w) as [[a w']|] eqn:Hc;
      [|exists []; now rewrite app_nil_r].
    pose proof (source_Component_CreateAttribute _ _ _ _ _ _ _ _ _ Hc) as Hs.
    apply calls_Component_CreateAttribute in Hc.
    destruct (run _ s3) as [[v s4]|].
    + destruct (IH e c ch s4 (set_value e c index v w')) as (l & Hl & He & Hcs & Hsrc).
      exists (CallCreateAttribute e c index ch :: l).
      rewrite Hl, Hsrc, calls_set_value, source_set_value, Hc, <- app_assoc.
      repeat split; assumption.
    + exists [CallCreateAttribute e c index ch]. cbn [result_state]. now rewrite <- Hc.
Qed.

Lemma calls_readComponent entity entityID r :
  exists l,
    calls (r_world (result_state (readComponent entity entityID r))) = calls (r_world r) ++ l
    /\ createdEntities l = []
    /\ addedComponents (result_state (readComponent entity entityID r))
       = addedComponents r ++ createdComponents l
    /\ (live (r_world r) -> live (r_world (result_state (readComponent entity entityID r)))).
Proof.
  unfold readComponent.
  set (stay := ex_intro
                 (fun l => calls (r_world r) = calls (r_world r) ++ l
                           /\ createdEntities l = []
                           /\ addedComponents r = addedComponents r ++ createdComponents l
                           /\ (live (r_world r) -> live (r_world r)))
                 [] (conj (eq_sym (app_nil_r _))
                       (conj eq_refl (conj (eq_sym (app_nil_r _)) (fun x => x))))).
  destruct (ReadVLE (r_ds r)) as [[senderCompID ds1]|]; [|exact stay].
  destruct (ReadVLE ds1) as [[typeID ds2]|]; [|exact stay].
  destruct (run ReadString ds2) as [[name ds3]|]; [|exact stay].
  destruct (ReadVLE ds3) as [[attrDataSize ds4]|]; [|exact stay].
  destruct (ReadArray attrDataSize ds4) as [[attrDs ds5]|]; [|exact stay].
  clear stay.
  set (compID := if isServer (r_world r) then 0 else senderCompID).
  set (w1 := if negb (isServer (r_world r)) && _ then _ else r_world r).
  assert (Hw1 : exists l1, calls w1 = calls (r_world r) ++ l1
                           /\ createdEntities l1 = [] /\ createdComponents l1 = []
                           /\ source w1 = source (r_world r)).
  { subst w1. destruct (_ && _).
    - eexists. rewrite calls_Entity_RemoveComponent, source_Entity_RemoveComponent.
      cbn [do_Log calls]. repeat split.
    - exists []. now rewrite app_nil_r. }
  destruct Hw1 as (l1 & Hl1 & He1 & Hc1 & Hs1).
  destruct (Entity_CreateComponentWithId entity compID typeID name _ w1)
    as [[c w2]|] eqn:Hcreate.
  - pose proof (live_Entity_CreateComponentWithId _ _ _ _ _ _ _ _ Hcreate) as Hlive2.
    rewrite Hs1 in Hlive2.
    apply calls_Entity_CreateComponentWithId in Hcreate. destruct Hcreate as (ch' & Hw2).
    set (w3 := on_state (MarkComponentProcessed entityID _) w2).
    assert (Hw3 : calls w3 = calls (r_world r) ++ l1 ++ [CallCreateComponent entity c ch']).
    { subst w3. cbn [on_state set_source set_users calls]. rewrite Hw2, Hl1. now rewrite <- app_assoc. }
    assert (Hlive3 : live (r_world r) -> live w3).
    { intros Hr. subst w3. cbn [on_state set_source set_users source set_syncState syncState].
      apply fmap_is_Some, Hlive2, Hr. }
    assert (Hmade : createdComponents (l1 ++ [CallCreateComponent entity c ch']) = [c]).
    { unfold createdComponents in *. rewrite flat_map_app, Hc1. reflexivity. }
    assert (Hent : forall l2, createdEntities l2 = [] ->
                     createdEntities ((l1 ++ [CallCreateComponent entity c ch']) ++ l2) = []).
    { intros l2 H2. unfold createdEntities in *. rewrite !flat_map_app, He1, H2. reflexivity. }
    assert (Hcomp : forall l2, createdComponents l2 = [] ->
                      createdComponents ((l1 ++ [CallCreateComponent entity c ch']) ++ l2) = [c]).
    { intros l2 H2. unfold createdComponents in *. rewrite !flat_map_app, Hc1, H2. reflexivity. }
    assert (Hsame : forall w4 rw,
               calls w4 = calls w3 -> source w4 = source w3 ->
               exists l,
                 calls (r_world (set_r_world w4 rw)) = calls (r_world r) ++ l
                 /\ createdEntities l = []
                 /\ addedComponents r ++ [c] = addedComponents r ++ createdComponents l
                 /\ (live (r_world r) -> live (r_world (set_r_world w4 rw)))).
    { intros w4 rw H4 Hs4. exists (l1 ++ [CallCreateComponent entity c ch']).
      cbn [set_r_world r_world]. rewrite H4, Hs4, Hw3, Hmade.
      repeat split; [|exact Hlive3]. specialize (Hent [] eq_refl). now rewrite app_nil_r in Hent. }
    destruct (component_of w3 entity c) as [comp|].
    + destruct (calls_readStaticAttributes (take (NumStaticAttributes comp) (attributes comp))
                  entity c (c_typeId comp) 0 attrDs w3) as [Hst Hss].
      destruct (readStaticAttributes _ _ _ _ _ _ _) as [[w4 attrDs']|[w4 attrDs']];
        cbn [result_state fst] in Hst, Hss.
      * destruct (SupportsDynamicAttributes comp).
        -- destruct (calls_readDynamicAttributes (length attrDs') entity c
                       (changeOf (r_world r)) attrDs' w4) as (l2 & Hl2 & He2 & Hc2 & Hs2).
           exists ((l1 ++ [CallCreateComponent entity c ch']) ++ l2).
           rewrite (Hent _ He2), (Hcomp _ Hc2).
           destruct (readDynamicAttributes _ _ _ _ _ _) as [w5|w5];
             cbn [result_state set_r_world r_world addedComponents] in *;
             rewrite Hl2, Hs2, Hss, Hst, Hw3, <- !app_assoc; repeat split; exact Hlive3.
        -- destruct (BitsLeft attrDs' =? 0); cbn [negb result_state addedComponents set_r_world];
             apply (Hsame _ _); rewrite ?calls_warnMismatch, ?source_warnMismatch; assumption.
      * cbn [result_state addedComponents set_r_world]. apply (Hsame _ _); assumption.
    + cbn [result_state addedComponents r_world].
      exists (l1 ++ [CallCreateComponent entity c ch']). rewrite Hw3, Hmade.
      repeat split; [|exact Hlive3].
      specialize (Hent [] eq_refl). now rewrite app_nil_r in Hent.
  - cbn [result_state r_world addedComponents do_Log calls source].
    exists l1. rewrite Hc1, app_nil_r, Hs1. repeat split; try assumption. tauto.
Qed.

(** What a loop over [readComponent] has done when it stops. *)
Lemma calls_readComponents n : forall entity entityID r,
  exists l,
    calls (r_world (result_state (readComponents n entity entityID r))) = calls (r_world r) ++ l
    /\ createdEntities l = []
    /\ addedComponents (result_state (readComponents n entity entityID r))
       = addedComponents r ++ createdComponents l
    /\ (live (r_world r) -> live (r_world (result_state (readComponents n entity entityID r)))).
Proof.
  induction n as [|n IH]; intros entity entityID r; cbn [readComponents].
  - exists []. rewrite !app_nil_r. repeat split. tauto.
  - destruct (calls_readComponent entity entityID r) as (l1 & Hl1 & He1 & Ha1 & Hv1).
    destruct (readComponent entity entityID r) as [r1|r1]; cbn [result_state] in *.
    + destruct (IH entity entityID r1) as (l2 & Hl2 & He2 & Ha2 & Hv2).
      exists (l1 ++ l2). rewrite Hl2, Hl1, Ha2, Ha1, <- !app_assoc.
      unfold createdEntities, createdComponents in *. rewrite !flat_map_app, He1, He2.
      repeat split. tauto.
    + exists l1. repeat split; assumption.
Qed.


(** ** Dirty bits of the sync state *)











(** ** The signal of a changed attribute, and the bit cleared after it *)




(** The dirty array of a component in the sync state of the sender. *)
Local Abbreviation dirtyOf st e c := (dirtyAttributes (component_at (entity_at st e) c)).



(** ** Reading an EditAttributes message leaves the connections alone *)

Lemma source_applyEvent e c dt acc ev :
  source (fst (applyEvent e c dt acc ev)) = source (fst acc).
Proof.
  destruct ev as [ch|text]; cbn [applyEvent]; [|reflexivity].
  destruct (ch_interpolate ch); cbn [fst]; [reflexivity|].
  apply source_update_entity.
Qed.

Lemma source_applyEvents e c dt evs : forall acc,
  source (fst (fold_left (applyEvent e c dt) evs acc)) = source (fst acc).
Proof.
  induction evs as [|ev evs IH]; intros acc; [reflexivity|].
  cbn [fold_left]. now rewrite IH, source_applyEvent.
Qed.

Lemma source_editComponents fuel : forall e dt ds acc,
  source (fst (result_state (editComponents fuel e dt ds acc))) = source (fst acc).
Proof.
  induction fuel as [|fuel IH]; intros e dt ds acc; cbn [editComponents].
  - now destruct (8 <=? BitsLeft ds).
  - destruct (8 <=? BitsLeft ds); [|reflexivity].
    destruct (ReadVLE ds) as [[compID ds1]|]; [|reflexivity].
    destruct (ReadVLE ds1) as [[n ds2]|]; [|reflexivity].
    destruct (ReadArray n ds2) as [[attrDs ds3]|]; [|reflexivity].
    destruct (component_of (fst acc) e compID) as [comp|].
    + destruct (decodeEdit _ _ attrDs) as [evs|evs].
      * rewrite IH. apply source_applyEvents.
      * cbn [result_state]. apply source_applyEvents.
    + now rewrite IH.
Qed.



(** ** Creating an entity or components from a message *)

Lemma calls_linkParent entity p (w : World) :
  exists l, calls (linkParent entity p w) = calls w ++ l /\ createdEntities l = []
            /\ (live w -> live (linkParent entity p w)).
Proof.
  unfold linkParent. destruct (negb _).
  - case_bool_decide.
    + eexists. rewrite calls_Entity_SetParent. repeat split. apply live_Entity_SetParent.
    + exists []. rewrite app_nil_r. repeat split. tauto.
  - exists []. rewrite app_nil_r. repeat split. tauto.
Qed.

Lemma calls_readParent entity ds (w : World) w' ds' :
  readParent entity ds w = Some (w', ds') ->
  exists l, calls w' = calls w ++ l /\ createdEntities l = [] /\ (live w -> live w').
Proof.
  unfold readParent.
  destruct (_ <=? _); [|intros [= <- <-]; exists []; rewrite app_nil_r; repeat split; tauto].
  destruct (Read_u32 ds) as [[p ds1]|]; [|discriminate].
  destruct (_ && _).
  - destruct (_ !! p) as [real|]; intros [= <- <-].
    + apply calls_linkParent.
    + destruct (calls_linkParent entity p
                  (do_Log LogWarning
                     "Client sent unknown unacked parent entity ID in CreateEntity message" w))
        as (l & Hl & He & Hv).
      exists l. repeat split; assumption.
  - intros [= <- <-]. apply calls_linkParent.
Qed.

Lemma calls_createEntityBody entity entityID ds (w : World) :
  exists l,
    calls (r_world (result_state (createEntityBody entity entityID ds w))) = calls w ++ l
    /\ createdEntities l = []
    /\ (live w -> live (r_world (result_state (createEntityBody entity entityID ds w)))).
Proof.
  unfold createEntityBody.
  destruct (Read_u8 ds) as [[b ds1]|];
    [|exists []; rewrite app_nil_r; repeat split; tauto].
  set (w1 := Entity_SetTemporary entity (negb (b =? 0)) Default w).
  assert (Hw1 : calls w1 = calls w ++ [CallSetTemporary entity (negb (b =? 0))
                                         (resolve (negb (IsLocal entity)) Default)])
    by apply calls_Entity_SetTemporary.
  assert (Hv1 : live w -> live w1) by apply live_Entity_SetTemporary.
  destruct (readParent entity ds1 w1) as [[w2 ds2]|] eqn:Hp.
  - destruct (calls_readParent _ _ _ _ _ Hp) as (l2 & Hl2 & He2 & Hv2).
    destruct (ReadVLE ds2) as [[n ds3]|].
    + match goal with
      | |- context [readComponents ?k ?a ?b ?r0] =>
          destruct (calls_readComponents k a b r0) as (l3 & Hl3 & He3 & _ & Hv3)
      end.
      cbn [r_world] in Hl3, Hv3.
      eexists. rewrite Hl3, Hl2, Hw1, <- !app_assoc. split; [reflexivity|].
      unfold createdEntities in *. cbn [flat_map app]. rewrite flat_map_app, He2, He3.
      split; [reflexivity|]. tauto.
    + cbn [result_state r_world].
      eexists. rewrite Hl2, Hw1, <- !app_assoc. split; [reflexivity|].
      unfold createdEntities in *. cbn [flat_map app]. rewrite He2.
      split; [reflexivity|]. tauto.
  - cbn [result_state r_world]. eexists. rewrite Hw1. repeat split. exact Hv1.
Qed.

Lemma quiet_entityProcessed es : quiet (entityProcessed es).
Proof. repeat split. Qed.






(** ** The dispatcher over the handlers *)


(** ** Property and parent edits *)

Lemma app_one_inv {A} (l : list A) (x : A) : l = l ++ [x] -> False.
Proof.
  intros Heq. apply (f_equal (@length A)) in Heq. rewrite length_app in Heq.
  cbn in Heq. lia.
Qed.






(** ** The next turn of the entity in the generic pass *)

Lemma processAttributes_flags user c comp cs es bufs es' bufs' :
  processAttributes user c comp cs es bufs = Some (es', bufs') ->
  hasPropertyChanges es' = hasPropertyChanges es
  /\ hasParentChange es' = hasParentChange es /\ id es' = id es.
Proof.
  unfold processAttributes.
  destruct (changedAttributes _ _); [intros [= <- _]; repeat split|].
  destruct (minuscule _ _ _ _) as [t|].
  - destruct (significant t es); cbn [negb].
    + destruct (encodeEdit _ _ _); [|discriminate]. intros [= <- _]. repeat split.
    + intros [= <- _]. repeat split.
  - destruct (encodeEdit _ _ _); [|discriminate]. intros [= <- _]. repeat split.
Qed.

Lemma processComponent_flags user ent acc c acc' :
  processComponent user ent acc c = Some acc' ->
  hasPropertyChanges (fst acc') = hasPropertyChanges (fst acc)
  /\ hasParentChange (fst acc') = hasParentChange (fst acc) /\ id (fst acc') = id (fst acc).
Proof.
  unfold processComponent.
  destruct (SyncState.components (fst acc) !! c) as [cs|]; [|discriminate].
  destruct (Scene.components ent !! c) as [comp|]; [|intros [= <-]; repeat split].
  destruct (_ || _); [intros [= <-]; repeat split|].
  destruct (c_removed _); [intros [= <-]; repeat split|].
  destruct (c_isNew _); [intros [= <-]; repeat split|].
  destruct acc' as [es' bufs']. intros Hp.
  apply processAttributes_flags in Hp. exact Hp.
Qed.

Lemma processComponents_flags user ent queue : forall acc acc',
  processComponents user ent queue acc = Some acc' ->
  hasPropertyChanges (fst acc') = hasPropertyChanges (fst acc)
  /\ hasParentChange (fst acc') = hasParentChange (fst acc) /\ id (fst acc') = id (fst acc).
Proof.
  induction queue as [|c queue IH]; intros acc acc'; cbn [processComponents].
  - intros [= <-]. repeat split.
  - destruct (processComponent user ent acc c) as [acc1|] eqn:H1; [|discriminate].
    intros H2. apply IH in H2. apply processComponent_flags in H1.
    destruct H1 as (Ha & Hb & Hc), H2 as (Ha' & Hb' & Hc'). repeat split; congruence.
Qed.










(** C2, as amended.  On a server, for a SetEntityParent message: an
    entity id or parent id of the unacked range is looked up in
    [unackedIdsToRealIds] of the connection, and the handler goes on with
    the ids found; when the map has no entry for one of them, the message
    is dropped with a warning and nothing else changes.  For the parent
    id of a CreateEntity message: an id of the unacked range with an
    entry is replaced by the real id; without an entry a warning is
    logged and the handler goes on with the id as sent. *)
Theorem unacked_ids_translated :
  forall (w : World),
    isServer w = true ->
    let translated i := if IsUnacked i then unackedIdsToRealIds (source w) !! i else Some i in
    (forall data ds ds' ds'' sceneID entityID parentEntityID,
        ready w = true ->
        ReadVLE data = Some (sceneID, ds) ->
        Read_u32 ds = Some (entityID, ds') ->
        Read_u32 ds' = Some (parentEntityID, ds'') ->
        (forall e p,
            translated entityID = Some e -> translated parentEntityID = Some p ->
            HandleSetEntityParent data w = applySetEntityParent e p w)
        /\ (translated entityID = None \/ translated parentEntityID = None ->
            exists text, HandleSetEntityParent data w = Returned (do_Log LogWarning text w)))
    /\ (forall entity ds ds' parentEntityID,
           ProtocolHierarchicScene <= protocolVersion (source w) ->
           Read_u32 ds = Some (parentEntityID, ds') ->
           IsUnacked parentEntityID = true ->
           readParent entity ds w
           = Some (match unackedIdsToRealIds (source w) !! parentEntityID with
                   | Some real => linkParent entity real w
                   | None =>
                       linkParent entity parentEntityID
                         (do_Log LogWarning
                            "Client sent unknown unacked parent entity ID in CreateEntity message"
                            w)
                   end, ds')).
Proof.
  intros w Hserver translated. split.
  - intros data ds ds' ds'' sceneID entityID parentEntityID Hready Hs He Hp.
    unfold HandleSetEntityParent. rewrite Hready, Hs, He, Hp. cbn [negb].
    unfold convertUnacked. rewrite Hserver. cbn [andb].
    fold (translated entityID). fold (translated parentEntityID).
    split.
    + intros e p -> ->. reflexivity.
    + intros [-> | Hnone]; [eexists; reflexivity|].
      destruct (translated entityID); rewrite ?Hnone; eexists; reflexivity.
  - intros entity ds ds' parentEntityID Hver Hp Hun.
    unfold readParent. apply Z.leb_le in Hver. rewrite Hver, Hp, Hserver, Hun. cbn [andb].
    now destruct (_ !! parentEntityID).
Qed.

(** ** A message that cannot be read to its end *)




(** The attribute data of a component: a value that cannot be read
    makes [readComponent] throw, with the component on record for the
    removal. *)
Lemma readStaticAttributes_layout attrs : forall e c t i attrDs (w w' : World) attrDs',
  readStaticAttributes e c t i attrs attrDs w = Returned (w', attrDs') ->
  staticLayout attrs attrDs = Some attrDs'.
Proof.
  induction attrs as [|a rest IH]; intros e c t i attrDs w w' attrDs';
    cbn [readStaticAttributes staticLayout].
  - now intros [= _ <-].
  - destruct (8 <=? BitsLeft attrDs); [|now intros [= _ <-]].
    destruct a as [attr|]; [|apply IH].
    destruct (run _ attrDs) as [[v attrDs1]|]; [|discriminate]. apply IH.
Qed.

Lemma readDynamicAttributes_returned fuel e c ch attrDs (w w' : World) :
  readDynamicAttributes (S fuel) e c ch attrDs w = Returned w' ->
  (2 * 8 <? BitsLeft attrDs) = true ->
  exists index s1 typeId s2 name s3,
    Read_u8 attrDs = Some (index, s1) /\ Read_u8 s1 = Some (typeId, s2)
    /\ run ReadString s2 = Some (name, s3)
    /\ match Component_CreateAttribute e c index typeId name ch w with
       | None => True
       | Some (newAttr, w1) =>
           exists v s4,
             run (FromBinary (a_typeId newAttr)) s3 = Some (v, s4)
             /\ readDynamicAttributes fuel e c ch s4 (set_value e c index v w1) = Returned w'
       end.
Proof.
  cbn [readDynamicAttributes]. intros Hr Hleft. rewrite Hleft in Hr.
  destruct (Read_u8 attrDs) as [[index s1]|] eqn:E1; [|discriminate].
  destruct (Read_u8 s1) as [[typeId s2]|] eqn:E2; [|discriminate].
  destruct (run ReadString s2) as [[name s3]|] eqn:E3; [|discriminate].
  exists index, s1, typeId, s2, name, s3.
  split; [reflexivity|]. split; [exact E2|]. split; [exact E3|].
  destruct (Component_CreateAttribute e c index typeId name ch w) as [[newAttr w1]|];
    [|exact I].
  destruct (run _ s3) as [[v s4]|]; [|discriminate]. now exists v, s4.
Qed.

Lemma readComponent_attributes entity entityID r r' :
  readComponent entity entityID r = Returned r' ->
  forall senderCompID ds1 typeID ds2 name ds3 attrDataSize ds4 attrDs ds5 made w2 comp,
    ReadVLE (r_ds r) = Some (senderCompID, ds1) -> ReadVLE ds1 = Some (typeID, ds2) ->
    run ReadString ds2 = Some (name, ds3) -> ReadVLE ds3 = Some (attrDataSize, ds4) ->
    ReadArray attrDataSize ds4 = Some (attrDs, ds5) ->
    let w := r_world r in
    let compID := if isServer w then 0 else senderCompID in
    let w1 :=
      if negb (isServer w) && bool_decide (is_Some (component_of w entity compID))
      then Entity_RemoveComponent entity compID LocalOnly
             (do_Log LogWarning
                "Received component creation from server for component ID that already exists. Removing the old component." w)
      else w in
    Entity_CreateComponentWithId entity compID typeID name (changeOf w) w1 = Some (made, w2) ->
    let w3 := on_state (MarkComponentProcessed entityID (if isServer w2 then made else compID))
                w2 in
    component_of w3 entity made = Some comp ->
    In made (addedComponents r')
    /\ exists w4 attrDs',
         readStaticAttributes entity made (c_typeId comp) 0
           (take (NumStaticAttributes comp) (attributes comp)) attrDs w3
         = Returned (w4, attrDs')
         /\ (SupportsDynamicAttributes comp = true ->
             is_thrown (readDynamicAttributes (length attrDs') entity made (changeOf w)
                          attrDs' w4) = false).
Proof.
  intros Hr senderCompID ds1 typeID ds2 name ds3 attrDataSize ds4 attrDs ds5 made w2 comp
    H1 H2 H3 H4 H5 w compID w1 Hcreate w3 Hcomp.
  unfold readComponent in Hr. rewrite H1, H2, H3, H4, H5 in Hr.
  fold w compID w1 in Hr. rewrite Hcreate in Hr. fold w3 in Hr. rewrite Hcomp in Hr.
  destruct (readStaticAttributes _ _ _ _ _ _ _) as [[w4 attrDs']|[w4 attrDs']];
    [|discriminate].
  assert (Hadded : forall x, In made (addedComponents (set_r_world x
                      {| r_world := w3; r_ds := ds5;
                         componentIdRewrites :=
                           if isServer w2 then componentIdRewrites r ++ [(senderCompID, made)]
                           else componentIdRewrites r;
                         addedComponents := addedComponents r ++ [made] |})))
    by (intros x; cbn [set_r_world addedComponents]; apply in_or_app; right; now left).
  destruct (SupportsDynamicAttributes comp).
  - destruct (readDynamicAttributes _ _ _ _ _ _) as [w5|w5] eqn:Hdyn; [|discriminate].
    injection Hr as <-. split; [apply Hadded|]. exists w4, attrDs'. split; [reflexivity|].
    intros _. now rewrite Hdyn.
  - destruct (negb (BitsLeft attrDs' =? 0)); injection Hr as <-; (split; [apply Hadded|]);
      exists w4, attrDs'; (split; [reflexivity | discriminate]).
Qed.

(** The protocol version of the sender, which the handler reads in the
    [try] block, is the one it had. *)
Local Abbreviation version w := (protocolVersion (source w)).










(** ** Who is listened to, and who is told *)

Lemma ValidateAction_unauthenticated (w : World) :
  isServer w = true -> authenticated (source w) = false -> ValidateAction w = false.
Proof. intros Hs Ha. unfold ValidateAction. now rewrite Hs, Ha. Qed.

Lemma sameButLog_refl (w : World) : sameButLog w w.
Proof. repeat split. Qed.

Lemma sameButLog_do_Log level text (w : World) : sameButLog w (do_Log level text w).
Proof. repeat split. Qed.

(** X19.  On a server, a message from a connection that is not
    authenticated changes nothing but, possibly, the log: the scene, the
    calls made on it, the interpolations, the sender's connection and
    every other connection are as before, whether the handler returns or
    throws.  This holds for EditEntityProperties, SetEntityParent,
    EditAttributes, CreateEntity and CreateComponents. *)
Theorem unauthenticated_sender_changes_nothing :
  forall (data : BitStream) (w : World) (h : BitStream -> World -> Result World),
    isServer w = true ->
    authenticated (source w) = false ->
    In h [HandleEditEntityProperties; HandleSetEntityParent; HandleEditAttributes;
          HandleCreateEntity; HandleCreateComponents] ->
    sameButLog w (result_state (h data w)).
Proof.
  intros data w h Hserver Hauth Hin.
  pose proof (ValidateAction_unauthenticated w Hserver Hauth) as Hval.
  repeat (destruct Hin as [<-|Hin]); [| | | | |destruct Hin].
  - unfold HandleEditEntityProperties.
    destruct (negb (ready w)); [apply sameButLog_do_Log|].
    destruct (ReadVLE data) as [[sceneID ds]|]; [|apply sameButLog_refl].
    destruct (ReadVLE ds) as [[entityID ds1]|]; [|apply sameButLog_refl].
    rewrite Hval. apply sameButLog_refl.
  - unfold HandleSetEntityParent.
    destruct (negb (ready w)); [apply sameButLog_do_Log|].
    destruct (ReadVLE data) as [[sceneID ds]|]; [|apply sameButLog_refl].
    destruct (Read_u32 ds) as [[entityID ds1]|]; [|apply sameButLog_refl].
    destruct (Read_u32 ds1) as [[parentEntityID ds2]|]; [|apply sameButLog_refl].
    destruct (convertUnacked w entityID); [|apply sameButLog_do_Log].
    destruct (convertUnacked w parentEntityID); [|apply sameButLog_do_Log].
    unfold applySetEntityParent. rewrite Hval. apply sameButLog_refl.
  - unfold HandleEditAttributes, readEditAttributes.
    destruct (negb (ready w)); [apply sameButLog_do_Log|].
    destruct (ReadVLE data) as [[sceneID ds]|]; [|apply sameButLog_refl].
    destruct (ReadVLE ds) as [[entityID ds1]|]; [|apply sameButLog_refl].
    rewrite Hval. apply sameButLog_refl.
  - unfold HandleCreateEntity.
    destruct (negb (ready w)); [apply sameButLog_do_Log|].
    destruct (negb (AllowModifyEntity 0)); [apply sameButLog_refl|].
    destruct (ReadVLE data) as [[sceneID ds]|]; [|apply sameButLog_refl].
    destruct (ReadVLE ds) as [[entityID ds1]|]; [|apply sameButLog_refl].
    rewrite Hval. apply sameButLog_refl.
  - unfold HandleCreateComponents.
    destruct (negb (ready w)); [apply sameButLog_do_Log|].
    destruct (ReadVLE data) as [[sceneID ds]|]; [|apply sameButLog_do_Log].
    destruct (ReadVLE ds) as [[entityID ds1]|]; [|apply sameButLog_do_Log].
    rewrite Hval. apply sameButLog_refl.
Qed.

Local Abbreviation sameQueue c c' :=
  ((dirtyQueue <$> syncState c') = (dirtyQueue <$> syncState c)
   /\ sentMessages c' = sentMessages c
   /\ unackedIdsToRealIds c' = unackedIdsToRealIds c).

Lemma sameQueue_on_state f (w : World) :
  (forall st, dirtyQueue (f st) = dirtyQueue st) ->
  sameQueue (source w) (source (on_state f w)).
Proof.
  intros Hf. cbn. repeat split.
  destruct (syncState (source w)) as [st|]; cbn; [now rewrite Hf | reflexivity].
Qed.

Lemma sameQueue_on_entityState e f (w : World) :
  sameQueue (source w) (source (on_entityState e f w)).
Proof. apply sameQueue_on_state. reflexivity. Qed.

Lemma source_Entity_SetTemporary_LocalOnly e b (w : World) :
  source (Entity_SetTemporary e b LocalOnly w) = source w.
Proof.
  unfold Entity_SetTemporary. cbn [resolve signalled].
  destruct (_ && true); cbn [emit OnEntityPropertiesChanged is_Replicate negb orb do_Call source];
    apply source_update_entity.
Qed.

Lemma source_Entity_SetParent_LocalOnly e p (w : World) :
  source (Entity_SetParent e p LocalOnly w) = source w.
Proof.
  unfold Entity_SetParent.
  cbn [resolve signalled emit OnEntityParentChanged is_Replicate negb orb do_Call source].
  apply source_update_entity.
Qed.

Lemma source_EndAttributeInterpolation e c i (w : World) :
  source (EndAttributeInterpolation e c i w) = source w.
Proof. reflexivity. Qed.

Lemma source_EmitAttributeChanged_LocalOnly e c i (w : World) :
  source (EmitAttributeChanged e c i LocalOnly w) = source w.
Proof.
  unfold EmitAttributeChanged.
  destruct (component_of w e c) as [comp|]; [|reflexivity].
  destruct (attr_at (attributes comp) i) as [a|]; [|reflexivity].
  cbn [resolve signalled emit]. unfold OnAttributeChanged.
  cbn [is_Replicate negb orb]. now destruct (_ && _).
Qed.

Lemma sameQueue_signalAndClear e (l : list (Z * Z)) : forall w : World,
  sameQueue (source w) (source (fold_left (signalAndClear e LocalOnly) l w)).
Proof.
  induction l as [|a l IH]; intros w; [repeat split|].
  cbn [fold_left].
  destruct (IH (signalAndClear e LocalOnly w a)) as (Hq & Hs & Hu).
  rewrite Hq, Hs, Hu. unfold signalAndClear, clearDirtyBit.
  destruct (sameQueue_on_entityState e
              (fun es => set_component (fst a)
                           (set_dirtyAttributes
                              (clear_attr_dirty (dirtyAttributes (component_at es (fst a))) (snd a))
                              (component_at es (fst a))) es)
              (EmitAttributeChanged e (fst a) (snd a) LocalOnly w)) as (Hq1 & Hs1 & Hu1).
  rewrite Hq1, Hs1, Hu1. now rewrite source_EmitAttributeChanged_LocalOnly.
Qed.

(** X20.  A client that handles EditEntityProperties, SetEntityParent
    or EditAttributes from the server puts nothing into the dirty queue
    of its connection and sends nothing on it, whether the handler
    returns or throws: what the server says is not queued to be said
    back. *)
Theorem client_queues_nothing_on_receipt :
  forall (data : BitStream) (w : World) (h : BitStream -> World -> Result World),
    isServer w = false ->
    In h [HandleEditEntityProperties; HandleSetEntityParent; HandleEditAttributes] ->
    let c' := source (result_state (h data w)) in
    (dirtyQueue <$> syncState c') = (dirtyQueue <$> syncState (source w))
    /\ sentMessages c' = sentMessages (source w)
    /\ unackedIdsToRealIds c' = unackedIdsToRealIds (source w).
Proof.
  intros data w h Hclient Hin c'. subst c'.
  assert (Hch : changeOf w = LocalOnly) by (unfold changeOf; now rewrite Hclient).
  repeat (destruct Hin as [<-|Hin]); [| | |destruct Hin].
  - unfold HandleEditEntityProperties.
    destruct (negb (ready w)); [repeat split|].
    destruct (ReadVLE data) as [[sceneID ds]|]; [|repeat split].
    destruct (ReadVLE ds) as [[entityID ds1]|]; [|repeat split].
    destruct (negb (ValidateAction w)); [repeat split|].
    destruct (the_scene w !! entityID); [|repeat split].
    destruct (negb (AllowModifyEntity entityID)); [repeat split|].
    destruct (Read_u8 ds1) as [[b ds2]|]; [|repeat split].
    cbn [result_state]. rewrite Hch.
    destruct (sameQueue_on_entityState entityID (set_hasPropertyChanges false)
                (Entity_SetTemporary entityID (negb (b =? 0)) LocalOnly w)) as (Hq & Hs & Hu).
    rewrite source_Entity_SetTemporary_LocalOnly in Hq, Hs, Hu. repeat split; assumption.
  - unfold HandleSetEntityParent.
    destruct (negb (ready w)); [repeat split|].
    destruct (ReadVLE data) as [[sceneID ds]|]; [|repeat split].
    destruct (Read_u32 ds) as [[entityID ds1]|]; [|repeat split].
    destruct (Read_u32 ds1) as [[parentEntityID ds2]|]; [|repeat split].
    destruct (convertUnacked w entityID) as [e|]; [|repeat split].
    destruct (convertUnacked w parentEntityID) as [p|]; [|repeat split].
    unfold applySetEntityParent.
    destruct (negb (ValidateAction w)); [repeat split|].
    destruct (the_scene w !! e); [|repeat split].
    destruct (negb (AllowModifyEntity e)); [repeat split|].
    destruct (_ && _); [repeat split|].
    cbn [result_state]. rewrite Hch.
    destruct (sameQueue_on_entityState e (set_hasParentChange false)
                (Entity_SetParent e p LocalOnly w)) as (Hq & Hs & Hu).
    rewrite source_Entity_SetParent_LocalOnly in Hq, Hs, Hu. repeat split; assumption.
  - unfold HandleEditAttributes.
    assert (Hread : sameQueue (source w) (source (er_world (result_state (readEditAttributes data w))))).
    { unfold readEditAttributes.
      destruct (negb (ready w)); [repeat split|].
      destruct (ReadVLE data) as [[sceneID ds]|]; [|repeat split].
      destruct (ReadVLE ds) as [[entityID ds1]|]; [|repeat split].
      destruct (negb (ValidateAction w)); [repeat split|].
      destruct (the_scene w !! entityID); [|repeat split].
      destruct (negb (AllowModifyEntity entityID)); [repeat split|].
      set (found := syncState (source w) ≫= _).
      set (w1 := match found with Some es => _ | None => w end).
      set (dt := (_ * (5 / 4))%Q).
      assert (H1 : sameQueue (source w) (source w1)).
      { subst w1. destruct found; [apply sameQueue_on_state; reflexivity | repeat split]. }
      pose proof (source_editComponents (length ds1) entityID dt ds1 (w1, [])) as Hsrc.
      cbn [fst] in Hsrc.
      destruct (editComponents _ _ _ _ _) as [acc|acc]; cbn [result_state er_world];
        cbn [result_state] in Hsrc; rewrite Hsrc; exact H1. }
    destruct (readEditAttributes data w) as [r|r]; cbn [result_state] in *; [|exact Hread].
    rewrite Hch.
    destruct (sameQueue_signalAndClear (er_entity r) (er_changed r) (er_world r))
      as (Hq & Hs & Hu).
    destruct Hread as (Hq1 & Hs1 & Hu1). rewrite Hq, Hs, Hu. repeat split; assumption.
Qed.

(** ** A turn of the generic pass, run again *)

Lemma processAttributes_removed user c comp cs es bufs es' bufs' :
  processAttributes user c comp cs es bufs = Some (es', bufs') -> removed es' = removed es.
Proof.
  unfold processAttributes.
  destruct (changedAttributes _ _); [now intros [= <- _]|].
  destruct (minuscule user comp es _) as [t|].
  - destruct (significant t es); cbn [negb].
    + destruct (encodeEdit _ _ _); [|discriminate]. now intros [= <- _].
    + now intros [= <- _].
  - destruct (encodeEdit _ _ _); [|discriminate]. now intros [= <- _].
Qed.

Lemma processComponent_removed user ent acc c acc' :
  processComponent user ent acc c = Some acc' -> removed (fst acc') = removed (fst acc).
Proof.
  unfold processComponent.
  destruct (SyncState.components (fst acc) !! c) as [cs|]; [|discriminate].
  destruct (Scene.components ent !! c) as [comp|]; [|now intros [= <-]].
  destruct (_ || _); [now intros [= <-]|].
  destruct (c_removed _); [now intros [= <-]|].
  destruct (c_isNew _); [now intros [= <-]|].
  destruct acc' as [es' bufs']. intros Hp. now apply processAttributes_removed in Hp.
Qed.

Lemma processComponents_removed user ent queue : forall acc acc',
  processComponents user ent queue acc = Some acc' -> removed (fst acc') = removed (fst acc).
Proof.
  induction queue as [|c rest IH]; intros acc acc'; cbn [processComponents].
  - now intros [= <-].
  - destruct (processComponent user ent acc c) as [acc1|] eqn:H1; [|discriminate].
    intros Hrest. rewrite (IH _ _ Hrest). exact (processComponent_removed _ _ _ _ _ H1).
Qed.

Lemma componentsProcessed_keeps (l : list (Z * IComponent)) : forall es,
  let es' := fold_left (fun es p => componentProcessed (fst p) es) l es in
  id es' = id es /\ removed es' = removed es.
Proof.
  induction l as [|p l IH]; intros es; [split; reflexivity|].
  cbn [fold_left]. destruct (IH (componentProcessed (fst p) es)) as [Hi Hr].
  split; [rewrite Hi | rewrite Hr]; reflexivity.
Qed.

(** What is left of an entity state when its turn has passed and it has
    not been erased: an entity that is local or waits for its id, as it
    was, or a state that asks for nothing. *)
Lemma processEntity_leaves user sc es turn es' :
  processEntity user sc es = Some turn ->
  t_requeued turn = false -> t_state turn = Some es' ->
  id es' = id es /\ is_Some (sc !! id es)
  /\ ((IsLocal (id es) || (negb (isNew es) && IsUnacked (id es)) = true
       /\ isNew es' = isNew es)
      \/ (IsLocal (id es) = false /\ quiet es' /\ removed es' = false)).
Proof.
  unfold processEntity.
  cbn [set_flags id removed isNew SyncState.dirtyQueue hasPropertyChanges hasParentChange].
  destruct (sc !! id es) as [ent|];
    [|destruct (removed es); [intros [= <-] _ [=] | discriminate]].
  destruct (IsLocal (id es) || _) eqn:Hloc.
  { intros [= <-] _ [= <-]. split; [reflexivity|]. split; [now eexists|]. now left. }
  assert (Hl : IsLocal (id es) = false) by (now apply orb_false_iff in Hloc).
  destruct (removed es) eqn:Hrem.
  { intros [= <-]. cbn [t_requeued t_state]. destruct (isNew es); [discriminate|].
    intros _ [=]. }
  destruct (isNew es) eqn:Hnew.
  - intros [= <-] _ [= <-]. cbn [t_state].
    set (l := flat_map _ _).
    destruct (componentsProcessed_keeps l
                (set_flags true false false (hasPropertyChanges es) (hasParentChange es) es))
      as [Hi Hr].
    split; [exact Hi|]. split; [now eexists|]. right. split; [exact Hl|].
    split; [apply quiet_entityProcessed|]. exact Hr.
  - destruct (processComponents _ _ _ _) as [[es1 bufs]|] eqn:Hp; [|discriminate].
    intros [= <-] _ [= <-].
    destruct (processComponents_flags _ _ _ _ _ Hp) as (_ & _ & Hi).
    pose proof (processComponents_removed _ _ _ _ _ Hp) as Hr.
    cbn [fst set_dirtyQueue set_flags id removed] in Hi, Hr.
    split; [exact Hi|]. split; [now eexists|]. right. split; [exact Hl|].
    split; [apply quiet_entityProcessed|]. exact Hr.
Qed.

(** X21.  Nothing is sent twice: when the turn of an entity state in
    the generic pass has left the state in place and has not queued it
    again, a second turn on the state that is left sends no message. *)
Theorem turn_leaves_nothing_to_send :
  forall (user : UserConnection) (sc : gmap Z Entity) (es es' : EntitySyncState) (turn : Turn),
    processEntity user sc es = Some turn ->
    t_requeued turn = false ->
    t_state turn = Some es' ->
    exists turn',
      processEntity user sc es' = Some turn'
      /\ t_messages turn' = [] /\ t_requeued turn' = false.
Proof.
  intros user sc es es' turn Hturn Hreq Hstate.
  destruct (processEntity_leaves _ _ _ _ _ Hturn Hreq Hstate) as (Hid & [ent Hent] & Hcase).
  unfold processEntity.
  cbn [set_flags id removed isNew SyncState.dirtyQueue hasPropertyChanges hasParentChange].
  rewrite Hid, Hent.
  destruct Hcase as [[Hloc Hnew]|(Hl & (Hnew & Hprop & Hpar & Hq) & Hrem)].
  - rewrite Hnew, Hloc. eexists. repeat split.
  - destruct (IsLocal (id es) || _); [eexists; repeat split|].
    rewrite Hrem, Hnew, Hq. cbn [processComponents].
    eexists. split; [reflexivity|]. split; [|reflexivity].
    cbn [t_messages]. unfold propertyMessages, flush.
    cbn [set_dirtyQueue noBuffers removeCompsDs removeAttrsDs createCompsDs createAttrsDs
           editAttrsDs hasPropertyChanges hasParentChange set_flags app].
    now rewrite Hprop, Hpar.
Qed.

(** ** A change from one connection, marked for the others *)

Lemma peers_update_entity e f (w : World) : peers (update_entity e f w) = peers w.
Proof. unfold update_entity. now destruct (the_scene w !! e). Qed.

Lemma isServer_update_entity e f (w : World) : isServer (update_entity e f w) = isServer w.
Proof. unfold update_entity. now destruct (the_scene w !! e). Qed.

Lemma entity_at_MarkEntityDirty e prop par st :
  entity_at (MarkEntityDirty e prop par st) e
  = set_flags (isNew (entity_at st e)) (removed (entity_at st e)) true
      (hasPropertyChanges (entity_at st e) || prop) (hasParentChange (entity_at st e) || par)
      (set_id e (entity_at st e)).
Proof.
  unfold MarkEntityDirty. unfold entity_at at 1. cbn [entities].
  now rewrite lookup_insert_eq.
Qed.

Lemma MarkEntityDirty_marks e prop par st :
  hasPropertyChanges (entity_at (MarkEntityDirty e prop par st) e)
  = hasPropertyChanges (entity_at st e) || prop
  /\ hasParentChange (entity_at (MarkEntityDirty e prop par st) e)
     = hasParentChange (entity_at st e) || par
  /\ isInQueue (entity_at (MarkEntityDirty e prop par st) e) = true
  /\ (isInQueue (entity_at st e) = false -> In e (dirtyQueue (MarkEntityDirty e prop par st))).
Proof.
  rewrite entity_at_MarkEntityDirty.
  split; [reflexivity|]. split; [reflexivity|]. split; [reflexivity|].
  unfold MarkEntityDirty. cbn [dirtyQueue].
  intros ->. apply in_or_app. right. now left.
Qed.

(** X22.  A server that has applied an EditEntityProperties message
    which toggles the temporary flag of a replicated entity has made the
    call with [Replicate], and in the sync state of every other
    connection that has one the entity is marked: [hasPropertyChanges]
    and [isInQueue] are set, and the entity is in the dirty queue unless
    its state said that it was already; nothing has been sent yet. *)
Theorem property_edit_marked_for_the_peers :
  forall (data : BitStream) (w w' : World) (e : Z) (b : bool) (ch : AttributeChange)
         (ent : Entity),
    isServer w = true ->
    HandleEditEntityProperties data w = Returned w' ->
    calls w' = calls w ++ [CallSetTemporary e b ch] ->
    IsLocal e = false ->
    the_scene w !! e = Some ent ->
    temporary ent = negb b ->
    ch = Replicate
    /\ forall i c,
         peers w !! i = Some c ->
         exists c',
           peers w' !! i = Some c'
           /\ sentMessages c' = sentMessages c
           /\ match syncState c with
              | None => syncState c' = None
              | Some st =>
                  exists st',
                    syncState c' = Some st'
                    /\ hasPropertyChanges (entity_at st' e) = true
                    /\ isInQueue (entity_at st' e) = true
                    /\ (isInQueue (entity_at st e) = false -> In e (dirtyQueue st'))
              end.
Proof.
  intros data w w' e b ch ent Hserver.
  unfold HandleEditEntityProperties.
  destruct (ready w) eqn:Hready; cbn [negb];
    [|intros [= <-] Hc; now apply app_one_inv in Hc].
  destruct (ReadVLE data) as [[sceneID ds]|]; [|discriminate].
  destruct (ReadVLE ds) as [[entityID ds1]|]; [|discriminate].
  destruct (negb (ValidateAction w)); [intros [= <-] Hc; now apply app_one_inv in Hc|].
  destruct (the_scene w !! entityID) eqn:Hscene;
    [|intros [= <-] Hc; now apply app_one_inv in Hc].
  destruct (negb (AllowModifyEntity entityID));
    [intros [= <-] Hc; now apply app_one_inv in Hc|].
  destruct (Read_u8 ds1) as [[v ds2]|]; [|discriminate].
  intros [= <-] Hc.
  change (calls (on_entityState ?a ?f ?x)) with (calls x) in Hc.
  rewrite calls_Entity_SetTemporary in Hc. apply app_inv_head in Hc.
  injection Hc as -> -> <-.
  intros Hlocal Hent Htoggle.
  assert (Hch : changeOf w = Replicate) by (unfold changeOf; now rewrite Hserver).
  rewrite Hch, Hlocal. cbn [negb resolve]. split; [reflexivity|].
  intros i c Hc.
  change (peers (on_entityState ?a ?f ?x)) with (peers x).
  unfold Entity_SetTemporary. rewrite Hlocal. cbn [negb resolve signalled].
  rewrite Hent, Htoggle. rewrite andb_true_r.
  assert (Ht : negb (eqb (negb b) b) = true) by now destruct b.
  rewrite Ht. cbn [emit]. unfold OnEntityPropertiesChanged.
  rewrite Hlocal. cbn [is_Replicate negb orb]. unfold mark.
  cbn [isServer do_Call]. rewrite isServer_update_entity, Hserver.
  cbn [set_users peers do_Call]. rewrite peers_update_entity.
  rewrite list_lookup_fmap, Hc. cbn [fmap option_fmap option_map].
  eexists. split; [reflexivity|]. split; [reflexivity|].
  cbn [set_syncState syncState].
  destruct (syncState c) as [st|]; [|reflexivity].
  cbn [fmap option_fmap option_map].
  destruct (MarkEntityDirty_marks e true false st) as (Hp & _ & Hq & Hin).
  eexists. split; [reflexivity|]. rewrite Hp, orb_true_r. repeat split; assumption.
Qed.

(** ** A connection that has just been made *)

Local Abbreviation markUnlessLocal :=
  (fun st e => if IsLocal e then st else MarkEntityDirty e false false st).

Local Abbreviation marked e :=
  (set_flags true false true false false (set_id e newEntitySyncState)).

Lemma MarkEntityDirty_fresh e st :
  entities st !! e = None ->
  MarkEntityDirty e false false st
  = {| entities := <[e := marked e]> (entities st); dirtyQueue := dirtyQueue st ++ [e] |}.
Proof.
  intros Hnone. unfold MarkEntityDirty, entity_at. now rewrite Hnone.
Qed.

Lemma markUnlessLocal_fold (l : list Z) : forall st0,
  List.NoDup l ->
  (forall e, In e l -> entities st0 !! e = None) ->
  dirtyQueue (fold_left markUnlessLocal l st0)
  = dirtyQueue st0 ++ List.filter (fun e => negb (IsLocal e)) l
  /\ forall e,
       entities (fold_left markUnlessLocal l st0) !! e
       = if bool_decide (e ∈ l) && negb (IsLocal e) then Some (marked e)
         else entities st0 !! e.
Proof.
  induction l as [|a l IH]; intros st0 Hnd Hfree.
  - cbn. rewrite app_nil_r. split; [reflexivity|]. intros e.
    rewrite bool_decide_eq_false_2 by apply not_elem_of_nil. reflexivity.
  - inversion Hnd as [|? ? Hnotin Hnd']; subst. cbn [fold_left List.filter].
    assert (Hcons : forall e, e <> a -> bool_decide (e ∈ a :: l) = bool_decide (e ∈ l)).
    { intros e Hne. apply bool_decide_ext. rewrite elem_of_cons. tauto. }
    destruct (IsLocal a) eqn:Hloc; cbn [negb].
    + destruct (IH st0 Hnd') as [Hq He]; [intros e He; apply Hfree; now right|].
      split; [exact Hq|]. intros e. rewrite He.
      destruct (Z.eq_dec e a) as [->|Hne].
      * rewrite Hloc, !andb_false_r. reflexivity.
      * now rewrite Hcons.
    + rewrite (MarkEntityDirty_fresh a st0) by (apply Hfree; now left).
      destruct (IH {| entities := <[a := marked a]> (entities st0);
                      dirtyQueue := dirtyQueue st0 ++ [a] |} Hnd') as [Hq He].
      { intros e He. cbn [entities]. rewrite lookup_insert_ne by (intros ->; contradiction).
        apply Hfree. now right. }
      cbn [entities dirtyQueue] in Hq, He.
      split; [rewrite Hq, <- app_assoc; reflexivity|].
      intros e. rewrite He.
      destruct (Z.eq_dec e a) as [->|Hne].
      * rewrite (bool_decide_eq_false_2 (a ∈ l)) by (now rewrite list_elem_of_In).
        rewrite (bool_decide_eq_true_2 (a ∈ a :: l)) by apply list_elem_of_here.
        rewrite Hloc. cbn [negb andb]. apply lookup_insert_eq.
      * rewrite lookup_insert_ne by (intros E; now apply Hne).
        now rewrite Hcons.
Qed.

Lemma sorted_keys {A} (m : gmap Z A) :
  List.NoDup (merge_sort Z.le (map fst (map_to_list m)))
  /\ forall k, In k (merge_sort Z.le (map fst (map_to_list m))) <-> is_Some (m !! k).
Proof.
  assert (Hperm : merge_sort Z.le (map fst (map_to_list m)) ≡ₚ map fst (map_to_list m))
    by apply merge_sort_Permutation.
  split.
  - apply NoDup_ListNoDup. rewrite Hperm. apply NoDup_fst_map_to_list.
  - intros k. rewrite <- list_elem_of_In, Hperm, list_elem_of_fmap. split.
    + intros ([k' a] & -> & Hin). apply elem_of_map_to_list in Hin. now exists a.
    + intros [a Ha]. exists (k, a). split; [reflexivity|]. now apply elem_of_map_to_list.
Qed.

(** X23.  A connection that has just been made is given a sync state
    whose dirty queue holds every entity of the scene that is not local,
    once, and nothing else; only these have an entity state; nothing has
    been sent yet, and the first turn of each of them in the generic
    pass sends one CreateEntity message for it and does not queue it
    again. *)
Theorem new_connection_is_sent_the_scene :
  forall (sc : gmap Z Entity) (user : UserConnection),
    let user' := fst (NewUserConnected (Some sc) user) in
    snd (NewUserConnected (Some sc) user) = []
    /\ sentMessages user' = sentMessages user
    /\ exists st,
         syncState user' = Some st
         /\ List.NoDup (dirtyQueue st)
         /\ (forall e, In e (dirtyQueue st) <-> is_Some (sc !! e) /\ IsLocal e = false)
         /\ (forall e, is_Some (entities st !! e) <-> In e (dirtyQueue st))
         /\ forall e ent,
              sc !! e = Some ent -> IsLocal e = false ->
              exists es parentId comps turn,
                entities st !! e = Some es
                /\ processEntity user' sc es = Some turn
                /\ t_messages turn
                   = [MsgCreateEntity sceneId (Z.land e LAST_REPLICATED_ID)
                        (if temporary ent then 1 else 0) parentId comps]
                /\ t_requeued turn = false.
Proof.
  intros sc user user'. subst user'. cbn [NewUserConnected fst snd].
  split; [reflexivity|]. split; [reflexivity|].
  destruct (sorted_keys sc) as [Hnd Hkeys].
  destruct (markUnlessLocal_fold _ freshSceneSyncState Hnd) as [Hq He].
  { intros e _. apply lookup_empty. }
  cbn [freshSceneSyncState dirtyQueue entities app] in Hq, He.
  eexists. split; [reflexivity|]. rewrite Hq.
  assert (Hin : forall e, In e (List.filter (fun e => negb (IsLocal e))
                                  (merge_sort Z.le (map fst (map_to_list sc))))
                          <-> is_Some (sc !! e) /\ IsLocal e = false).
  { intros e. rewrite filter_In, Hkeys, negb_true_iff. reflexivity. }
  split; [now apply List.NoDup_filter|]. split; [exact Hin|]. split.
  - intros e. rewrite He, Hin, <- Hkeys, <- list_elem_of_In.
    destruct (bool_decide (e ∈ _)) eqn:Hb.
    + apply bool_decide_eq_true in Hb. destruct (IsLocal e); cbn [negb andb].
      * rewrite lookup_empty. split; [intros [? [=]] | intros [_ [=]]].
      * split; [intros _; now split | intros _; now eexists].
    + apply bool_decide_eq_false in Hb. cbn [andb]. rewrite lookup_empty.
      split; [intros [? [=]] | intros [Hc _]; contradiction].
  - intros e ent Hent Hloc.
    assert (Hk : In e (merge_sort Z.le (map fst (map_to_list sc)))) by (apply Hkeys; exists ent; exact Hent).
    eexists _, _, _, _. split.
    { apply list_elem_of_In in Hk. rewrite He, (bool_decide_eq_true_2 _ Hk), Hloc.
      reflexivity. }
    unfold processEntity.
    cbn [set_flags set_id id isNew removed hasPropertyChanges hasParentChange newEntitySyncState].
    rewrite Hent, Hloc. cbn [negb andb orb]. split; [reflexivity|]. split; reflexivity.
Qed.

(** ** What a connection is told and what is remembered of it *)

(** Whether the engine is a server, and of the sender's connection the
    ids it is remembered by and the messages sent to it. *)
Local Abbreviation tag w := (isServer w, unackedIdsToRealIds (source w), sentMessages (source w)).

Lemma tag_mark f (w : World) : tag (mark f w) = tag w.
Proof.
  unfold mark.
  destruct (isServer w) eqn:E;
    cbn [set_users set_source isServer source set_syncState unackedIdsToRealIds sentMessages];
    now rewrite E.
Qed.

Lemma tag_emit sig (w : World) : tag (emit sig w) = tag w.
Proof.
  destruct sig; cbn [emit];
    unfold OnAttributeChanged, OnComponentAdded, OnEntityCreated, OnEntityPropertiesChanged,
      OnEntityParentChanged; split_ifs; rewrite ?tag_mark; reflexivity.
Qed.

Lemma tag_OnComponentAdded e c l ch (w : World) : tag (OnComponentAdded e c l ch w) = tag w.
Proof. exact (tag_emit (ComponentAdded e c l ch) w). Qed.

Lemma tag_update_entity e f (w : World) : tag (update_entity e f w) = tag w.
Proof. unfold update_entity. now destruct (the_scene w !! e). Qed.

Lemma tag_set_value e c i v (w : World) : tag (set_value e c i v w) = tag w.
Proof. apply tag_update_entity. Qed.

Lemma tag_warnMismatch t text (w : World) : tag (warnMismatch t text w) = tag w.
Proof. unfold warnMismatch. now case_bool_decide. Qed.

Lemma tag_Entity_SetTemporary e b ch (w : World) : tag (Entity_SetTemporary e b ch w) = tag w.
Proof.
  unfold Entity_SetTemporary. destruct (_ && _); rewrite ?tag_emit;
    cbn [do_Call isServer source]; apply tag_update_entity.
Qed.

Lemma tag_Entity_SetParent e p ch (w : World) : tag (Entity_SetParent e p ch w) = tag w.
Proof.
  unfold Entity_SetParent. destruct (signalled _); rewrite ?tag_emit;
    cbn [do_Call isServer source]; apply tag_update_entity.
Qed.

Lemma tag_linkParent entity p (w : World) : tag (linkParent entity p w) = tag w.
Proof.
  unfold linkParent. destruct (negb _); [|reflexivity].
  case_bool_decide; [apply tag_Entity_SetParent | reflexivity].
Qed.

Lemma tag_readParent entity ds (w : World) w' ds' :
  readParent entity ds w = Some (w', ds') -> tag w' = tag w.
Proof.
  unfold readParent. destruct (_ <=? _); [|now intros [= <- <-]].
  destruct (Read_u32 ds) as [[p ds1]|]; [|discriminate].
  destruct (_ && _).
  - destruct (_ !! p) as [real|]; intros [= <- <-]; now rewrite tag_linkParent.
  - intros [= <- <-]. apply tag_linkParent.
Qed.

Lemma tag_Scene_CreateEntity i (w : World) entity w' :
  Scene_CreateEntity i w = Some (entity, w') -> tag w' = tag w.
Proof.
  unfold Scene_CreateEntity. cbv zeta. destruct (the_scene w !! _); [discriminate|].
  now intros [= <- <-].
Qed.

Lemma tag_Entity_RemoveComponent e c ch (w : World) : tag (Entity_RemoveComponent e c ch w) = tag w.
Proof. unfold Entity_RemoveComponent. cbn [do_Call isServer source]. apply tag_update_entity. Qed.

Lemma tag_Entity_CreateComponentWithId e compID typeID name ch (w : World) c w' :
  Entity_CreateComponentWithId e compID typeID name ch w = Some (c, w') -> tag w' = tag w.
Proof.
  unfold Entity_CreateComponentWithId.
  destruct (the_scene w !! e) as [ent|]; [|discriminate].
  destruct (newComponent typeID name) as [comp|]; [|discriminate].
  cbv zeta. destruct (Scene.components ent !! _); [discriminate|].
  intros [= <- <-]. destruct (signalled _); rewrite ?tag_emit, ?tag_OnComponentAdded;
    cbn [do_Call isServer source]; apply tag_update_entity.
Qed.

Lemma tag_Component_CreateAttribute e c i t name ch (w : World) a w' :
  Component_CreateAttribute e c i t name ch w = Some (a, w') -> tag w' = tag w.
Proof.
  unfold Component_CreateAttribute.
  destruct (component_of w e c) as [comp|]; [|discriminate].
  destruct (newAttribute t name) as [a0|]; [|discriminate].
  destruct (_ || _); [discriminate|]. intros [= <- <-].
  cbn [do_Call isServer source]. apply tag_update_entity.
Qed.

Lemma tag_readStaticAttributes attrs : forall e c t i attrDs (w : World),
  tag (fst (result_state (readStaticAttributes e c t i attrs attrDs w))) = tag w.
Proof.
  induction attrs as [|a rest IH]; intros e c t i attrDs w; cbn [readStaticAttributes];
    [reflexivity|].
  destruct (8 <=? BitsLeft attrDs); [|cbn [result_state fst]; apply tag_warnMismatch].
  destruct a as [attr|]; [|apply IH].
  destruct (run _ attrDs) as [[v attrDs']|]; [|reflexivity].
  rewrite IH. apply tag_set_value.
Qed.

Lemma tag_readDynamicAttributes fuel : forall e c ch attrDs (w : World),
  tag (result_state (readDynamicAttributes fuel e c ch attrDs w)) = tag w.
Proof.
  induction fuel as [|fuel IH]; intros e c ch attrDs w; cbn [readDynamicAttributes];
    [now destruct (_ <? _)|].
  destruct (_ <? _); [|reflexivity].
  destruct (Read_u8 attrDs) as [[index s1]|]; [|reflexivity].
  destruct (Read_u8 s1) as [[typeId s2]|]; [|reflexivity].
  destruct (run ReadString s2) as [[name s3]|]; [|reflexivity].
  destruct (Component_CreateAttribute e c index typeId name ch w) as [[newAttr w1]|] eqn:Hc;
    [|reflexivity].
  apply tag_Component_CreateAttribute in Hc.
  destruct (run _ s3) as [[v s4]|]; [|exact Hc].
  rewrite IH, tag_set_value. exact Hc.
Qed.

Lemma tag_readComponent entity entityID r :
  tag (r_world (result_state (readComponent entity entityID r))) = tag (r_world r).
Proof.
  unfold readComponent.
  destruct (ReadVLE (r_ds r)) as [[senderCompID ds1]|]; [|reflexivity].
  destruct (ReadVLE ds1) as [[typeID ds2]|]; [|reflexivity].
  destruct (run ReadString ds2) as [[name ds3]|]; [|reflexivity].
  destruct (ReadVLE ds3) as [[attrDataSize ds4]|]; [|reflexivity].
  destruct (ReadArray attrDataSize ds4) as [[attrDs ds5]|]; [|reflexivity].
  set (w1 := if negb (isServer (r_world r)) && _ then _ else r_world r).
  assert (Hw1 : tag w1 = tag (r_world r)).
  { subst w1. destruct (_ && _); [|reflexivity]. now rewrite tag_Entity_RemoveComponent. }
  destruct (Entity_CreateComponentWithId entity _ typeID name _ w1) as [[c w2]|] eqn:Hcreate;
    [|cbn [result_state r_world do_Log isServer source]; exact Hw1].
  apply tag_Entity_CreateComponentWithId in Hcreate.
  set (w3 := on_state _ w2).
  assert (Hw3 : tag w3 = tag (r_world r)) by (rewrite <- Hw1, <- Hcreate; reflexivity).
  destruct (component_of w3 entity c) as [comp|]; [|exact Hw3].
  pose proof (tag_readStaticAttributes (take (NumStaticAttributes comp) (attributes comp))
                entity c (c_typeId comp) 0 attrDs w3) as Hst.
  destruct (readStaticAttributes _ _ _ _ _ _ _) as [[w4 attrDs']|[w4 attrDs']];
    cbn [result_state fst] in Hst; cbn [result_state set_r_world r_world];
    [|now rewrite Hst].
  destruct (SupportsDynamicAttributes comp).
  - pose proof (tag_readDynamicAttributes (length attrDs') entity c (changeOf (r_world r))
                  attrDs' w4) as Hdyn.
    destruct (readDynamicAttributes _ _ _ _ _ _) as [w5|w5];
      cbn [result_state set_r_world r_world] in *; now rewrite Hdyn, Hst.
  - destruct (negb (BitsLeft attrDs' =? 0)); cbn [result_state set_r_world r_world];
      rewrite ?tag_warnMismatch; now rewrite Hst.
Qed.

Lemma tag_readComponents n : forall entity entityID r,
  tag (r_world (result_state (readComponents n entity entityID r))) = tag (r_world r).
Proof.
  induction n as [|n IH]; intros entity entityID r; cbn [readComponents]; [reflexivity|].
  pose proof (tag_readComponent entity entityID r) as H1.
  destruct (readComponent entity entityID r) as [r1|r1]; cbn [result_state] in H1.
  - now rewrite IH.
  - exact H1.
Qed.

Lemma tag_createEntityBody entity entityID ds (w : World) :
  tag (r_world (result_state (createEntityBody entity entityID ds w))) = tag w.
Proof.
  unfold createEntityBody.
  destruct (Read_u8 ds) as [[b ds1]|]; [|reflexivity].
  destruct (readParent entity ds1 _) as [[w2 ds2]|] eqn:Hp;
    [|cbn [result_state r_world]; apply tag_Entity_SetTemporary].
  apply tag_readParent in Hp. rewrite tag_Entity_SetTemporary in Hp.
  destruct (ReadVLE ds2) as [[n ds3]|]; [|exact Hp].
  now rewrite tag_readComponents.
Qed.

Lemma tag_EmitAttributeChanged e c i ch (w : World) : tag (EmitAttributeChanged e c i ch w) = tag w.
Proof.
  unfold EmitAttributeChanged.
  destruct (component_of w e c) as [comp|]; [|reflexivity].
  destruct (attr_at _ i); [|reflexivity].
  destruct (signalled _); [apply tag_emit | reflexivity].
Qed.

Lemma tag_fold {A} (f : World -> A -> World) (l : list A) :
  (forall (w : World) a, tag (f w a) = tag w) ->
  forall w : World, tag (fold_left f l w) = tag w.
Proof.
  intros Hf. induction l as [|a l IH]; intros w; [reflexivity|].
  cbn [fold_left]. now rewrite IH, Hf.
Qed.

Lemma tag_ComponentChanged e c ch (w : World) : tag (ComponentChanged e c ch w) = tag w.
Proof.
  unfold ComponentChanged. destruct (component_of w e c); [|reflexivity].
  apply tag_fold. intros. apply tag_EmitAttributeChanged.
Qed.

Lemma tag_EmitEntityCreated e ch (w : World) : tag (EmitEntityCreated e ch w) = tag w.
Proof. unfold EmitEntityCreated. destruct (signalled _); [apply tag_emit | reflexivity]. Qed.

(** X24.  When a server has handled a CreateEntity message to its end
    and has made a call on the scene, the entity it has created has the
    id that was the next free one; the sender's connection remembers
    that id under the sender's id in the unacked range, with the other
    entries as they were; and one message has been sent to the sender, a
    CreateEntityReply with the scene id and both ids. *)
Theorem created_entity_is_remembered_and_acknowledged :
  forall (data ds ds1 : BitStream) (w w' : World) (sceneID senderEntityID : Z),
    isServer w = true ->
    ReadVLE data = Some (sceneID, ds) ->
    ReadVLE ds = Some (senderEntityID, ds1) ->
    HandleCreateEntity data w = Returned w' ->
    calls w' <> calls w ->
    let entity := NextFreeId (the_scene w) in
    In (CallCreateEntity entity) (calls w')
    /\ unackedIdsToRealIds (source w')
       = <[Z.lor senderEntityID FIRST_UNACKED_ID := entity]> (unackedIdsToRealIds (source w))
    /\ exists rewrites,
         sentMessages (source w')
         = sentMessages (source w)
           ++ [MsgCreateEntityReply sceneID (Z.land senderEntityID LAST_REPLICATED_ID)
                 (Z.land entity LAST_REPLICATED_ID) rewrites].
Proof.
  intros data ds ds1 w w' sceneID senderEntityID Hserver Hd Hds.
  unfold HandleCreateEntity. rewrite Hd, Hds.
  destruct (negb (ready w)); [intros [= <-] Hc; now contradiction Hc|].
  destruct (negb (AllowModifyEntity 0)); [intros [= <-] Hc; now contradiction Hc|].
  destruct (negb (ValidateAction w)); [intros [= <-] Hc; now contradiction Hc|].
  rewrite Hserver. cbn [negb andb fst snd].
  set (w0 := set_source _ w).
  destruct (Scene_CreateEntity (NextFreeId (the_scene w)) w0) as [[entity w1]|] eqn:Hcreate;
    [|intros [= <-] Hc; now contradiction Hc].
  pose proof (calls_Scene_CreateEntity _ _ _ _ Hcreate) as Hl1.
  pose proof (tag_Scene_CreateEntity _ _ _ _ Hcreate) as Ht1.
  assert (Hentity : entity = NextFreeId (the_scene w)).
  { revert Hcreate. unfold Scene_CreateEntity. cbv zeta.
    destruct (_ =? 0); (destruct (the_scene w0 !! _); [discriminate|]);
      intros Hc; injection Hc as <- _; reflexivity. }
  assert (Hs1 : isServer w1 = true) by (injection Ht1 as -> _ _; exact Hserver).
  rewrite Hs1.
  set (w2 := on_state _ w1).
  assert (Ht2 : tag w2 = tag w0) by (rewrite <- Ht1; reflexivity).
  pose proof (tag_createEntityBody entity (NextFreeId (the_scene w)) ds1 w2) as Ht3.
  destruct (calls_createEntityBody entity (NextFreeId (the_scene w)) ds1 w2) as (l3 & Hl3 & _).
  destruct (createEntityBody _ _ _ _) as [r|r]; [|discriminate].
  cbn [result_state] in Ht3, Hl3.
  set (w4 := fold_left _ _ (EmitEntityCreated entity _ (r_world r))).
  assert (Ht4 : tag w4 = tag w0).
  { subst w4. rewrite tag_fold by (intros; apply tag_ComponentChanged).
    now rewrite tag_EmitEntityCreated, Ht3. }
  assert (Hl4 : calls w4 = calls (r_world r)).
  { subst w4. rewrite calls_fold by (intros; apply calls_ComponentChanged).
    apply calls_EmitEntityCreated. }
  assert (Hs4 : isServer w4 = true) by (injection Ht4 as -> _ _; exact Hserver).
  rewrite Hs4. intros [= <-] _. cbv zeta.
  cbn [on_state set_source set_users source calls Send set_syncState unackedIdsToRealIds
         sentMessages].
  injection Ht4 as _ Hu4 Hm4. rewrite Hu4, Hm4, Hl4, Hl3.
  split; [|split].
  - apply in_or_app. left. change (calls w2) with (calls w1). rewrite Hl1.
    apply in_or_app. right. left. now rewrite Hentity.
  - subst w0. reflexivity.
  - eexists. subst w0.
    cbn [set_source set_users source set_unackedIdsToRealIds sentMessages].
    rewrite Hentity. reflexivity.
Qed.

End ProtocolProofs.

(* ===================================================================== *)
(** ** The properties at the concrete engine *)
(* ===================================================================== *)

Section AtFlags.
Import Wire Scene SyncState EditBlock Protocol Inputs Inputs.Flags.

Lemma returned_of {A} (r : Result A) : is_thrown r = false -> r = Returned (result_state r).
Proof. destruct r; [reflexivity | discriminate]. Qed.


Lemma flags_roundtrip : codec_roundtrip.
Proof.
  intros t v rest. cbn [FromBinary ToBinary flags].
  rewrite Read_u8_Add_u8 by (destruct v; cbn; lia).
  destruct v; reflexivity.
Qed.

Lemma slots3_same : same_slots slots3 slots3.
Proof. repeat constructor. Qed.

(** C6: the block of a lamp whose first attribute alone has changed. *)
Lemma edit_block_choice_and_roundtrip_witness :
  head block1
  = Some (negb (Z.of_nat (length (changedAttributes slots3 [1])) * 8 + 8 <=? size slots3))
  /\ exists evs,
       decodeEdit true slots3 (block1 ++ []) = Returned evs
       /\ forall ev, In ev evs <-> In ev (changesOf true slots3 (changedAttributes slots3 [1])).
Proof.
  apply (edit_block_choice_and_roundtrip true slots3 slots3 [1] block1 []).
  - exact flags_roundtrip.
  - exact slots3_same.
  - vm_compute. discriminate.
  - vm_compute. reflexivity.
Defined.

(** C6 as stated fails: one changed static attribute of a component with
    three attributes.  The index list would need 16 bits, the bitmask
    needs 3, and the block starts with bit 1. *)
Lemma one_changed_attribute_bitmask :
  changedAttributes slots3 [1] = [0]
  /\ exists tail, encodeEdit slots3 [1] (changedAttributes slots3 [1]) = Some (true :: tail).
Proof. split; [reflexivity|]. eexists. vm_compute. reflexivity. Qed.


(** C2: a SetEntityParent for the entity that the client knows as
    1073741829 is handled as one for entity 1. *)
Lemma unacked_ids_translated_witness :
  HandleSetEntityParent unparent server = applySetEntityParent 1 0 server.
Proof.
  refine (proj1 (proj1 (unacked_ids_translated server eq_refl)
                   unparent (Add_u32 1073741829 ++ Add_u32 0) (Add_u32 0) [] 0 1073741829 0
                   _ _ _ _) 1 0 _ _); vm_compute; reflexivity.
Defined.

(** C2 as stated fails: a CreateEntity message whose parent id is of the
    unacked range and unknown to the server is not dropped.  The warning
    is logged, the entity is created, and the reply is sent. *)
Lemma create_with_unknown_parent_not_dropped :
  let w' := result_state (HandleCreateEntity createUnderUnknown server) in
  IsUnacked 1073741831 = true
  /\ unackedIdsToRealIds (source server) !! 1073741831 = None
  /\ is_thrown (HandleCreateEntity createUnderUnknown server) = false
  /\ In (LogWarning, "Client sent unknown unacked parent entity ID in CreateEntity message")
        (Protocol.log w')
  /\ calls w' = [CallCreateEntity 2; CallSetTemporary 2 false Replicate]
  /\ is_Some (the_scene w' !! 2)
  /\ sentMessages (source w') = [MsgCreateEntityReply 0 5 2 []].
Proof.
  intros w'. split; [reflexivity|]. split; [reflexivity|].
  split; [vm_compute; reflexivity|]. split; [vm_compute; left; reflexivity|].
  split; [vm_compute; reflexivity|]. split; [|vm_compute; reflexivity].
  apply (bool_decide_unpack _). vm_compute. exact I.
Qed.


(** With the id ranges of [UniqueIdGenerator], no id that is read as
    VLE8_16_32 is of the unacked range. *)
Lemma ReadVLE_not_unacked (s s' : BitStream) (v : Z) :
  ReadVLE s = Some (v, s') -> IsUnacked v = false.
Proof.
  intros Hr. apply ReadVLE_range in Hr. change (2 ^ 30) with 1073741824 in Hr.
  unfold IsUnacked. cbn [FIRST_UNACKED_ID api].
  apply andb_false_iff. left. apply Z.leb_gt. lia.
Qed.

(** X19: a SetEntityParent message from the connection that has not
    logged in. *)
Lemma unauthenticated_sender_changes_nothing_witness :
  sameButLog stranger (result_state (HandleSetEntityParent unparent stranger)).
Proof.
  apply (unauthenticated_sender_changes_nothing unparent stranger HandleSetEntityParent).
  - reflexivity.
  - reflexivity.
  - right. left. reflexivity.
Defined.

(** X20: the client of C1, when the server's edit of the lamp arrives. *)
Lemma client_queues_nothing_on_receipt_witness :
  let c' := source (result_state (HandleEditAttributes editLamp2 client)) in
  (Protocol.dirtyQueue <$> syncState c') = (Protocol.dirtyQueue <$> syncState (source client))
  /\ sentMessages c' = sentMessages (source client)
  /\ unackedIdsToRealIds c' = unackedIdsToRealIds (source client).
Proof.
  apply (client_queues_nothing_on_receipt editLamp2 client HandleEditAttributes).
  - reflexivity.
  - right. right. left. reflexivity.
Defined.

(** X21: the turn of entity 1 of the client, whose lamp has two dirty
    attributes. *)
Lemma turn_leaves_nothing_to_send_witness :
  exists turn es' turn',
    processEntity (source client) scene1 entity1Dirty = Some turn
    /\ t_state turn = Some es'
    /\ processEntity (source client) scene1 es' = Some turn'
    /\ t_messages turn' = [].
Proof.
  assert (Hsome : is_Some (processEntity (source client) scene1 entity1Dirty))
    by (apply (bool_decide_unpack _); vm_compute; exact I).
  destruct Hsome as [turn Hturn].
  assert (Hreq : t_requeued <$> processEntity (source client) scene1 entity1Dirty = Some false)
    by (vm_compute; reflexivity).
  assert (Hst : is_Some (processEntity (source client) scene1 entity1Dirty ≫= t_state))
    by (apply (bool_decide_unpack _); vm_compute; exact I).
  rewrite Hturn in Hreq, Hst. cbn in Hreq, Hst. injection Hreq as Hreq.
  destruct Hst as [es' Hst].
  destruct (turn_leaves_nothing_to_send (source client) scene1 entity1Dirty es' turn
              Hturn Hreq Hst) as (turn' & Hturn' & Hnone & _).
  exists turn, es', turn'. repeat split; assumption.
Defined.

(** X22: entity 1 is made temporary by the sender; the other connection
    has it marked. *)
Lemma property_edit_marked_for_the_peers_witness :
  let w' := result_state (HandleEditEntityProperties makeTemporary serverWithPeer) in
  exists c' st',
    peers w' !! 0%nat = Some c' /\ syncState c' = Some st'
    /\ hasPropertyChanges (entity_at st' 1) = true
    /\ In 1 (Protocol.dirtyQueue st').
Proof.
  intros w'.
  destruct (property_edit_marked_for_the_peers makeTemporary serverWithPeer w' 1 true Replicate
              {| temporary := false; parent := 0; Scene.components := {[ 1 := lamp "" ]} |})
    as [_ Hpeers].
  - reflexivity.
  - apply returned_of. vm_compute. reflexivity.
  - vm_compute. reflexivity.
  - vm_compute. reflexivity.
  - reflexivity.
  - reflexivity.
  - destruct (Hpeers 0%nat (connection nothingDirty ∅) eq_refl)
      as (c' & Hc' & _ & st' & Hst' & Hprop & _ & Hin).
    exists c', st'. repeat split; try assumption. apply Hin. reflexivity.
Defined.

(** X23: entity 1 of the scene, for a connection that has just been
    made. *)
Lemma new_connection_is_sent_the_scene_witness :
  exists st es parentId comps turn,
    syncState (fst (NewUserConnected (Some scene1) (connection nothingDirty ∅))) = Some st
    /\ entities st !! 1 = Some es
    /\ processEntity (fst (NewUserConnected (Some scene1) (connection nothingDirty ∅)))
         scene1 es = Some turn
    /\ t_messages turn = [MsgCreateEntity 0 1 0 parentId comps].
Proof.
  destruct (new_connection_is_sent_the_scene scene1 (connection nothingDirty ∅))
    as (_ & _ & st & Hst & _ & _ & _ & Hall).
  destruct (Hall 1 {| temporary := false; parent := 0; Scene.components := {[ 1 := lamp "" ]} |}
              eq_refl eq_refl) as (es & parentId & comps & turn & Hes & Hturn & Hmsg & _).
  exists st, es, parentId, comps, turn. repeat split; assumption.
Defined.

(** X24: the server is asked to create the entity that its client knows
    as 5. *)
Lemma created_entity_is_remembered_and_acknowledged_witness :
  let w' := result_state (HandleCreateEntity createUnderUnknown server) in
  In (CallCreateEntity (NextFreeId (the_scene server))) (calls w')
  /\ unackedIdsToRealIds (source w')
     = <[Z.lor 5 FIRST_UNACKED_ID := NextFreeId (the_scene server)]>
         (unackedIdsToRealIds (source server))
  /\ exists rewrites,
       sentMessages (source w')
       = sentMessages (source server)
         ++ [MsgCreateEntityReply 0 (Z.land 5 LAST_REPLICATED_ID)
               (Z.land (NextFreeId (the_scene server)) LAST_REPLICATED_ID) rewrites].
Proof.
  intros w'.
  refine (created_entity_is_remembered_and_acknowledged createUnderUnknown _ _ server w' 0 5
            eq_refl _ _ _ _).
  - vm_compute. reflexivity.
  - vm_compute. reflexivity.
  - apply (returned_of (HandleCreateEntity createUnderUnknown server)). vm_compute. reflexivity.
  - vm_compute. discriminate.
Defined.

End AtFlags.

(** ** The properties at a server whose client stops a body *)

Section AtMotion.
Import Wire Scene SyncState EditBlock Protocol Inputs Inputs.Motion.


End AtMotion.

(* ===================================================================== *)
(** * Further properties *)
(* ===================================================================== *)

(** ** The update periods *)


Section Periods.
Import ExtrapolationTime.

Lemma clamped_period_floor (period : Q) :
  (1 / 100 <= (if Qlt_le_dec period (1 / 100) then 1 / 100 else period))%Q.
Proof. destruct (Qlt_le_dec period (1 / 100)); [apply Qle_refl | assumption]. Qed.

Lemma updatePeriod_GetClientExtrapolationTime toFloat params m :
  updatePeriod_ (GetClientExtrapolationTime toFloat params m) = updatePeriod_ m.
Proof.
  unfold GetClientExtrapolationTime. destruct params; [reflexivity|].
  destruct (toFloat s); [|reflexivity]. now destruct (Qle_bool 0 q).
Qed.

(** X2.  After [SetUpdatePeriod] and then [SetPriorityUpdatePeriod],
    the update period is at least 1/100 s and at least the period asked
    for, and the priority update period is at least the update period
    and at least the one asked for. *)
Theorem update_periods_ordered :
  forall (toFloat : string -> option Q) (params : list string) (period priority : Q)
         (m : SyncManager),
    let m' := SetPriorityUpdatePeriod priority (SetUpdatePeriod toFloat params period m) in
    (1 / 100 <= updatePeriod_ m')%Q
    /\ (period <= updatePeriod_ m')%Q
    /\ (updatePeriod_ m' <= priorityUpdatePeriod_ m')%Q
    /\ (priority <= priorityUpdatePeriod_ m')%Q.
Proof.
  intros toFloat params period priority m m'. subst m'.
  unfold SetPriorityUpdatePeriod. cbn [updatePeriod_ priorityUpdatePeriod_].
  unfold SetUpdatePeriod. rewrite !updatePeriod_GetClientExtrapolationTime.
  cbn [updatePeriod_].
  pose proof (clamped_period_floor period) as Hp.
  set (p := if Qlt_le_dec period (1 / 100) then (1 / 100)%Q else period) in *.
  assert (Hperiod : (period <= p)%Q).
  { subst p. destruct (Qlt_le_dec period (1 / 100)); [now apply Qlt_le_weak | apply Qle_refl]. }
  repeat split; try assumption.
  - destruct (Qlt_le_dec priority p); [apply Qle_refl | assumption].
  - destruct (Qlt_le_dec priority p); [now apply Qlt_le_weak | apply Qle_refl].
Qed.

End Periods.

Section Hermite.
Import Geometry.

(** X3.  The Hermite curve starts at [pos0] and ends at [pos1], and its
    derivative is [vel0] at the start and [vel1] at the end. *)
Theorem Hermite_endpoints :
  forall pos0 vel0 pos1 vel1 : float3,
    eq3 (HermiteInterpolate pos0 vel0 pos1 vel1 0) pos0
    /\ eq3 (HermiteInterpolate pos0 vel0 pos1 vel1 1) pos1
    /\ eq3 (HermiteDerivative pos0 vel0 pos1 vel1 0) vel0
    /\ eq3 (HermiteDerivative pos0 vel0 pos1 vel1 1) vel1.
Proof.
  intros. unfold eq3, HermiteInterpolate, HermiteDerivative, add, mul. cbn [x y z].
  repeat split; ring.
Qed.

End Hermite.

(** ** The routes of an entity action *)


Section Actions.
Import EntityActions.

Lemma queueToPeers_spec (source : nat) (msg : MsgEntityAction) :
  forall (us : list UserConnection) (i : nat),
    (forall j c, us !! j = Some c -> (i + j)%nat <> source -> is_Some (syncState c)) ->
    exists us', queueToPeers source msg i us = Some us'
      /\ length us' = length us
      /\ forall j c, us !! j = Some c ->
           us' !! j = if Nat.eqb (i + j) source then Some c else push_back_action msg c.
Proof.
  induction us as [|c0 rest IH]; intros i Hst.
  - exists []. split; [reflexivity|]. split; [reflexivity|]. intros j c H. discriminate H.
  - destruct (IH (S i)) as (rest' & Hq & Hlen & Hat).
    { intros j c Hj Hne. apply (Hst (S j) c Hj). now rewrite Nat.add_succ_r. }
    cbn [queueToPeers]. rewrite Hq.
    destruct (Nat.eqb_spec i source) as [Heq|Hne].
    + exists (c0 :: rest'). split; [reflexivity|]. split; [cbn; now rewrite Hlen|].
      intros [|j] c Hj.
      * cbn in Hj. injection Hj as <-. rewrite Nat.add_0_r.
        now rewrite (proj2 (Nat.eqb_eq i source) Heq).
      * cbn in Hj. rewrite Nat.add_succ_r. cbn. now apply Hat.
    + destruct (Hst 0%nat c0 eq_refl) as [st Hs]; [now rewrite Nat.add_0_r|].
      unfold push_back_action at 1. rewrite Hs. cbn [option_map].
      eexists. split; [reflexivity|]. split; [cbn; now rewrite Hlen|].
      intros [|j] c Hj.
      * cbn in Hj. injection Hj as <-. rewrite Nat.add_0_r.
        rewrite (proj2 (Nat.eqb_neq i source) Hne). unfold push_back_action.
        now rewrite Hs.
      * cbn in Hj. rewrite Nat.add_succ_r. cbn. now apply Hat.
Qed.

Lemma queueToAuthenticated_spec (msg : MsgEntityAction) :
  forall us : list UserConnection,
    (forall j c, us !! j = Some c -> authenticated c = true -> is_Some (syncState c)) ->
    exists us', queueToAuthenticated msg us = Some us'
      /\ length us' = length us
      /\ forall j c, us !! j = Some c ->
           us' !! j = if authenticated c then push_back_action msg c else Some c.
Proof.
  induction us as [|c0 rest IH]; intros Hst.
  - exists []. split; [reflexivity|]. split; [reflexivity|]. intros j c H. discriminate H.
  - destruct IH as (rest' & Hq & Hlen & Hat).
    { intros j c Hj. apply (Hst (S j) c Hj). }
    cbn [queueToAuthenticated]. rewrite Hq.
    destruct (authenticated c0) eqn:Hauth.
    + destruct (Hst 0%nat c0 eq_refl Hauth) as [st Hs].
      unfold push_back_action at 1. rewrite Hs. cbn [option_map].
      eexists. split; [reflexivity|]. split; [cbn; now rewrite Hlen|].
      intros [|j] c Hj.
      * cbn in Hj. injection Hj as <-. unfold push_back_action. rewrite Hs, Hauth. reflexivity.
      * cbn in Hj. cbn. now apply Hat.
    + exists (c0 :: rest'). split; [reflexivity|]. split; [cbn; now rewrite Hlen|].
      intros [|j] c Hj.
      * cbn in Hj. injection Hj as <-. now rewrite Hauth.
      * cbn in Hj. cbn. now apply Hat.
Qed.

(** X5.  On a server, an action for an entity of the scene that has the
    [Peers] bit is queued once, with execution type [Local], behind what
    is queued already, on every connection but the sender's, when each of
    them has a sync state; the sender's connection is as it was.  The
    action is executed on the server when it has the [Local] or the
    [Server] bit; nothing is logged. *)
Theorem HandleEntityAction_reaches_the_other_connections :
  forall (source : nat) (msg : MsgEntityAction) (w : World) (entities : gset Z),
    isServer w = true ->
    scene w = Some entities ->
    entityId msg ∈ entities ->
    Z.land (executionType msg) Peers <> 0 ->
    (forall i c, users w !! i = Some c -> i <> source -> is_Some (syncState c)) ->
    exists w',
      HandleEntityAction source msg w = Some w'
      /\ length (users w') = length (users w)
      /\ (forall i c, users w !! i = Some c ->
            users w' !! i = if Nat.eqb i source then Some c
                            else push_back_action (with_executionType Local msg) c)
      /\ executed w'
         = (if (Z.land (executionType msg) Local =? 0) && (Z.land (executionType msg) Server =? 0)
            then executed w
            else executed w ++ [{| exec_entity := entityId msg; exec_action := name msg;
                                   exec_params := parameters msg |}])
      /\ log w' = log w
      /\ clientConnection w' = clientConnection w.
Proof.
  intros source msg w entities Hserver Hscene Hin Hpeers Hst.
  destruct (queueToPeers_spec source (with_executionType Local msg) (users w) 0 Hst)
    as (us' & Hq & Hlen & Hat).
  unfold HandleEntityAction. rewrite Hscene.
  rewrite (bool_decide_eq_true_2 _ Hin). cbn [negb].
  rewrite Hserver. cbn [andb].
  destruct (Z.eqb_spec (Z.land (executionType msg) Peers) 0) as [H0|_]; [contradiction|].
  cbn [negb]. rewrite Hq. cbn [option_map].
  eexists. split; [reflexivity|].
  split; [exact Hlen|]. split; [exact Hat|].
  split; [|split].
  - destruct (Z.land (executionType msg) Local =? 0), (Z.land (executionType msg) Server =? 0);
      reflexivity.
  - destruct (negb _ || negb _); reflexivity.
  - destruct (negb _ || negb _); reflexivity.
Qed.

(** X7.  On a server, an action triggered with the [Peers] bit is
    queued, with execution type [Local], on every authenticated
    connection, when each of them has a sync state, and on no other; it
    is executed on the server when it has the [Server] bit. *)
Theorem OnActionTriggered_reaches_the_authenticated :
  forall (entity : Z) (action : string) (params : list string) (type : Z) (w : World),
    isServer w = true ->
    Z.land type Peers <> 0 ->
    (forall i c, users w !! i = Some c -> authenticated c = true -> is_Some (syncState c)) ->
    exists w',
      OnActionTriggered entity action params type w = Some w'
      /\ length (users w') = length (users w)
      /\ (forall i c, users w !! i = Some c ->
            users w' !! i
            = if authenticated c
              then push_back_action
                     {| entityId := entity; executionType := Local; name := action;
                        parameters := params |} c
              else Some c)
      /\ executed w'
         = (if Z.land type Server =? 0 then executed w
            else executed w ++ [{| exec_entity := entity; exec_action := action;
                                   exec_params := params |}])
      /\ log w' = log w
      /\ clientConnection w' = clientConnection w.
Proof.
  intros entity action params type w Hserver Hpeers Hst.
  destruct (queueToAuthenticated_spec
              {| entityId := entity; executionType := Local; name := action; parameters := params |}
              (users w) Hst) as (us' & Hq & Hlen & Hat).
  unfold OnActionTriggered. rewrite Hserver. cbn [andb negb].
  destruct (Z.eqb_spec (Z.land type Peers) 0) as [H0|_]; [contradiction|].
  destruct (Z.land type Server =? 0); cbn [negb isServer do_Exec];
    rewrite ?Hserver; cbn [negb andb users do_Exec];
    unfold with_executionType; cbn [entityId name parameters];
    rewrite Hq; cbn [option_map isServer do_Exec]; rewrite ?Hserver; cbn [andb];
    eexists; (split; [reflexivity|]);
    repeat split; assumption.
Qed.

Lemma land_strip_local (type : Z) :
  let t := Z.land (Z.land type (Z.lnot Local)) 255 in
  Z.land t Local = 0 /\ 0 <= t < 256
  /\ Z.land t Server = Z.land type Server /\ Z.land t Peers = Z.land type Peers.
Proof.
  intros t. subst t. unfold Local, Server, Peers. repeat split.
  - rewrite <- !Z.land_assoc. change (Z.land 255 1) with 1.
    change (Z.land (Z.lnot 1) 1) with 0. apply Z.land_0_r.
  - change 255 with (Z.ones 8). rewrite Z.land_ones by lia. apply Z.mod_pos_bound. lia.
  - change 255 with (Z.ones 8). rewrite Z.land_ones by lia. apply Z.mod_pos_bound. lia.
  - rewrite <- !Z.land_assoc. change (Z.land 255 2) with 2.
    now change (Z.land (Z.lnot 1) 2) with 2.
  - rewrite <- !Z.land_assoc. change (Z.land 255 4) with 4.
    now change (Z.land (Z.lnot 1) 4) with 4.
Qed.

(** X6.  A client executes nothing and queues nothing when an action is
    triggered.  Without the [Server] and the [Peers] bit nothing is sent;
    with one of them, one message goes to the server whose execution
    type fits a byte, has the [Local] bit cleared and the [Server] and
    [Peers] bits as they were given. *)
Theorem OnActionTriggered_on_a_client :
  forall (entity : Z) (action : string) (params : list string) (type : Z) (w : World)
         (sentSoFar : list MsgEntityAction),
    isServer w = false ->
    clientConnection w = Some sentSoFar ->
    exists w',
      OnActionTriggered entity action params type w = Some w'
      /\ users w' = users w /\ executed w' = executed w /\ log w' = log w
      /\ ((Z.land type Server = 0 /\ Z.land type Peers = 0
           /\ clientConnection w' = Some sentSoFar)
          \/ ((Z.land type Server <> 0 \/ Z.land type Peers <> 0)
              /\ exists t,
                   clientConnection w'
                   = Some (sentSoFar ++ [{| entityId := entity; executionType := t;
                                            name := action; parameters := params |}])
                   /\ Z.land t Local = 0 /\ 0 <= t < 256
                   /\ Z.land t Server = Z.land type Server
                   /\ Z.land t Peers = Z.land type Peers)).
Proof.
  intros entity action params type w sentSoFar Hclient Hconn.
  unfold OnActionTriggered. rewrite Hclient. cbn [andb negb].
  rewrite Hclient, Hconn. cbn [andb negb].
  rewrite (bool_decide_eq_true_2 (is_Some (Some sentSoFar))) by (now eexists).
  rewrite andb_true_r.
  destruct (land_strip_local type) as (Hl & Hr & Hs & Hp).
  destruct (Z.eqb_spec (Z.land type Server) 0) as [Hs0|Hs0];
    destruct (Z.eqb_spec (Z.land type Peers) 0) as [Hp0|Hp0]; cbn [negb orb];
    cbn [isServer do_Send]; rewrite ?Hclient; cbn [andb];
    eexists; (split; [reflexivity|]); cbn [users executed log clientConnection do_Send];
    rewrite ?Hconn; (split; [reflexivity|]); (split; [reflexivity|]); (split; [reflexivity|]).
  1: left; repeat split; assumption.
  all: right; (split; [tauto|]); eexists; (split; [reflexivity|]); repeat split;
    try assumption; apply Hr.
Qed.

End Actions.

Lemma HandleEntityAction_reaches_the_other_connections_witness :
  exists w',
    EntityActions.HandleEntityAction 0 Inputs.hello
      (Inputs.serverWith [Inputs.loggedIn; Inputs.loggedIn]) = Some w'
    /\ EntityActions.users w' !! 0%nat = Some Inputs.loggedIn
    /\ EntityActions.users w' !! 1%nat
       = EntityActions.push_back_action
           (EntityActions.with_executionType EntityActions.Local Inputs.hello) Inputs.loggedIn.
Proof.
  destruct (HandleEntityAction_reaches_the_other_connections 0 Inputs.hello
              (Inputs.serverWith [Inputs.loggedIn; Inputs.loggedIn]) {[ 1 ]})
    as (w' & H & _ & Hat & _).
  - reflexivity.
  - reflexivity.
  - vm_compute. set_solver.
  - vm_compute. discriminate.
  - intros [|[|i]] c Hc Hne; [contradiction| |discriminate Hc].
    cbn in Hc. injection Hc as <-. now eexists.
  - exists w'. split; [exact H|]. split.
    + exact (Hat 0%nat Inputs.loggedIn eq_refl).
    + exact (Hat 1%nat Inputs.loggedIn eq_refl).
Defined.

Lemma OnActionTriggered_reaches_the_authenticated_witness :
  exists w',
    EntityActions.OnActionTriggered 1 "Hello" ["world"] EntityActions.Peers
      (Inputs.serverWith [Inputs.loggedIn; Inputs.revoked; Inputs.connecting]) = Some w'
    /\ EntityActions.users w' !! 1%nat = Some Inputs.revoked
    /\ EntityActions.users w' !! 2%nat = Some Inputs.connecting.
Proof.
  destruct (OnActionTriggered_reaches_the_authenticated 1 "Hello" ["world"] EntityActions.Peers
              (Inputs.serverWith [Inputs.loggedIn; Inputs.revoked; Inputs.connecting]))
    as (w' & H & _ & Hat & _).
  - reflexivity.
  - vm_compute. discriminate.
  - intros [|[|[|i]]] c Hc Hauth; cbn in Hc; try discriminate Hc;
      injection Hc as <-; try discriminate Hauth. now eexists.
  - exists w'. split; [exact H|]. split.
    + exact (Hat 1%nat Inputs.revoked eq_refl).
    + exact (Hat 2%nat Inputs.connecting eq_refl).
Defined.

Lemma OnActionTriggered_on_a_client_witness :
  exists w',
    EntityActions.OnActionTriggered 1 "Hello" ["world"] 7 Inputs.clientWorld = Some w'
    /\ EntityActions.executed w' = [].
Proof.
  destruct (OnActionTriggered_on_a_client 1 "Hello" ["world"] 7 Inputs.clientWorld [])
    as (w' & H & _ & He & _); [reflexivity | reflexivity |].
  exists w'. split; [exact H | exact He].
Defined.

(** ** A rigid-body message as a whole *)


Section ReceiveMessage.
Import Geometry RigidBodyReceive.

Variable Quat : Type.
Variable Quat_identity : Quat.
Variable Orientation : Transform -> Quat.
Variable SetOrientation : Quat -> Transform -> Transform.
Variable PacketIDIsNewerThan : Z -> Z -> bool.
Variable updatePeriod_ : Q.

Local Abbreviation applyRecord :=
    (applyRecord Quat Quat_identity Orientation SetOrientation PacketIDIsNewerThan updatePeriod_).
Local Abbreviation HandleRigidBodyChanges :=
    (HandleRigidBodyChanges Quat Quat_identity Orientation SetOrientation PacketIDIsNewerThan
       updatePeriod_).

Local Abbreviation restarted := (restarted Quat Orientation).

Lemma applyRecord_inv sourceIsUDP packetId r c c' :
  applyRecord sourceIsUDP packetId r c = Some c' ->
  scene Quat c' = scene Quat c
  /\ (forall k, k <> entityID Quat r ->
        entityInterpolations Quat c' !! k = entityInterpolations Quat c !! k)
  /\ (c' = c
      \/ exists i', entityInterpolations Quat c' !! entityID Quat r = Some i'
           /\ restarted packetId c (entityID Quat r) i'
           /\ (sourceIsUDP = true ->
               forall i, entityInterpolations Quat c !! entityID Quat r = Some i ->
                 PacketIDIsNewerThan (lastReceivedPacketCounter Quat i) packetId = false)).
Proof.
  unfold RigidBodyReceive.applyRecord.
  destruct (scene Quat c !! entityID Quat r) as [e|] eqn:He.
  2:{ intros [= <-]. split; [reflexivity|]. split; [reflexivity|]. now left. }
  destruct (placeable e) as [pl|] eqn:Hpl; [|discriminate].
  destruct (negb (posSendType Quat r =? 0) || _ || _ || _ || _).
  2:{ intros [= <-]. split; [reflexivity|]. split; [reflexivity|]. now left. }
  destruct (entityInterpolations Quat c !! entityID Quat r) as [interp|] eqn:Hi.
  - destruct (sourceIsUDP && _) eqn:Hstale.
    + intros [= <-]. split; [reflexivity|]. split; [reflexivity|]. now left.
    + intros [= <-]. cbn [scene entityInterpolations].
      split; [reflexivity|]. split.
      * intros k Hk. now rewrite lookup_insert_ne.
      * right. eexists. split; [apply lookup_insert_eq|]. split.
        -- unfold restarted, updateInterpolation. cbn.
           repeat split. exists e, pl. now rewrite He, Hpl.
        -- intros -> i [= <-]. exact Hstale.
  - intros [= <-]. cbn [scene entityInterpolations].
    split; [reflexivity|]. split.
    * intros k Hk. now rewrite lookup_insert_ne.
    * right. eexists. split; [apply lookup_insert_eq|]. split.
      -- unfold restarted, newInterpolation. cbn.
         repeat split. exists e, pl. now rewrite He, Hpl.
      -- intros _ i Hdis. discriminate Hdis.
Qed.

Lemma restarted_scene packetId c c' k i :
  scene Quat c' = scene Quat c -> restarted packetId c' k i -> restarted packetId c k i.
Proof. unfold restarted. intros ->. tauto. Qed.

Lemma HandleRigidBodyChanges_inv sourceIsUDP packetId records :
  forall c c',
    HandleRigidBodyChanges sourceIsUDP packetId records c = Some c' ->
    scene Quat c' = scene Quat c
    /\ (forall k, ~ In k (map (entityID Quat) records) ->
          entityInterpolations Quat c' !! k = entityInterpolations Quat c !! k)
    /\ (forall k,
          entityInterpolations Quat c' !! k = entityInterpolations Quat c !! k
          \/ exists i', entityInterpolations Quat c' !! k = Some i'
               /\ restarted packetId c k i'
               /\ (sourceIsUDP = true ->
                   forall i, entityInterpolations Quat c !! k = Some i ->
                     PacketIDIsNewerThan (lastReceivedPacketCounter Quat i) packetId = false)).
Proof.
  induction records as [|r rest IH]; intros c c'.
  - intros [= <-]. split; [reflexivity|]. split; [reflexivity|]. now left.
  - cbn [RigidBodyReceive.HandleRigidBodyChanges].
    destruct (applyRecord sourceIsUDP packetId r c) as [c1|] eqn:H1; [|discriminate].
    intros Hrest.
    destruct (applyRecord_inv _ _ _ _ _ H1) as (Hs1 & Hf1 & Hc1).
    destruct (IH _ _ Hrest) as (Hs & Hf & Hc).
    split; [congruence|]. split.
    + intros k Hk. cbn in Hk. rewrite Hf by tauto. apply Hf1. intros ->. tauto.
    + intros k. destruct (Hc k) as [Hsame|(i' & Hi' & Hre & Hold)].
      * rewrite Hsame. destruct (Z.eq_dec k (entityID Quat r)) as [->|Hne].
        -- destruct Hc1 as [->|(i' & Hi' & Hre & Hold)]; [now left|].
           right. exists i'. now rewrite Hi'.
        -- left. now apply Hf1.
      * right. exists i'. split; [exact Hi'|]. split.
        -- now apply (restarted_scene packetId c c1).
        -- intros Hudp i Hi.
           destruct (Z.eq_dec k (entityID Quat r)) as [->|Hne].
           ++ destruct Hc1 as [->|(i1 & Hi1 & Hre1 & Hold1)]; [now apply Hold|].
              now apply Hold1.
           ++ apply (Hold Hudp). now rewrite Hf1.
Qed.

(** X8.  A RigidBodyUpdate message that is handled to its end leaves
    the scene as it is; it leaves the interpolation state of every
    entity that it has no record for, and of every entity that is not in
    the scene; and it takes no interpolation state away. *)
Theorem HandleRigidBodyChanges_leaves_the_scene :
  forall (sourceIsUDP : bool) (packetId : Z) (records : list (RigidBodyRecord Quat))
         (c c' : Client Quat),
    HandleRigidBodyChanges sourceIsUDP packetId records c = Some c' ->
    scene Quat c' = scene Quat c
    /\ (forall k, ~ In k (map (entityID Quat) records) ->
          entityInterpolations Quat c' !! k = entityInterpolations Quat c !! k)
    /\ (forall k, scene Quat c !! k = None ->
          entityInterpolations Quat c' !! k = entityInterpolations Quat c !! k)
    /\ (forall k, is_Some (entityInterpolations Quat c !! k) ->
          is_Some (entityInterpolations Quat c' !! k)).
Proof.
  intros udp packetId records c c' H.
  destruct (HandleRigidBodyChanges_inv _ _ _ _ _ H) as (Hs & Hf & Hc).
  split; [exact Hs|]. split; [exact Hf|]. split.
  - intros k Hk. destruct (Hc k) as [Hsame|(i' & _ & Hre & _)]; [exact Hsame|].
    destruct Hre as (_ & _ & _ & e & pl & He & _). congruence.
  - intros k Hk. destruct (Hc k) as [Hsame|(i' & Hi' & _)]; [now rewrite Hsame|].
    now rewrite Hi'.
Qed.

(** X9.  After a RigidBodyUpdate message of packet [packetId], the
    interpolation state of an entity is the one before, or one that
    starts anew: at time 0, active, with [packetId] as its packet
    counter, and starting from the position, scale and orientation that
    the entity has.  Over UDP, a state whose packet counter is newer
    than [packetId] is left as it is, however many records the message
    has for the entity. *)
Theorem HandleRigidBodyChanges_restarts_or_keeps :
  forall (sourceIsUDP : bool) (packetId : Z) (records : list (RigidBodyRecord Quat))
         (c c' : Client Quat) (k : Z),
    HandleRigidBodyChanges sourceIsUDP packetId records c = Some c' ->
    (entityInterpolations Quat c' !! k = entityInterpolations Quat c !! k
     \/ exists i', entityInterpolations Quat c' !! k = Some i' /\ restarted packetId c k i')
    /\ (sourceIsUDP = true ->
        forall i, entityInterpolations Quat c !! k = Some i ->
          PacketIDIsNewerThan (lastReceivedPacketCounter Quat i) packetId = true ->
          entityInterpolations Quat c' !! k = Some i).
Proof.
  intros udp packetId records c c' k H.
  destruct (HandleRigidBodyChanges_inv _ _ _ _ _ H) as (_ & _ & Hc).
  destruct (Hc k) as [Hsame|(i' & Hi' & Hre & Hold)].
  - split; [now left|]. intros _ i Hi _. now rewrite Hsame.
  - split; [right; now exists i'|]. intros Hudp i Hi Hnew.
    rewrite (Hold Hudp i Hi) in Hnew. discriminate Hnew.
Qed.

End ReceiveMessage.

Lemma HandleRigidBodyChanges_leaves_the_scene_witness :
  exists c',
    RigidBodyReceive.HandleRigidBodyChanges unit tt (fun _ => tt) (fun _ t => t)
      Inputs.newerThan (1 / 20)%Q false 5 [Inputs.moveTo1] Inputs.client1 = Some c'
    /\ RigidBodyReceive.scene unit c' = RigidBodyReceive.scene unit Inputs.client1.
Proof.
  eexists. split; [reflexivity|].
  refine (proj1 (HandleRigidBodyChanges_leaves_the_scene unit tt (fun _ => tt) (fun _ t => t)
                   Inputs.newerThan (1 / 20)%Q false 5 [Inputs.moveTo1] Inputs.client1 _ _)).
  reflexivity.
Defined.

Lemma HandleRigidBodyChanges_restarts_or_keeps_witness :
  exists c',
    RigidBodyReceive.HandleRigidBodyChanges unit tt (fun _ => tt) (fun _ t => t)
      Inputs.newerThan (1 / 20)%Q true 5 [Inputs.moveTo1; Inputs.moveTo1] Inputs.client1 = Some c'
    /\ RigidBodyReceive.entityInterpolations unit c' !! 1 = Some Inputs.interp10.
Proof.
  eexists. split; [reflexivity|].
  refine (proj2 (HandleRigidBodyChanges_restarts_or_keeps unit tt (fun _ => tt) (fun _ t => t)
                   Inputs.newerThan (1 / 20)%Q true 5 [Inputs.moveTo1; Inputs.moveTo1]
                   Inputs.client1 _ 1 _) eq_refl Inputs.interp10 _ _); reflexivity.
Defined.

(** ** The frames between two messages *)


Section Frames.
Import Geometry RigidBodyReceive Interpolation.

Variable Quat : Type.
Variable Transform_ctor : Transform.
Variable SetOrientation : Quat -> Transform -> Transform.
Variable Slerp : Quat -> Quat -> Q -> Quat.
Variable Lerp : float3 -> float3 -> Q -> float3.
Variable Clamp01 : Q -> Q.
Variable updatePeriod_ : Q.
Variable maxLinExtrapTime_ : Q.
Variable noClientPhysicsHandoff_ : bool.

Local Abbreviation interpolate :=
    (interpolate Quat Transform_ctor SetOrientation Slerp Lerp Clamp01 updatePeriod_
       maxLinExtrapTime_ noClientPhysicsHandoff_).
Local Abbreviation InterpolateRigidBodies :=
    (InterpolateRigidBodies Quat Transform_ctor SetOrientation Slerp Lerp Clamp01 updatePeriod_
       maxLinExtrapTime_ noClientPhysicsHandoff_).
Local Abbreviation interpolatedPos := (interpolatedPos Quat updatePeriod_ maxLinExtrapTime_).
Local Abbreviation Frame := (Frame Quat).
Local Abbreviation sceneOf w := (scene Quat (client Quat w)).
Local Abbreviation statesOf w := (entityInterpolations Quat (client Quat w)).
Local Abbreviation flagsOf w := (clientExtrapolating Quat w).

(** What a frame holds for the entity [k]. *)
Local Abbreviation view k w := (sceneOf w !! k, statesOf w !! k, flagsOf w !! k).

Local Ltac lookups :=
    cbn [client clientExtrapolating scene entityInterpolations set_interpolation
         Interpolation.set_entity SetClientExtrapolating];
    rewrite ?lookup_insert_eq, ?lookup_delete_eq.

Local Ltac lookups_ne H :=
    cbn [client clientExtrapolating scene entityInterpolations set_interpolation
         Interpolation.set_entity SetClientExtrapolating];
    rewrite ?(lookup_insert_ne _ _ _ _ H), ?(lookup_delete_ne _ _ _ H).

Lemma interpolate_other frametime key k w :
    key <> k -> view k (interpolate frametime key w) = view k w.
Proof.
    intros Hne. unfold Interpolation.interpolate.
    destruct (entityInterpolations Quat (client Quat w) !! key) as [r|]; [|reflexivity].
    destruct (scene Quat (client Quat w) !! key ≫= _) as [[e pl]|].
    2:{ lookups_ne Hne. reflexivity. }
    destruct (negb (interpolatorActive Quat r)); [reflexivity|].
    destruct (Qle_bool maxLinExtrapTime_ _), (rigidBody e) as [b|];
      try destruct (negb noClientPhysicsHandoff_); lookups_ne Hne; reflexivity.
Qed.

Lemma interpolate_congr frametime key w1 w2 :
    view key w1 = view key w2 ->
    view key (interpolate frametime key w1) = view key (interpolate frametime key w2).
Proof.
    intros Hv. injection Hv as Hs Hi Hf.
    unfold Interpolation.interpolate. rewrite Hi, Hs.
    destruct (entityInterpolations Quat (client Quat w2) !! key) as [r|] eqn:Hr;
      [|congruence].
    destruct (scene Quat (client Quat w2) !! key ≫= _) as [[e pl]|].
    2:{ lookups. congruence. }
    destruct (negb (interpolatorActive Quat r)); [congruence|].
    destruct (Qle_bool maxLinExtrapTime_ _), (rigidBody e) as [b|];
      try destruct (negb noClientPhysicsHandoff_); lookups; congruence.
Qed.

Lemma interpolate_fold_other frametime k : forall (l : list Z) (w : Frame),
    ~ In k l ->
    view k (fold_left (fun w key => interpolate frametime key w) l w) = view k w.
Proof.
    induction l as [|a l IH]; intros w Hk; [reflexivity|].
    cbn [fold_left]. rewrite IH by (cbn in Hk; tauto).
    apply interpolate_other. cbn in Hk. tauto.
Qed.

Lemma interpolate_fold_same frametime k : forall (l : list Z) (w : Frame),
    List.NoDup l -> In k l ->
    view k (fold_left (fun w key => interpolate frametime key w) l w)
    = view k (interpolate frametime k w).
Proof.
    induction l as [|a l IH]; intros w Hnd Hk; [destruct Hk|].
    cbn [fold_left]. inversion Hnd as [|? ? Hnotin Hnd']; subst.
    destruct (Z.eq_dec a k) as [->|Hne].
    - now apply interpolate_fold_other.
    - destruct Hk as [Hk|Hk]; [contradiction|].
      rewrite (IH _ Hnd' Hk). apply interpolate_congr. now apply interpolate_other.
Qed.

(** The entities of a frame fare one by one: what the frame holds for an
    entity afterwards is what its own turn of the loop leaves. *)
Lemma InterpolateRigidBodies_view frametime k w :
    view k (InterpolateRigidBodies frametime w) = view k (interpolate frametime k w).
Proof.
    unfold Interpolation.InterpolateRigidBodies.
    set (keys := merge_sort Z.le _).
    assert (Hperm : keys ≡ₚ map fst (map_to_list (statesOf w))) by apply merge_sort_Permutation.
    destruct (statesOf w !! k) as [r|] eqn:Hr.
    - apply interpolate_fold_same.
      + apply NoDup_ListNoDup. rewrite Hperm. apply NoDup_fst_map_to_list.
      + apply list_elem_of_In. rewrite Hperm. apply list_elem_of_fmap.
        exists (k, r). split; [reflexivity|]. now apply elem_of_map_to_list.
    - rewrite interpolate_fold_other.
      + unfold Interpolation.interpolate. rewrite Hr. now rewrite Hr.
      + intros Hin. apply list_elem_of_In in Hin. rewrite Hperm in Hin.
        apply list_elem_of_fmap in Hin. destruct Hin as ([k' r] & -> & Hin).
        apply elem_of_map_to_list in Hin. cbn [fst] in Hr. congruence.
Qed.

Lemma interpolate_untracked frametime k w :
    statesOf w !! k = None -> interpolate frametime k w = w.
Proof. intros H. unfold Interpolation.interpolate. now rewrite H. Qed.

Lemma interpolate_inactive frametime k w r e pl :
    statesOf w !! k = Some r -> interpolatorActive Quat r = false ->
    sceneOf w !! k = Some e -> placeable e = Some pl ->
    interpolate frametime k w = w.
Proof.
    intros Hr Hact He Hpl. unfold Interpolation.interpolate.
    rewrite Hr, He. cbn [mbind option_bind]. rewrite Hpl.
    cbn [fmap option_fmap option_map]. now rewrite Hact.
Qed.

Lemma interpolate_gone frametime k w r :
    statesOf w !! k = Some r ->
    (sceneOf w !! k = None \/ exists e, sceneOf w !! k = Some e /\ placeable e = None) ->
    interpolate frametime k w = set_interpolation Quat k None w.
Proof.
    intros Hr Hgone. unfold Interpolation.interpolate. rewrite Hr.
    destruct Hgone as [Hnone|(e & He & Hpl)].
    - now rewrite Hnone.
    - rewrite He. cbn [mbind option_bind]. now rewrite Hpl.
Qed.

(** X15.  A frame moves only what is being interpolated: an entity
    without an interpolation state, and one whose state is not active,
    are left as they are, with their state and their
    client-extrapolation flag; a state whose entity is gone, or has no
    [EC_Placeable], is erased. *)
Theorem InterpolateRigidBodies_moves_only_the_active :
    forall (frametime : Q) (w : Frame) (k : Z),
      let w' := InterpolateRigidBodies frametime w in
      (statesOf w !! k = None -> view k w' = view k w)
      /\ (forall r e pl,
            statesOf w !! k = Some r -> interpolatorActive Quat r = false ->
            sceneOf w !! k = Some e -> placeable e = Some pl ->
            view k w' = view k w)
      /\ (forall r,
            statesOf w !! k = Some r ->
            (sceneOf w !! k = None \/ exists e, sceneOf w !! k = Some e /\ placeable e = None) ->
            statesOf w' !! k = None
            /\ sceneOf w' !! k = sceneOf w !! k /\ flagsOf w' !! k = flagsOf w !! k).
Proof.
    intros frametime w k w'. subst w'.
    pose proof (InterpolateRigidBodies_view frametime k w) as Hv.
    split; [|split].
    - intros Hnone. now rewrite Hv, interpolate_untracked.
    - intros r e pl Hr Hact He Hpl. now rewrite Hv, (interpolate_inactive _ _ _ r e pl).
    - intros r Hr Hgone. rewrite (interpolate_gone frametime k w r Hr Hgone) in Hv.
      injection Hv as Hs Hi Hf. rewrite Hs, Hi, Hf. lookups. repeat split.
Qed.

(** X16.  When a frame takes an active interpolation to
    [maxLinExtrapTime_] or beyond, the state is kept with the time
    reached and is no longer active, and any later frame leaves the
    entity, the state and the flag as that frame left them. *)
Theorem InterpolateRigidBodies_stops_after_the_window :
    forall (frametime later : Q) (w : Frame) (k : Z)
           (r : RigidBodyInterpolationState Quat) (e : Entity) (pl : EC_Placeable),
      statesOf w !! k = Some r -> interpolatorActive Quat r = true ->
      sceneOf w !! k = Some e -> placeable e = Some pl ->
      (maxLinExtrapTime_ <= interpTime Quat r + frametime / updatePeriod_)%Q ->
      let w' := InterpolateRigidBodies frametime w in
      statesOf w' !! k
      = Some (with_interpTime Quat (interpTime Quat r + frametime / updatePeriod_) false r)
      /\ view k (InterpolateRigidBodies later w') = view k w'.
Proof.
    intros frametime later w k r e pl Hr Hact He Hpl Hwin w'. subst w'.
    pose proof (InterpolateRigidBodies_view frametime k w) as Hv.
    apply Qle_bool_iff in Hwin.
    assert (Hk : statesOf (interpolate frametime k w) !! k
                 = Some (with_interpTime Quat (interpTime Quat r + frametime / updatePeriod_)
                           false r)
                 /\ exists e' pl', sceneOf (interpolate frametime k w) !! k = Some e'
                                   /\ placeable e' = Some pl').
    { unfold Interpolation.interpolate. rewrite Hr, He. cbn [mbind option_bind].
      rewrite Hpl. cbn [fmap option_fmap option_map]. rewrite Hact. cbn [negb]. rewrite Hwin.
      destruct (rigidBody e) as [b|]; try destruct (negb noClientPhysicsHandoff_);
        lookups; (split; [reflexivity|]); eexists _, _; split; reflexivity. }
    destruct Hk as [Hst (e' & pl' & He' & Hpl')].
    injection Hv as Hs Hi Hf. rewrite <- Hi in Hst. rewrite <- Hs in He'.
    split; [exact Hst|].
    rewrite InterpolateRigidBodies_view.
    now rewrite (interpolate_inactive later k _ _ e' pl' Hst eq_refl He' Hpl').
Qed.

Hypothesis SetOrientation_pos : forall q t, pos (SetOrientation q t) = pos t.

Lemma interpolate_pos frametime k w r e pl :
    statesOf w !! k = Some r -> interpolatorActive Quat r = true ->
    sceneOf w !! k = Some e -> placeable e = Some pl ->
    exists e',
      sceneOf (interpolate frametime k w) !! k = Some e'
      /\ (pos ∘ transform <$> placeable e')
         = Some (interpolatedPos (isNewtonian (rigidBody e)) r
                   (interpTime Quat r + frametime / updatePeriod_)).
Proof.
    intros Hr Hact He Hpl.
    unfold Interpolation.interpolate. rewrite Hr, He. cbn [mbind option_bind].
    rewrite Hpl. cbn [fmap option_fmap option_map]. rewrite Hact. cbn [negb].
    destruct (Qle_bool maxLinExtrapTime_ _), (rigidBody e) as [b|];
      try destruct (negb noClientPhysicsHandoff_);
      lookups; eexists; (split; [reflexivity|]); cbn; now rewrite SetOrientation_pos.
Qed.

(** X18.  From the end of the interpolation period on, an entity
    without a rigid body or with a mass of 0 or less, and any entity
    when the window is one period or less, is put at the end position
    of its interpolation state: it is not extrapolated. *)
Theorem InterpolateRigidBodies_holds_the_end_position :
    forall (frametime : Q) (w : Frame) (k : Z)
           (r : RigidBodyInterpolationState Quat) (e : Entity) (pl : EC_Placeable),
      statesOf w !! k = Some r -> interpolatorActive Quat r = true ->
      sceneOf w !! k = Some e -> placeable e = Some pl ->
      (1 <= interpTime Quat r + frametime / updatePeriod_)%Q ->
      (isNewtonian (rigidBody e) = false \/ (maxLinExtrapTime_ <= 1)%Q) ->
      exists e',
        sceneOf (InterpolateRigidBodies frametime w) !! k = Some e'
        /\ (pos ∘ transform <$> placeable e') = Some (s_pos Quat (interpEnd Quat r)).
Proof.
    intros frametime w k r e pl Hr Hact He Hpl Hone Hstill.
    pose proof (InterpolateRigidBodies_view frametime k w) as Hv.
    injection Hv as Hs _ _. cbn in Hs. rewrite Hs.
    destruct (interpolate_pos frametime k w r e pl Hr Hact He Hpl) as (e' & He' & Hpos).
    exists e'. split; [exact He'|]. rewrite Hpos. f_equal.
    unfold Interpolation.interpolatedPos. apply Qle_bool_iff in Hone. rewrite Hone. cbn [negb].
    destruct Hstill as [->|Hmax]; [reflexivity|].
    apply Qle_bool_iff in Hmax. rewrite Hmax. now rewrite andb_false_r.
Qed.

Lemma Hermite_start pos0 vel0 pos1 vel1 t :
    (t == 0)%Q -> eq3 (HermiteInterpolate pos0 vel0 pos1 vel1 t) pos0.
Proof.
    intros Ht. unfold eq3, HermiteInterpolate, add, mul. cbn [x y z].
    repeat split; rewrite Ht; ring.
Qed.

(** X17.  A record does not make an entity jump: an interpolation
    state that has just been restarted puts the entity, in a frame of
    no duration, where it is. *)
Theorem restarted_interpolation_starts_in_place :
    forall (Orientation : Transform -> Quat) (packetId : Z) (w : Frame) (k : Z)
           (r : RigidBodyInterpolationState Quat),
      statesOf w !! k = Some r ->
      restarted Quat Orientation packetId (client Quat w) k r ->
      exists e pl e' pl',
        sceneOf w !! k = Some e /\ placeable e = Some pl
        /\ sceneOf (InterpolateRigidBodies 0 w) !! k = Some e' /\ placeable e' = Some pl'
        /\ eq3 (pos (transform pl')) (pos (transform pl)).
Proof.
    intros Orientation packetId w k r Hr (Htime & Hact & _ & e & pl & He & Hpl & Hstart & _).
    pose proof (InterpolateRigidBodies_view 0 k w) as Hv.
    injection Hv as Hs _ _. cbn in Hs.
    destruct (interpolate_pos 0 k w r e pl Hr Hact He Hpl) as (e' & He' & Hpos).
    destruct (placeable e') as [pl'|] eqn:Hpl'; [|discriminate Hpos].
    exists e, pl, e', pl'. rewrite Hs. repeat (split; [assumption|]).
    injection Hpos as Hpos. unfold compose in Hpos. rewrite Hpos, <- Hstart.
    assert (Ht : (interpTime Quat r + 0 / updatePeriod_ == 0)%Q).
    { rewrite Htime. unfold Qdiv. ring. }
    unfold Interpolation.interpolatedPos.
    assert (Hlt : Qle_bool 1 (interpTime Quat r + 0 / updatePeriod_) = false).
    { destruct (Qle_bool 1 _) eqn:Hb; [|reflexivity].
      apply Qle_bool_iff in Hb. rewrite Ht in Hb. exfalso. apply (Qle_not_lt _ _ Hb). reflexivity. }
    rewrite Hlt. cbn [negb].
    destruct (isNewtonian (rigidBody e)); now apply Hermite_start.
Qed.

End Frames.

(** ** The frames at the concrete client *)

(** X15: state 7, whose entity is not in the scene, is erased. *)
Lemma InterpolateRigidBodies_moves_only_the_active_witness :
  RigidBodyReceive.entityInterpolations unit
    (Interpolation.client unit (Inputs.nextFrame (1 / 100) Inputs.frame)) !! 7 = None.
Proof.
  refine (proj1 (proj2 (proj2 (InterpolateRigidBodies_moves_only_the_active unit Inputs.origin
            (fun _ t => t) (fun _ _ _ => tt) Inputs.lerp Inputs.clamp01 (1 / 20)%Q 3%Q false
            (1 / 100)%Q Inputs.frame 7)) Inputs.interp10 _ _)).
  - reflexivity.
  - left. reflexivity.
Defined.

(** X16: a frame of one second is beyond the window of 3/20 s. *)
Lemma InterpolateRigidBodies_stops_after_the_window_witness :
  (RigidBodyReceive.interpolatorActive unit
     <$> RigidBodyReceive.entityInterpolations unit
           (Interpolation.client unit (Inputs.nextFrame 1 Inputs.frame)) !! 1) = Some false
  /\ RigidBodyReceive.scene unit
       (Interpolation.client unit (Inputs.nextFrame (1 / 100) (Inputs.nextFrame 1 Inputs.frame)))
     !! 1
     = RigidBodyReceive.scene unit (Interpolation.client unit (Inputs.nextFrame 1 Inputs.frame))
       !! 1.
Proof.
  destruct (InterpolateRigidBodies_stops_after_the_window unit Inputs.origin
              (fun _ t => t) (fun _ _ _ => tt) Inputs.lerp Inputs.clamp01 (1 / 20)%Q 3%Q false
              1%Q (1 / 100)%Q Inputs.frame 1 Inputs.moving
              {| RigidBodyReceive.placeable :=
                   Some {| RigidBodyReceive.transform := Inputs.origin |};
                 RigidBodyReceive.rigidBody := None |}
              {| RigidBodyReceive.transform := Inputs.origin |})
    as [Hstate Hlater]; try reflexivity.
  - vm_compute. discriminate.
  - split.
    + unfold Inputs.nextFrame. rewrite Hstate. reflexivity.
    + exact (f_equal (fun v => fst (fst v)) Hlater).
Defined.

(** X18: entity 1 has no rigid body; after 1/10 s it is at (1,0,0). *)
Lemma InterpolateRigidBodies_holds_the_end_position_witness :
  exists e',
    RigidBodyReceive.scene unit (Interpolation.client unit (Inputs.nextFrame (1 / 10) Inputs.frame))
    !! 1 = Some e'
    /\ (Geometry.pos ∘ RigidBodyReceive.transform <$> RigidBodyReceive.placeable e')
       = Some {| Geometry.x := 1; Geometry.y := 0; Geometry.z := 0 |}.
Proof.
  refine (InterpolateRigidBodies_holds_the_end_position unit Inputs.origin
            (fun _ t => t) (fun _ _ _ => tt) Inputs.lerp Inputs.clamp01 (1 / 20)%Q 3%Q false
            (fun _ _ => eq_refl) (1 / 10)%Q Inputs.frame 1 Inputs.moving
            {| RigidBodyReceive.placeable :=
                 Some {| RigidBodyReceive.transform := Inputs.origin |};
               RigidBodyReceive.rigidBody := None |}
            {| RigidBodyReceive.transform := Inputs.origin |} _ _ _ _ _ _); try reflexivity.
  - vm_compute. discriminate.
  - left. reflexivity.
Defined.

(** X17: entity 1 is at the origin before and after a frame of no
    duration. *)
Lemma restarted_interpolation_starts_in_place_witness :
  exists e pl e' pl',
    RigidBodyReceive.scene unit (Interpolation.client unit Inputs.frame) !! 1 = Some e
    /\ RigidBodyReceive.placeable e = Some pl
    /\ RigidBodyReceive.scene unit (Interpolation.client unit (Inputs.nextFrame 0 Inputs.frame))
       !! 1 = Some e'
    /\ RigidBodyReceive.placeable e' = Some pl'
    /\ Geometry.eq3 (Geometry.pos (RigidBodyReceive.transform pl'))
         (Geometry.pos (RigidBodyReceive.transform pl)).
Proof.
  refine (restarted_interpolation_starts_in_place unit Inputs.origin
            (fun _ t => t) (fun _ _ _ => tt) Inputs.lerp Inputs.clamp01 (1 / 20)%Q 3%Q false
            (fun _ _ => eq_refl) (fun _ => tt) 10 Inputs.frame 1 Inputs.moving _ _).
  - reflexivity.
  - repeat split. eexists _, _. repeat split; reflexivity.
Defined.

(** ** The rigid-body pass at the concrete server *)

(** X10 *)
Lemma pass_sets_no_dirty_bit_witness :
  exists sent ents',
    Inputs.Bodies.pass false [1; 2; 3] = Some (sent, ents')
    /\ RigidBodySend.ents_le Inputs.Bodies.ents ents'.
Proof.
  destruct (Inputs.Bodies.pass false [1; 2; 3]) as [[sent ents']|] eqn:E;
    [|vm_compute in E; discriminate E].
  exists sent, ents'. split; [reflexivity|].
  unfold Inputs.Bodies.pass in E.
  exact (pass_sets_no_dirty_bit _ _ _ _ _ _ _ _ _ _ _ _ _ _ E).
Defined.

(** X11: entity state 3 is not in the queue. *)
Lemma pass_leaves_the_rest_alone_witness :
  exists sent ents',
    Inputs.Bodies.pass false [1; 2] = Some (sent, ents')
    /\ ents' !! 3 = Inputs.Bodies.ents !! 3.
Proof.
  destruct (Inputs.Bodies.pass false [1; 2]) as [[sent ents']|] eqn:E;
    [|vm_compute in E; discriminate E].
  exists sent, ents'. split; [reflexivity|].
  unfold Inputs.Bodies.pass in E.
  apply (proj1 (pass_leaves_the_rest_alone _ _ _ _ _ _ _ _ _ _ _ _ _ _ E)).
  intros [H|[H|[]]]; discriminate H.
Defined.

(** X12: every entity takes 100 bits. *)
Lemma pass_messages_fit_witness :
  exists sent ents',
    Inputs.Bodies.pass false [1; 2; 3] = Some (sent, ents')
    /\ forall m, In m sent ->
         RigidBodySend.entries m <> []
         /\ RigidBodySend.BytesFilled (fun _ => 100) (RigidBodySend.entries m)
            <= RigidBodySend.maxMessageSizeBytes
         /\ RigidBodySend.inOrder m = true.
Proof.
  destruct (Inputs.Bodies.pass false [1; 2; 3]) as [[sent ents']|] eqn:E;
    [|vm_compute in E; discriminate E].
  exists sent, ents'. split; [reflexivity|].
  unfold Inputs.Bodies.pass in E. intros m Hm.
  refine (pass_messages_fit _ _ _ _ _ _ _ _ _ _ _ _ _ _ m _ E Hm).
  intros _. unfold RigidBodySend.maxRigidBodyMessageSizeBits. lia.
Defined.

(** X13 *)
Lemma pass_writes_queued_placeables_only_witness :
  exists sent ents',
    Inputs.Bodies.pass false [1; 2; 3] = Some (sent, ents')
    /\ forall m entry, In m sent -> In entry (RigidBodySend.entries m) ->
         exists key ess, In key [1; 2; 3] /\ Inputs.Bodies.ents !! key = Some ess
                         /\ RigidBodySend.entry_id entry = SyncState.id ess.
Proof.
  destruct (Inputs.Bodies.pass false [1; 2; 3]) as [[sent ents']|] eqn:E;
    [|vm_compute in E; discriminate E].
  exists sent, ents'. split; [reflexivity|].
  unfold Inputs.Bodies.pass in E. intros m entry Hm He.
  destruct (pass_writes_queued_placeables_only _ _ _ _ _ _ _ _ _ _ _ _ _ _ m entry E Hm He)
    as (key & ess & e & pl & Hk & Hess & _ & _ & Hid & _).
  exists key, ess. repeat split; assumption.
Defined.

(** X14 *)
Lemma pass_header_within_radix_witness :
  exists sent ents',
    Inputs.Bodies.pass false [1; 2; 3] = Some (sent, ents')
    /\ forall m entry, In m sent -> In entry (RigidBodySend.entries m) ->
         0 <= RigidBodySend.entry_posSendType entry < 3
         /\ 0 <= RigidBodySend.entry_rotSendType entry < 4.
Proof.
  destruct (Inputs.Bodies.pass false [1; 2; 3]) as [[sent ents']|] eqn:E;
    [|vm_compute in E; discriminate E].
  exists sent, ents'. split; [reflexivity|].
  unfold Inputs.Bodies.pass in E. intros m entry Hm He.
  destruct (pass_header_within_radix _ _ _ _ _ _ _ _ _ _ _ _ _ _ m entry E Hm He)
    as (Hp & Hr & _).
  split; assumption.
Defined.

(** ** The pace of the updates *)

Section Pace.
Import Schedule.

Lemma fmod_range (x y : Q) : (0 <= x)%Q -> (0 < y)%Q -> (0 <= fmod x y < y)%Q.
Proof.
  intros Hx Hy. unfold fmod. cbv zeta.
  assert (Hy0 : ~ (y == 0)%Q) by (intros E; rewrite E in Hy; now apply Qlt_irrefl in Hy).
  assert (Hq : (0 <= x / y)%Q).
  { unfold Qdiv. apply Qmult_le_0_compat; [exact Hx|].
    apply Qinv_le_0_compat. now apply Qlt_le_weak. }
  rewrite (proj2 (Qle_bool_iff 0 (x / y)) Hq).
  assert (Hxy : (x / y * y == x)%Q) by (field; exact Hy0).
  pose proof (Qfloor_le (x / y)) as Hlo.
  pose proof (Qlt_floor (x / y)) as Hhi.
  set (f := inject_Z (Qfloor (x / y))) in *.
  split.
  - apply (Qmult_le_compat_r _ _ y) in Hlo; [|now apply Qlt_le_weak].
    rewrite Hxy in Hlo. apply -> Qle_minus_iff in Hlo. exact Hlo.
  - apply (Qmult_lt_compat_r _ _ y Hy) in Hhi. rewrite Hxy in Hhi.
    rewrite inject_Z_plus in Hhi. fold f in Hhi.
    apply Qlt_minus_iff. apply -> Qlt_minus_iff in Hhi.
    assert (E : (y + - (x - f * y) == (f + inject_Z 1) * y + - x)%Q) by ring.
    rewrite E. exact Hhi.
Qed.

Lemma serveUser_keeps acc ic :
  updateAcc_ (fst (serveUser acc ic)) = updateAcc_ (fst acc)
  /\ updatePeriod_ (fst (serveUser acc ic)) = updatePeriod_ (fst acc)
  /\ priorityUpdatePeriod_ (fst (serveUser acc ic)) = priorityUpdatePeriod_ (fst acc)
  /\ prioritizer_ (fst (serveUser acc ic)) = prioritizer_ (fst acc).
Proof.
  unfold serveUser. destruct (hasSyncState (snd ic)); [|repeat split].
  destruct (prioritizer_ (fst acc)) eqn:Hp; cbn [fst].
  - destruct (Qle_bool _ _);
      cbn [fst snd set_prioUpdateAcc updateAcc_ updatePeriod_ priorityUpdatePeriod_
             prioritizer_]; rewrite ?Hp; repeat split.
  - rewrite Hp. repeat split.
Qed.

Lemma serveUsers_keeps l : forall acc,
  updateAcc_ (fst (fold_left serveUser l acc)) = updateAcc_ (fst acc)
  /\ updatePeriod_ (fst (fold_left serveUser l acc)) = updatePeriod_ (fst acc).
Proof.
  induction l as [|ic l IH]; intros acc; [split; reflexivity|].
  cbn [fold_left]. destruct (IH (serveUser acc ic)) as [H1 H2].
  destruct (serveUser_keeps acc ic) as (K1 & K2 & _). split; congruence.
Qed.

(** X25.  With a positive update period, an accumulator that is not
    negative and a frame time that is not negative, [Update] leaves an
    accumulator that is not negative and below the update period, and
    leaves the period alone; when the accumulated time stays below the
    period, the time is carried over whole and nothing is called but, on
    a client, the interpolation of the rigid bodies. *)
Theorem Update_keeps_the_pace :
  forall (isServer scene connection : bool) (users : list UserConnection) (frametime : Q)
         (m : SyncManager),
    (0 < updatePeriod_ m)%Q -> (0 <= updateAcc_ m)%Q -> (0 <= frametime)%Q ->
    let m' := fst (Update isServer scene connection users frametime m) in
    let steps := snd (Update isServer scene connection users frametime m) in
    (0 <= updateAcc_ m' < updatePeriod_ m)%Q
    /\ updatePeriod_ m' = updatePeriod_ m
    /\ ((updateAcc_ m + frametime < updatePeriod_ m)%Q ->
        updateAcc_ m' = (updateAcc_ m + frametime)%Q
        /\ steps = if isServer then [] else [InterpolateRigidBodies]).
Proof.
  intros isServer scene connection users frametime m Hp Ha Hf m' steps. subst m' steps.
  assert (Hsum : (0 <= updateAcc_ m + frametime)%Q).
  { rewrite <- (Qplus_0_r 0). now apply Qplus_le_compat. }
  unfold Update. cbv zeta.
  cbn [set_prioUpdateAcc set_updateAcc updateAcc_ updatePeriod_ prioUpdateAcc_
         priorityUpdatePeriod_ prioritizer_].
  destruct (Qle_bool (updatePeriod_ m) (updateAcc_ m + frametime)) eqn:Hdue; cbn [negb].
  - apply Qle_bool_iff in Hdue.
    pose proof (fmod_range _ _ Hsum Hp) as Hr.
    assert (Hnot : (updateAcc_ m + frametime < updatePeriod_ m)%Q -> False).
    { intros Hlt. exact (Qlt_not_le _ _ Hlt Hdue). }
    destruct scene; cbn [negb].
    + destruct isServer.
      * match goal with
        | |- context [fold_left serveUser ?l ?acc] =>
            destruct (serveUsers_keeps l acc) as [K1 K2]
        end.
        cbn [fst set_updateAcc updateAcc_ updatePeriod_] in K1, K2.
        rewrite K1, K2. split; [exact Hr|]. split; [reflexivity|]. intros Hlt. now destruct Hnot.
      * destruct connection.
        -- destruct (_ && _); cbn [fst snd set_prioUpdateAcc set_updateAcc updateAcc_ updatePeriod_];
             (split; [exact Hr|]); (split; [reflexivity|]); intros Hlt; now destruct Hnot.
        -- cbn [fst snd set_updateAcc updateAcc_ updatePeriod_].
           split; [exact Hr|]. split; [reflexivity|]. intros Hlt. now destruct Hnot.
    + cbn [fst snd set_updateAcc updateAcc_ updatePeriod_].
      split; [exact Hr|]. split; [reflexivity|]. intros Hlt. now destruct Hnot.
  - cbn [fst snd updateAcc_ updatePeriod_ set_prioUpdateAcc set_updateAcc].
    split; [split; [exact Hsum|]|].
    + apply Qnot_le_lt. intros Hle. apply Qle_bool_iff in Hle. rewrite Hle in Hdue.
      discriminate Hdue.
    + split; [reflexivity|]. intros _. split; [reflexivity|]. now destruct isServer.
Qed.

Lemma priorityRuns_app l l' : priorityRuns (l ++ l') = priorityRuns l ++ priorityRuns l'.
Proof. unfold priorityRuns. apply flat_map_app. Qed.

Lemma processed_app l l' : processed (l ++ l') = processed l ++ processed l'.
Proof. unfold processed. apply flat_map_app. Qed.

Lemma rigidBodyRuns_app l l' : rigidBodyRuns (l ++ l') = rigidBodyRuns l ++ rigidBodyRuns l'.
Proof. unfold rigidBodyRuns. apply flat_map_app. Qed.

(** Whether the priorities are computed for the next connection that has
    a sync state. *)
Local Abbreviation due m :=
  (prioritizer_ m && Qle_bool (priorityUpdatePeriod_ m) (prioUpdateAcc_ m)).

(** Whether the rigid bodies are replicated to a connection. *)
Local Abbreviation rigid c :=
  (isKNet c || (Protocol.ProtocolWebClientRigidBodyMessage <=? protocolVersion c)).

Lemma serveUser_steps acc ic :
  hasSyncState (snd ic) = true ->
  priorityRuns (snd (serveUser acc ic))
  = priorityRuns (snd acc) ++ (if due (fst acc) then [fst ic] else [])
  /\ processed (snd (serveUser acc ic)) = processed (snd acc) ++ [fst ic]
  /\ rigidBodyRuns (snd (serveUser acc ic))
     = rigidBodyRuns (snd acc) ++ (if rigid (snd ic) then [fst ic] else [])
  /\ prioUpdateAcc_ (fst (serveUser acc ic))
     = (if due (fst acc)
        then fmod (prioUpdateAcc_ (fst acc)) (priorityUpdatePeriod_ (fst acc))
        else prioUpdateAcc_ (fst acc)).
Proof.
  intros Hss. unfold serveUser. rewrite Hss.
  destruct (prioritizer_ (fst acc)); cbn [andb].
  - destruct (Qle_bool _ _); destruct (rigid (snd ic)); cbn [fst snd];
      rewrite ?priorityRuns_app, ?processed_app, ?rigidBodyRuns_app; cbn;
      rewrite ?app_nil_r; repeat split.
  - destruct (rigid (snd ic)); cbn [fst snd];
      rewrite ?priorityRuns_app, ?processed_app, ?rigidBodyRuns_app; cbn;
      rewrite ?app_nil_r; repeat split.
Qed.

Lemma serveUsers_steps (l : list (nat * UserConnection)) : forall acc,
  (0 < priorityUpdatePeriod_ (fst acc))%Q -> (0 <= prioUpdateAcc_ (fst acc))%Q ->
  priorityRuns (snd (fold_left serveUser l acc))
  = priorityRuns (snd acc)
    ++ (if due (fst acc)
        then match List.find (fun ic => hasSyncState (snd ic)) l with
             | Some ic => [fst ic]
             | None => []
             end
        else [])
  /\ processed (snd (fold_left serveUser l acc))
     = processed (snd acc) ++ map fst (List.filter (fun ic => hasSyncState (snd ic)) l)
  /\ rigidBodyRuns (snd (fold_left serveUser l acc))
     = rigidBodyRuns (snd acc)
       ++ map fst (List.filter (fun ic => hasSyncState (snd ic) && rigid (snd ic)) l).
Proof.
  induction l as [|ic l IH]; intros acc Hp Ha.
  - cbn. rewrite !app_nil_r. destruct (due (fst acc)); rewrite ?app_nil_r; repeat split.
  - cbn [fold_left List.filter List.find].
    destruct (hasSyncState (snd ic)) eqn:Hss; cbn [andb].
    + destruct (serveUser_steps acc ic Hss) as (Hpri & Hpro & Hrig & Hacc).
      destruct (serveUser_keeps acc ic) as (_ & _ & Kp & Kz).
      destruct (due (fst acc)) eqn:Hdue.
      * assert (Hr : (0 <= fmod (prioUpdateAcc_ (fst acc)) (priorityUpdatePeriod_ (fst acc))
                      < priorityUpdatePeriod_ (fst acc))%Q) by now apply fmod_range.
        destruct (IH (serveUser acc ic)) as (Ipri & Ipro & Irig).
        { now rewrite Kp. }
        { rewrite Hacc. apply Hr. }
        assert (Hnot : due (fst (serveUser acc ic)) = false).
        { rewrite Kp, Hacc. apply andb_false_iff. right.
          destruct (Qle_bool (priorityUpdatePeriod_ (fst acc)) (fmod _ _)) eqn:E;
            [|reflexivity].
          apply Qle_bool_iff in E. exfalso. exact (Qlt_not_le _ _ (proj2 Hr) E). }
        rewrite Hnot in Ipri. rewrite Ipri, Ipro, Irig, Hpri, Hpro, Hrig.
        rewrite app_nil_r. destruct (rigid (snd ic)); cbn [map]; rewrite <- ?app_assoc;
          repeat split.
      * destruct (IH (serveUser acc ic)) as (Ipri & Ipro & Irig).
        { now rewrite Kp. }
        { now rewrite Hacc. }
        assert (Hnot : due (fst (serveUser acc ic)) = false).
        { rewrite Kp, Kz, Hacc. exact Hdue. }
        rewrite Hnot in Ipri. rewrite Ipri, Ipro, Irig, Hpri, Hpro, Hrig.
        rewrite !app_nil_r. destruct (rigid (snd ic)); cbn [map]; rewrite <- ?app_assoc;
          repeat split.
    + assert (Hsame : serveUser acc ic = acc) by (unfold serveUser; now rewrite Hss).
      rewrite Hsame. now apply IH.
Qed.

(** X26.  When an update is due on a server that has a scene, the sync
    state of every connection that has one is processed, once and in the
    order of the connections; rigid bodies are replicated to those of
    them that are kNet connections or have the protocol version for it;
    and the priorities are computed for one connection at most, the
    first that has a sync state, and only with a prioritizer whose
    period has passed. *)
Theorem Update_serves_every_sync_state_once :
  forall (users : list UserConnection) (frametime : Q) (m : SyncManager),
    (0 < priorityUpdatePeriod_ m)%Q -> (0 <= prioUpdateAcc_ m)%Q -> (0 <= frametime)%Q ->
    (updatePeriod_ m <= updateAcc_ m + frametime)%Q ->
    let steps := snd (Update true true false users frametime m) in
    let withState := List.filter (fun ic => hasSyncState (snd ic)) (numbered users) in
    processed steps = map fst withState
    /\ rigidBodyRuns steps
       = map fst (List.filter (fun ic => isKNet (snd ic)
                                         || (Protocol.ProtocolWebClientRigidBodyMessage
                                             <=? protocolVersion (snd ic))) withState)
    /\ priorityRuns steps
       = (if prioritizer_ m
             && Qle_bool (priorityUpdatePeriod_ m) (prioUpdateAcc_ m + frametime)
          then firstn 1 (map fst withState)
          else []).
Proof.
  intros users frametime m Hp Ha Hf Hdue steps withState. subst steps withState.
  unfold Update. cbv zeta.
  cbn [set_prioUpdateAcc set_updateAcc updateAcc_ updatePeriod_ prioUpdateAcc_
         priorityUpdatePeriod_ prioritizer_ negb].
  rewrite (proj2 (Qle_bool_iff _ _) Hdue). cbn [negb].
  match goal with
  | |- context [fold_left serveUser ?l ?acc] =>
      destruct (serveUsers_steps l acc) as (Hpri & Hpro & Hrig)
  end.
  { exact Hp. }
  { cbn. rewrite <- (Qplus_0_r 0). now apply Qplus_le_compat. }
  cbn [fst snd set_prioUpdateAcc set_updateAcc updateAcc_ updatePeriod_ prioUpdateAcc_
         priorityUpdatePeriod_ prioritizer_ priorityRuns processed rigidBodyRuns flat_map app]
    in Hpri, Hpro, Hrig.
  rewrite Hpri, Hpro, Hrig. split; [reflexivity|]. split.
  - f_equal. generalize (numbered users). intros l.
    induction l as [|ic l IH]; [reflexivity|]. cbn [List.filter].
    destruct (hasSyncState (snd ic)); cbn [andb List.filter]; [|exact IH].
    destruct (_ || _); [now rewrite IH | exact IH].
  - destruct (_ && _); [|reflexivity].
    generalize (numbered users). intros l.
    induction l as [|ic l IH]; [reflexivity|]. cbn [List.filter List.find].
    destruct (hasSyncState (snd ic)); [reflexivity | exact IH].
Qed.

End Pace.

Lemma Update_keeps_the_pace_witness :
  let m' := fst (Schedule.Update true true false [Inputs.kNetUser] (7 / 100) Inputs.pacedManager) in
  (0 <= Schedule.updateAcc_ m' < 1 / 20)%Q.
Proof.
  refine (proj1 (Update_keeps_the_pace true true false [Inputs.kNetUser] (7 / 100)%Q Inputs.pacedManager
                   _ _ _)).
  - reflexivity.
  - discriminate.
  - discriminate.
Defined.

Lemma Update_serves_every_sync_state_once_witness :
  let steps := snd (Schedule.Update true true false [Inputs.pendingUser; Inputs.kNetUser; Inputs.kNetUser] 2
                      Inputs.pacedManager) in
  Schedule.processed steps = [1%nat; 2%nat]
  /\ Schedule.priorityRuns steps = [1%nat].
Proof.
  destruct (Update_serves_every_sync_state_once [Inputs.pendingUser; Inputs.kNetUser; Inputs.kNetUser] 2%Q
              Inputs.pacedManager) as (Hpro & _ & Hpri).
  - reflexivity.
  - discriminate.
  - discriminate.
  - vm_compute. discriminate.
  - split; [exact Hpro | exact Hpri].
Defined.
